(** * Timestamp audit and repair scripts of the course pipeline

    A shallow embedding of the timestamp tools under [src/tools]:
    - [fix_timestamps_enhanced.py]   (module [FixEnhanced]),
    - [fix_timestamps.py]            (module [Fix]),
    - [audit_timestamps.py]          (module [Audit]),
    - [audit_timestamps_enhanced.py] (module [AuditEnhanced]),
    together with the Python string primitives they rely on (modules [Py]
    and [Str]) and the file operations of the two [main] functions of the
    fixers (module [IO]).

    Modelling conventions.
    - A Python [str] is the [string] of its code points, one 8-bit character
      for each: the model holds the texts whose code points lie below 256
      (ASCII and Latin-1), and [String.length] is [len].  On these the
      primitives follow Python: white space, letter case and the word
      characters of [\b] are those of Unicode in that range.  Texts with a
      code point from 256 on are outside the model.
    - Python [int] is [Z]; [//] and [%] with a positive divisor are [Z.div]
      and [Z.modulo] (both round towards minus infinity).
    - The two comparisons of an overlap ratio with [0.7] are written as the
      integer comparisons they amount to; each definition says for which
      sizes.  The product of the duration by [0.25] is computed in double
      precision: it rounds the duration to 53 bits and raises
      [OverflowError] beyond the range of a double.
    - A call that may raise returns a [result]; [Raise e] stands for the
      exception propagating to the caller.
    - A timestamp dictionary is a record with its three keys present, as the
      course document's schema has them.  Every dictionary of a lesson is a
      distinct object, so in-place updates of the dictionaries of a list are
      updates of the list's elements.
    - A file holds either a course document or a report; reading and
      writing JSON are the identity on the course document.  Creating a
      directory and opening, copying or writing a file can fail: a world
      carries the faults of its file system, and a write that breaks off
      leaves a partial file.  Messages printed to the terminal are not
      modelled. *)

From Stdlib Require Import ZArith Znumtheory List Ascii String Lia Bool.
From Stdlib Require Import Sorting.Sorted Sorting.Permutation.
From stdpp Require Import base option list gmap strings.
Import ListNotations.

Open Scope Z_scope.

(** ** Exceptions as results *)

Inductive exn : Type :=
| ValueError
| TypeError
| IndexError
| OverflowError
| UnboundLocalError
| FileNotFoundError
| SameFileError
| OSError.

Inductive result (A : Type) : Type :=
| Ok (a : A)
| Raise (e : exn).

Arguments Ok {A} a.
Arguments Raise {A} e.

#[global] Instance result_ret : MRet result := fun A a => Ok a.

#[global] Instance result_bind : MBind result :=
  fun A B f m => match m with Ok a => f a | Raise e => Raise e end.

(** [mapM f l]: apply [f] to every element from left to right, stopping at
    the first exception (a Python loop or comprehension calling [f]). *)
Fixpoint mapM {A B : Type} (f : A -> result B) (l : list A) : result (list B) :=
  match l with
  | [] => Ok []
  | x :: r => y ← f x; ys ← mapM f r; mret (y :: ys)
  end.

(** The only exception [m] can end in is [e0]. *)
Definition raises_only {A : Type} (e0 : exn) (m : result A) : Prop :=
  forall e, m = Raise e -> e = e0.

(** Two calls end alike: both return, with results related by [R], or both
    raise the same exception. *)
Definition alike {A : Type} (R : A -> A -> Prop) (m m0 : result A) : Prop :=
  match m, m0 with
  | Ok a, Ok a0 => R a a0
  | Raise e, Raise e0 => e0 = e
  | _, _ => False
  end.

(** [list.sort(key=...)] on a list paired with its keys: sorted by key,
    entries with equal keys keeping their order. *)
Fixpoint insert_by_key {A : Type} (x : Z * A) (l : list (Z * A)) : list (Z * A) :=
  match l with
  | [] => [x]
  | y :: r => if fst x <=? fst y then x :: y :: r else y :: insert_by_key x r
  end.

Definition stable_sort {A : Type} (l : list (Z * A)) : list (Z * A) :=
  fold_right insert_by_key [] l.

Definition is_nil {A : Type} (l : list A) : bool :=
  match l with [] => true | _ => false end.

Definition when {A : Type} (b : bool) (x : A) : list A := if b then [x] else [].

(** The consecutive pairs [(l[i-1], l[i])] for [i] in [range(1, len(l))]. *)
Definition pairs {A : Type} (l : list A) : list (A * A) := combine l (tl l).

(** ** Python string primitives *)

Module Py.

Definition chars : Type := list ascii.

Definition code (c : ascii) : nat := nat_of_ascii c.

(** [str.isspace], also the regex class [\s]: TAB..CR, FS..US, the blank,
    NEL (133) and the no-break space (160). *)
Definition is_space (c : ascii) : bool :=
  (((9 <=? code c) && (code c <=? 13)) || ((28 <=? code c) && (code c <=? 32))
   || (code c =? 133) || (code c =? 160))%nat.

Definition is_digit (c : ascii) : bool :=
  ((48 <=? code c) && (code c <=? 57))%nat.

Definition is_upper (c : ascii) : bool :=
  ((65 <=? code c) && (code c <=? 90))%nat.

Definition is_lower (c : ascii) : bool :=
  ((97 <=? code c) && (code c <=? 122))%nat.

Definition is_alpha (c : ascii) : bool := is_upper c || is_lower c.

Definition is_alnum (c : ascii) : bool := is_alpha c || is_digit c.

(** The regex class [[A-Za-z0-9_]]. *)
Definition is_word (c : ascii) : bool := is_alnum c || Ascii.eqb c "_".

(** The regex class [\w], which decides the word boundaries [\b]: the
    class above and, from Latin-1, the letters (192..255 without the
    multiplication sign 215 and the division sign 247, the ordinals 170 and
    186, the micro sign 181) and the numerals (superscripts 178, 179, 185,
    fractions 188..190). *)
Definition is_uword (c : ascii) : bool :=
  (is_word c
   || ((192 <=? code c) && negb (code c =? 215) && negb (code c =? 247))
   || (code c =? 170) || (code c =? 186) || (code c =? 181)
   || (code c =? 178) || (code c =? 179) || (code c =? 185)
   || ((188 <=? code c) && (code c <=? 190)))%nat.

(** The upper-case letters of Latin-1: 192..222 without the multiplication
    sign 215. *)
Definition is_upper_latin (c : ascii) : bool :=
  ((192 <=? code c) && (code c <=? 222) && negb (code c =? 215))%nat.

Definition lower_char (c : ascii) : ascii :=
  if is_upper c || is_upper_latin c then ascii_of_nat (code c + 32) else c.

Definition upper_char (c : ascii) : ascii :=
  if is_lower c then ascii_of_nat (code c - 32) else c.

(** [s.lower()] *)
Definition lower_chars (l : chars) : chars := map lower_char l.

Fixpoint lstrip (l : chars) : chars :=
  match l with
  | c :: r => if is_space c then lstrip r else l
  | [] => []
  end.

Definition rstrip (l : chars) : chars := rev (lstrip (rev l)).

(** [s.strip()] *)
Definition strip (l : chars) : chars := rstrip (lstrip l).

(** The white space that [int()] skips around its digits: the C [isspace]
    characters (without FS..US), and the two spaces outside ASCII, which
    [int()] turns into blanks before it reads the text. *)
Definition is_c_space (c : ascii) : bool :=
  (((9 <=? code c) && (code c <=? 13)) || (code c =? 32)
   || (code c =? 133) || (code c =? 160))%nat.

Fixpoint int_lstrip (l : chars) : chars :=
  match l with
  | c :: r => if is_c_space c then int_lstrip r else l
  | [] => []
  end.

Definition int_strip (l : chars) : chars := rev (int_lstrip (rev (int_lstrip l))).

(** [s.split(sep)] for a one-character separator: one more part than
    there are separators, empty parts included. *)
Fixpoint split_on (sep : ascii) (l : chars) : list chars :=
  match l with
  | [] => [[]]
  | c :: r =>
      if Ascii.eqb c sep then [] :: split_on sep r
      else match split_on sep r with
           | p :: ps => (c :: p) :: ps
           | [] => [[c]]
           end
  end.

(** [s.split()]: the maximal runs of non-space characters. *)
Fixpoint split_ws_go (cur : option chars) (l : chars) : list chars :=
  match l with
  | [] => match cur with Some w => [rev w] | None => [] end
  | c :: r =>
      if is_space c
      then match cur with
           | Some w => rev w :: split_ws_go None r
           | None => split_ws_go None r
           end
      else split_ws_go (Some (c :: match cur with Some w => w | None => [] end)) r
  end.

Definition split_ws (l : chars) : list chars := split_ws_go None l.

Fixpoint is_prefix (p l : chars) : bool :=
  match p, l with
  | [], _ => true
  | _ :: _, [] => false
  | a :: p', b :: l' => Ascii.eqb a b && is_prefix p' l'
  end.

(** [p in s] for strings. *)
Fixpoint contains (p l : chars) : bool :=
  is_prefix p l ||
  match l with
  | [] => false
  | _ :: r => contains p r
  end.

(** [s.split(sep)] for a separator of several characters: scan from the
    left; at a match of [sep] close the current part and drop the separator
    ([skip] counts its characters still to drop). *)
Fixpoint split_str_go (sep : chars) (skip : nat) (cur : chars) (l : chars)
  : list chars :=
  match l with
  | [] => [rev cur]
  | c :: r =>
      match skip with
      | S k => split_str_go sep k cur r
      | O =>
          if is_prefix sep l
          then rev cur :: split_str_go sep (length sep - 1) [] r
          else split_str_go sep 0 (c :: cur) r
      end
  end.

Definition split_str (sep l : chars) : list chars := split_str_go sep 0 [] l.

(** [s.title()] for a text whose letters are ASCII, as the words matched by
    [[a-zA-Z0-9]+] are (its one use): a letter is upper case after a
    character that is not a letter, lower case after a letter. *)
Fixpoint title_go (prev_cased : bool) (l : chars) : chars :=
  match l with
  | [] => []
  | c :: r =>
      (if is_alpha c then (if prev_cased then lower_char c else upper_char c) else c)
      :: title_go (is_alpha c) r
  end.

Definition title_chars (l : chars) : chars := title_go false l.

(** *** Integers and their decimal text *)

Definition digit_char (d : Z) : ascii := ascii_of_nat (48 + Z.to_nat d).

Definition digit_val (c : ascii) : Z := Z.of_nat (code c) - 48.

Fixpoint digits_go (fuel : nat) (n : Z) (acc : chars) : chars :=
  match fuel with
  | O => acc
  | S f =>
      let acc' := digit_char (n mod 10) :: acc in
      if n / 10 =? 0 then acc' else digits_go f (n / 10) acc'
  end.

(** Decimal digits of a non-negative integer, most significant first.
    A number below [2 ^ k] has at most [k] digits (at least one). *)
Definition digits (n : Z) : chars :=
  digits_go (S (Z.to_nat (Z.log2 n))) n [].

(** [str(z)], also the format [{z}]. *)
Definition str_of_int (z : Z) : chars :=
  if z <? 0 then "-"%char :: digits (- z) else digits z.

(** The format [{z:02d}]: zero padding to width two, the sign counted. *)
Definition fmt_02d (z : Z) : chars :=
  if (0 <=? z) && (z <? 10) then "0"%char :: str_of_int z else str_of_int z.

(** One step of reading a decimal number from the left. *)
Definition digit_step (a : Z) (c : ascii) : Z :=
  if is_digit c then 10 * a + digit_val c else a.

(** The digits part accepted by [int()]: digits, with single underscores
    allowed between two digits. *)
Fixpoint digits_ok (prev_digit : bool) (l : chars) : bool :=
  match l with
  | [] => prev_digit
  | c :: r =>
      if is_digit c then digits_ok true r
      else if Ascii.eqb c "_" then prev_digit && digits_ok false r
      else false
  end.

Definition digits_value (l : chars) : Z :=
  fold_left digit_step l 0.

(** [int(s)] for a string: surrounding white space, an optional sign,
    decimal digits; [ValueError] otherwise. *)
Definition int_of (l : chars) : result Z :=
  let t := int_strip l in
  let '(neg, body) :=
    match t with
    | c :: r =>
        if Ascii.eqb c "-" then (true, r)
        else if Ascii.eqb c "+" then (false, r)
        else (false, t)
    | [] => (false, t)
    end in
  if digits_ok false body
  then Ok (if neg then - digits_value body else digits_value body)
  else Raise ValueError.

(** *** Integers as floating-point numbers *)

(** The double nearest to an integer, ties to the even significand: an
    integer of more than 53 bits loses the bits below the 53 leading ones.
    The result is written as the integer it is equal to. *)
Definition round53 (z : Z) : Z :=
  let a := Z.abs z in
  if a <? 2 ^ 53 then z
  else
    let e := Z.log2 a - 52 in
    let q := Z.shiftr a e in
    let r := a - Z.shiftl q e in
    let half := 2 ^ (e - 1) in
    let q' := if (half <? r) || ((r =? half) && Z.odd q) then q + 1 else q in
    Z.sgn z * Z.shiftl q' e.

(** The conversion of an [int] to [float] that [int * float] begins with:
    [OverflowError] when the nearest double would lie beyond the largest
    one. *)
Definition float_of_int (z : Z) : result Z :=
  let r := round53 z in
  if Z.abs r <? 2 ^ 1024 then Ok r else Raise OverflowError.

(** The least integer without a double: half-way between the largest
    double and [2 ^ 1024]. *)
Definition FLOAT_INT_LIMIT : Z := 2 ^ 1024 - 2 ^ 970.

(** *** The regular expressions of the scripts *)

(** [[^)]+\)] at the head of [l]: the text after the match. *)
Fixpoint close_paren (seen : bool) (l : chars) : option chars :=
  match l with
  | [] => None
  | c :: r =>
      if Ascii.eqb c ")" then (if seen then Some r else None)
      else close_paren true r
  end.

(** [\s*\([^)]+\)] at the head of [l].  The greedy [\s*] can only stop at
    the end of the run of spaces, since the next symbol is a parenthesis. *)
Definition match_paren_note (l : chars) : option chars :=
  match lstrip l with
  | c :: r => if Ascii.eqb c "(" then close_paren false r else None
  | [] => None
  end.

(** [re.sub(r'\s*\([^)]+\)', '', s)]: scan from the left; where the pattern
    matches, drop the match ([skip] counts the characters still to drop),
    otherwise keep the character. *)
Fixpoint sub_paren_notes_go (skip : nat) (l : chars) : chars :=
  match l with
  | [] => []
  | c :: r =>
      match skip with
      | S k => sub_paren_notes_go k r
      | O =>
          match match_paren_note l with
          | Some rest => sub_paren_notes_go (length r - length rest) r
          | None => c :: sub_paren_notes_go 0 r
          end
      end
  end.

Definition sub_paren_notes (l : chars) : chars := sub_paren_notes_go 0 l.

(** [re.findall(r'\b[a-zA-Z0-9]+\b', s)]: the maximal runs of ASCII letters
    and digits that touch no other word character (an underscore, an
    accented letter).  [run] is the run being read (reversed) when it began
    at a word boundary; [prev_w] tells whether the previous character is a
    word character. *)
Fixpoint find_alnum_words (run : option chars) (prev_w : bool) (l : chars)
  : list chars :=
  match l with
  | [] => match run with Some w => [rev w] | None => [] end
  | c :: r =>
      if is_alnum c then
        match run with
        | Some w => find_alnum_words (Some (c :: w)) true r
        | None =>
            if prev_w then find_alnum_words None true r
            else find_alnum_words (Some [c]) true r
        end
      else if is_uword c then find_alnum_words None true r
      else
        match run with
        | Some w => rev w :: find_alnum_words None false r
        | None => find_alnum_words None false r
        end
  end.

(** [re.findall(r'[A-Za-z0-9_]+', s)]: the maximal runs of word characters. *)
Fixpoint find_word_runs (run : option chars) (l : chars) : list chars :=
  match l with
  | [] => match run with Some w => [rev w] | None => [] end
  | c :: r =>
      if is_word c
      then find_word_runs (Some (c :: match run with Some w => w | None => [] end)) r
      else match run with
           | Some w => rev w :: find_word_runs None r
           | None => find_word_runs None r
           end
  end.

(** One field group of [^(?:(\d+):)?([0-5]?\d):([0-5]\d)$]. *)
Definition all_digits (l : chars) : bool :=
  match l with [] => false | _ => forallb is_digit l end.

Definition is_0_to_5 (c : ascii) : bool := ((48 <=? code c) && (code c <=? 53))%nat.

(** [[0-5]?\d] *)
Definition minutes_field (l : chars) : bool :=
  match l with
  | [d] => is_digit d
  | [a; d] => is_0_to_5 a && is_digit d
  | _ => false
  end.

(** [[0-5]\d] *)
Definition seconds_field (l : chars) : bool :=
  match l with
  | [a; d] => is_0_to_5 a && is_digit d
  | _ => false
  end.

(** [re.match(r"^(?:(\d+):)?([0-5]?\d):([0-5]\d)$", s)] on a stripped
    string: the three groups as numbers (a missing hour group is [None]).
    The fields hold digits only, so the colons fix how the text is cut. *)
Definition match_clock (l : chars) : option (option Z * Z * Z) :=
  match split_on ":" l with
  | [m; s] =>
      if minutes_field m && seconds_field s
      then Some (None, digits_value m, digits_value s) else None
  | [h; m; s] =>
      if all_digits h && minutes_field m && seconds_field s
      then Some (Some (digits_value h), digits_value m, digits_value s) else None
  | _ => None
  end.

(** The optional tail [(?:\s+\(.+\))?$] after the clock part, on a stripped
    string: empty, or spaces, an opening parenthesis, at least one character
    other than a line feed, and a closing parenthesis that ends the text. *)
Definition no_newline (c : ascii) : bool := negb (Ascii.eqb c "010").

Definition note_tail (l : chars) : bool :=
  match l with
  | [] => true
  | c :: _ =>
      is_space c &&
      match lstrip l with
      | p :: r =>
          Ascii.eqb p "(" &&
          match rev r with
          | q :: body => Ascii.eqb q ")" && negb (Nat.eqb (length body) 0)
                         && forallb no_newline body
          | [] => false
          end
      | [] => false
      end
  end.

Fixpoint span_not_space (l : chars) : chars * chars :=
  match l with
  | [] => ([], [])
  | c :: r =>
      if is_space c then ([], l)
      else let '(a, b) := span_not_space r in (c :: a, b)
  end.

(** [re.match(r"^(?:(\d+):)?([0-5]?\d):([0-5]\d)(?:\s+\(.+\))?$", s)] on a
    stripped string. *)
Definition match_clock_note (l : chars) : option (option Z * Z * Z) :=
  let '(clock, tail) := span_not_space l in
  if note_tail tail then match_clock clock else None.

(** Characters of a formatted clock field: digits and the minus sign. *)
Definition plain_char (c : ascii) : bool := is_digit c || Ascii.eqb c "-".

(** A character of a lower-case word: a digit or a lower-case letter. *)
Definition is_small (c : ascii) : bool := is_alnum c && negb (is_upper c).

(** [" ".join(ws)] on characters. *)
Fixpoint join_blank (ws : list chars) : chars :=
  match ws with
  | [] => []
  | [w] => w
  | w :: r => w ++ " "%char :: join_blank r
  end.

End Py.

(** Conversions between [string] and its characters. *)
Abbreviation chars_of := list_ascii_of_string.
Abbreviation text_of := string_of_list_ascii.

(** String-level views of the primitives. *)
Module Str.

Definition lower (s : string) : string := text_of (Py.lower_chars (chars_of s)).

Definition strip (s : string) : string := text_of (Py.strip (chars_of s)).

Definition split_ws (s : string) : list string :=
  map text_of (Py.split_ws (chars_of s)).

(** [p in s] *)
Definition contains (p s : string) : bool := Py.contains (chars_of p) (chars_of s).

(** [s[:n]] *)
Definition prefix (n : nat) (s : string) : string := text_of (firstn n (chars_of s)).

(** [s.split(sep)] *)
Definition split_str (sep s : string) : list string :=
  map text_of (Py.split_str (chars_of sep) (chars_of s)).

Definition ends_with (c : ascii) (s : string) : bool :=
  match rev (chars_of s) with
  | d :: _ => Ascii.eqb c d
  | [] => false
  end.

(** [Path(s).parent] as text: what precedes the last slash, or a dot. *)
Fixpoint after_slash (l : Py.chars) : option Py.chars :=
  match l with
  | [] => None
  | c :: r => if Ascii.eqb c "/" then Some r else after_slash r
  end.

Definition parent (s : string) : string :=
  match after_slash (rev (chars_of s)) with
  | Some [] => "/"
  | Some r => text_of (rev r)
  | None => "."
  end.

Definition title_case (s : string) : string := text_of (Py.title_chars (chars_of s)).

(** [re.findall(r'\b[a-zA-Z0-9]+\b', s)] *)
Definition find_alnum_words (s : string) : list string :=
  map text_of (Py.find_alnum_words None false (chars_of s)).

(** [re.findall(r"[A-Za-z0-9_]+", s)] *)
Definition find_word_runs (s : string) : list string :=
  map text_of (Py.find_word_runs None (chars_of s)).

(** [x in l] for a list (or a set literal) of strings. *)
Definition mem (x : string) (l : list string) : bool := existsb (String.eqb x) l.

(** [sep.join(l)] *)
Fixpoint join (sep : string) (l : list string) : string :=
  match l with
  | [] => EmptyString
  | [x] => x
  | x :: r => x +:+ sep +:+ join sep r
  end.

End Str.

(** ** The lesson records of the course document *)

Record Timestamp : Type := mkTimestamp {
  time : string;
  label : string;
  description : string
}.

Record Lesson : Type := mkLesson {
  id : string;
  title : string;
  duration : string;
  content : string;
  timestamps : list Timestamp
}.

Record Week : Type := mkWeek {
  week_id : string;
  lessons : list Lesson
}.

(** The course document: its list of weeks. *)
Definition Course : Type := list Week.

(** ** Files and the trace of file operations *)

Module IO.

(** What a file holds: the course document, a report or log written by one
    of the scripts (its text plays no part here), or what a write that broke
    off has left, which is not a JSON document. *)
Inductive file : Type :=
| CourseDoc (c : Course)
| ReportDoc
| Partial.

Inductive event : Type :=
| EvMkdir (path : string)
| EvCopy (src dst : string)
| EvRead (path : string)
| EvWrite (path : string) (f : file).

(** How the file system answers an operation on a path: it goes through, it
    is refused before anything has changed (a missing directory, a
    permission), or, for a write or a copy, it breaks off once the target
    has been opened and truncated. *)
Inductive fault : Type :=
| NoFault
| Refused
| Broken.

(** The files, the clock, the operations done so far, and the faults of
    the file system: how it answers an operation on a path after the
    operations of a trace. *)
Record World : Type := mkWorld {
  fs : gmap string file;
  now : string;
  trace : list event;
  faults : list event -> string -> fault
}.

(** A computation that reads and changes the world and may raise; the world
    at the time of the exception is kept. *)
Definition io (A : Type) : Type := World -> result A * World.

Definition ret {A : Type} (a : A) : io A := fun w => (Ok a, w).

Definition bind {A B : Type} (m : io A) (f : A -> io B) : io B :=
  fun w => match m w with
           | (Ok a, w') => f a w'
           | (Raise e, w') => (Raise e, w')
           end.

Definition lift {A : Type} (r : result A) : io A := fun w => (r, w).

Definition emit (e : event) (w : World) : World :=
  {| fs := fs w; now := now w; trace := trace w ++ [e]; faults := faults w |}.

Definition store (path : string) (f : file) (w : World) : World :=
  {| fs := <[path := f]> (fs w); now := now w; trace := trace w; faults := faults w |}.

Definition fault_at (path : string) (w : World) : fault := faults w (trace w) path.

(** [Path(p).mkdir(parents=True, exist_ok=True)] *)
Definition mkdir (path : string) : io unit :=
  fun w =>
    match fault_at path w with
    | NoFault => (Ok tt, emit (EvMkdir path) w)
    | _ => (Raise OSError, w)
    end.

(** [datetime.now().strftime("%Y%m%d_%H%M%S")] *)
Definition strftime_now : io string := fun w => (Ok (now w), w).

(** [shutil.copy2(src, dst)]: the two paths are compared, the source is
    opened, then the target is opened and written. *)
Definition copy2 (src dst : string) : io unit :=
  fun w =>
    if String.eqb src dst then (Raise SameFileError, w)
    else match fs w !! src with
         | Some f =>
             match fault_at src w, fault_at dst w with
             | NoFault, NoFault => (Ok tt, emit (EvCopy src dst) (store dst f w))
             | NoFault, Broken => (Raise OSError, emit (EvWrite dst Partial) (store dst Partial w))
             | _, _ => (Raise OSError, w)
             end
         | None => (Raise FileNotFoundError, w)
         end.

(** [json.load] of a file opened for reading; a file that does not hold a
    course document fails to decode as one. *)
Definition load_course (path : string) : io Course :=
  fun w =>
    match fs w !! path with
    | Some f =>
        match fault_at path w with
        | NoFault =>
            match f with
            | CourseDoc c => (Ok c, emit (EvRead path) w)
            | _ => (Raise ValueError, emit (EvRead path) w)
            end
        | _ => (Raise OSError, w)
        end
    | None => (Raise FileNotFoundError, w)
    end.

(** [json.load] of the audit report, of which nothing is used. *)
Definition load_report (path : string) : io unit :=
  fun w =>
    match fs w !! path with
    | Some f =>
        match fault_at path w with
        | NoFault =>
            match f with
            | Partial => (Raise ValueError, emit (EvRead path) w)
            | _ => (Ok tt, emit (EvRead path) w)
            end
        | _ => (Raise OSError, w)
        end
    | None => (Raise FileNotFoundError, w)
    end.

(** [json.dump] (or [write]) to a file opened with mode ['w']. *)
Definition write_file (path : string) (f : file) : io unit :=
  fun w =>
    match fault_at path w with
    | NoFault => (Ok tt, emit (EvWrite path f) (store path f w))
    | Refused => (Raise OSError, w)
    | Broken => (Raise OSError, emit (EvWrite path Partial) (store path Partial w))
    end.

(** A file system without faults. *)
Definition no_faults : list event -> string -> fault := fun _ _ => NoFault.

(** Every write to [course] in the trace comes after a copy of [course]. *)
Definition backup_precedes_write (course : string) (tr : list event) : Prop :=
  forall pre f post,
    tr = pre ++ EvWrite course f :: post -> exists dst, In (EvCopy course dst) pre.

(** The same, as a check along the trace; [backed_up] tells whether a copy
    of [course] has been seen. *)
Fixpoint writes_after_backup (course : string) (backed_up : bool) (tr : list event)
  : bool :=
  match tr with
  | [] => true
  | EvCopy src _ :: r => writes_after_backup course (backed_up || String.eqb src course) r
  | EvWrite p _ :: r =>
      (negb (String.eqb p course) || backed_up) && writes_after_backup course backed_up r
  | _ :: r => writes_after_backup course backed_up r
  end.

(** [os.path.join(a, b)] for a relative [b]. *)
Definition path_join (a b : string) : string :=
  if String.eqb a "" then b
  else if Str.ends_with "/" a then a +:+ b
  else a +:+ "/" +:+ b.

End IO.

(** ** fix_timestamps_enhanced.py *)

Module FixEnhanced.

Definition MIN_SEPARATION_S : Z := 15.
Definition LABEL_WORDS_MIN : nat := 2.
Definition LABEL_WORDS_MAX : nat := 5.
Definition DESC_WORDS_MIN : nat := 5.
Definition DESC_WORDS_MAX : nat := 15.

(** The format [f"{hours}:{minutes:02d}:{seconds:02d}"]. *)
Definition fmt_clock (hours minutes seconds : Z) : string :=
  text_of (Py.str_of_int hours ++ ":"%char :: Py.fmt_02d minutes
           ++ ":"%char :: Py.fmt_02d seconds).

Definition normalize_time (time_str : string) : result string :=
  let clean := Py.sub_paren_notes (Py.strip (chars_of time_str)) in
  match Py.split_on ":" clean with
  | [p0; p1] =>
      minutes ← Py.int_of p0;
      seconds ← Py.int_of p1;
      let hours := minutes / 60 in
      let minutes := minutes mod 60 in
      mret (fmt_clock hours minutes seconds)
  | [p0; p1; p2] =>
      hours ← Py.int_of p0;
      minutes ← Py.int_of p1;
      seconds ← Py.int_of p2;
      let minutes := minutes + seconds / 60 in
      let seconds := seconds mod 60 in
      let hours := hours + minutes / 60 in
      let minutes := minutes mod 60 in
      mret (fmt_clock hours minutes seconds)
  | _ => mret time_str
  end.

Definition time_to_seconds (time_str : string) : result Z :=
  normalized ← normalize_time time_str;
  match Py.split_on ":" (chars_of normalized) with
  | [p0; p1; p2] =>
      h ← Py.int_of p0;
      m ← Py.int_of p1;
      s ← Py.int_of p2;
      mret (h * 3600 + m * 60 + s)
  | _ => mret 0
  end.

Definition seconds_to_time (seconds : Z) : string :=
  let hours := seconds / 3600 in
  let minutes := (seconds mod 3600) / 60 in
  let secs := seconds mod 60 in
  fmt_clock hours minutes secs.


(** Generic terms to avoid in labels. *)
Definition GENERIC_TERMS : list string :=
  ["overview"; "introduction"; "discussion"; "recap"; "general";
   "review"; "summary"; "basics"; "fundamentals"; "concepts"]%string.

(** The entries of [changes_summary].  The script stores formatted
    sentences; the record keeps which sentence it is and the values
    formatted into it. *)
Inductive change : Type :=
| FixedDuration (original new : string)
| NormalizedTime (original new : string)
| MergedClose (kept merged : string)
| AddedCoverage (at_time : string)
| RewroteLabel (at_time old new : string)
| RewroteDescription (at_time old new : string)
| ManualReview.

Definition set_time (ts : Timestamp) (t : string) : Timestamp :=
  {| time := t; label := label ts; description := description ts |}.

Definition set_label (ts : Timestamp) (l : string) : Timestamp :=
  {| time := time ts; label := l; description := description ts |}.

Definition set_description (ts : Timestamp) (d : string) : Timestamp :=
  {| time := time ts; label := label ts; description := d |}.

Definition generate_smart_label (timestamp_idx : nat) (lesson_title : string)
    (keywords existing_labels : list string) : string :=
  let relevant_tech := List.filter (fun k => negb (Str.mem k GENERIC_TERMS)) keywords in
  let has k := Str.mem k relevant_tech in
  let by_keywords :=
    if has "api" then
      (if has "build" then "Build API"
       else if has "test" then "Test API"
       else "API Configuration")
    else if has "rag" then
      (if has "implement" then "Implement RAG"
       else if has "vector" then "Vector Storage"
       else "RAG Pipeline")
    else if has "agent" then
      (if has "multi" then "Multi-Agent System"
       else if has "tool" then "Agent Tools"
       else "Agent Architecture")
    else if has "deploy" then "Production Deployment"
    else if has "test" then "Testing Strategy"
    else
      let position_labels :=
        ["Core Concepts"; "Implementation Details"; "Practical Example";
         "Code Walkthrough"; "Best Practices"; "Common Patterns";
         "Advanced Topics"; "Troubleshooting"; "Performance Tips";
         "Security Considerations"; "Integration Points"; "Next Steps"] in
      match List.filter (fun l => negb (Str.mem l existing_labels)) position_labels with
      | l :: _ => l
      | [] => "Section " +:+ text_of (Py.str_of_int (Z.of_nat timestamp_idx + 1))
      end in
  match timestamp_idx with
  | O => if negb (Str.mem "introduction" existing_labels)
         then "Course Introduction" else by_keywords
  | S O => if existsb has ["setup"; "config"; "environment"]
           then "Environment Setup" else by_keywords
  | _ => by_keywords
  end%string.

Definition generate_smart_description (label lesson_title : string)
    (keywords : list string) : string :=
  let label_lower := Str.lower label in
  let title_keywords :=
    firstn 2 (List.filter (fun w => Nat.ltb 4 (String.length w)) keywords) in
  let topic :=
    match title_keywords with
    | [] => "concepts"
    | _ => Str.join " and " title_keywords
    end in
  let descriptions :=
    [("course introduction", "Overview of " +:+ topic +:+ " and learning objectives");
     ("environment setup", "Configure development tools for " +:+ topic);
     ("core concepts", "Fundamental principles of " +:+ topic +:+ " explained");
     ("implementation details", "Step-by-step coding of " +:+ topic +:+ " features");
     ("practical example", "Real-world application of " +:+ topic +:+ " techniques");
     ("code walkthrough", "Line-by-line explanation of " +:+ topic +:+ " implementation");
     ("best practices", "Industry standards for " +:+ topic +:+ " development");
     ("api configuration", "Set up endpoints and authentication for " +:+ topic);
     ("rag pipeline", "Build retrieval and generation components");
     ("vector storage", "Configure embeddings and similarity search");
     ("agent architecture", "Design autonomous decision-making systems");
     ("multi-agent system", "Coordinate multiple AI agents effectively");
     ("production deployment", "Deploy " +:+ topic +:+ " to cloud infrastructure");
     ("testing strategy", "Validate " +:+ topic +:+ " with comprehensive tests");
     ("performance tips", "Optimize " +:+ topic +:+ " for speed and efficiency");
     ("troubleshooting", "Debug common " +:+ topic +:+ " implementation issues");
     ("next steps", "Advanced topics and further " +:+ topic +:+ " resources")] in
  match List.filter (fun kd => Str.contains (fst kd) label_lower) descriptions with
  | (_, desc) :: _ => Str.prefix (DESC_WORDS_MAX * 6) desc
  | [] =>
      if Str.contains "build" label_lower || Str.contains "create" label_lower
      then "Build functional " +:+ topic +:+ " with error handling"
      else if Str.contains "test" label_lower
      then "Validate " +:+ topic +:+ " functionality and edge cases"
      else if Str.contains "deploy" label_lower
      then "Deploy " +:+ topic +:+ " to production environment"
      else if Str.contains "configure" label_lower || Str.contains "setup" label_lower
      then "Configure " +:+ topic +:+ " parameters and dependencies"
      else "Learn " +:+ topic +:+ " implementation techniques"
  end%string.

(** Step 2: [ts["time"] = normalize_time(original_time)], logged when the
    text changes. *)
Definition normalize_entry (ts : Timestamp) : result (Timestamp * list change) :=
  t ← normalize_time (time ts);
  mret (set_time ts t,
        if String.eqb (time ts) t then [] else [NormalizedTime (time ts) t]).

Fixpoint normalize_entries (l : list Timestamp) : result (list Timestamp * list change) :=
  match l with
  | [] => mret ([], [])
  | ts :: r =>
      '(ts', c) ← normalize_entry ts;
      '(r', cs) ← normalize_entries r;
      mret (ts' :: r', c ++ cs)
  end.

Definition seconds_of (ts : Timestamp) : result Z := time_to_seconds (time ts).

(** Step 3: [[ts for ts in timestamps if time_to_seconds(ts["time"]) < duration_seconds]] *)
Fixpoint in_range (duration_seconds : Z) (l : list Timestamp) : result (list Timestamp) :=
  match l with
  | [] => mret []
  | ts :: r =>
      s ← seconds_of ts;
      r' ← in_range duration_seconds r;
      mret (if s <? duration_seconds then ts :: r' else r')
  end.

(** [timestamps.sort(key=lambda x: time_to_seconds(x["time"]))]: the keys
    are computed first (any one may raise), then the list is sorted. *)
Definition keyed (l : list Timestamp) : result (list (Z * Timestamp)) :=
  mapM (fun ts => s ← seconds_of ts; mret (s, ts)) l.

Definition sort_by_time (l : list Timestamp) : result (list Timestamp) :=
  ks ← keyed l; mret (map snd (stable_sort ks)).

(** Step 5, the inner [while]: [current] absorbs the description of every
    following entry less than [MIN_SEPARATION_S] after [current_seconds];
    the first entry that is far enough becomes the next [current]. *)
Fixpoint merge_from (current : Timestamp) (current_seconds : Z)
    (rest : list Timestamp) : result (list Timestamp * list change) :=
  match rest with
  | [] => mret ([current], [])
  | next :: r =>
      s ← seconds_of next;
      if s - current_seconds <? MIN_SEPARATION_S then
        let merged :=
          set_description current (description current +:+ "; " +:+ description next) in
        '(out, cs) ← merge_from merged current_seconds r;
        mret (out, MergedClose (time current) (time next) :: cs)
      else
        '(out, cs) ← merge_from next s r;
        mret (current :: out, cs)
  end.

Definition merge_close (l : list Timestamp) : result (list Timestamp * list change) :=
  match l with
  | [] => mret ([], [])
  | current :: r => s ← seconds_of current; merge_from current s r
  end.

(** A group of step 5: an entry and the entries after it that are merged
    into it; the entry the group leaves and the lines it logs. *)
Definition group : Type := Timestamp * list Timestamp.

Definition group_entries (g : group) : list Timestamp := fst g :: snd g.

Definition merged_entry (g : group) : Timestamp :=
  set_description (fst g)
    (fold_left (fun d f => d +:+ "; " +:+ description f)%string (snd g)
               (description (fst g))).

Definition merge_log (g : group) : list change :=
  map (fun f => MergedClose (time (fst g)) (time f)) (snd g).

(** Every entry of a group after the first lies less than
    [MIN_SEPARATION_S] after the first, and the first entry of the next
    group does not. *)
Fixpoint close_groups (gs : list group) : Prop :=
  match gs with
  | [] => True
  | g :: r =>
      exists s,
        seconds_of (fst g) = Ok s /\
        List.Forall (fun f => exists k, seconds_of f = Ok k /\ k - s < MIN_SEPARATION_S)
                    (snd g) /\
        match r with
        | [] => True
        | g' :: _ => exists k, seconds_of (fst g') = Ok k /\ MIN_SEPARATION_S <= k - s
        end /\
        close_groups r
  end.

Definition placeholder (mid_point : Z) : Timestamp :=
  {| time := seconds_to_time mid_point;
     label := "TO_REVIEW";
     description := "Section needs manual review for content" |}.

(** Step 6, the loop over consecutive entries.  [max_gap] is the double
    [duration_seconds * 0.25]; the loop is given [four_max_gap], the integer
    equal to four times that double (see [fill_coverage]).  Python compares
    the integer [gap] with the double exactly, so [gap > max_gap] is
    [four_max_gap < 4 * gap]. *)
Fixpoint gaps_to_fill (four_max_gap : Z) (l : list Timestamp)
  : result (list Timestamp * list change) :=
  match l with
  | prev :: ((curr :: _) as r) =>
      prev_seconds ← seconds_of prev;
      curr_seconds ← seconds_of curr;
      let gap := curr_seconds - prev_seconds in
      '(fill, cs) ← gaps_to_fill four_max_gap r;
      if four_max_gap <? 4 * gap then
        let mid_point := prev_seconds + gap / 2 in
        mret (placeholder mid_point :: fill,
              AddedCoverage (seconds_to_time mid_point) :: cs)
      else mret (fill, cs)
  | _ => mret ([], [])
  end.

(** Step 6.  [max_gap = duration_seconds * MAX_GAP_PERCENT] converts the
    duration to a double, which may raise, and multiplies it by [0.25],
    which is exact: four times [max_gap] is the converted duration. *)
Definition fill_coverage (duration_seconds : Z) (l : list Timestamp)
  : result (list Timestamp * list change) :=
  if Nat.ltb 1 (length l) then
    four_max_gap ← Py.float_of_int duration_seconds;
    '(fill, cs) ← gaps_to_fill four_max_gap l;
    sorted ← sort_by_time (l ++ fill);
    mret (sorted, cs)
  else mret (l, []).

Definition needs_label_rewrite (original_label : string)
    (existing_labels : list string) : bool :=
  let label_words := Str.split_ws original_label in
  let is_generic :=
    existsb (fun term => Str.contains term (Str.lower original_label)) GENERIC_TERMS in
  Nat.ltb (length label_words) LABEL_WORDS_MIN
  || Nat.ltb LABEL_WORDS_MAX (length label_words)
  || is_generic
  || Str.mem original_label existing_labels
  || String.eqb original_label "TO_REVIEW".

Definition needs_desc_rewrite (original_desc original_label : string) : bool :=
  let desc_words := Str.split_ws original_desc in
  Nat.ltb (length desc_words) DESC_WORDS_MIN
  || Nat.ltb DESC_WORDS_MAX (length desc_words)
  || String.eqb (Str.lower original_desc) (Str.lower original_label)
  || (Str.contains "overview" (Str.lower original_desc)
      && Nat.ltb (length desc_words) 8).

(** Step 8, one round of the loop over [enumerate(timestamps)]. *)
Definition rewrite_entry (i : nat) (title : string) (keywords existing_labels : list string)
    (ts : Timestamp) : Timestamp * list change :=
  let original_label := label ts in
  let original_desc := description ts in
  let '(ts1, c1) :=
    if needs_label_rewrite original_label existing_labels
       && negb (String.eqb original_label "TO_REVIEW")
    then
      let new_label := generate_smart_label i title keywords existing_labels in
      (set_label ts new_label, [RewroteLabel (time ts) original_label new_label])
    else (ts, []) in
  let '(ts2, c2) :=
    if needs_desc_rewrite original_desc original_label
    then
      let new_desc := generate_smart_description (label ts1) title keywords in
      (set_description ts1 new_desc,
       [RewroteDescription (time ts1) original_desc new_desc])
    else (ts1, []) in
  (ts2, c1 ++ c2).

Fixpoint rewrite_weak (i : nat) (title : string) (keywords existing_labels : list string)
    (l : list Timestamp) : list Timestamp * list change :=
  match l with
  | [] => ([], [])
  | ts :: r =>
      let '(ts', c) := rewrite_entry i title keywords existing_labels ts in
      let '(r', cs) :=
        rewrite_weak (S i) title keywords (existing_labels ++ [label ts']) r in
      (ts' :: r', c ++ cs)
  end.

(** The entry's time reads as a number of seconds that satisfies [Q]. *)
Definition has_seconds (Q : Z -> Prop) (ts : Timestamp) : Prop :=
  exists k, seconds_of ts = Ok k /\ Q k.

(** The entry's time reads as some number of seconds. *)
Definition readable : Timestamp -> Prop := has_seconds (fun _ => True).

(** The canonical seconds of every entry of a list, in list order. *)
Definition seconds_list (l : list Timestamp) : result (list Z) := mapM seconds_of l.

(** Values each at least [MIN_SEPARATION_S] after the one before. *)
Definition separated (keys : list Z) : Prop :=
  Sorted (fun a b => a + MIN_SEPARATION_S <= b) keys.

Record FixResult : Type := mkFixResult {
  lesson_id : string;
  updated_timestamps : list Timestamp;
  changes_summary : list change
}.

(** [fix_lesson_timestamps(lesson, audit_data)].  [audit_data] is not read
    by the function and is left out.  [keywords] stands for
    [extract_keywords_from_content(content, title)]: that list comes out of
    [list(set(...))], whose order Python leaves open, so the model takes it
    as given. *)
Definition fix_lesson_timestamps (keywords : list string) (lesson : Lesson)
  : result FixResult :=
  let original_duration := duration lesson in
  duration_str ← normalize_time original_duration;
  duration_seconds ← time_to_seconds duration_str;
  let c1 :=
    if String.eqb original_duration duration_str then []
    else [FixedDuration original_duration duration_str] in
  '(normalized, c2) ← normalize_entries (timestamps lesson);
  kept ← in_range duration_seconds normalized;
  sorted ← sort_by_time kept;
  '(merged, c5) ← merge_close sorted;
  '(covered, c6) ← fill_coverage duration_seconds merged;
  let '(rewritten, c8) := rewrite_weak 0 (title lesson) keywords [] covered in
  let c9 :=
    if existsb (fun ts => String.eqb (label ts) "TO_REVIEW") rewritten
    then [ManualReview] else [] in
  mret {| lesson_id := id lesson;
          updated_timestamps := rewritten;
          changes_summary := c1 ++ c2 ++ c5 ++ c6 ++ c8 ++ c9 |}.

(** A time text without a colon; the lesson in which every such time is
    written ["0:00:00"], and the same rewriting of the times named in a
    change.  They state how the engine handles a time it cannot read. *)
Definition colon_free (t : string) : bool :=
  forallb (fun c => negb (Ascii.eqb c ":")) (chars_of t).

Definition zero_text (t : string) : string :=
  if colon_free t then "0:00:00"%string else t.

Definition zero_time (ts : Timestamp) : Timestamp := set_time ts (zero_text (time ts)).

Definition zero_times (lesson : Lesson) : Lesson :=
  {| id := id lesson; title := title lesson; duration := duration lesson;
     content := content lesson; timestamps := map zero_time (timestamps lesson) |}.

Definition zero_change (c : change) : change :=
  match c with
  | MergedClose a b => MergedClose (zero_text a) (zero_text b)
  | RewroteLabel t o n => RewroteLabel (zero_text t) o n
  | RewroteDescription t o n => RewroteDescription (zero_text t) o n
  | _ => c
  end.


(** The sentence stored in [changes_summary] for a change. *)
Definition render (c : change) : string :=
  match c with
  | FixedDuration o n => "Fixed duration format: " +:+ o +:+ " -> " +:+ n
  | NormalizedTime o n => "Normalized time: " +:+ o +:+ " -> " +:+ n
  | MergedClose a b => "Merged close timestamps: " +:+ a +:+ " and " +:+ b
  | AddedCoverage t => "Added coverage timestamp at " +:+ t
  | RewroteLabel t o n =>
      "Rewrote label at " +:+ t +:+ ": '" +:+ o +:+ "' -> '" +:+ n +:+ "'"
  | RewroteDescription t o n =>
      "Rewrote description at " +:+ t +:+ ": '" +:+ o +:+ "' -> '" +:+ n +:+ "'"
  | ManualReview => "Manual Review Required - coverage gaps filled with TO_REVIEW"
  end%string.

(** In [main], the first change whose sentence holds the words
    [Fixed duration format:] gives the new duration: the second part of the
    sentence cut at [" -> "]. *)
Fixpoint new_duration (changes : list change) : result (option string) :=
  match changes with
  | [] => mret None
  | c :: r =>
      if Str.contains "Fixed duration format:" (render c)
      then match Str.split_str " -> " (render c) with
           | _ :: d :: _ => mret (Some d)
           | _ => Raise IndexError
           end
      else new_duration r
  end.

(** In [main], the lesson after the call when the run is not a dry run.
    The call has already normalized, merged and rewritten the lesson's
    dictionaries in place, and each such assignment that alters a dictionary
    appends to [changes_summary]; with nothing logged the lesson holds what
    it held. *)
Definition apply_result (lesson : Lesson) (r : FixResult) : result Lesson :=
  match changes_summary r with
  | [] => mret lesson
  | cs =>
      d ← new_duration cs;
      mret {| id := id lesson; title := title lesson;
              duration := match d with Some d => d | None => duration lesson end;
              content := content lesson;
              timestamps := updated_timestamps r |}
  end.

(** The loop of [main] over the weeks and their lessons.  [keywords_of]
    stands for [extract_keywords_from_content] on the lesson's content and
    title. *)
Definition fix_lesson (keywords_of : Lesson -> list string) (dry_run : bool)
    (lesson : Lesson) : result (Lesson * FixResult) :=
  r ← fix_lesson_timestamps (keywords_of lesson) lesson;
  lesson' ← (if dry_run then mret lesson else apply_result lesson r);
  mret (lesson', r).

Definition fix_week (keywords_of : Lesson -> list string) (dry_run : bool)
    (week : Week) : result (Week * list FixResult) :=
  lrs ← mapM (fix_lesson keywords_of dry_run) (lessons week);
  mret ({| week_id := week_id week; lessons := map fst lrs |}, map snd lrs).

Definition fix_course (keywords_of : Lesson -> list string) (dry_run : bool)
    (course : Course) : result (Course * list FixResult) :=
  wrs ← mapM (fix_week keywords_of dry_run) course;
  mret (map fst wrs, concat (map snd wrs)).

Definition COURSE_JSON : string := "src/content/course.json".
Definition BACKUP_DIR : string := "src/content/.backups".
Definition AUDIT_REPORT : string := "audits/course_timestamp_audit_report.json".

Definition backup_path (stamp : string) : string :=
  IO.path_join BACKUP_DIR ("course_backup_" +:+ stamp +:+ ".json").

Definition output_path (dry_run : bool) (stamp : string) : string :=
  "audits/fix_pass_" +:+ (if dry_run then "dry_run" else "applied") +:+ "_"
  +:+ stamp +:+ ".json".

(** [datetime.now()] after the loop of [main].  The import of [datetime]
    under [if not dry_run:] makes the name local to [main]; in a dry run it
    is never bound, and the first use of it, in the report's ["generated"]
    field, raises. *)
Definition report_stamp (dry_run : bool) : IO.io string :=
  if dry_run then IO.lift (Raise UnboundLocalError) else IO.strftime_now.

(** [main(dry_run)] *)
Definition main (keywords_of : Lesson -> list string) (dry_run : bool)
  : IO.io (list FixResult) :=
  IO.bind (if dry_run then IO.ret tt
           else IO.bind (IO.mkdir BACKUP_DIR) (fun _ =>
                IO.bind IO.strftime_now (fun stamp =>
                IO.copy2 COURSE_JSON (backup_path stamp)))) (fun _ =>
  IO.bind (IO.load_course COURSE_JSON) (fun course_data =>
  IO.bind (IO.load_report AUDIT_REPORT) (fun _ =>
  IO.bind (IO.lift (fix_course keywords_of dry_run course_data)) (fun '(course', all_results) =>
  IO.bind (if dry_run then IO.ret tt
           else IO.write_file COURSE_JSON (IO.CourseDoc course')) (fun _ =>
  IO.bind (report_stamp dry_run) (fun stamp =>
  IO.bind (IO.write_file (output_path dry_run stamp) IO.ReportDoc) (fun _ =>
  IO.ret all_results))))))).

End FixEnhanced.


(** ** fix_timestamps.py *)

Module Fix.

Definition MIN_SEP_S : Z := 8.
Definition LABEL_WORDS_MIN : nat := 2.
Definition LABEL_WORDS_MAX : nat := 5.
Definition DESC_WORDS_MIN : nat := 5.
Definition DESC_WORDS_MAX : nat := 15.

Definition GENERIC_LABELS : gset string :=
  {[ "overview"; "discussion"; "recap"; "intro"; "general"; "introduction"; "review" ]}%string.

Definition fmt_clock (h m s : Z) : string :=
  text_of (Py.str_of_int h ++ ":"%char :: Py.fmt_02d m ++ ":"%char :: Py.fmt_02d s).

(** [normalize_time(time_str)]: the normalized text and the change flag.
    [DURATION_CLEAN_RE] is [Py.match_clock]; a [ValueError] of [int] is
    caught by the function itself. *)
Definition normalize_time (time_str : string) : string * bool :=
  let clean :=
    Py.strip (hd [] (Py.split_on "(" (Py.strip (chars_of time_str)))) in
  match Py.match_clock clean with
  | None =>
      match Py.split_on ":" clean with
      | [p0; p1] =>
          match Py.int_of p0 with
          | Ok minutes =>
              match Py.int_of p1 with
              | Ok seconds =>
                  let hours := minutes / 60 in
                  let minutes := minutes mod 60 in
                  (fmt_clock hours minutes seconds, true)
              | Raise _ => (time_str, false)
              end
          | Raise _ => (time_str, false)
          end
      | _ => (time_str, false)
      end
  | Some (g1, m, s) =>
      let h := match g1 with Some h => h | None => 0 end in
      let '(h, m) := if 60 <=? m then (h + m / 60, m mod 60) else (h, m) in
      let normalized := fmt_clock h m s in
      (normalized, negb (String.eqb normalized (text_of clean)))
  end.

Definition to_seconds (time_str : string) : option Z :=
  let '(normalized, _) := normalize_time time_str in
  match Py.split_on ":" (chars_of normalized) with
  | [p0; p1; p2] =>
      match Py.int_of p0, Py.int_of p1, Py.int_of p2 with
      | Ok h, Ok m, Ok s => Some (h * 3600 + m * 60 + s)
      | _, _, _ => None
      end
  | _ => None
  end.

Definition extract_words (text : string) : list string :=
  Str.find_alnum_words (Str.lower text).

Definition word_count (text : string) : nat := length (extract_words text).

Definition is_empty (s : string) : bool := String.eqb s "".

Definition is_weak_label (label : string) : bool :=
  if is_empty label then true
  else
    let wc := word_count label in
    if Nat.ltb wc LABEL_WORDS_MIN || Nat.ltb LABEL_WORDS_MAX wc then true
    else
      let words : gset string := list_to_set (extract_words label) in
      if bool_decide (words ⊆ GENERIC_LABELS) then true else false.

(** The overlap test [len(l & d) / len(d) > 0.7]: here [d] has at most
    fifteen elements, so the quotient, when it is not seven tenths itself, is
    further from it than any rounding; the test is [10 * len(l & d) > 7 * len(d)]. *)
Definition is_weak_description (desc label : string) : bool :=
  if is_empty desc then true
  else
    let wc := word_count desc in
    if Nat.ltb wc DESC_WORDS_MIN || Nat.ltb DESC_WORDS_MAX wc then true
    else
      let label_words : gset string := list_to_set (extract_words label) in
      let desc_words : gset string := list_to_set (extract_words desc) in
      if bool_decide (label_words ≠ ∅) && bool_decide (desc_words ≠ ∅)
      then Nat.ltb (7 * size desc_words) (10 * size (label_words ∩ desc_words))
      else false.

Definition rewrite_label (old_label context : string) : string :=
  let words := extract_words (Str.lower context) in
  let has w := Str.mem w words in
  let after_setup :=
    let after_build :=
      if has "test" || has "testing" then "Testing Process"
      else if has "deploy" || has "deployment" then "Deployment Steps"
      else
        let tech_terms :=
          List.filter (fun w => Nat.ltb 4 (String.length w)
                                && negb (bool_decide (w ∈ GENERIC_LABELS))) words in
        if Nat.leb 2 (length tech_terms)
        then Str.title_case (Str.join " " (firstn 3 tech_terms))
        else "Key Concepts" in
    if existsb has ["implement"; "build"; "create"] then
      (if has "function" then "Implement Function"
       else if has "class" then "Build Class"
       else if has "pipeline" then "Create Pipeline"
       else after_build)
    else after_build in
  (if existsb has ["configure"; "config"; "setup"; "setting"] then
     (if has "database" || has "pinecone" then "Configure Database"
      else if has "api" then "API Setup"
      else if has "environment" || has "env" then "Environment Setup"
      else after_setup)
   else after_setup)%string.

Definition rewrite_description (old_desc label context : string) : string :=
  let words := extract_words (Str.lower context) in
  let label_lower := Str.lower label in
  (if Str.contains "setup" label_lower || Str.contains "configure" label_lower
   then "Set up required components and configuration parameters"
   else if Str.contains "implement" label_lower || Str.contains "build" label_lower
   then "Build core functionality with error handling"
   else if Str.contains "test" label_lower
   then "Validate implementation with comprehensive test cases"
   else if Str.contains "deploy" label_lower
   then "Deploy to production environment with monitoring"
   else
     let action_words :=
       ["create"; "build"; "implement"; "configure"; "set"; "deploy"; "test"; "validate"] in
     match List.filter (fun w => Str.mem w words) action_words with
     | a :: _ => "Learn to " +:+ a +:+ " and apply best practices"
     | [] => "Understand key concepts and practical applications"
     end)%string.

(** One entry of [result["rewritten"]]: the keys that are present. *)
Record Rewrite : Type := mkRewrite {
  rw_label : option (string * string);
  rw_desc : option (string * string);
  rw_time : string
}.

Record ProcessResult : Type := mkProcessResult {
  lesson_id : string;
  duration_changed : bool;
  normalized_times : list (string * string);
  removed_dense_pairs : list (string * string);
  rewritten : list Rewrite
}.

Definition set_time (ts : Timestamp) (t : string) : Timestamp :=
  {| time := t; label := label ts; description := description ts |}.

(** Step 2, one timestamp: the entry as the lesson holds it afterwards and
    the log line, if any. *)
Definition normalize_entry (dry_run : bool) (ts : Timestamp)
  : Timestamp * list (string * string) :=
  let time_str := time ts in
  let '(normalized_time, changed) := normalize_time time_str in
  if changed
  then (if dry_run then ts else set_time ts normalized_time,
        [(time_str, normalized_time)])
  else (ts, []).

(** [enumerate(timestamps)] restricted to the entries whose time parses. *)
Fixpoint times_with_index (i : nat) (l : list Timestamp) : list (Z * (nat * Timestamp)) :=
  match l with
  | [] => []
  | ts :: r =>
      match to_seconds (time ts) with
      | Some time_s => (time_s, (i, ts)) :: times_with_index (S i) r
      | None => times_with_index (S i) r
      end
  end.

(** Step 3, the loop over consecutive entries of the sorted list.  The
    descriptions are compared by [len], the number of their characters,
    which is [String.length] (one character for each code point). *)
Fixpoint dense_pairs (l : list (Z * (nat * Timestamp))) (to_remove : gset nat)
  : gset nat * list (string * string) :=
  match l with
  | (prev_s, (prev_idx, prev_ts)) :: (((curr_s, (curr_idx, curr_ts)) :: _) as r) =>
      if negb (bool_decide (prev_idx ∈ to_remove)) && (curr_s - prev_s <? MIN_SEP_S)
      then
        let prev_desc := description prev_ts in
        let curr_desc := description curr_ts in
        let removed :=
          if Nat.ltb (String.length prev_desc) (String.length curr_desc)
          then prev_idx else curr_idx in
        let '(rm, log) := dense_pairs r ({[removed]} ∪ to_remove) in
        (rm, (time prev_ts, time curr_ts) :: log)
      else dense_pairs r to_remove
  | _ => (to_remove, [])
  end.

(** [[ts for i, ts in enumerate(timestamps) if i not in to_remove]] *)
Fixpoint drop_indices (i : nat) (to_remove : gset nat) (l : list Timestamp)
  : list Timestamp :=
  match l with
  | [] => []
  | ts :: r =>
      if bool_decide (i ∈ to_remove) then drop_indices (S i) to_remove r
      else ts :: drop_indices (S i) to_remove r
  end.

Definition de_densify (dry_run : bool) (l : list Timestamp)
  : list Timestamp * list (string * string) :=
  if Nat.ltb 1 (length l) then
    let '(to_remove, log) := dense_pairs (stable_sort (times_with_index 0 l)) ∅ in
    (if bool_decide (to_remove ≠ ∅) && negb dry_run
     then drop_indices 0 to_remove l else l, log)
  else (l, []).

(** The resolution of the close pairs told without the set of indices: the
    neighbours [(prev, curr)] of the sorted list in turn, [prev_removed]
    saying that the pair before removed its later entry, which is [prev]. *)
Fixpoint resolve_dense (prev_removed : bool) (l : list (Z * (nat * Timestamp)))
  : list nat * list (string * string) :=
  match l with
  | (prev_s, (prev_idx, prev_ts)) :: (((curr_s, (curr_idx, curr_ts)) :: _) as r) =>
      if negb prev_removed && (curr_s - prev_s <? MIN_SEP_S)
      then
        let curr_longer :=
          Nat.ltb (String.length (description prev_ts))
                  (String.length (description curr_ts)) in
        let '(rm, log) := resolve_dense (negb curr_longer) r in
        ((if curr_longer then prev_idx else curr_idx) :: rm,
         (time prev_ts, time curr_ts) :: log)
      else resolve_dense false r
  | _ => ([], [])
  end.

(** Step 4, one timestamp. *)
Definition rewrite_entry (dry_run : bool) (context : string) (ts : Timestamp)
  : Timestamp * list Rewrite :=
  let time_str := time ts in
  let label := label ts in
  let desc := description ts in
  let new_label :=
    if is_weak_label label then Some (rewrite_label label context) else None in
  let new_desc :=
    if is_weak_description desc label then
      let new_desc := rewrite_description desc label context in
      Some (if Nat.ltb DESC_WORDS_MAX (word_count new_desc)
            then Str.join " " (firstn DESC_WORDS_MAX (Str.split_ws new_desc))
            else new_desc)
    else None in
  let ts' :=
    if dry_run then ts
    else {| time := time_str;
            label := match new_label with Some l => l | None => label end;
            description := match new_desc with Some d => d | None => desc end |} in
  (ts',
   match new_label, new_desc with
   | None, None => []
   | _, _ => [{| rw_label := option_map (fun l => (label, l)) new_label;
                 rw_desc := option_map (fun d => (desc, d)) new_desc;
                 rw_time := time_str |}]
   end).

Definition flat_map_log {A B C : Type} (f : A -> B * list C) (l : list A)
  : list B * list C :=
  (map (fun x => fst (f x)) l, concat (map (fun x => snd (f x)) l)).

(** [process_lesson(lesson, dry_run)]: the lesson as the call leaves it
    (the function mutates its argument) and the returned record. *)
Definition process_lesson (lesson : Lesson) (dry_run : bool) : Lesson * ProcessResult :=
  let duration0 := duration lesson in
  let '(duration1, dchanged, dlog) :=
    if is_empty duration0 then (duration0, false, [])
    else
      let '(normalized_duration, changed) := normalize_time duration0 in
      if changed
      then (if dry_run then duration0 else normalized_duration, true,
            [(duration0, normalized_duration)])
      else (duration0, false, []) in
  let '(ts1, tlog) := flat_map_log (normalize_entry dry_run) (timestamps lesson) in
  let '(ts2, removed) := de_densify dry_run ts1 in
  let '(ts3, rewrites) :=
    flat_map_log (rewrite_entry dry_run (Str.prefix 500 (content lesson))) ts2 in
  ({| id := id lesson; title := title lesson; duration := duration1;
      content := content lesson; timestamps := ts3 |},
   {| lesson_id := id lesson;
      duration_changed := dchanged;
      normalized_times := dlog ++ tlog;
      removed_dense_pairs := removed;
      rewritten := rewrites |}).


(** The record of a lesson for which nothing was logged. *)
Definition no_changes (r : ProcessResult) : bool :=
  negb (duration_changed r) && is_nil (normalized_times r)
  && is_nil (removed_dense_pairs r) && is_nil (rewritten r).

(** The loop of [main] over the weeks and their lessons; a lesson outside a
    non-empty [selection] is skipped. *)
Definition selected (selection : option (list string)) (lesson : Lesson) : bool :=
  match selection with
  | None | Some [] => true
  | Some sel => Str.mem (id lesson) sel
  end.

Definition process_week (selection : option (list string)) (dry_run : bool)
    (week : Week) : Week * list ProcessResult :=
  let step lesson :=
    if selected selection lesson
    then let '(lesson', r) := process_lesson lesson dry_run in (lesson', [r])
    else (lesson, []) in
  let '(ls, rs) := flat_map_log step (lessons week) in
  ({| week_id := week_id week; lessons := ls |}, rs).

Definition process_course (selection : option (list string)) (dry_run : bool)
    (course : Course) : Course * list ProcessResult :=
  flat_map_log (process_week selection dry_run) course.

(** [create_backup(course_path, backups_dir)] *)
Definition create_backup (course_path backups_dir : string) : IO.io string :=
  IO.bind (IO.mkdir backups_dir) (fun _ =>
  IO.bind IO.strftime_now (fun stamp =>
  let backup_path :=
    IO.path_join backups_dir ("course_backup_" +:+ stamp +:+ ".json") in
  IO.bind (IO.copy2 course_path backup_path) (fun _ =>
  IO.ret backup_path))).

(** [write_logs(results, log_path, ndjson_path, dry_run)] *)
Definition write_log (path : option string) : IO.io unit :=
  match path with
  | Some p =>
      if is_empty p then IO.ret tt
      else IO.bind (IO.mkdir (Str.parent p)) (fun _ => IO.write_file p IO.ReportDoc)
  | None => IO.ret tt
  end.

Definition write_logs (log_path ndjson_path : option string) : IO.io unit :=
  IO.bind (write_log log_path) (fun _ => write_log ndjson_path).

(** [main(course_json_path, backups_dir, selection, ..., dry_run, log_path,
    ndjson_path, ...)]: the lesson results and the backup path. *)
Definition main (course_json_path backups_dir : string)
    (selection : option (list string)) (dry_run : bool)
    (log_path ndjson_path : option string)
  : IO.io (list ProcessResult * option string) :=
  IO.bind (IO.load_course course_json_path) (fun course_data =>
  IO.bind (if dry_run then IO.ret None
           else IO.bind (create_backup course_json_path backups_dir)
                        (fun p => IO.ret (Some p))) (fun backup =>
  let '(course', results) := process_course selection dry_run course_data in
  IO.bind (if dry_run then IO.ret tt
           else IO.write_file course_json_path (IO.CourseDoc course')) (fun _ =>
  IO.bind (write_logs log_path ndjson_path) (fun _ =>
  IO.ret (results, backup))))).

End Fix.

(** ** audit_timestamps.py *)

Inductive verdict : Type := Pass | NeedsFixes.

Inductive action : Type :=
| fix_duration | fix_range | fix_order | fix_coverage | fix_density | rewrite_summaries.

Inductive severity : Type := Critical | High | Medium | Low.

Record Gap : Type := mkGap {
  gap_start : string;
  gap_end : string;
  length_s : Z
}.

(** The report entry of one lesson ([timestamp_issues], [summary_issues],
    [acceptance] and [actions] of the JSON report). *)
Record Report : Type := mkReport {
  duration_ok : bool;
  format : list string;
  out_of_range : list string;
  non_monotonic : list string;
  density : list (string * string);
  coverage_gaps : list Gap;
  vague_labels : list string;
  weak_descriptions : list string;
  timestamps_pass : bool;
  summaries_pass : bool;
  overall : verdict;
  actions : list action
}.

(** The values [json.load] returns: [None], booleans, numbers (integers
    here), strings, lists, and dictionaries with string keys. *)
#[local] Set Warnings "-register-all".

Inductive json : Type :=
| JNull
| JBool (b : bool)
| JNum (z : Z)
| JStr (s : string)
| JList (l : list json)
| JDict (m : gmap string json).

Module Audit.

(** [jget(obj, path)]: follow the keys of [path] through nested
    dictionaries; [None] as soon as the current value is not a dictionary or
    lacks the key. *)
Fixpoint jget (obj : json) (path : list string) : json :=
  match path with
  | [] => obj
  | p :: r =>
      match obj with
      | JDict m =>
          match m !! p with
          | Some v => jget v r
          | None => JNull
          end
      | _ => JNull
      end
  end.

(** The thresholds, with the defaults of the command line. *)
Record Config : Type := mkConfig {
  max_gap_s : Z;
  min_sep_s : Z;
  label_min : Z;
  label_max : Z;
  desc_min : Z;
  desc_max : Z
}.

Definition default_config : Config :=
  {| max_gap_s := 900; min_sep_s := 8;
     label_min := 2; label_max := 5; desc_min := 5; desc_max := 15 |}.

Definition GENERIC_LABELS : list string :=
  ["overview"; "discussion"; "recap"; "intro"; "general"]%string.

(** [TIME_RE] of this script is [Py.match_clock]. *)
Definition to_seconds (hmmss : string) : option Z :=
  match Py.match_clock (Py.strip (chars_of hmmss)) with
  | None => None
  | Some (g1, mm, ss) =>
      let h := match g1 with Some h => h | None => 0 end in
      Some (h * 3600 + mm * 60 + ss)
  end.

Definition is_h_mm_ss (s : string) : bool :=
  match Py.match_clock (Py.strip (chars_of s)) with Some _ => true | None => false end.

Definition words (s : string) : list string := Str.find_word_runs (Str.lower s).

Definition word_count (s : string) : Z := Z.of_nat (length (words s)).

Definition severity_from_flags
    (has_range has_order has_coverage has_density has_labelweak has_descweak : bool)
  : severity :=
  if has_range || has_order then Critical
  else if has_coverage || has_density then High
  else if has_labelweak || has_descweak then Medium
  else Low.

(** The first loop: the stripped texts that are not clocks, and the
    seconds of the others. *)
Fixpoint scan_times (l : list Timestamp) : list (option Z) * list string :=
  match l with
  | [] => ([], [])
  | t :: r =>
      let ts := Str.strip (time t) in
      let '(times_s, bad_format) := scan_times r in
      if negb (is_h_mm_ss ts) then (times_s, ts :: bad_format)
      else (to_seconds ts :: times_s, bad_format)
  end.

(** The order loop: [prev] is the largest value seen so far. *)
Fixpoint order_check (prev : Z) (l : list (option Z * Timestamp)) : list string :=
  match l with
  | [] => []
  | (None, _) :: r => order_check prev r
  | (Some s_val, t) :: r =>
      when (s_val <? prev) (time t) ++ order_check (Z.max prev s_val) r
  end.

Definition label_is_vague (cfg : Config) (t : Timestamp) : bool :=
  let label := Str.strip (label t) in
  let lw := word_count label in
  let tokens := words label in
  let is_generic := existsb (fun g => Str.mem g tokens) GENERIC_LABELS in
  (lw <? label_min cfg) || (label_max cfg <? lw) || is_generic.

(** The overlap ratio [len(l & d) / max(1, len(d))] is compared with [0.7];
    the quotient of two counts is at least the double nearest to seven
    tenths exactly when ten times the first count is at least seven times the
    second (for counts far below [2 ^ 50]). *)
Definition description_is_weak (cfg : Config) (t : Timestamp) : bool :=
  let label := Str.strip (label t) in
  let desc := Str.strip (description t) in
  let dw := word_count desc in
  let ltoks : gset string := list_to_set (words label) in
  let dtoks : gset string := list_to_set (words desc) in
  let overlap_high :=
    if bool_decide (dtoks ≠ ∅)
    then Nat.leb (7 * Nat.max 1 (size dtoks)) (10 * size (ltoks ∩ dtoks))
    else false in
  (dw <? desc_min cfg) || (desc_max cfg <? dw) || overlap_high.

(** The body of the loop over the lessons in [main]: the report entry of one
    lesson.  The coverage loop subtracts two entries of [times_s] without
    looking for [None]; that would be a [TypeError]. *)
Definition audit_lesson (cfg : Config) (lesson : Lesson) : result Report :=
  let duration_str := duration lesson in
  let timestamps := timestamps lesson in
  let duration_ok :=
    negb (String.eqb duration_str "") && is_h_mm_ss (Str.strip duration_str) in
  let duration_s := if duration_ok then to_seconds (Str.strip duration_str) else None in
  let '(times_s, bad_format) := scan_times timestamps in
  let indexed := combine times_s timestamps in
  let out_of_range :=
    match duration_s with
    | Some d =>
        concat (map (fun '(s_val, t) =>
                       match s_val with
                       | None => [time t]
                       | Some v => when ((v <? 0) || (d <? v)) (time t)
                       end) indexed)
    | None => []
    end in
  let non_monotonic := order_check (-1) indexed in
  let too_dense :=
    concat (map (fun '((a, t0), (b, t1)) =>
                   match a, b with
                   | Some a, Some b => when (b - a <? min_sep_s cfg) (time t0, time t1)
                   | _, _ => []
                   end) (pairs indexed)) in
  coverage_gaps ←
    match duration_s with
    | Some _ =>
        if Nat.leb 2 (length times_s) then
          gaps ← mapM (fun '((a, t0), (b, t1)) =>
                         match a, b with
                         | Some a, Some b =>
                             let gap := b - a in
                             mret (when (max_gap_s cfg <? gap)
                                     {| gap_start := time t0; gap_end := time t1;
                                        length_s := gap |})
                         | _, _ => Raise TypeError
                         end) (pairs indexed);
          mret (concat gaps)
        else mret []
    | None => mret []
    end;
  let coverage_ok := is_nil coverage_gaps in
  let vague_labels := map time (List.filter (label_is_vague cfg) timestamps) in
  let weak_descriptions := map time (List.filter (description_is_weak cfg) timestamps) in
  let label_quality_ok := is_nil vague_labels in
  let desc_quality_ok := is_nil weak_descriptions in
  let range_bad := negb (is_nil out_of_range) in
  let order_ok := is_nil non_monotonic in
  let density_ok := is_nil too_dense in
  let tpass := duration_ok && negb range_bad && order_ok && coverage_ok && density_ok in
  mret {| duration_ok := duration_ok;
          format := bad_format;
          out_of_range := out_of_range;
          non_monotonic := non_monotonic;
          density := too_dense;
          coverage_gaps := coverage_gaps;
          vague_labels := vague_labels;
          weak_descriptions := weak_descriptions;
          timestamps_pass := tpass;
          summaries_pass := label_quality_ok && desc_quality_ok;
          overall :=
            if duration_ok && negb range_bad && order_ok && coverage_ok && density_ok
               && label_quality_ok && desc_quality_ok
            then Pass else NeedsFixes;
          actions :=
            when (negb duration_ok) fix_duration ++ when range_bad fix_range
            ++ when (negb order_ok) fix_order ++ when (negb coverage_ok) fix_coverage
            ++ when (negb density_ok) fix_density
            ++ when (negb label_quality_ok || negb desc_quality_ok) rewrite_summaries |}.

(** The severity written to the CSV row of a lesson: the six flags are
    whether the range, order, coverage, density, label and description lists
    of the report are non-empty. *)
Definition row_severity (r : Report) : severity :=
  severity_from_flags
    (negb (is_nil (out_of_range r))) (negb (is_nil (non_monotonic r)))
    (negb (is_nil (coverage_gaps r))) (negb (is_nil (density r)))
    (negb (is_nil (vague_labels r))) (negb (is_nil (weak_descriptions r))).

End Audit.

(** ** audit_timestamps_enhanced.py *)

Module AuditEnhanced.

Definition MAX_GAP_S : Z := 900.
Definition MIN_SEP_S : Z := 8.

Definition GENERIC_LABELS : gset string :=
  {[ "overview"; "discussion"; "recap"; "intro"; "general"; "introduction"; "review" ]}%string.

(** [TIME_RE] of this script allows a trailing note: [Py.match_clock_note]. *)
Definition to_seconds (time_str : string) : option Z :=
  match Py.match_clock_note (Py.strip (chars_of time_str)) with
  | None => None
  | Some (g1, m, s) =>
      let h := match g1 with Some h => h | None => 0 end in
      Some (h * 3600 + m * 60 + s)
  end.

Definition is_clean_duration (duration_str : string) : bool :=
  match Py.match_clock (Py.strip (chars_of duration_str)) with
  | Some _ => true
  | None => false
  end.

Definition extract_words (text : string) : list string :=
  Str.find_alnum_words (Str.lower text).

Definition word_count (text : string) : nat := length (extract_words text).

Definition check_label_quality (label : string) : bool :=
  if String.eqb label "" then false
  else
    let wc := word_count label in
    if Nat.ltb wc 2 || Nat.ltb 5 wc then false
    else
      let words : gset string := list_to_set (extract_words label) in
      if Nat.eqb (size words) 1 && bool_decide (words ⊆ GENERIC_LABELS) then false
      else true.

Definition check_description_quality (desc label : string) : bool :=
  if String.eqb desc "" then false
  else
    let wc := word_count desc in
    if Nat.ltb wc 5 || Nat.ltb 15 wc then false
    else
      let label_words : gset string := list_to_set (extract_words label) in
      let desc_words : gset string := list_to_set (extract_words desc) in
      if bool_decide (label_words ≠ ∅) && bool_decide (desc_words ≠ ∅)
      then negb (Nat.ltb (7 * size desc_words) (10 * size (label_words ∩ desc_words)))
      else true.

(** What the first loop collects. *)
Record Scan : Type := mkScan {
  sc_times : list (Z * string);
  sc_format : list string;
  sc_out_of_range : list string;
  sc_vague : list string;
  sc_weak : list string
}.

Fixpoint scan (duration_s : option Z) (l : list Timestamp) : Scan :=
  match l with
  | [] => mkScan [] [] [] [] []
  | ts :: r =>
      let rest := scan duration_s r in
      let time_str := time ts in
      match to_seconds time_str with
      | None =>
          mkScan (sc_times rest) (time_str :: sc_format rest)
                 (sc_out_of_range rest) (sc_vague rest) (sc_weak rest)
      | Some time_s =>
          let out :=
            match duration_s with
            | Some d => negb (d =? 0) && ((time_s <? 0) || (d <? time_s))
            | None => false
            end in
          mkScan ((time_s, time_str) :: sc_times rest)
                 (sc_format rest)
                 (when out time_str ++ sc_out_of_range rest)
                 (when (negb (check_label_quality (label ts))) time_str ++ sc_vague rest)
                 (when (negb (check_description_quality (description ts) (label ts)))
                    time_str ++ sc_weak rest)
      end
  end.

Definition audit_lesson (lesson : Lesson) : Report :=
  let duration_str := duration lesson in
  let duration_ok := is_clean_duration duration_str in
  let duration_s := if duration_ok then to_seconds duration_str else None in
  let sc := scan duration_s (timestamps lesson) in
  let times_s := sc_times sc in
  let non_monotonic :=
    map (fun '(_, c) => snd c)
        (List.filter (fun '(p, c) => fst c <? fst p) (pairs times_s)) in
  let density :=
    map (fun '(p, c) => (snd p, snd c))
        (List.filter (fun '(p, c) => fst c - fst p <? MIN_SEP_S) (pairs times_s)) in
  let coverage_gaps :=
    if Nat.ltb 1 (length times_s) then
      map (fun '(p, c) =>
             {| gap_start := snd p; gap_end := snd c; length_s := fst c - fst p |})
          (List.filter (fun '(p, c) => MAX_GAP_S <? fst c - fst p) (pairs times_s))
    else [] in
  let timestamps_pass :=
    duration_ok && is_nil (sc_format sc) && is_nil (sc_out_of_range sc)
    && is_nil non_monotonic && is_nil density && is_nil coverage_gaps in
  let summaries_pass := is_nil (sc_vague sc) && is_nil (sc_weak sc) in
  {| duration_ok := duration_ok;
     format := sc_format sc;
     out_of_range := sc_out_of_range sc;
     non_monotonic := non_monotonic;
     density := density;
     coverage_gaps := coverage_gaps;
     vague_labels := sc_vague sc;
     weak_descriptions := sc_weak sc;
     timestamps_pass := timestamps_pass;
     summaries_pass := summaries_pass;
     overall := if timestamps_pass && summaries_pass then Pass else NeedsFixes;
     actions :=
       when (negb duration_ok) fix_duration
       ++ when (negb (is_nil (sc_out_of_range sc))) fix_range
       ++ when (negb (is_nil non_monotonic)) fix_order
       ++ when (negb (is_nil coverage_gaps)) fix_coverage
       ++ when (negb (is_nil density)) fix_density
       ++ when (negb summaries_pass) rewrite_summaries |}.

End AuditEnhanced.

(** ** Sample lessons *)

Definition entry (t l d : string) : Timestamp :=
  {| time := t; label := l; description := d |}.

Definition lesson_of (d : string) (l : list Timestamp) : Lesson :=
  {| id := "w1-l1"; title := ""; duration := d; content := ""; timestamps := l |}.

(** Two well-described entries, the later one first. *)
Definition lesson_out_of_order : Lesson :=
  lesson_of "0:10:00"
    [entry "0:00:30" "Opening Remarks" "Welcome to the course and goals";
     entry "0:00:10" "Closing Remarks" "Wrap up of the course and goals"].

(** An entry twenty minutes into a ten-minute lesson. *)
Definition lesson_past_end : Lesson :=
  lesson_of "0:10:00"
    [entry "0:20:00" "Closing Remarks" "Wrap up of the course and goals"].

(** An entry exactly at the end of the lesson. *)
Definition lesson_at_end : Lesson :=
  lesson_of "0:10:00"
    [entry "0:10:00" "Closing Remarks" "Wrap up of the course and goals"].

(** A well-described entry whose time is not a clock. *)
Definition lesson_malformed_time : Lesson :=
  lesson_of "0:10:00"
    [entry "abc" "Opening Remarks" "Welcome to the course and goals"].

(** Two entries five seconds apart, the later one with the longer
    description. *)
Definition dense_first : Timestamp :=
  entry "0:01:00" "Opening Remarks" "Welcome to the course goals".

Definition dense_second : Timestamp :=
  entry "0:01:05" "Course Walkthrough"
        "Walk through every single goal of the whole course".

Definition lesson_dense_pair : Lesson :=
  lesson_of "0:10:00" [dense_first; dense_second].

(** An entry whose time has no colon, after an entry two minutes in. *)
Definition lesson_unparsable_time : Lesson :=
  lesson_of "0:10:00"
    [entry "0:02:00" "Opening Remarks" "Welcome to the course and goals";
     entry "abc" "Closing Remarks" "Wrap up of the course and goals"].

(** An entry whose time has no colon, after an entry at the start. *)
Definition lesson_unparsable_at_start : Lesson :=
  lesson_of "0:10:00"
    [entry "0:00:00" "Opening Remarks" "Welcome to the course and goals";
     entry "abc" "Closing Remarks" "Wrap up of the course and goals"].

(** Three entries with descriptions of one length, at seconds 0, 5 and 7. *)
Definition lesson_dense_chain : Lesson :=
  lesson_of "0:10:00"
    [entry "0:00:00" "Opening Remarks" "Welcome to the course and goals";
     entry "0:00:05" "Middle Remarks" "Welcome to the course and goals";
     entry "0:00:07" "Closing Remarks" "Wrap up of the course and goals"].

Definition chain_course : Course :=
  [{| week_id := "week-1"; lessons := [lesson_dense_chain] |}].

(** Two entries 800 seconds apart in a lesson of 1000 seconds. *)
Definition lesson_wide_gap : Lesson :=
  lesson_of "0:16:40"
    [entry "0:00:00" "Opening Remarks" "Welcome to the course and goals";
     entry "0:13:20" "Closing Remarks" "Wrap up of the course and goals"].

Definition gap_course : Course :=
  [{| week_id := "week-1"; lessons := [lesson_wide_gap] |}].

(** A course of one week holding [lesson_out_of_order], and a world whose
    files are that course and an audit report. *)
Definition sample_course : Course :=
  [{| week_id := "week-1"; lessons := [lesson_out_of_order] |}].

Definition sample_world : IO.World :=
  {| IO.fs := {[ FixEnhanced.COURSE_JSON := IO.CourseDoc sample_course;
                 FixEnhanced.AUDIT_REPORT := IO.ReportDoc ]};
     IO.now := "20250815_120000";
     IO.trace := [];
     IO.faults := IO.no_faults |}.

Definition no_keywords (lesson : Lesson) : list string := [].

(** A lesson with an entry whose minutes field is not a number, and a world
    whose course file holds it. *)
Definition lesson_bad_field : Lesson :=
  lesson_of "0:10:00"
    [entry "1:xx" "Opening Remarks" "Welcome to the course and goals"].

Definition bad_field_world : IO.World :=
  {| IO.fs := {[ FixEnhanced.COURSE_JSON :=
                   IO.CourseDoc [{| week_id := "week-1"; lessons := [lesson_bad_field] |}];
                 FixEnhanced.AUDIT_REPORT := IO.ReportDoc ]};
     IO.now := "20250815_120000";
     IO.trace := [];
     IO.faults := IO.no_faults |}.

(** A world whose course file holds [gap_course] and in which the report of
    an applied run cannot be written. *)
Definition refused_report_world : IO.World :=
  {| IO.fs := {[ FixEnhanced.COURSE_JSON := IO.CourseDoc gap_course;
                 FixEnhanced.AUDIT_REPORT := IO.ReportDoc ]};
     IO.now := "20250815_120000";
     IO.trace := [];
     IO.faults := fun _ p =>
       if String.eqb p "audits/fix_pass_applied_20250815_120000.json"
       then IO.Refused else IO.NoFault |}.

(** * Properties *)

(** ** Results, [mapM] and sorting *)

Lemma bind_Ok {A B : Type} (m : result A) (f : A -> result B) (b : B) :
  (m ≫= f) = Ok b -> exists a, m = Ok a /\ f a = Ok b.
Proof. destruct m as [a|e]; [exists a; split; [reflexivity | assumption] | discriminate]. Qed.

Ltac inv_bind H :=
  let a := fresh "a" in
  let Ha := fresh "Ha" in
  apply bind_Ok in H as (a & Ha & H); cbn beta in H.

(** The same, with names for a first step that later steps do not count. *)
Ltac inv_first H g Hg :=
  apply bind_Ok in H as (g & Hg & H); cbn beta in H.

Lemma Ok_inj {A : Type} (a b : A) : Ok a = Ok b -> a = b.
Proof. intros [= ->]. reflexivity. Qed.

Ltac inv_ret H :=
  cbv [mret result_ret] in H; apply Ok_inj in H.

Lemma mapM_Ok_Forall2 {A B : Type} (f : A -> result B) (l : list A) (ys : list B) :
  mapM f l = Ok ys <-> Forall2 (fun x y => f x = Ok y) l ys.
Proof.
  revert ys. induction l as [|x l IH]; intros ys; cbn [mapM].
  - split; [intros [= <-]; constructor | intros H; inversion H; reflexivity].
  - split.
    + intros H. inv_bind H. inv_bind H. inv_ret H. subst ys.
      constructor; [assumption | apply IH; assumption].
    + intros H. inversion H as [|? y ? ys' Hx Hl]; subst.
      rewrite Hx. cbn. apply IH in Hl. rewrite Hl. reflexivity.
Qed.

Lemma mapM_map {A B C : Type} (g : A -> B) (f : B -> result C) (l : list A) :
  mapM f (map g l) = mapM (fun x => f (g x)) l.
Proof. induction l as [|x l IH]; cbn; [reflexivity | rewrite IH; reflexivity]. Qed.

Lemma mapM_pairs {A : Type} (f : A -> result Z) (ks : list (Z * A)) :
  Forall (fun kt => f (snd kt) = Ok (fst kt)) ks ->
  mapM f (map snd ks) = Ok (map fst ks).
Proof.
  induction 1 as [|[k t] ks Hk _ IH]; cbn; [reflexivity|].
  cbn in Hk. rewrite Hk. cbn. rewrite IH. reflexivity.
Qed.

Lemma insert_by_key_perm {A : Type} (x : Z * A) (l : list (Z * A)) :
  Permutation (insert_by_key x l) (x :: l).
Proof.
  induction l as [|y l IH]; cbn; [reflexivity|].
  destruct (fst x <=? fst y); [reflexivity|].
  rewrite IH. apply perm_swap.
Qed.

Lemma stable_sort_perm {A : Type} (l : list (Z * A)) : Permutation (stable_sort l) l.
Proof.
  induction l as [|x l IH]; cbn; [reflexivity|].
  rewrite insert_by_key_perm. constructor. assumption.
Qed.

Lemma insert_by_key_sorted {A : Type} (x : Z * A) (l : list (Z * A)) :
  Sorted Z.le (map fst l) -> Sorted Z.le (map fst (insert_by_key x l)).
Proof.
  induction l as [|y l IH]; cbn; intros Hs.
  - repeat constructor.
  - destruct (fst x <=? fst y) eqn:E.
    + apply Z.leb_le in E. cbn. constructor; [assumption | constructor; assumption].
    + apply Z.leb_gt in E. cbn. inversion Hs as [|? ? Hs' Hhd]; subst.
      constructor; [apply IH; assumption|].
      destruct l as [|z l]; cbn.
      * constructor. lia.
      * destruct (fst x <=? fst z); cbn; constructor; [lia|].
        inversion Hhd; assumption.
Qed.

Lemma stable_sort_sorted {A : Type} (l : list (Z * A)) :
  Sorted Z.le (map fst (stable_sort l)).
Proof.
  induction l as [|x l IH]; cbn; [constructor|].
  apply insert_by_key_sorted. assumption.
Qed.

(** ** Facts about the string primitives *)

Section PyFacts.
Import Py.

#[local] Arguments digit_char : simpl never.
#[local] Arguments digit_val : simpl never.
#[local] Arguments is_digit : simpl never.
#[local] Arguments is_space : simpl never.
#[local] Arguments Ascii.eqb : simpl never.

Lemma digit_char_cases (d : Z) :
  0 <= d < 10 ->
  d = 0 \/ d = 1 \/ d = 2 \/ d = 3 \/ d = 4 \/ d = 5 \/ d = 6 \/ d = 7 \/ d = 8 \/ d = 9.
Proof. lia. Qed.

Ltac each_digit d H :=
  destruct (digit_char_cases d H)
    as [-> | [-> | [-> | [-> | [-> | [-> | [-> | [-> | [-> | ->]]]]]]]]].

Lemma digit_char_is_digit (d : Z) : 0 <= d < 10 -> is_digit (digit_char d) = true.
Proof. intros H. each_digit d H; reflexivity. Qed.

Lemma digit_val_char (d : Z) : 0 <= d < 10 -> digit_val (digit_char d) = d.
Proof. intros H. each_digit d H; reflexivity. Qed.

Ltac by_char c := destruct c as [[] [] [] [] [] [] [] []]; try reflexivity; try discriminate.

Lemma digit_plain c : is_digit c = true -> plain_char c = true.
Proof. unfold plain_char. intros ->. reflexivity. Qed.

Lemma plain_not_space c : plain_char c = true -> is_space c = false.
Proof. by_char c. Qed.

Lemma plain_not_colon c : plain_char c = true -> Ascii.eqb c ":" = false.
Proof. by_char c. Qed.

Lemma plain_not_open c : plain_char c = true -> Ascii.eqb c "(" = false.
Proof. by_char c. Qed.

Lemma colon_not_space_open c :
  Ascii.eqb c ":" = true -> is_space c = false /\ Ascii.eqb c "(" = false.
Proof. by_char c. intros _. split; reflexivity. Qed.

Lemma digit_not_sign c :
  is_digit c = true -> Ascii.eqb c "-" = false /\ Ascii.eqb c "+" = false.
Proof. by_char c. all: intros _; split; reflexivity. Qed.

Lemma forallb_weaken {A} (p q : A -> bool) (l : list A) :
  (forall x, p x = true -> q x = true) -> forallb p l = true -> forallb q l = true.
Proof.
  intros Hpq. induction l as [|x l IH]; simpl; [reflexivity|].
  intros H. apply andb_true_iff in H as [Hx Hl].
  rewrite (Hpq _ Hx), (IH Hl). reflexivity.
Qed.

(** *** Decimal digits *)

Lemma digits_go_value (f : nat) : forall n acc,
  0 <= n < 2 ^ Z.of_nat f ->
  fold_left digit_step (digits_go f n acc) 0 = fold_left digit_step acc n.
Proof.
  induction f as [|f IH]; intros n acc Hn.
  - simpl in *. replace n with 0 by lia. reflexivity.
  - rewrite Nat2Z.inj_succ, Z.pow_succ_r in Hn by lia.
    assert (Hm : 0 <= n mod 10 < 10) by (apply Z.mod_pos_bound; lia).
    assert (Hd : n = 10 * (n / 10) + n mod 10) by (apply Z.div_mod; lia).
    simpl. destruct (n / 10 =? 0) eqn:E.
    + apply Z.eqb_eq in E. simpl. unfold digit_step at 2.
      rewrite digit_char_is_digit, digit_val_char by assumption.
      f_equal. lia.
    + apply Z.eqb_neq in E. rewrite IH.
      * simpl. unfold digit_step at 2.
        rewrite digit_char_is_digit, digit_val_char by assumption.
        f_equal. lia.
      * split; [apply Z.div_pos; lia|].
        apply Z.div_lt_upper_bound; [lia|].
        assert (0 < 2 ^ Z.of_nat f) by (apply Z.pow_pos_nonneg; lia). lia.
Qed.

Lemma digits_go_all_digits (f : nat) : forall n acc,
  0 <= n -> forallb is_digit acc = true ->
  forallb is_digit (digits_go f n acc) = true.
Proof.
  induction f as [|f IH]; intros n acc Hn Hacc; cbn [digits_go]; [assumption|].
  assert (Hm : 0 <= n mod 10 < 10) by (apply Z.mod_pos_bound; lia).
  destruct (n / 10 =? 0).
  - cbn [forallb]. rewrite digit_char_is_digit, Hacc by assumption. reflexivity.
  - apply IH; [apply Z.div_pos; lia|].
    cbn [forallb]. rewrite digit_char_is_digit, Hacc by assumption. reflexivity.
Qed.

Lemma digits_go_nonempty (f : nat) : forall n acc,
  acc <> [] -> digits_go f n acc <> [].
Proof.
  induction f as [|f IH]; intros n acc Hacc; cbn [digits_go]; [assumption|].
  destruct (n / 10 =? 0); [discriminate|]. apply IH. discriminate.
Qed.

Lemma log2_fuel (n : Z) : 0 <= n -> 0 <= n < 2 ^ Z.of_nat (S (Z.to_nat (Z.log2 n))).
Proof.
  intros Hn. split; [assumption|].
  rewrite Nat2Z.inj_succ, Z2Nat.id by apply Z.log2_nonneg.
  destruct (Z.eq_dec n 0) as [-> | Hne]; [reflexivity|].
  apply Z.log2_spec. lia.
Qed.

Lemma digits_value_digits (n : Z) : 0 <= n -> digits_value (digits n) = n.
Proof.
  intros Hn. unfold digits_value, digits.
  rewrite digits_go_value by (apply log2_fuel; assumption). reflexivity.
Qed.

Lemma digits_all_digits (n : Z) : 0 <= n -> forallb is_digit (digits n) = true.
Proof. intros Hn. apply digits_go_all_digits; [assumption | reflexivity]. Qed.

Lemma digits_nonempty (n : Z) : digits n <> [].
Proof.
  unfold digits. cbn [digits_go]. destruct (n / 10 =? 0); [discriminate|].
  apply digits_go_nonempty. discriminate.
Qed.

Lemma digits_ok_all_digits (l : chars) (b : bool) :
  forallb is_digit l = true -> (l <> [] \/ b = true) -> digits_ok b l = true.
Proof.
  revert b. induction l as [|c l IH]; intros b Hall Hne; simpl in *.
  - destruct Hne as [Hne | ->]; [contradiction | reflexivity].
  - apply andb_true_iff in Hall as [Hc Hl]. rewrite Hc.
    apply IH; [assumption | right; reflexivity].
Qed.

(** *** Stripping and splitting plain text *)

Lemma lstrip_no_space (l : chars) :
  forallb (fun c => negb (is_space c)) l = true -> lstrip l = l.
Proof.
  destruct l as [|c l]; simpl; [reflexivity|].
  intros H. apply andb_true_iff in H as [Hc _].
  destruct (is_space c); [discriminate | reflexivity].
Qed.

Lemma strip_no_space (l : chars) :
  forallb (fun c => negb (is_space c)) l = true -> strip l = l.
Proof.
  intros H. unfold strip, rstrip. rewrite (lstrip_no_space l H).
  rewrite lstrip_no_space, rev_involutive; [reflexivity|].
  rewrite forallb_forall in *. intros c Hc. apply H. apply in_rev. assumption.
Qed.

Lemma c_space_is_space (c : ascii) : is_c_space c = true -> is_space c = true.
Proof. by_char c. Qed.

Lemma int_lstrip_no_space (l : chars) :
  forallb (fun c => negb (is_space c)) l = true -> int_lstrip l = l.
Proof.
  destruct l as [|c l]; cbn [int_lstrip forallb]; [reflexivity|].
  intros H. apply andb_true_iff in H as [Hc _].
  destruct (is_c_space c) eqn:E; [|reflexivity].
  rewrite (c_space_is_space c E) in Hc. discriminate.
Qed.

Lemma int_strip_no_space (l : chars) :
  forallb (fun c => negb (is_space c)) l = true -> int_strip l = l.
Proof.
  intros H. unfold int_strip. rewrite (int_lstrip_no_space l H).
  rewrite int_lstrip_no_space, rev_involutive; [reflexivity|].
  rewrite forallb_forall in *. intros c Hc. apply H. apply in_rev. assumption.
Qed.

Lemma match_paren_note_none (l : chars) :
  forallb (fun c => negb (Ascii.eqb c "(")) l = true -> match_paren_note l = None.
Proof.
  unfold match_paren_note.
  induction l as [|c l IH]; simpl; [reflexivity|].
  intros H. apply andb_true_iff in H as [Hc Hl].
  destruct (is_space c); [apply IH; assumption|].
  destruct (Ascii.eqb c "("); [discriminate | reflexivity].
Qed.

Lemma sub_paren_notes_no_open (l : chars) :
  forallb (fun c => negb (Ascii.eqb c "(")) l = true -> sub_paren_notes l = l.
Proof.
  unfold sub_paren_notes.
  induction l as [|c l IH]; [reflexivity|].
  intros H. cbn [sub_paren_notes_go].
  rewrite (match_paren_note_none _ H).
  simpl in H. apply andb_true_iff in H as [_ Hl].
  rewrite (IH Hl). reflexivity.
Qed.

Lemma split_on_no_sep (sep : ascii) (l : chars) :
  forallb (fun c => negb (Ascii.eqb c sep)) l = true -> split_on sep l = [l].
Proof.
  induction l as [|c l IH]; simpl; [reflexivity|].
  intros H. apply andb_true_iff in H as [Hc Hl].
  destruct (Ascii.eqb c sep); [discriminate|].
  rewrite (IH Hl). reflexivity.
Qed.

Lemma split_on_app (sep : ascii) (a b : chars) :
  forallb (fun c => negb (Ascii.eqb c sep)) a = true ->
  split_on sep (a ++ sep :: b) = a :: split_on sep b.
Proof.
  induction a as [|c a IH]; simpl.
  - intros _. rewrite Ascii.eqb_refl. reflexivity.
  - intros H. apply andb_true_iff in H as [Hc Ha].
    destruct (Ascii.eqb c sep); [discriminate|].
    rewrite (IH Ha). reflexivity.
Qed.

(** *** Printing an integer and reading it back *)

Lemma str_of_int_plain (z : Z) : forallb plain_char (str_of_int z) = true.
Proof.
  unfold str_of_int. destruct (z <? 0) eqn:E.
  - apply Z.ltb_lt in E. simpl.
    apply (forallb_weaken is_digit); [apply digit_plain|].
    apply digits_all_digits. lia.
  - apply Z.ltb_ge in E.
    apply (forallb_weaken is_digit); [apply digit_plain|].
    apply digits_all_digits. lia.
Qed.

Lemma fmt_02d_plain (z : Z) : forallb plain_char (fmt_02d z) = true.
Proof.
  unfold fmt_02d. destruct ((0 <=? z) && (z <? 10)); simpl;
    rewrite str_of_int_plain; reflexivity.
Qed.

Lemma int_of_digits (l : chars) :
  forallb is_digit l = true -> l <> [] -> int_of l = Ok (digits_value l).
Proof.
  intros Hall Hne. unfold int_of.
  rewrite int_strip_no_space.
  2:{ apply (forallb_weaken is_digit); [|assumption].
      intros c Hc. rewrite (plain_not_space c (digit_plain c Hc)). reflexivity. }
  destruct l as [|c r]; [contradiction|].
  assert (Hc : is_digit c = true) by (simpl in Hall; apply andb_true_iff in Hall; tauto).
  destruct (digit_not_sign c Hc) as [-> ->].
  rewrite digits_ok_all_digits; [reflexivity | assumption | left; discriminate].
Qed.

Lemma int_of_str_of_int (z : Z) : int_of (str_of_int z) = Ok z.
Proof.
  unfold str_of_int. destruct (z <? 0) eqn:E.
  - apply Z.ltb_lt in E. unfold int_of.
    rewrite int_strip_no_space.
    2:{ simpl. apply (forallb_weaken is_digit); [|apply digits_all_digits; lia].
        intros c Hc. rewrite (plain_not_space c (digit_plain c Hc)). reflexivity. }
    simpl. rewrite digits_ok_all_digits.
    + rewrite digits_value_digits by lia. f_equal. lia.
    + apply digits_all_digits. lia.
    + left. apply digits_nonempty.
  - apply Z.ltb_ge in E. rewrite int_of_digits.
    + rewrite digits_value_digits by assumption. reflexivity.
    + apply digits_all_digits. assumption.
    + apply digits_nonempty.
Qed.

Lemma int_of_fmt_02d (z : Z) : int_of (fmt_02d z) = Ok z.
Proof.
  unfold fmt_02d. destruct ((0 <=? z) && (z <? 10)) eqn:E.
  - apply andb_true_iff in E as [E1 E2]. apply Z.leb_le in E1. apply Z.ltb_lt in E2.
    unfold str_of_int. replace (z <? 0) with false by (symmetry; apply Z.ltb_ge; lia).
    rewrite int_of_digits.
    + unfold digits_value. simpl fold_left at 1.
      change (fold_left digit_step (digits z) (digit_step 0 "0")) with (digits_value (digits z)).
      rewrite digits_value_digits by assumption. reflexivity.
    + simpl. apply digits_all_digits. assumption.
    + discriminate.
  - apply int_of_str_of_int.
Qed.

End PyFacts.

(** ** Integers as floating-point numbers *)

Section FloatFacts.
Import Py.

Lemma round53_small (z : Z) : Z.abs z < 2 ^ 53 -> round53 z = z.
Proof.
  intros H. unfold round53. cbv zeta.
  destruct (Z.ltb_spec (Z.abs z) (2 ^ 53)); [reflexivity | lia].
Qed.

(** The parts of a large integer: [a = q * 2^e + r] with [q] of 53 bits. *)
Lemma split53 (a : Z) :
  2 ^ 53 <= a ->
  let e := Z.log2 a - 52 in
  let q := Z.shiftr a e in
  let r := a - Z.shiftl q e in
  1 <= e /\ 2 ^ 52 <= q < 2 ^ 53 /\ 0 <= r < 2 ^ e /\ a = q * 2 ^ e + r.
Proof.
  intros Ha e q r.
  assert (Hpos : 0 < a) by (pose proof (Z.pow_pos_nonneg 2 53); lia).
  assert (Hlog : 53 <= Z.log2 a) by (apply Z.log2_le_pow2; lia).
  assert (He : 1 <= e) by (unfold e; lia).
  destruct (Z.log2_spec a Hpos) as [Hlo Hhi].
  assert (Hq : q = a / 2 ^ e) by (unfold q; apply Z.shiftr_div_pow2; lia).
  assert (Hshl : Z.shiftl q e = q * 2 ^ e) by (apply Z.shiftl_mul_pow2; lia).
  assert (Hpe : 0 < 2 ^ e) by (apply Z.pow_pos_nonneg; lia).
  assert (Hsplit : 2 ^ Z.log2 a = 2 ^ 52 * 2 ^ e)
    by (rewrite <- Z.pow_add_r by lia; f_equal; unfold e; lia).
  assert (Hsplit' : 2 ^ Z.succ (Z.log2 a) = 2 ^ 53 * 2 ^ e)
    by (rewrite <- Z.pow_add_r by lia; f_equal; unfold e; lia).
  pose proof (Z.div_mod a (2 ^ e) ltac:(lia)) as Hdm.
  pose proof (Z.mod_pos_bound a (2 ^ e) Hpe) as Hmod.
  split; [exact He|]. split; [|split].
  - rewrite Hq. split.
    + apply Z.div_le_lower_bound; lia.
    + apply Z.div_lt_upper_bound; lia.
  - unfold r. rewrite Hshl, Hq. lia.
  - unfold r. rewrite Hshl. lia.
Qed.

Lemma round53_large (a : Z) :
  2 ^ 53 <= a ->
  exists e q r,
    1 <= e /\ 2 ^ 52 <= q < 2 ^ 53 /\ 0 <= r < 2 ^ e /\ a = q * 2 ^ e + r /\
    e = Z.log2 a - 52 /\
    round53 a
    = (if (2 ^ (e - 1) <? r) || ((r =? 2 ^ (e - 1)) && Z.odd q) then q + 1 else q) * 2 ^ e.
Proof.
  intros Ha. destruct (split53 a Ha) as (He & Hq & Hr & Heq).
  exists (Z.log2 a - 52), (Z.shiftr a (Z.log2 a - 52)),
         (a - Z.shiftl (Z.shiftr a (Z.log2 a - 52)) (Z.log2 a - 52)).
  repeat (split; [assumption|]). split; [reflexivity|].
  assert (Hpos : 0 < a) by (pose proof (Z.pow_pos_nonneg 2 53); lia).
  unfold round53. cbv zeta. rewrite (Z.abs_eq a) by lia.
  destruct (Z.ltb_spec a (2 ^ 53)); [lia|].
  rewrite Z.sgn_pos by lia. rewrite Z.mul_1_l.
  apply Z.shiftl_mul_pow2. lia.
Qed.

Lemma round53_opp (z : Z) : round53 (- z) = - round53 z.
Proof.
  unfold round53. cbv zeta. rewrite Z.abs_opp.
  destruct (Z.abs z <? 2 ^ 53); [reflexivity|].
  rewrite Z.sgn_opp. lia.
Qed.

Lemma round53_mono_low (z : Z) (k : Z) :
  0 <= k < 2 ^ 53 -> k <= z -> k <= round53 z.
Proof.
  intros Hk Hz. destruct (Z.lt_ge_cases z (2 ^ 53)) as [Hs | Hl].
  - rewrite round53_small by lia. exact Hz.
  - destruct (round53_large z Hl) as (e & q & r & He & Hq & Hr & Heq & _ & ->).
    assert (Hpe : 1 <= 2 ^ e) by (pose proof (Z.pow_pos_nonneg 2 e); lia).
    destruct (_ || _); nia.
Qed.

Lemma round53_in_range (a : Z) :
  0 <= a -> (Z.abs (round53 a) < 2 ^ 1024 <-> a < FLOAT_INT_LIMIT).
Proof.
  intros Ha0. unfold FLOAT_INT_LIMIT.
  assert (E1024 : 2 ^ 1024 = 2 ^ 53 * (2 * 2 ^ 970)) by (vm_compute; reflexivity).
  assert (P970 : 0 < 2 ^ 970) by (vm_compute; reflexivity).
  assert (P53 : 2 ^ 53 = 2 * 2 ^ 52) by reflexivity.
  assert (P52 : 0 < 2 ^ 52) by reflexivity.
  destruct (Z.lt_ge_cases a (2 ^ 53)) as [Hs | Hl].
  - rewrite round53_small by lia. rewrite Z.abs_eq by lia. rewrite E1024.
    remember (2 ^ 970) as A. remember (2 ^ 53) as K. remember (2 ^ 52) as K2.
    clear HeqA HeqK HeqK2. split; intros _; nia.
  - destruct (round53_large a Hl) as (e & q & r & He & Hq & Hr & Heq & Hlog & ->).
    assert (Hpe : 0 < 2 ^ e) by (apply Z.pow_pos_nonneg; lia).
    assert (Hhalf : 2 ^ e = 2 * 2 ^ (e - 1))
      by (rewrite <- Z.pow_succ_r by lia; f_equal; lia).
    set (up := (2 ^ (e - 1) <? r) || ((r =? 2 ^ (e - 1)) && Z.odd q)).
    assert (Hup : up = true -> 2 ^ (e - 1) <= r).
    { unfold up. intros H. apply orb_true_iff in H as [H | H].
      - apply Z.ltb_lt in H. lia.
      - apply andb_true_iff in H as [H _]. apply Z.eqb_eq in H. lia. }
    assert (Hdown : up = false -> r <= 2 ^ (e - 1) /\ (r = 2 ^ (e - 1) -> Z.odd q = false)).
    { unfold up. intros H. apply orb_false_iff in H as [H1 H2].
      apply Z.ltb_ge in H1. split; [exact H1|]. intros ->.
      rewrite Z.eqb_refl in H2. exact H2. }
    clearbody up.
    assert (Hq' : 0 <= (if up then q + 1 else q) * 2 ^ e) by (destruct up; nia).
    rewrite Z.abs_eq by exact Hq'. clear Hq'.
    rewrite E1024. subst a. clear Hl Ha0 Hlog.
    destruct (Z.lt_trichotomy e 971) as [Hlt | [Heq971 | Hgt]].
    + assert (H2 : 2 ^ e <= 2 ^ 970) by (apply Z.pow_le_mono_r; lia).
      clear Hhalf Hup Hdown.
      remember (2 ^ e) as T. remember (2 ^ 970) as A.
      remember (2 ^ 53) as K. remember (2 ^ 52) as K2.
      clear HeqT HeqA HeqK HeqK2 E1024.
      assert ((if up then q + 1 else q) <= K) by (destruct up; lia).
      assert (Hb1 : (if up then q + 1 else q) * T <= K * A) by nia.
      assert (Hb2 : q * T + r < K * A) by nia.
      split; intros _; nia.
    + subst e. change (971 - 1) with 970 in Hhalf, Hup, Hdown.
      remember (2 ^ 970) as A. rewrite Hhalf in *.
      assert (Hodd : q = 2 ^ 53 - 1 -> Z.odd q = true) by (intros ->; reflexivity).
      remember (2 ^ 53) as K. remember (2 ^ 52) as K2.
      clear HeqA HeqK HeqK2 E1024 Hhalf Hpe.
      destruct up.
      * specialize (Hup eq_refl). clear Hdown. split; intros H.
        -- assert (q + 1 < K) by nia. nia.
        -- assert (q + 1 < K \/ q + 1 = K) as [Hq1 | Hq1] by lia; [nia|]. nia.
      * destruct (Hdown eq_refl) as [Hr1 Hev]. clear Hup Hdown. split; intros H.
        -- assert (q + 1 < K \/ q + 1 = K) as [Hq1 | Hq1] by lia; [nia|].
           assert (r < A \/ r = A) as [? | Hr2] by lia; [nia|].
           rewrite Hodd in Hev by lia. specialize (Hev Hr2). discriminate.
        -- nia.
    + assert (H2 : 2 * (2 * 2 ^ 970) <= 2 ^ e).
      { replace (2 * (2 * 2 ^ 970)) with (2 ^ 972) by (vm_compute; reflexivity).
        apply Z.pow_le_mono_r; lia. }
      clear Hhalf Hup Hdown.
      remember (2 ^ e) as T. remember (2 ^ 970) as A.
      remember (2 ^ 53) as K. remember (2 ^ 52) as K2.
      clear HeqT HeqA HeqK HeqK2 E1024.
      assert (Hb1 : K * (2 * A) <= q * T) by nia.
      split; intros H; exfalso; destruct up; nia.
Qed.

Lemma float_of_int_returns (z : Z) :
  (exists g, float_of_int z = Ok g) <-> Z.abs z < FLOAT_INT_LIMIT.
Proof.
  assert (H : Z.abs (round53 z) < 2 ^ 1024 <-> Z.abs z < FLOAT_INT_LIMIT).
  { destruct (Z.le_gt_cases 0 z) as [Hz | Hz].
    - rewrite (Z.abs_eq z) by lia. apply round53_in_range. exact Hz.
    - rewrite (Z.abs_neq z) by lia. rewrite <- (round53_in_range (- z)) by lia.
      rewrite round53_opp, Z.abs_opp. reflexivity. }
  unfold float_of_int. cbv zeta. rewrite <- H.
  destruct (Z.ltb_spec (Z.abs (round53 z)) (2 ^ 1024)) as [Hlt | Hge].
  - split; [intros _; exact Hlt | intros _; eexists; reflexivity].
  - split; [intros [g Hg]; discriminate | intros Hlt; lia].
Qed.

Lemma float_of_int_raises (z : Z) (e : exn) :
  float_of_int z = Raise e -> e = OverflowError /\ FLOAT_INT_LIMIT <= Z.abs z.
Proof.
  intros H. split.
  - unfold float_of_int in H. cbv zeta in H.
    destruct (Z.abs (round53 z) <? 2 ^ 1024); [discriminate|]. injection H as <-. reflexivity.
  - destruct (Z.lt_ge_cases (Z.abs z) FLOAT_INT_LIMIT) as [Hlt | Hge]; [|exact Hge].
    apply float_of_int_returns in Hlt as [g Hg]. rewrite Hg in H. discriminate.
Qed.

Lemma float_of_int_low (z g k : Z) :
  0 <= k < 2 ^ 53 -> k <= z -> float_of_int z = Ok g -> k <= g.
Proof.
  intros Hk Hz H. unfold float_of_int in H. cbv zeta in H.
  destruct (Z.abs (round53 z) <? 2 ^ 1024); [|discriminate].
  injection H as <-. apply round53_mono_low; assumption.
Qed.

End FloatFacts.

(** ** The clock functions of fix_timestamps_enhanced.py *)

Section ClockFacts.
Import Py FixEnhanced.

Lemma plain_no_colon (l : chars) :
  forallb plain_char l = true ->
  forallb (fun c => negb (Ascii.eqb c ":")) l = true.
Proof.
  apply forallb_weaken. intros c Hc. rewrite (plain_not_colon c Hc). reflexivity.
Qed.

Lemma clock_char_ok (p : ascii -> bool) (h m s : Z) :
  (forall c, plain_char c = true -> p c = true) -> p ":"%char = true ->
  forallb p (str_of_int h ++ ":"%char :: fmt_02d m ++ ":"%char :: fmt_02d s) = true.
Proof.
  intros Hp Hc.
  rewrite forallb_app. cbn [forallb]. rewrite forallb_app. cbn [forallb].
  rewrite !(forallb_weaken plain_char p _ Hp), Hc;
    auto using str_of_int_plain, fmt_02d_plain.
Qed.

Lemma chars_of_fmt_clock (h m s : Z) :
  chars_of (fmt_clock h m s)
  = str_of_int h ++ ":"%char :: fmt_02d m ++ ":"%char :: fmt_02d s.
Proof. unfold fmt_clock. apply list_ascii_of_string_of_list_ascii. Qed.

Lemma split_fmt_clock (h m s : Z) :
  split_on ":" (chars_of (fmt_clock h m s)) = [str_of_int h; fmt_02d m; fmt_02d s].
Proof.
  rewrite chars_of_fmt_clock.
  rewrite split_on_app by (apply plain_no_colon, str_of_int_plain).
  rewrite split_on_app by (apply plain_no_colon, fmt_02d_plain).
  rewrite split_on_no_sep by (apply plain_no_colon, fmt_02d_plain).
  reflexivity.
Qed.

Lemma clean_fmt_clock (h m s : Z) :
  sub_paren_notes (strip (chars_of (fmt_clock h m s))) = chars_of (fmt_clock h m s).
Proof.
  rewrite chars_of_fmt_clock.
  rewrite strip_no_space.
  - apply sub_paren_notes_no_open. apply clock_char_ok; [|reflexivity].
    intros c Hc. rewrite (plain_not_open c Hc). reflexivity.
  - apply clock_char_ok; [|reflexivity].
    intros c Hc. rewrite (plain_not_space c Hc). reflexivity.
Qed.

(** Normalizing a formatted clock rolls seconds into minutes and minutes
    into hours. *)
Lemma normalize_time_fmt_clock (h m s : Z) :
  normalize_time (fmt_clock h m s)
  = Ok (fmt_clock (h + (m + s / 60) / 60) ((m + s / 60) mod 60) (s mod 60)).
Proof.
  unfold normalize_time.
  rewrite clean_fmt_clock, split_fmt_clock.
  rewrite int_of_str_of_int, !int_of_fmt_02d. reflexivity.
Qed.

Lemma time_to_seconds_fmt_clock (h m s : Z) :
  time_to_seconds (fmt_clock h m s) = Ok (h * 3600 + m * 60 + s).
Proof.
  unfold time_to_seconds. rewrite normalize_time_fmt_clock.
  cbn [mbind result_bind]. rewrite split_fmt_clock.
  rewrite int_of_str_of_int, !int_of_fmt_02d.
  cbn [mbind result_bind mret result_ret]. f_equal.
  pose proof (Z.div_mod s 60). pose proof (Z.div_mod (m + s / 60) 60). lia.
Qed.

Lemma time_to_seconds_seconds_to_time (n : Z) :
  time_to_seconds (seconds_to_time n) = Ok n.
Proof.
  unfold seconds_to_time. rewrite time_to_seconds_fmt_clock. f_equal.
  pose proof (Z.div_mod n 3600). pose proof (Z.div_mod (n mod 3600) 60).
  rewrite <- (Z.mod_mod_divide n 3600 60) by (exists 60; lia). lia.
Qed.

(** [seconds_to_time] emits minutes and seconds fields below sixty. *)
Lemma seconds_to_time_fields (n : Z) :
  exists h m s, seconds_to_time n = fmt_clock h m s /\ 0 <= m < 60 /\ 0 <= s < 60.
Proof.
  exists (n / 3600), ((n mod 3600) / 60), (n mod 60). split; [reflexivity|].
  pose proof (Z.mod_pos_bound n 3600). pose proof (Z.mod_pos_bound n 60).
  split; [|lia]. split; [apply Z.div_pos; lia | apply Z.div_lt_upper_bound; lia].
Qed.

End ClockFacts.

(** ** Claim C10: rendering seconds and parsing them back *)

(** C10. For every non-negative integer [n], parsing the text rendered by
    [seconds_to_time n] with [time_to_seconds] returns [n]; the rendered text
    is a clock [h:mm:ss] whose minutes and seconds fields are below sixty. *)
Theorem seconds_to_time_roundtrip (n : Z) :
  0 <= n ->
  FixEnhanced.time_to_seconds (FixEnhanced.seconds_to_time n) = Ok n /\
  exists h m s,
    FixEnhanced.seconds_to_time n = FixEnhanced.fmt_clock h m s /\
    0 <= h /\ 0 <= m < 60 /\ 0 <= s < 60.
Proof.
  intros Hn. split; [apply time_to_seconds_seconds_to_time|].
  exists (n / 3600), ((n mod 3600) / 60), (n mod 60). split; [reflexivity|].
  pose proof (Z.mod_pos_bound n 3600). pose proof (Z.mod_pos_bound n 60).
  split; [apply Z.div_pos; lia|].
  split; [|lia]. split; [apply Z.div_pos; lia | apply Z.div_lt_upper_bound; lia].
Qed.

Lemma seconds_to_time_roundtrip_witness :
  0 <= 3725 /\
  FixEnhanced.time_to_seconds (FixEnhanced.seconds_to_time 3725) = Ok 3725.
Proof.
  split; [lia|]. apply (seconds_to_time_roundtrip 3725). lia.
Defined.

Example seconds_to_time_3725 : FixEnhanced.seconds_to_time 3725 = "1:02:05"%string.
Proof. vm_compute. reflexivity. Qed.

(** ** The repair steps of fix_timestamps_enhanced.py *)

Section EnhancedFacts.
Import Py FixEnhanced.

(** Normalizing keeps the seconds: the normalized text reads as the same
    number of seconds as the text it came from. *)
Lemma parse_fmt_clock (h m s : Z) :
  (match split_on ":" (chars_of (fmt_clock h m s)) with
   | [p0; p1; p2] =>
       h ← int_of p0; m ← int_of p1; s ← int_of p2; mret (h * 3600 + m * 60 + s)
   | _ => mret 0
   end) = Ok (h * 3600 + m * 60 + s).
Proof.
  rewrite split_fmt_clock, int_of_str_of_int, !int_of_fmt_02d. reflexivity.
Qed.

Lemma normalize_time_cases (t t' : string) :
  normalize_time t = Ok t' ->
  t' = t \/ exists h m s, t' = fmt_clock h m s.
Proof.
  unfold normalize_time.
  destruct (split_on ":" _) as [|p0 [|p1 [|p2 [|p3 ps]]]]; intros H;
    try (inv_ret H; left; congruence).
  - inv_bind H. inv_bind H. inv_ret H. right. eauto.
  - inv_bind H. inv_bind H. inv_bind H. inv_ret H. right. eauto.
Qed.

Lemma normalize_time_seconds (t t' : string) :
  normalize_time t = Ok t' -> time_to_seconds t' = time_to_seconds t.
Proof.
  intros H. destruct (normalize_time_cases t t' H) as [-> | (h & m & s & ->)];
    [reflexivity|].
  rewrite time_to_seconds_fmt_clock.
  unfold time_to_seconds. rewrite H. cbn [mbind result_bind].
  rewrite parse_fmt_clock. reflexivity.
Qed.

Lemma seconds_of_set_description (ts : Timestamp) (d : string) :
  seconds_of (set_description ts d) = seconds_of ts.
Proof. reflexivity. Qed.

Lemma seconds_list_times (l : list Timestamp) :
  seconds_list l = mapM time_to_seconds (map time l).
Proof. unfold seconds_list. rewrite mapM_map. reflexivity. Qed.

Lemma keyed_spec (l : list Timestamp) (ks : list (Z * Timestamp)) :
  keyed l = Ok ks ->
  map snd ks = l /\ Forall (fun kt => seconds_of (snd kt) = Ok (fst kt)) ks.
Proof.
  unfold keyed. rewrite mapM_Ok_Forall2.
  induction 1 as [|t [k t'] l ks Ht _ [IH1 IH2]]; [split; constructor|].
  inv_bind Ht. inv_ret Ht. injection Ht as <- <-.
  split; [cbn; congruence | constructor; assumption].
Qed.

Lemma sort_by_time_spec (l l' : list Timestamp) :
  sort_by_time l = Ok l' ->
  Permutation l' l /\
  exists keys, seconds_list l' = Ok keys /\ Sorted Z.le keys.
Proof.
  unfold sort_by_time. intros H. inv_bind H. inv_ret H. subst l'.
  destruct (keyed_spec _ _ Ha) as [Hl Hk]. split.
  - rewrite <- Hl. apply Permutation_map, stable_sort_perm.
  - exists (map fst (stable_sort a)). split; [|apply stable_sort_sorted].
    apply mapM_pairs.
    eapply Permutation_Forall; [symmetry; apply stable_sort_perm | assumption].
Qed.

(** *** Entries whose seconds satisfy a convex property *)

Section Convex.
Variable Q : Z -> Prop.
Hypothesis Q_convex :
  forall a b m, Q a -> Q b -> Z.min a b <= m <= Z.max a b -> Q m.

Let has_seconds := has_seconds Q.

Lemma has_seconds_time (t t' : Timestamp) :
  time t = time t' -> has_seconds t -> has_seconds t'.
Proof. unfold has_seconds, FixEnhanced.has_seconds, seconds_of. intros ->. trivial. Qed.

Lemma merge_from_has_seconds (rest : list Timestamp) :
  forall current s out cs,
    merge_from current s rest = Ok (out, cs) ->
    has_seconds current -> Forall has_seconds rest -> Forall has_seconds out.
Proof.
  induction rest as [|next r IH]; intros current s out cs H Hc Hr; cbn in H.
  - inv_ret H. injection H as <- <-. constructor; [assumption | constructor].
  - inversion Hr as [|? ? Hn Hr']; subst.
    inv_bind H. destruct (a - s <? MIN_SEPARATION_S).
    + inv_bind H. destruct a0 as [out' cs']. inv_ret H. injection H as <- <-.
      eapply IH; [eassumption | | assumption].
      eapply has_seconds_time; [|exact Hc]. reflexivity.
    + inv_bind H. destruct a0 as [out' cs']. inv_ret H. injection H as <- <-.
      constructor; [assumption|]. eapply IH; eassumption.
Qed.

Lemma merge_close_has_seconds (l out : list Timestamp) (cs : list change) :
  merge_close l = Ok (out, cs) -> Forall has_seconds l -> Forall has_seconds out.
Proof.
  destruct l as [|current r]; cbn; intros H Hl.
  - inv_ret H. injection H as <- <-. constructor.
  - inv_bind H. inversion Hl; subst. eapply merge_from_has_seconds; eassumption.
Qed.

Lemma placeholder_has_seconds (m : Z) : Q m -> has_seconds (placeholder m).
Proof.
  intros Hm. exists m. split; [|assumption].
  unfold seconds_of, placeholder. cbn [time].
  apply time_to_seconds_seconds_to_time.
Qed.

Lemma gaps_to_fill_has_seconds (d : Z) (l : list Timestamp) :
  forall fill cs,
    gaps_to_fill d l = Ok (fill, cs) ->
    Forall has_seconds l -> Forall has_seconds fill.
Proof.
  induction l as [|prev r IH]; intros fill cs H Hl.
  - cbn in H. inv_ret H. injection H as <- <-. constructor.
  - destruct r as [|curr r'].
    + cbn in H. inv_ret H. injection H as <- <-. constructor.
    + cbn [gaps_to_fill] in H.
      inversion Hl as [|? ? Hp Hr]; subst.
      inversion Hr as [|? ? Hc _]; subst.
      inv_bind H. inv_bind H. inv_bind H. destruct a1 as [fill' cs'].
      specialize (IH _ _ Ha1 Hr).
      destruct (d <? 4 * (a0 - a)).
      * inv_ret H. injection H as <- <-. constructor; [|assumption].
        apply placeholder_has_seconds.
        destruct Hp as (kp & Hkp & HQp). destruct Hc as (kc & Hkc & HQc).
        rewrite Ha in Hkp. rewrite Ha0 in Hkc.
        injection Hkp as <-. injection Hkc as <-.
        apply (Q_convex a a0); [assumption | assumption |].
        pose proof (Z.div_mod (a0 - a) 2). pose proof (Z.mod_pos_bound (a0 - a) 2). lia.
      * inv_ret H. injection H as <- <-. assumption.
Qed.

Lemma fill_coverage_has_seconds (d : Z) (l out : list Timestamp) (cs : list change) :
  fill_coverage d l = Ok (out, cs) ->
  Forall has_seconds l -> Forall has_seconds out.
Proof.
  unfold fill_coverage. destruct (Nat.ltb 1 (length l)); intros H Hl.
  - inv_first H g Hg.
    inv_bind H. destruct a as [fill cs']. inv_bind H. inv_ret H. injection H as <- <-.
    destruct (sort_by_time_spec _ _ Ha0) as [Hperm _].
    eapply Permutation_Forall; [symmetry; exact Hperm|].
    apply Forall_app. split; [assumption|].
    eapply gaps_to_fill_has_seconds; eassumption.
  - inv_ret H. injection H as <- <-. assumption.
Qed.

End Convex.

Lemma has_seconds_weaken (Q R : Z -> Prop) (l : list Timestamp) :
  (forall k, Q k -> R k) -> Forall (has_seconds Q) l -> Forall (has_seconds R) l.
Proof.
  intros HQR. apply List.Forall_impl. intros t (k & Hk & HQ). exists k. auto.
Qed.

Lemma has_seconds_same_times (Q : Z -> Prop) (l l' : list Timestamp) :
  map time l = map time l' ->
  Forall (has_seconds Q) l -> Forall (has_seconds Q) l'.
Proof.
  revert l'. induction l as [|t l IH]; intros [|t' l'] Hm Hl; try discriminate.
  - constructor.
  - injection Hm as Ht Hm. inversion Hl; subst.
    constructor; [eapply has_seconds_time; eassumption | apply IH; assumption].
Qed.

Lemma has_seconds_list (Q : Z -> Prop) (l : list Timestamp) :
  Forall (has_seconds Q) l <->
  exists keys, seconds_list l = Ok keys /\ Forall Q keys.
Proof.
  unfold seconds_list. split.
  - induction 1 as [|t l (k & Hk & HQ) _ (keys & Hkeys & HQs)].
    + exists []. split; [reflexivity | constructor].
    + exists (k :: keys). cbn. rewrite Hk. cbn. rewrite Hkeys.
      split; [reflexivity | constructor; assumption].
  - intros (keys & Hkeys & HQ). apply mapM_Ok_Forall2 in Hkeys.
    induction Hkeys as [|t k l keys Ht _ IH]; [constructor|].
    inversion HQ; subst. constructor; [exists k; auto | apply IH; assumption].
Qed.

Lemma normalize_entries_spec (l l' : list Timestamp) (cs : list change) :
  normalize_entries l = Ok (l', cs) ->
  Forall2 (fun t t' => normalize_time (time t) = Ok (time t') /\
                       label t' = label t /\ description t' = description t) l l'.
Proof.
  revert l' cs. induction l as [|t l IH]; intros l' cs H; cbn in H.
  - inv_ret H. injection H as <- <-. constructor.
  - inv_bind H. destruct a as [t1 c1]. inv_bind H. destruct a as [l1 cs1].
    inv_ret H. injection H as <- <-.
    unfold normalize_entry in Ha. inv_bind Ha. inv_ret Ha. injection Ha as <- <-.
    constructor; [cbn; auto | eapply IH; eassumption].
Qed.

Lemma in_range_spec (R : Z -> Prop) (d : Z) (l kept : list Timestamp) :
  in_range d l = Ok kept ->
  Forall (fun t => forall k, seconds_of t = Ok k -> R k) l ->
  Forall (has_seconds (fun k => k < d /\ R k)) kept.
Proof.
  revert kept. induction l as [|t l IH]; intros kept H HR; cbn in H.
  - inv_ret H. subst. constructor.
  - inversion HR as [|? ? Ht Hl]; subst.
    inv_bind H. inv_bind H. inv_ret H. specialize (IH _ Ha0 Hl).
    destruct (a <? d) eqn:E; subst kept; [|assumption].
    apply Z.ltb_lt in E. constructor; [|assumption].
    exists a. auto.
Qed.

Lemma rewrite_entry_time (i : nat) (title : string) (kw ex : list string)
    (ts : Timestamp) :
  time (fst (rewrite_entry i title kw ex ts)) = time ts.
Proof.
  unfold rewrite_entry.
  destruct (needs_label_rewrite _ _ && _); destruct (needs_desc_rewrite _ _); reflexivity.
Qed.

Lemma rewrite_weak_times (title : string) (kw : list string) (l : list Timestamp) :
  forall i ex, map time (fst (rewrite_weak i title kw ex l)) = map time l.
Proof.
  induction l as [|t l IH]; intros i ex; cbn; [reflexivity|].
  pose proof (rewrite_entry_time i title kw ex t) as Ht.
  destruct (rewrite_entry i title kw ex t) as [t' c].
  specialize (IH (S i) (ex ++ [label t'])).
  destruct (rewrite_weak (S i) title kw (ex ++ [label t']) l) as [r' cs].
  cbn in *. congruence.
Qed.

Lemma sorted_short (keys : list Z) : (length keys <= 1)%nat -> Sorted Z.le keys.
Proof.
  destruct keys as [|a [|b keys]]; cbn; intros H; [constructor | repeat constructor | lia].
Qed.

(** What a successful call went through, step by step. *)
Lemma fix_lesson_timestamps_steps (kw : list string) (lesson : Lesson) (r : FixResult) :
  fix_lesson_timestamps kw lesson = Ok r ->
  exists duration_str duration_seconds normalized c2 kept sorted merged c5 covered c6,
    normalize_time (duration lesson) = Ok duration_str /\
    time_to_seconds duration_str = Ok duration_seconds /\
    normalize_entries (timestamps lesson) = Ok (normalized, c2) /\
    in_range duration_seconds normalized = Ok kept /\
    sort_by_time kept = Ok sorted /\
    merge_close sorted = Ok (merged, c5) /\
    fill_coverage duration_seconds merged = Ok (covered, c6) /\
    updated_timestamps r = fst (rewrite_weak 0 (title lesson) kw [] covered).
Proof.
  unfold fix_lesson_timestamps. intros H.
  inv_bind H. inv_bind H. inv_bind H. destruct a1 as [normalized c2].
  inv_bind H. inv_bind H. inv_bind H. destruct a3 as [merged c5].
  inv_bind H. destruct a3 as [covered c6].
  destruct (rewrite_weak 0 (title lesson) kw [] covered) as [rewritten c8] eqn:Erw.
  inv_ret H. subst r. cbn [updated_timestamps].
  exists a, a0, normalized, c2, a1, a2, merged, c5, covered, c6.
  rewrite Erw. repeat split; assumption.
Qed.

(** *** The call returns when every time reads as seconds *)

Lemma normalize_time_of_seconds (t : string) (k : Z) :
  time_to_seconds t = Ok k -> exists t', normalize_time t = Ok t'.
Proof.
  unfold time_to_seconds. destruct (normalize_time t) as [t'|e]; [eauto | discriminate].
Qed.

Lemma normalize_entries_returns (l : list Timestamp) :
  Forall readable l ->
  exists l' cs, normalize_entries l = Ok (l', cs) /\ Forall readable l'.
Proof.
  induction 1 as [|t l (k & Hk & _) _ (l' & cs & Hl & Hr)].
  - exists [], []. split; [reflexivity | constructor].
  - destruct (normalize_time_of_seconds _ _ Hk) as (t' & Ht').
    eexists _, _. cbn [normalize_entries]. unfold normalize_entry.
    rewrite Ht'. cbn [mbind result_bind mret result_ret]. rewrite Hl.
    split; [reflexivity|]. constructor; [|assumption].
    exists k. split; [|trivial]. unfold seconds_of. cbn [time set_time].
    rewrite (normalize_time_seconds _ _ Ht'). exact Hk.
Qed.

Lemma in_range_returns (d : Z) (l : list Timestamp) :
  Forall readable l ->
  exists kept, in_range d l = Ok kept /\ Forall readable kept.
Proof.
  induction 1 as [|t l (k & Hk & _) Hl (kept & Hkept & Hr)].
  - exists []. split; [reflexivity | constructor].
  - cbn [in_range]. rewrite Hk, Hkept. cbn [mbind result_bind mret result_ret].
    eexists. split; [reflexivity|].
    destruct (k <? d); [constructor; [exists k; auto | assumption] | assumption].
Qed.

Lemma sort_by_time_returns (l : list Timestamp) :
  Forall readable l ->
  exists l', sort_by_time l = Ok l' /\ Forall readable l'.
Proof.
  intros Hl. apply has_seconds_list in Hl as (keys & Hkeys & _).
  unfold sort_by_time, keyed.
  assert (Hk : exists ks, mapM (fun ts => s ← seconds_of ts; mret (s, ts)) l = Ok ks).
  { unfold seconds_list in Hkeys. apply mapM_Ok_Forall2 in Hkeys.
    induction Hkeys as [|t k l keys Ht _ (ks & IH)]; [exists []; reflexivity|].
    exists ((k, t) :: ks). cbn [mapM]. rewrite Ht. cbn. rewrite IH. reflexivity. }
  destruct Hk as (ks & Hks). rewrite Hks. cbn [mbind result_bind mret result_ret].
  eexists. split; [reflexivity|].
  destruct (sort_by_time_spec l (map snd (stable_sort ks))) as [_ (keys' & Hk' & _)].
  { unfold sort_by_time, keyed. rewrite Hks. reflexivity. }
  apply has_seconds_list. exists keys'. split; [assumption|].
  apply Forall_forall. trivial.
Qed.

Lemma merge_from_returns (rest : list Timestamp) :
  Forall readable rest ->
  forall current s, exists out cs, merge_from current s rest = Ok (out, cs).
Proof.
  induction 1 as [|next r (k & Hk & _) _ IH]; intros current s.
  - eexists _, _. reflexivity.
  - cbn [merge_from]. rewrite Hk. cbn [mbind result_bind].
    destruct (k - s <? MIN_SEPARATION_S).
    + destruct (IH (set_description current
                      (description current +:+ "; " +:+ description next)) s)
        as (out & cs & ->).
      eexists _, _. reflexivity.
    + destruct (IH next k) as (out & cs & ->). eexists _, _. reflexivity.
Qed.

Lemma merge_close_returns (l : list Timestamp) :
  Forall readable l ->
  exists out cs, merge_close l = Ok (out, cs) /\ Forall readable out.
Proof.
  intros Hl.
  assert (Hrun : exists out cs, merge_close l = Ok (out, cs)).
  { destruct Hl as [|t l (k & Hk & _) Hl]; [eexists _, _; reflexivity|].
    cbn [merge_close]. rewrite Hk. apply merge_from_returns. assumption. }
  destruct Hrun as (out & cs & Hrun). exists out, cs. split; [assumption|].
  eapply merge_close_has_seconds; eassumption.
Qed.

Lemma gaps_to_fill_step (d : Z) (prev curr : Timestamp) (r : list Timestamp) :
  gaps_to_fill d (prev :: curr :: r)
  = (prev_seconds ← seconds_of prev;
     curr_seconds ← seconds_of curr;
     let gap := curr_seconds - prev_seconds in
     '(fill, cs) ← gaps_to_fill d (curr :: r);
     if d <? 4 * gap then
       let mid_point := prev_seconds + gap / 2 in
       mret (placeholder mid_point :: fill,
             AddedCoverage (seconds_to_time mid_point) :: cs)
     else mret (fill, cs)).
Proof. reflexivity. Qed.

Lemma gaps_to_fill_returns (d : Z) (l : list Timestamp) :
  Forall readable l -> exists fill cs, gaps_to_fill d l = Ok (fill, cs).
Proof.
  induction 1 as [|prev r (kp & Hp & _) Hr (fill & cs & IH)];
    [eexists _, _; reflexivity|].
  destruct r as [|curr r']; [eexists _, _; reflexivity|].
  rewrite gaps_to_fill_step. inversion Hr as [|? ? (kc & Hc & _) _]; subst.
  rewrite Hp, Hc. cbn [mbind result_bind]. rewrite IH. cbn [mbind result_bind].
  destruct (d <? 4 * (kc - kp)); eexists _, _; reflexivity.
Qed.

Lemma fill_coverage_returns (d : Z) (l : list Timestamp) :
  Z.abs d < Py.FLOAT_INT_LIMIT ->
  Forall readable l -> exists out cs, fill_coverage d l = Ok (out, cs).
Proof.
  intros Hd Hl. unfold fill_coverage.
  destruct (Nat.ltb 1 (length l)); [|eexists _, _; reflexivity].
  apply float_of_int_returns in Hd as [g Hg]. rewrite Hg. cbn [mbind result_bind].
  destruct (gaps_to_fill_returns g l Hl) as (fill & cs & Hfill).
  rewrite Hfill. cbn [mbind result_bind].
  destruct (sort_by_time_returns (l ++ fill)) as (sorted & Hs & _).
  { apply Forall_app. split; [assumption|].
    eapply (gaps_to_fill_has_seconds (fun _ => True)); eauto. }
  rewrite Hs. eexists _, _. reflexivity.
Qed.

(** On entries that read as seconds the coverage step returns, unless the
    duration has no double. *)
Lemma fill_coverage_outcome (d : Z) (l : list Timestamp) :
  Forall readable l ->
  (exists out cs, fill_coverage d l = Ok (out, cs)) \/
  (fill_coverage d l = Raise OverflowError /\ Py.FLOAT_INT_LIMIT <= Z.abs d).
Proof.
  intros Hl. destruct (Z.lt_ge_cases (Z.abs d) Py.FLOAT_INT_LIMIT) as [Hlt | Hge].
  - left. apply fill_coverage_returns; assumption.
  - unfold fill_coverage. destruct (Nat.ltb 1 (length l)); [|left; eexists _, _; reflexivity].
    right. split; [|exact Hge].
    destruct (Py.float_of_int d) as [g|e] eqn:Eg.
    + assert (Hg : exists g, Py.float_of_int d = Ok g) by (exists g; exact Eg).
      apply float_of_int_returns in Hg. lia.
    + apply float_of_int_raises in Eg as [-> _]. reflexivity.
Qed.

(** When the duration and the time of every entry read as seconds, the call
    returns, unless the duration has no double. *)
Lemma fix_lesson_timestamps_outcome (kw : list string) (lesson : Lesson) (d : Z) :
  time_to_seconds (duration lesson) = Ok d ->
  Forall readable (timestamps lesson) ->
  (exists r, fix_lesson_timestamps kw lesson = Ok r) \/
  (fix_lesson_timestamps kw lesson = Raise OverflowError /\ Py.FLOAT_INT_LIMIT <= Z.abs d).
Proof.
  intros Hd Hl. unfold fix_lesson_timestamps.
  destruct (normalize_time_of_seconds _ _ Hd) as (D & HD).
  rewrite HD. cbn [mbind result_bind].
  rewrite (normalize_time_seconds _ _ HD), Hd. cbn [mbind result_bind].
  destruct (normalize_entries_returns _ Hl) as (normalized & c2 & Hn & Hr1).
  rewrite Hn. cbn [mbind result_bind].
  destruct (in_range_returns d _ Hr1) as (kept & Hk & Hr2).
  rewrite Hk. cbn [mbind result_bind].
  destruct (sort_by_time_returns _ Hr2) as (sorted & Hs & Hr3).
  rewrite Hs. cbn [mbind result_bind].
  destruct (merge_close_returns _ Hr3) as (merged & c5 & Hm & Hr4).
  rewrite Hm. cbn [mbind result_bind].
  destruct (fill_coverage_outcome d _ Hr4) as [(covered & c6 & Hc) | [Hc Hge]];
    rewrite Hc; cbn [mbind result_bind]; [left | right; auto].
  destruct (rewrite_weak 0 (title lesson) kw [] covered) as [rewritten c8].
  eexists. reflexivity.
Qed.

(** The call returns when the duration and the time of every entry read as
    seconds and the duration has a double. *)
Lemma fix_lesson_timestamps_returns (kw : list string) (lesson : Lesson) :
  (exists d, time_to_seconds (duration lesson) = Ok d /\ Z.abs d < Py.FLOAT_INT_LIMIT) ->
  Forall readable (timestamps lesson) ->
  exists r, fix_lesson_timestamps kw lesson = Ok r.
Proof.
  intros (d & Hd & Hfloat) Hl.
  destruct (fix_lesson_timestamps_outcome kw lesson d Hd Hl) as [H | [_ Hge]]; [exact H | lia].
Qed.

End EnhancedFacts.

(** ** Claim C5: the repaired list is ordered *)

(** C5 (as amended). When [fix_lesson_timestamps] of
    fix_timestamps_enhanced.py returns, every entry of its updated list has
    a seconds value and these values are non-decreasing along the list. *)
Theorem fix_lesson_timestamps_sorted (kw : list string) (lesson : Lesson)
    (r : FixEnhanced.FixResult) :
  FixEnhanced.fix_lesson_timestamps kw lesson = Ok r ->
  exists keys,
    FixEnhanced.seconds_list (FixEnhanced.updated_timestamps r) = Ok keys /\
    Sorted Z.le keys.
Proof.
  intros H.
  destruct (fix_lesson_timestamps_steps _ _ _ H)
    as (D & d & normalized & c2 & kept & sorted & merged & c5 & covered & c6
        & HD & Hd & Hn & Hk & Hs & Hm & Hc & Hu).
  rewrite Hu, seconds_list_times, rewrite_weak_times, <- seconds_list_times.
  unfold FixEnhanced.fill_coverage in Hc.
  destruct (Nat.ltb 1 (length merged)) eqn:E.
  - inv_first Hc g Hg.
    inv_bind Hc. destruct a as [fill cs]. inv_bind Hc. inv_ret Hc.
    injection Hc as <- <-.
    apply (sort_by_time_spec _ _ Ha0).
  - inv_ret Hc. injection Hc as <- <-.
    apply Nat.ltb_ge in E.
    destruct (sort_by_time_spec _ _ Hs) as [_ (keys & Hkeys & _)].
    assert (Hall : Forall (FixEnhanced.has_seconds (fun _ => True)) merged).
    { eapply merge_close_has_seconds; [eassumption|].
      apply has_seconds_list. exists keys. split; [assumption|].
      apply Forall_forall. trivial. }
    apply has_seconds_list in Hall as (keys' & Hkeys' & _).
    exists keys'. split; [assumption|]. apply sorted_short.
    apply mapM_Ok_Forall2, Forall2_length in Hkeys'. lia.
Qed.

Lemma fix_lesson_timestamps_sorted_witness :
  exists r,
    FixEnhanced.fix_lesson_timestamps [] lesson_out_of_order = Ok r /\
    exists keys,
      FixEnhanced.seconds_list (FixEnhanced.updated_timestamps r) = Ok keys /\
      Sorted Z.le keys.
Proof.
  eexists. split; [vm_compute; reflexivity|].
  apply (fix_lesson_timestamps_sorted [] lesson_out_of_order).
  vm_compute. reflexivity.
Defined.

Example fix_lesson_timestamps_reorders :
  option_map (fun r => map time (FixEnhanced.updated_timestamps r))
    (match FixEnhanced.fix_lesson_timestamps [] lesson_out_of_order with
     | Ok r => Some r | Raise _ => None end)
  = Some ["0:00:10"; "0:00:30"]%string.
Proof. vm_compute. reflexivity. Qed.

(** The basic fixer sorts a copy to find dense pairs and leaves the
    lesson's own list in the order it came in. *)
Lemma process_lesson_keeps_input_order :
  let out := timestamps (fst (Fix.process_lesson lesson_out_of_order false)) in
  map (fun t => Fix.to_seconds (time t)) out = [Some 30; Some 10] /\
  ~ Sorted Z.le [30; 10].
Proof.
  split; [vm_compute; reflexivity|].
  intros H. inversion H as [|? ? _ Hhd]; subst. inversion Hhd; subst. lia.
Qed.

(** ** Claim C4: repaired entries lie within the lesson *)

(** C4 (as amended). When [fix_lesson_timestamps] of
    fix_timestamps_enhanced.py returns for a lesson whose entries do not read
    as negative times, every entry [t] of its updated list satisfies
    [0 <= seconds(t) <= seconds(D)], [D] being the normalized duration. *)
Theorem fix_lesson_timestamps_in_range (kw : list string) (lesson : Lesson)
    (r : FixEnhanced.FixResult) :
  FixEnhanced.fix_lesson_timestamps kw lesson = Ok r ->
  Forall (fun ts => forall k, FixEnhanced.seconds_of ts = Ok k -> 0 <= k)
         (timestamps lesson) ->
  exists D d,
    FixEnhanced.normalize_time (duration lesson) = Ok D /\
    FixEnhanced.time_to_seconds D = Ok d /\
    Forall (FixEnhanced.has_seconds (fun k => 0 <= k <= d))
           (FixEnhanced.updated_timestamps r).
Proof.
  intros H Hpos.
  destruct (fix_lesson_timestamps_steps _ _ _ H)
    as (D & d & normalized & c2 & kept & sorted & merged & c5 & covered & c6
        & HD & Hd & Hn & Hk & Hs & Hm & Hc & Hu).
  exists D, d. split; [assumption|]. split; [assumption|].
  set (Q := fun k => k < d /\ 0 <= k).
  assert (Hconv : forall a b m, Q a -> Q b -> Z.min a b <= m <= Z.max a b -> Q m)
    by (unfold Q; intros; lia).
  assert (Hnorm : Forall (fun t => forall k, FixEnhanced.seconds_of t = Ok k -> 0 <= k)
                         normalized).
  { apply normalize_entries_spec in Hn. clear - Hn Hpos.
    induction Hn as [|t t' l l' (Ht & _ & _) _ IH]; [constructor|].
    inversion Hpos; subst. constructor; [|apply IH; assumption].
    intros k Hk. unfold FixEnhanced.seconds_of in *.
    rewrite (normalize_time_seconds _ _ Ht) in Hk. auto. }
  pose proof (in_range_spec _ _ _ _ Hk Hnorm) as Hkept. fold Q in Hkept.
  assert (Hsorted : Forall (FixEnhanced.has_seconds Q) sorted).
  { destruct (sort_by_time_spec _ _ Hs) as [Hperm _].
    eapply Permutation_Forall; [symmetry; exact Hperm | assumption]. }
  pose proof (merge_close_has_seconds Q _ _ _ Hm Hsorted) as Hmerged.
  pose proof (fill_coverage_has_seconds Q Hconv _ _ _ _ Hc Hmerged) as Hcov.
  rewrite Hu.
  apply (has_seconds_weaken Q); [unfold Q; intros; lia|].
  apply (has_seconds_same_times Q covered); [|assumption].
  symmetry. apply rewrite_weak_times.
Qed.

Lemma fix_lesson_timestamps_in_range_witness :
  exists r,
    FixEnhanced.fix_lesson_timestamps [] lesson_out_of_order = Ok r /\
    exists D d,
      FixEnhanced.normalize_time (duration lesson_out_of_order) = Ok D /\
      FixEnhanced.time_to_seconds D = Ok d /\
      Forall (FixEnhanced.has_seconds (fun k => 0 <= k <= d))
             (FixEnhanced.updated_timestamps r).
Proof.
  eexists. split; [vm_compute; reflexivity|].
  apply (fix_lesson_timestamps_in_range [] lesson_out_of_order).
  - vm_compute. reflexivity.
  - unfold lesson_out_of_order, lesson_of. cbn [timestamps].
    constructor; [|constructor; [|constructor]];
      intros k Hk; vm_compute in Hk; injection Hk as <-; lia.
Defined.

(** The basic fixer has no range step: an entry past the end stays. *)
Lemma process_lesson_keeps_entry_past_end :
  let fixed := fst (Fix.process_lesson lesson_past_end false) in
  Fix.to_seconds (duration fixed) = Some 600 /\
  map (fun t => Fix.to_seconds (time t)) (timestamps fixed) = [Some 1200] /\
  ~ 1200 <= 600.
Proof. split; [|split]; [vm_compute; reflexivity | vm_compute; reflexivity | lia]. Qed.

(** The enhanced fixer keeps an entry only when it lies strictly before the
    end: an entry at the end itself goes. *)
Example fix_lesson_timestamps_drops_entry_at_end :
  match FixEnhanced.fix_lesson_timestamps [] lesson_at_end with
  | Ok r => FixEnhanced.updated_timestamps r = [] /\ FixEnhanced.changes_summary r = []
  | Raise _ => False
  end.
Proof. vm_compute. split; reflexivity. Qed.

(** ** Claim C1: the backup comes before the overwrite *)

Section BackupFacts.
Import IO.

Lemma writes_after_backup_sound (course : string) (tr : list event) :
  forall b, writes_after_backup course b tr = true ->
  forall pre f post,
    tr = pre ++ EvWrite course f :: post ->
    b = true \/ exists dst, In (EvCopy course dst) pre.
Proof.
  induction tr as [|e tr IH]; intros b Hc pre f post Heq.
  - destruct pre; discriminate.
  - destruct pre as [|e' pre]; cbn in Heq; injection Heq as -> ->.
    + cbn in Hc. rewrite String.eqb_refl in Hc. cbn in Hc.
      apply andb_true_iff in Hc as [-> _]. left. reflexivity.
    + assert (Hstep : forall b', writes_after_backup course b' (pre ++ EvWrite course f :: post) = true ->
                (b' = true -> b = true \/ exists dst, e' = EvCopy course dst) ->
                b = true \/ exists dst, In (EvCopy course dst) (e' :: pre)).
      { intros b' Hc' Hb'.
        destruct (IH _ Hc' _ _ _ eq_refl) as [Hb | (dst & Hin)].
        - destruct (Hb' Hb) as [-> | (dst & ->)];
            [left; reflexivity | right; exists dst; left; reflexivity].
        - right. exists dst. right. assumption. }
      destruct e' as [p|src dst|p|p g]; cbn in Hc.
      * apply (Hstep b Hc). auto.
      * apply (Hstep _ Hc). intros Hb.
        apply orb_true_iff in Hb as [-> | Hsrc]; [left; reflexivity|].
        apply String.eqb_eq in Hsrc. subst src. right. exists dst. reflexivity.
      * apply (Hstep b Hc). auto.
      * apply andb_true_iff in Hc as [_ Hc]. apply (Hstep b Hc). auto.
Qed.

Lemma writes_after_backup_precedes (course : string) (tr : list event) :
  writes_after_backup course false tr = true -> backup_precedes_write course tr.
Proof.
  intros Hc pre f post Heq.
  destruct (writes_after_backup_sound _ _ _ Hc _ _ _ Heq) as [? | ?];
    [discriminate | assumption].
Qed.

(** *** How each file operation can end *)

Lemma mkdir_cases (path : string) (w : World) :
  mkdir path w = (Ok tt, emit (EvMkdir path) w) \/ mkdir path w = (Raise OSError, w).
Proof. unfold mkdir. destruct (fault_at path w); auto. Qed.

Lemma copy2_cases (src dst : string) (w : World) :
  (exists f, fs w !! src = Some f /\ src <> dst /\
             copy2 src dst w = (Ok tt, emit (EvCopy src dst) (store dst f w))) \/
  (exists e, copy2 src dst w = (Raise e, w)) \/
  (src <> dst /\
   copy2 src dst w = (Raise OSError, emit (EvWrite dst Partial) (store dst Partial w))).
Proof.
  unfold copy2. destruct (String.eqb_spec src dst) as [-> | Hne]; [right; left; eauto|].
  destruct (fs w !! src) as [f|]; [|right; left; eauto].
  destruct (fault_at src w); [|right; left; eauto..].
  destruct (fault_at dst w); [left; eauto | right; left; eauto | right; right; auto].
Qed.

Lemma load_course_cases (path : string) (w : World) :
  (exists c, fs w !! path = Some (CourseDoc c) /\
             load_course path w = (Ok c, emit (EvRead path) w)) \/
  (exists e, load_course path w = (Raise e, w)) \/
  load_course path w = (Raise ValueError, emit (EvRead path) w).
Proof.
  unfold load_course. destruct (fs w !! path) as [f|]; [|right; left; eauto].
  destruct (fault_at path w); [|right; left; eauto..].
  destruct f; [left; eauto | right; right; reflexivity..].
Qed.

Lemma load_report_cases (path : string) (w : World) :
  load_report path w = (Ok tt, emit (EvRead path) w) \/
  (exists e, load_report path w = (Raise e, w)) \/
  load_report path w = (Raise ValueError, emit (EvRead path) w).
Proof.
  unfold load_report. destruct (fs w !! path) as [f|]; [|right; left; eauto].
  destruct (fault_at path w); [|right; left; eauto..].
  destruct f; [left; reflexivity.. | right; right; reflexivity].
Qed.

Lemma write_file_cases (path : string) (f : file) (w : World) :
  write_file path f w = (Ok tt, emit (EvWrite path f) (store path f w)) \/
  write_file path f w = (Raise OSError, w) \/
  write_file path f w = (Raise OSError, emit (EvWrite path Partial) (store path Partial w)).
Proof. unfold write_file. destruct (fault_at path w); auto. Qed.

(** The log step of fix_timestamps.py: the trace grows by directories made
    and by writes of [path]; no other file changes. *)
Lemma write_log_cases (path : option string) (w : World) :
  exists evs,
    trace (snd (Fix.write_log path w)) = trace w ++ evs /\
    Forall (fun e => (exists d, e = EvMkdir d) \/
                     exists p f, path = Some p /\ e = EvWrite p f) evs /\
    (forall p, path <> Some p -> fs (snd (Fix.write_log path w)) !! p = fs w !! p) /\
    now (snd (Fix.write_log path w)) = now w.
Proof.
  unfold Fix.write_log. destruct path as [p|].
  2:{ exists []. cbn. rewrite app_nil_r. auto. }
  destruct (Fix.is_empty p).
  { exists []. cbn. rewrite app_nil_r. auto. }
  unfold bind. destruct (mkdir_cases (Str.parent p) w) as [-> | ->].
  2:{ exists []. cbn. rewrite app_nil_r. auto. }
  assert (Hmk : forall d, (exists d', EvMkdir d = EvMkdir d') \/
                          exists q f, Some p = Some q /\ EvMkdir d = EvWrite q f)
    by (intros d; left; eexists; reflexivity).
  assert (Hwr : forall f, (exists d', EvWrite p f = EvMkdir d') \/
                          exists q g, Some p = Some q /\ EvWrite p f = EvWrite q g)
    by (intros f; right; exists p, f; split; reflexivity).
  destruct (write_file_cases p ReportDoc (emit (EvMkdir (Str.parent p)) w)) as [-> | [-> | ->]].
  - eexists. split; [cbn; rewrite <- app_assoc; reflexivity|].
    split; [constructor; [apply Hmk | constructor; [apply Hwr | constructor]]|].
    split; [|reflexivity].
    intros q Hq. cbn. apply lookup_insert_ne. congruence.
  - eexists. split; [cbn; reflexivity|].
    split; [constructor; [apply Hmk | constructor]|]. auto.
  - eexists. split; [cbn; rewrite <- app_assoc; reflexivity|].
    split; [constructor; [apply Hmk | constructor; [apply Hwr | constructor]]|].
    split; [|reflexivity].
    intros q Hq. cbn. apply lookup_insert_ne. congruence.
Qed.

Lemma trace_nil_ext (w : World) : trace w = trace w ++ [].
Proof. symmetry. apply app_nil_r. Qed.

Lemma backup_is_not_course (stamp : string) :
  FixEnhanced.backup_path stamp <> FixEnhanced.COURSE_JSON.
Proof. intros H. vm_compute in H. discriminate. Qed.

Lemma report_is_not_backup (dry_run : bool) (s1 s2 : string) :
  FixEnhanced.output_path dry_run s1 <> FixEnhanced.backup_path s2.
Proof. destruct dry_run; intros H; vm_compute in H; discriminate. Qed.

(** The enhanced [main] applied for real. *)
Ltac chk :=
  cbn [writes_after_backup app];
  repeat match goal with
         | H : String.eqb _ _ = false |- _ => rewrite H
         end;
  rewrite ?String.eqb_refl; reflexivity.

Lemma enhanced_main_run (kw : Lesson -> list string) (w : World) :
  let w' := snd (FixEnhanced.main kw false w) in
  let bp := FixEnhanced.backup_path (now w) in
  exists evs,
    trace w' = trace w ++ evs /\
    writes_after_backup FixEnhanced.COURSE_JSON false evs = true /\
    (forall rs, fst (FixEnhanced.main kw false w) = Ok rs ->
       In (EvCopy FixEnhanced.COURSE_JSON bp) evs /\
       (exists c, In (EvWrite FixEnhanced.COURSE_JSON (CourseDoc c)) evs) /\
       fs w' !! bp = fs w !! FixEnhanced.COURSE_JSON) /\
    (fs w' !! FixEnhanced.COURSE_JSON = fs w !! FixEnhanced.COURSE_JSON \/
     fs w' !! bp = fs w !! FixEnhanced.COURSE_JSON) /\
    (forall p, p <> bp -> p <> FixEnhanced.COURSE_JSON ->
               p <> FixEnhanced.output_path false (now w) -> fs w' !! p = fs w !! p).
Proof.
  intros w' bp. subst w'.
  destruct (FixEnhanced.main kw false w) as [res w'] eqn:E. cbn [fst snd].
  unfold FixEnhanced.main, FixEnhanced.report_stamp, bind in E.
  destruct (mkdir_cases FixEnhanced.BACKUP_DIR w) as [H | H]; rewrite H in E; clear H.
  2:{ injection E as <- <-. exists []. split; [apply trace_nil_ext|].
      split; [chk|]. split; [discriminate|]. auto. }
  unfold strftime_now in E. cbn [now emit] in E. fold bp in E.
  set (w1 := emit (EvMkdir FixEnhanced.BACKUP_DIR) w) in E.
  assert (Hbc : bp <> FixEnhanced.COURSE_JSON) by apply backup_is_not_course.
  set (out := FixEnhanced.output_path false (now w)) in *.
  assert (Hob : out <> bp) by apply report_is_not_backup.
  assert (Ebc : String.eqb bp FixEnhanced.COURSE_JSON = false)
    by (apply String.eqb_neq; exact Hbc).
  assert (Eoc : String.eqb out FixEnhanced.COURSE_JSON = false)
    by (apply String.eqb_neq; intros H; unfold out in H; vm_compute in H; discriminate).
  assert (Eout : FixEnhanced.output_path false (now w) = out) by reflexivity.
  clearbody bp out.
  destruct (copy2_cases FixEnhanced.COURSE_JSON bp w1)
    as [(f & Hf & _ & H) | [(e & H) | (_ & H)]]; rewrite H in E; clear H.
  2:{ injection E as <- <-. exists [EvMkdir FixEnhanced.BACKUP_DIR]. split; [reflexivity|].
      split; [chk|]. split; [discriminate|]. auto. }
  2:{ injection E as <- <-. eexists. split; [cbn; rewrite <- app_assoc; reflexivity|].
      split; [chk|]. split; [discriminate|]. cbn.
      split; [left; apply lookup_insert_ne; exact Hbc|].
      intros p Hp _ _. apply lookup_insert_ne. apply not_eq_sym. exact Hp. }
  set (w2 := emit (EvCopy FixEnhanced.COURSE_JSON bp) (store bp f w1)) in E.
  assert (Hb2 : fs w2 !! bp = fs w !! FixEnhanced.COURSE_JSON)
    by (subst w2 w1; cbn [fs emit store]; rewrite lookup_insert_eq; symmetry; exact Hf).
  assert (Ho2 : forall p, p <> bp -> fs w2 !! p = fs w !! p)
    by (intros p Hp; subst w2 w1; cbn [fs emit store]; apply lookup_insert_ne; congruence).
  assert (Ht2 : trace w2 = trace w ++ [EvMkdir FixEnhanced.BACKUP_DIR;
                                       EvCopy FixEnhanced.COURSE_JSON bp])
    by (subst w2 w1; cbn [trace emit store]; rewrite <- app_assoc; reflexivity).
  assert (Hn2 : now w2 = now w) by reflexivity.
  clearbody w2. clear w1 Hf f.
  destruct (load_course_cases FixEnhanced.COURSE_JSON w2)
    as [(c & _ & H) | [(e & H) | H]]; rewrite H in E; clear H.
  2:{ injection E as <- <-. eexists. split; [exact Ht2|]. split; [reflexivity|].
      split; [discriminate|]. auto. }
  2:{ injection E as <- <-. eexists.
      split; [cbn [trace emit]; rewrite Ht2, <- app_assoc; reflexivity|].
      split; [chk|]. split; [discriminate|]. cbn [fs emit]. auto. }
  destruct (load_report_cases FixEnhanced.AUDIT_REPORT (emit (EvRead FixEnhanced.COURSE_JSON) w2))
    as [H | [(e & H) | H]]; rewrite H in E; clear H.
  2:{ injection E as <- <-. eexists.
      split; [cbn [trace emit]; rewrite Ht2, <- app_assoc; reflexivity|].
      split; [chk|]. split; [discriminate|]. cbn [fs emit]. auto. }
  2:{ injection E as <- <-. eexists.
      split; [cbn [trace emit]; rewrite Ht2, <- !app_assoc; reflexivity|].
      split; [chk|]. split; [discriminate|]. cbn [fs emit]. auto. }
  unfold lift in E. destruct (FixEnhanced.fix_course kw false c) as [[c' rs] | e].
  2:{ injection E as <- <-. eexists.
      split; [cbn [trace emit]; rewrite Ht2, <- !app_assoc; reflexivity|].
      split; [chk|]. split; [discriminate|]. cbn [fs emit]. auto. }
  set (w4 := emit (EvRead FixEnhanced.AUDIT_REPORT) (emit (EvRead FixEnhanced.COURSE_JSON) w2)) in E.
  assert (Hn4 : now w4 = now w) by exact Hn2.
  assert (Hfs4 : fs w4 = fs w2) by reflexivity.
  assert (Ht4 : trace w4 = trace w ++ [EvMkdir FixEnhanced.BACKUP_DIR;
                                       EvCopy FixEnhanced.COURSE_JSON bp;
                                       EvRead FixEnhanced.COURSE_JSON;
                                       EvRead FixEnhanced.AUDIT_REPORT])
    by (subst w4; cbn [trace emit]; rewrite Ht2, <- !app_assoc; reflexivity).
  clearbody w4.
  destruct (write_file_cases FixEnhanced.COURSE_JSON (CourseDoc c') w4)
    as [H | [H | H]]; rewrite H in E; clear H.
  2:{ injection E as <- <-. eexists. split; [exact Ht4|]. split; [reflexivity|].
      split; [discriminate|]. rewrite Hfs4. auto. }
  2:{ injection E as <- <-. eexists.
      split; [cbn [trace emit store]; rewrite Ht4, <- !app_assoc; reflexivity|].
      split; [chk|]. split; [discriminate|]. cbn [fs emit store]. rewrite Hfs4.
      split; [right; rewrite lookup_insert_ne by congruence; exact Hb2|].
      intros p Hp Hpc _. rewrite lookup_insert_ne by congruence. auto. }
  cbn [now emit store] in E. rewrite Hn4, Eout in E.
  set (w5 := emit (EvWrite FixEnhanced.COURSE_JSON (CourseDoc c'))
                  (store FixEnhanced.COURSE_JSON (CourseDoc c') w4)) in E.
  assert (Hfs5 : fs w5 = <[FixEnhanced.COURSE_JSON := CourseDoc c']> (fs w2))
    by (subst w5; cbn; rewrite Hfs4; reflexivity).
  assert (Ht5 : trace w5 = trace w ++ [EvMkdir FixEnhanced.BACKUP_DIR;
                                       EvCopy FixEnhanced.COURSE_JSON bp;
                                       EvRead FixEnhanced.COURSE_JSON;
                                       EvRead FixEnhanced.AUDIT_REPORT;
                                       EvWrite FixEnhanced.COURSE_JSON (CourseDoc c')])
    by (subst w5; cbn [trace emit store]; rewrite Ht4, <- !app_assoc; reflexivity).
  clearbody w5.
  assert (Hb5 : fs w5 !! bp = fs w !! FixEnhanced.COURSE_JSON)
    by (rewrite Hfs5, lookup_insert_ne by congruence; exact Hb2).
  assert (Ho5 : forall p, p <> bp -> p <> FixEnhanced.COURSE_JSON -> fs w5 !! p = fs w !! p)
    by (intros p Hp Hpc; rewrite Hfs5, lookup_insert_ne by congruence; auto).
  destruct (write_file_cases out ReportDoc w5) as [H | [H | H]]; rewrite H in E; clear H.
  - injection E as <- <-. eexists.
    split; [cbn [trace emit store]; rewrite Ht5, <- !app_assoc; reflexivity|].
    split; [chk|].
    cbn [fs emit store].
    assert (Hb6 : <[out := ReportDoc]> (fs w5) !! bp = fs w !! FixEnhanced.COURSE_JSON)
      by (rewrite lookup_insert_ne by congruence; exact Hb5).
    split; [intros rs' _; split; [cbn; tauto | split; [exists c'; cbn; tauto | exact Hb6]]|].
    split; [right; exact Hb6|].
    intros p Hp Hpc Hpo. rewrite lookup_insert_ne by congruence. auto.
  - injection E as <- <-. eexists. split; [exact Ht5|].
    split; [chk|].
    split; [discriminate|]. split; [right; exact Hb5|]. auto.
  - injection E as <- <-. eexists.
    split; [cbn [trace emit store]; rewrite Ht5, <- !app_assoc; reflexivity|].
    split; [chk|].
    cbn [fs emit store].
    assert (Hb6 : <[out := Partial]> (fs w5) !! bp = fs w !! FixEnhanced.COURSE_JSON)
      by (rewrite lookup_insert_ne by congruence; exact Hb5).
    split; [discriminate|]. split; [right; exact Hb6|].
    intros p Hp Hpc Hpo. rewrite lookup_insert_ne by congruence. auto.
Qed.

Lemma writes_after_backup_true (course : string) (tr : list event) :
  writes_after_backup course true tr = true.
Proof.
  induction tr as [|e tr IH]; [reflexivity|].
  destruct e; cbn [writes_after_backup orb]; rewrite ?orb_true_r, ?IH; reflexivity.
Qed.

(** The basic [main] applied for real, whatever its paths. *)
Lemma basic_main_run (course backups : string) (sel : option (list string))
    (log nd : option string) (w : World) :
  let w' := snd (Fix.main course backups sel false log nd w) in
  let bp := path_join backups ("course_backup_" +:+ now w +:+ ".json") in
  exists evs,
    trace w' = trace w ++ evs /\
    writes_after_backup course false evs = true /\
    (forall out, fst (Fix.main course backups sel false log nd w) = Ok out ->
       In (EvCopy course bp) evs /\
       (exists c, In (EvWrite course (CourseDoc c)) evs) /\
       (log <> Some bp -> nd <> Some bp -> fs w' !! bp = fs w !! course)) /\
    (log <> Some bp -> nd <> Some bp ->
     fs w' !! course = fs w !! course \/ fs w' !! bp = fs w !! course).
Proof.
  intros w' bp. subst w'.
  destruct (Fix.main course backups sel false log nd w) as [res w'] eqn:E. cbn [fst snd].
  unfold Fix.main, Fix.create_backup, Fix.write_logs, bind in E.
  destruct (load_course_cases course w) as [(c & Hc & H) | [(e & H) | H]];
    rewrite H in E; clear H.
  2:{ injection E as <- <-. exists []. split; [apply trace_nil_ext|].
      split; [reflexivity|]. split; [discriminate|]. auto. }
  2:{ injection E as <- <-. eexists. split; [reflexivity|].
      split; [reflexivity|]. split; [discriminate|]. auto. }
  destruct (mkdir_cases backups (emit (EvRead course) w)) as [H | H]; rewrite H in E; clear H.
  2:{ injection E as <- <-. eexists. split; [reflexivity|].
      split; [reflexivity|]. split; [discriminate|]. auto. }
  unfold strftime_now in E. cbn [now emit] in E. fold bp in E. clearbody bp.
  set (w1 := emit (EvMkdir backups) (emit (EvRead course) w)) in E.
  destruct (copy2_cases course bp w1)
    as [(f & Hf & Hne & H) | [(e & H) | (Hne & H)]]; rewrite H in E; clear H.
  2:{ injection E as <- <-. subst w1. eexists.
      split; [cbn [trace emit]; rewrite <- app_assoc; reflexivity|].
      split; [reflexivity|]. split; [discriminate|]. auto. }
  2:{ assert (Ebc : String.eqb bp course = false)
        by (apply String.eqb_neq, not_eq_sym; exact Hne).
      injection E as <- <-. subst w1. eexists.
      split; [cbn [trace emit store]; rewrite <- !app_assoc; reflexivity|].
      split; [chk|]. split; [discriminate|]. intros _ _. left.
      cbn [fs emit store]. apply lookup_insert_ne, not_eq_sym. exact Hne. }
  cbn [ret] in E.
  destruct (Fix.process_course sel false c) as [c' results].
  set (w2 := emit (EvCopy course bp) (store bp f w1)) in E.
  assert (Hf' : f = CourseDoc c) by (subst w1; cbn [fs emit] in Hf; congruence).
  assert (Hb2 : fs w2 !! bp = fs w !! course)
    by (subst w2 w1; cbn [fs emit store]; rewrite lookup_insert_eq, Hf', Hc; reflexivity).
  assert (Hc2 : fs w2 !! course = fs w !! course)
    by (subst w2 w1; cbn [fs emit store]; apply lookup_insert_ne, not_eq_sym; exact Hne).
  assert (Ht2 : trace w2 = trace w ++ [EvRead course; EvMkdir backups; EvCopy course bp])
    by (subst w2 w1; cbn [trace emit store]; rewrite <- !app_assoc; reflexivity).
  clearbody w2. clear w1 Hf Hf' f.
  assert (Hpre : forall rest,
            writes_after_backup course false
              ([EvRead course; EvMkdir backups; EvCopy course bp] ++ rest) = true)
    by (intros rest; cbn [app writes_after_backup]; rewrite String.eqb_refl;
        apply writes_after_backup_true).
  destruct (write_file_cases course (CourseDoc c') w2) as [H | [H | H]]; rewrite H in E; clear H.
  2:{ injection E as <- <-. eexists. split; [exact Ht2|].
      split; [rewrite <- (app_nil_r [_; _; _]); apply Hpre|]. split; [discriminate|]. auto. }
  2:{ injection E as <- <-. eexists.
      split; [cbn [trace emit store]; rewrite Ht2, <- !app_assoc; reflexivity|].
      split; [apply Hpre|]. split; [discriminate|]. intros _ _. right.
      cbn [fs emit store]. rewrite lookup_insert_ne by exact Hne. exact Hb2. }
  set (w3 := emit (EvWrite course (CourseDoc c')) (store course (CourseDoc c') w2)) in E.
  assert (Hb3 : fs w3 !! bp = fs w !! course)
    by (subst w3; cbn [fs emit store]; rewrite lookup_insert_ne by exact Hne; exact Hb2).
  assert (Ht3 : trace w3 = trace w ++ [EvRead course; EvMkdir backups; EvCopy course bp;
                                       EvWrite course (CourseDoc c')])
    by (subst w3; cbn [trace emit store]; rewrite Ht2, <- !app_assoc; reflexivity).
  clearbody w3. clear Hb2 Hc2 Ht2 w2.
  destruct (write_log_cases log w3) as (ev1 & Ht4 & _ & Hfs4 & _).
  destruct (Fix.write_log log w3) as [r4 w4]. cbn [snd] in Ht4, Hfs4.
  assert (Hb4 : log <> Some bp -> fs w4 !! bp = fs w !! course)
    by (intros Hl; rewrite Hfs4 by exact Hl; exact Hb3).
  assert (Ht4' : trace w4 = trace w ++ ([EvRead course; EvMkdir backups; EvCopy course bp]
                                        ++ EvWrite course (CourseDoc c') :: ev1))
    by (rewrite Ht4, Ht3, <- !app_assoc; reflexivity).
  clear Ht4 Hfs4 Ht3 Hb3.
  destruct r4 as [[]|e4].
  2:{ injection E as <- <-. eexists. split; [exact Ht4'|]. split; [apply Hpre|].
      split; [discriminate|]. intros Hl _. right. auto. }
  destruct (write_log_cases nd w4) as (ev2 & Ht5 & _ & Hfs5 & _).
  destruct (Fix.write_log nd w4) as [r5 w5]. cbn [snd] in Ht5, Hfs5.
  assert (Hb5 : log <> Some bp -> nd <> Some bp -> fs w5 !! bp = fs w !! course)
    by (intros Hl Hn; rewrite Hfs5 by exact Hn; auto).
  assert (Ht5' : trace w5 = trace w ++ ([EvRead course; EvMkdir backups; EvCopy course bp]
                                        ++ EvWrite course (CourseDoc c') :: ev1 ++ ev2))
    by (rewrite Ht5, Ht4', <- !app_assoc; reflexivity).
  destruct r5 as [[]|e5]; injection E as <- <-.
  - eexists. split; [exact Ht5'|]. split; [apply Hpre|].
    split; [|intros Hl Hn; right; auto].
    intros out _. split; [cbn; tauto|]. split; [exists c'; cbn; tauto|]. exact Hb5.
  - eexists. split; [exact Ht5'|]. split; [apply Hpre|].
    split; [discriminate|]. intros Hl Hn. right. auto.
Qed.

End BackupFacts.

(** C1. With dry-run off, both fixers copy the course document to a
    time-stamped backup before they write the course file: in what a run
    appends to the trace of file operations, every write of the course file
    comes after a copy of it, also in a run that fails, and a run that
    completes has made the copy and the write.  After a completed run the
    backup file holds the document as it was before the run (for
    fix_timestamps.py, whose log paths are arguments, when no log path is
    the backup path). *)
Theorem backup_precedes_course_write :
  (forall (kw : Lesson -> list string) (w : IO.World),
     exists evs,
       IO.trace (snd (FixEnhanced.main kw false w)) = IO.trace w ++ evs /\
       IO.backup_precedes_write FixEnhanced.COURSE_JSON evs /\
       (forall rs, fst (FixEnhanced.main kw false w) = Ok rs ->
          In (IO.EvCopy FixEnhanced.COURSE_JSON (FixEnhanced.backup_path (IO.now w))) evs /\
          (exists c, In (IO.EvWrite FixEnhanced.COURSE_JSON (IO.CourseDoc c)) evs) /\
          IO.fs (snd (FixEnhanced.main kw false w)) !! FixEnhanced.backup_path (IO.now w)
          = IO.fs w !! FixEnhanced.COURSE_JSON)) /\
  (forall (course backups : string) (sel : option (list string))
          (log nd : option string) (w : IO.World),
     let bp := IO.path_join backups ("course_backup_" +:+ IO.now w +:+ ".json") in
     exists evs,
       IO.trace (snd (Fix.main course backups sel false log nd w)) = IO.trace w ++ evs /\
       IO.backup_precedes_write course evs /\
       (forall out, fst (Fix.main course backups sel false log nd w) = Ok out ->
          In (IO.EvCopy course bp) evs /\
          (exists c, In (IO.EvWrite course (IO.CourseDoc c)) evs) /\
          (log <> Some bp -> nd <> Some bp ->
           IO.fs (snd (Fix.main course backups sel false log nd w)) !! bp
           = IO.fs w !! course))).
Proof.
  split.
  - intros kw w. destruct (enhanced_main_run kw w) as (evs & Htr & Hchk & Hok & _).
    exists evs. split; [assumption|]. split; [|assumption].
    apply writes_after_backup_precedes. assumption.
  - intros course backups sel log nd w bp.
    destruct (basic_main_run course backups sel log nd w) as (evs & Htr & Hchk & Hok & _).
    exists evs. split; [assumption|]. split; [|assumption].
    apply writes_after_backup_precedes. assumption.
Qed.

(** A run of each fixer on [sample_world] completes, so the copy and the
    write are both there and the backup holds the document. *)
Lemma backup_precedes_course_write_witness :
  (exists evs,
     IO.trace (snd (FixEnhanced.main no_keywords false sample_world)) = evs /\
     IO.backup_precedes_write FixEnhanced.COURSE_JSON evs /\
     In (IO.EvCopy FixEnhanced.COURSE_JSON
           "src/content/.backups/course_backup_20250815_120000.json") evs /\
     exists c, In (IO.EvWrite FixEnhanced.COURSE_JSON (IO.CourseDoc c)) evs) /\
  (exists evs,
     IO.trace (snd (Fix.main FixEnhanced.COURSE_JSON FixEnhanced.BACKUP_DIR None false
                      None None sample_world)) = evs /\
     IO.backup_precedes_write FixEnhanced.COURSE_JSON evs /\
     (exists c, In (IO.EvWrite FixEnhanced.COURSE_JSON (IO.CourseDoc c)) evs) /\
     IO.fs (snd (Fix.main FixEnhanced.COURSE_JSON FixEnhanced.BACKUP_DIR None false
                   None None sample_world))
       !! "src/content/.backups/course_backup_20250815_120000.json"
     = Some (IO.CourseDoc sample_course)).
Proof.
  split.
  - destruct (proj1 backup_precedes_course_write no_keywords sample_world)
      as (evs & Htr & Hpre & Hok).
    exists evs. split; [exact Htr|]. split; [exact Hpre|].
    destruct (Hok (match fst (FixEnhanced.main no_keywords false sample_world) with
                   | Ok rs => rs | Raise _ => [] end)) as (Hcopy & Hwrite & _).
    + vm_compute. reflexivity.
    + split; [exact Hcopy | exact Hwrite].
  - destruct (proj2 backup_precedes_course_write FixEnhanced.COURSE_JSON
                FixEnhanced.BACKUP_DIR None None None sample_world)
      as (evs & Htr & Hpre & Hok).
    exists evs. split; [exact Htr|]. split; [exact Hpre|].
    destruct (Hok (match fst (Fix.main FixEnhanced.COURSE_JSON FixEnhanced.BACKUP_DIR
                                None false None None sample_world) with
                   | Ok out => out | Raise _ => ([], None) end)) as (_ & Hwrite & Hbackup).
    + vm_compute. reflexivity.
    + split; [exact Hwrite|].
      exact (Hbackup ltac:(discriminate) ltac:(discriminate)).
Defined.

Example enhanced_main_sample_trace :
  IO.trace (snd (FixEnhanced.main no_keywords false sample_world))
  = [IO.EvMkdir "src/content/.backups";
     IO.EvCopy "src/content/course.json"
               "src/content/.backups/course_backup_20250815_120000.json";
     IO.EvRead "src/content/course.json";
     IO.EvRead "audits/course_timestamp_audit_report.json";
     IO.EvWrite "src/content/course.json" (IO.CourseDoc sample_course);
     IO.EvWrite "audits/fix_pass_applied_20250815_120000.json" IO.ReportDoc]%string.
Proof. vm_compute. reflexivity. Qed.

(** A dry run of either fixer neither copies nor writes the course file.
    That of fix_timestamps_enhanced.py ends in [UnboundLocalError] before
    its report is written. *)
Example dry_run_sample_traces :
  FixEnhanced.main no_keywords true sample_world
  = (Raise UnboundLocalError,
     IO.emit (IO.EvRead "audits/course_timestamp_audit_report.json")
       (IO.emit (IO.EvRead "src/content/course.json") sample_world)) /\
  IO.trace (snd (Fix.main FixEnhanced.COURSE_JSON FixEnhanced.BACKUP_DIR None true
                   None None sample_world))
  = [IO.EvRead "src/content/course.json"]%string.
Proof. vm_compute. split; reflexivity. Qed.

(** ** Claim C2: the verdict of the audits *)

Section AuditFacts.
Import AuditEnhanced.

Lemma is_nil_true {A : Type} (l : list A) : is_nil l = true <-> l = [].
Proof. destruct l; cbn; split; congruence. Qed.

(** The enhanced audit passes a lesson exactly when the duration is clean
    and every list of issues is empty. *)
Lemma enhanced_audit_verdict (lesson : Lesson) :
  let r := audit_lesson lesson in
  overall r = Pass <->
  duration_ok r = true /\ format r = [] /\ out_of_range r = [] /\
  non_monotonic r = [] /\ density r = [] /\ coverage_gaps r = [] /\
  vague_labels r = [] /\ weak_descriptions r = [].
Proof.
  unfold audit_lesson. cbn [overall duration_ok format out_of_range non_monotonic
    density coverage_gaps vague_labels weak_descriptions].
  rewrite <- !is_nil_true.
  match goal with
  | |- (if ?b then Pass else NeedsFixes) = Pass <-> _ =>
      destruct b eqn:E
  end.
  - rewrite !andb_true_iff in E. tauto.
  - split; [discriminate|]. intros H.
    assert (E' : false = true); [|discriminate].
    rewrite <- E, !andb_true_iff. tauto.
Qed.

Lemma scan_format (d : option Z) (l : list Timestamp) (ts : Timestamp) :
  In ts l -> to_seconds (time ts) = None -> sc_format (scan d l) <> [].
Proof.
  induction l as [|t l IH]; intros Hin Hnone; [contradiction|].
  cbn [scan]. destruct Hin as [-> | Hin].
  - rewrite Hnone. cbn. discriminate.
  - specialize (IH Hin Hnone).
    destruct (to_seconds (time t)); cbn; [assumption | discriminate].
Qed.

(** A lesson with a time that does not parse never passes the enhanced audit. *)
Lemma enhanced_audit_malformed (lesson : Lesson) (ts : Timestamp) :
  In ts (timestamps lesson) -> to_seconds (time ts) = None ->
  overall (audit_lesson lesson) = NeedsFixes.
Proof.
  intros Hin Hnone.
  destruct (overall (audit_lesson lesson)) eqn:E; [|reflexivity].
  apply enhanced_audit_verdict in E as (_ & Hf & _).
  exfalso. revert Hf. unfold audit_lesson. cbn [format].
  eapply scan_format; eassumption.
Qed.

(** With no malformed time, the two quality lists are empty exactly when
    every entry passes both quality checks. *)
Lemma scan_quality (d : option Z) (l : list Timestamp) :
  sc_format (scan d l) = [] ->
  (sc_vague (scan d l) = [] /\ sc_weak (scan d l) = [] <->
   Forall (fun ts => check_label_quality (label ts) = true /\
                     check_description_quality (description ts) (label ts) = true) l).
Proof.
  induction l as [|t l IH]; cbn [scan]; intros Hf.
  - cbn. split; [constructor | auto].
  - destruct (to_seconds (time t)); cbn in Hf; [|discriminate].
    specialize (IH Hf). cbn [sc_vague sc_weak].
    rewrite Forall_cons, <- IH.
    destruct (check_label_quality (label t));
      destruct (check_description_quality (description t) (label t));
      cbn [negb when app]; intuition discriminate.
Qed.

(** The basic audit passes a lesson exactly when the duration is clean and
    the range, order, coverage, density and quality lists are empty; the
    format list has no part in it. *)
Lemma basic_audit_verdict (cfg : Audit.Config) (lesson : Lesson) (r : Report) :
  Audit.audit_lesson cfg lesson = Ok r ->
  overall r = Pass <->
  duration_ok r = true /\ out_of_range r = [] /\ non_monotonic r = [] /\
  coverage_gaps r = [] /\ density r = [] /\
  vague_labels r = [] /\ weak_descriptions r = [].
Proof.
  unfold Audit.audit_lesson.
  destruct (Audit.scan_times (timestamps lesson)) as [times_s bad_format].
  intros H. inv_bind H. inv_ret H. subst r.
  cbn [overall duration_ok out_of_range non_monotonic coverage_gaps density
       vague_labels weak_descriptions].
  rewrite <- !is_nil_true.
  match goal with
  | |- (if ?b then Pass else NeedsFixes) = Pass <-> _ => destruct b eqn:E
  end.
  - rewrite !andb_true_iff, negb_involutive in E. rewrite !andb_true_iff. tauto.
  - split; [discriminate|]. rewrite !andb_true_iff. intros H.
    assert (E' : false = true); [|discriminate].
    rewrite <- E, !andb_true_iff, negb_involutive. tauto.
Qed.

End AuditFacts.

(** C2, at the failing input. The basic audit collects the malformed time
    ["abc"] in its format list and still gives the lesson the verdict
    [Pass]: its acceptance test leaves the format list out.  The enhanced
    audit gives the same lesson [NeedsFixes]. *)
Theorem basic_audit_passes_malformed_time :
  (exists r, Audit.audit_lesson Audit.default_config lesson_malformed_time = Ok r /\
             format r = ["abc"%string] /\ overall r = Pass) /\
  format (AuditEnhanced.audit_lesson lesson_malformed_time) = ["abc"%string] /\
  overall (AuditEnhanced.audit_lesson lesson_malformed_time) = NeedsFixes.
Proof.
  split; [eexists; split; [vm_compute; reflexivity | split; reflexivity]|].
  split; vm_compute; reflexivity.
Qed.

(** ** The normalizer of fix_timestamps.py *)

Section BasicClockFacts.
Import Py.

Lemma digit_val_range (c : ascii) : is_digit c = true -> 0 <= digit_val c <= 9.
Proof.
  unfold is_digit, digit_val. intros H. apply andb_true_iff in H as [H1 H2].
  apply Nat.leb_le in H1, H2. lia.
Qed.

Lemma digit_val_0_to_5 (c : ascii) :
  is_0_to_5 c = true -> is_digit c = true /\ 0 <= digit_val c <= 5.
Proof.
  unfold is_0_to_5, is_digit, digit_val. intros H. apply andb_true_iff in H as [H1 H2].
  apply Nat.leb_le in H1, H2. split; [|lia].
  apply andb_true_iff. split; apply Nat.leb_le; lia.
Qed.

(** A minutes group of the clock expression reads as a number below sixty. *)
Lemma minutes_field_range (l : chars) :
  minutes_field l = true -> 0 <= digits_value l < 60.
Proof.
  destruct l as [|a [|d [|x l]]]; cbn [minutes_field]; try discriminate.
  - intros H. pose proof (digit_val_range a H). unfold digits_value. cbn [fold_left].
    unfold digit_step. rewrite H. lia.
  - intros H. apply andb_true_iff in H as [Ha Hd].
    destruct (digit_val_0_to_5 a Ha) as [Ha' Hr]. pose proof (digit_val_range d Hd).
    unfold digits_value. cbn [fold_left]. unfold digit_step. rewrite Ha', Hd. lia.
Qed.

Lemma match_clock_minutes (l : chars) (g : option Z) (m s : Z) :
  match_clock l = Some (g, m, s) -> 0 <= m < 60.
Proof.
  unfold match_clock.
  destruct (split_on ":" l) as [|p0 [|p1 [|p2 [|p3 ps]]]]; try discriminate.
  - destruct (minutes_field p0 && seconds_field p1) eqn:E; [|discriminate].
    intros [= _ <- _]. apply andb_true_iff in E as [E _].
    apply minutes_field_range. assumption.
  - destruct (all_digits p0 && minutes_field p1 && seconds_field p2) eqn:E; [|discriminate].
    intros [= _ <- _]. apply andb_true_iff in E as [E _]. apply andb_true_iff in E as [_ E].
    apply minutes_field_range. assumption.
Qed.

Lemma all_digits_str_of_int (z : Z) :
  all_digits (str_of_int z) = true -> digits_value (str_of_int z) = z.
Proof.
  unfold str_of_int. destruct (z <? 0) eqn:E.
  - cbn [all_digits forallb]. change (is_digit "-") with false. discriminate.
  - intros _. apply Z.ltb_ge in E. apply digits_value_digits. assumption.
Qed.

Lemma digits_value_fmt_02d (z : Z) : 0 <= z -> digits_value (fmt_02d z) = z.
Proof.
  intros Hz. pose proof (int_of_fmt_02d z) as H.
  rewrite int_of_digits in H.
  - injection H as H. exact H.
  - unfold fmt_02d, str_of_int.
    replace (z <? 0) with false by (symmetry; apply Z.ltb_ge; assumption).
    destruct ((0 <=? z) && (z <? 10)); cbn [forallb];
      rewrite digits_all_digits by assumption; reflexivity.
  - unfold fmt_02d. destruct ((0 <=? z) && (z <? 10)); [discriminate|].
    unfold str_of_int.
    replace (z <? 0) with false by (symmetry; apply Z.ltb_ge; assumption).
    apply digits_nonempty.
Qed.

Lemma seconds_field_fmt_02d (z : Z) : seconds_field (fmt_02d z) = true -> 0 <= z.
Proof.
  destruct (Z.ltb_spec z 0) as [Hneg | Hpos]; [|intros _; assumption].
  unfold fmt_02d, str_of_int.
  replace (0 <=? z) with false by (symmetry; apply Z.leb_gt; assumption).
  replace (z <? 0) with true by (symmetry; apply Z.ltb_lt; assumption).
  cbn [andb seconds_field].
  destruct (digits (- z)) as [|d [|d' l]]; discriminate.
Qed.

Lemma basic_clean_fmt_clock (h m s : Z) :
  strip (hd [] (split_on "(" (strip (chars_of (Fix.fmt_clock h m s)))))
  = chars_of (Fix.fmt_clock h m s).
Proof.
  change (Fix.fmt_clock h m s) with (FixEnhanced.fmt_clock h m s).
  rewrite chars_of_fmt_clock.
  assert (Hsp : forallb (fun c => negb (is_space c))
                  (str_of_int h ++ ":"%char :: fmt_02d m ++ ":"%char :: fmt_02d s) = true).
  { apply clock_char_ok; [|reflexivity].
    intros c Hc. rewrite (plain_not_space c Hc). reflexivity. }
  rewrite (strip_no_space _ Hsp), split_on_no_sep.
  - cbn [hd]. apply strip_no_space. assumption.
  - apply clock_char_ok; [|reflexivity].
    intros c Hc. rewrite (plain_not_open c Hc). reflexivity.
Qed.

(** A formatted clock with minutes below sixty is a fixed point of the
    basic normalizer, and the change flag is off. *)
Lemma basic_normalize_time_fmt_clock (h m s : Z) :
  0 <= m < 60 ->
  Fix.normalize_time (Fix.fmt_clock h m s) = (Fix.fmt_clock h m s, false).
Proof.
  intros Hm. unfold Fix.normalize_time. rewrite basic_clean_fmt_clock.
  unfold match_clock.
  change (Fix.fmt_clock h m s) with (FixEnhanced.fmt_clock h m s).
  rewrite split_fmt_clock.
  destruct (all_digits (str_of_int h) && minutes_field (fmt_02d m)
            && seconds_field (fmt_02d s)) eqn:E; [|reflexivity].
  apply andb_true_iff in E as [E Es]. apply andb_true_iff in E as [Eh _].
  rewrite (all_digits_str_of_int h Eh).
  rewrite (digits_value_fmt_02d m) by lia.
  rewrite (digits_value_fmt_02d s) by (apply seconds_field_fmt_02d; assumption).
  replace (60 <=? m) with false by (symmetry; apply Z.leb_gt; lia).
  change (Fix.fmt_clock h m s) with (FixEnhanced.fmt_clock h m s).
  rewrite string_of_list_ascii_of_string, String.eqb_refl. reflexivity.
Qed.

Lemma basic_normalize_time_cases (t : string) :
  Fix.normalize_time t = (t, false) \/
  exists h m s, 0 <= m < 60 /\ fst (Fix.normalize_time t) = Fix.fmt_clock h m s.
Proof.
  unfold Fix.normalize_time.
  set (clean := strip (hd [] (split_on "(" (strip (chars_of t))))).
  destruct (match_clock clean) as [[[g m] s]|] eqn:E.
  - right. pose proof (match_clock_minutes _ _ _ _ E) as Hm.
    replace (60 <=? m) with false by (symmetry; apply Z.leb_gt; lia).
    exists (match g with Some h => h | None => 0 end), m, s. split; [assumption | reflexivity].
  - destruct (split_on ":" clean) as [|p0 [|p1 [|p2 ps]]]; try (left; reflexivity).
    destruct (int_of p0) as [minutes|]; [|left; reflexivity].
    destruct (int_of p1) as [seconds|]; [|left; reflexivity].
    right. exists (minutes / 60), (minutes mod 60), seconds.
    split; [apply Z.mod_pos_bound; lia | reflexivity].
Qed.

(** Normalizing twice is normalizing once, and the second time reports no
    change. *)
Lemma basic_normalize_time_idempotent (t : string) :
  Fix.normalize_time (fst (Fix.normalize_time t)) = (fst (Fix.normalize_time t), false).
Proof.
  destruct (basic_normalize_time_cases t) as [E | (h & m & s & Hm & E)].
  - rewrite E. cbn [fst]. exact E.
  - rewrite E. apply basic_normalize_time_fmt_clock. assumption.
Qed.

(** The basic normalizer keeps the seconds. *)
Lemma basic_to_seconds_normalize_time (t : string) :
  Fix.to_seconds (fst (Fix.normalize_time t)) = Fix.to_seconds t.
Proof.
  unfold Fix.to_seconds at 1. rewrite basic_normalize_time_idempotent.
  unfold Fix.to_seconds. destruct (Fix.normalize_time t) as [n c]. reflexivity.
Qed.

End BasicClockFacts.

(** ** Claim C3: normalization and overflow *)

(** C3, at the failing input. Given minutes and seconds only, both
    normalizers roll the minutes into hours and leave the seconds as they
    are: ["0:75"] becomes ["0:00:75"], whose seconds field is not below sixty
    and which the enhanced normalizer, given all three fields, turns into
    ["0:01:15"].  The seconds value is 75 throughout. *)
Theorem normalize_time_keeps_seconds_overflow :
  FixEnhanced.normalize_time "0:75" = Ok "0:00:75"%string /\
  FixEnhanced.normalize_time "0:00:75" = Ok "0:01:15"%string /\
  Fix.normalize_time "0:75" = ("0:00:75"%string, true) /\
  FixEnhanced.time_to_seconds "0:75" = Ok 75 /\
  FixEnhanced.time_to_seconds "0:00:75" = Ok 75 /\
  Fix.to_seconds "0:75" = Some 75.
Proof. vm_compute. repeat split; reflexivity. Qed.

(** For the enhanced normalizer: the seconds survive normalization, three
    fields are rolled, and a canonical clock is left as it is. *)
Lemma enhanced_normalize_time_seconds (t t' : string) :
  FixEnhanced.normalize_time t = Ok t' ->
  FixEnhanced.time_to_seconds t' = FixEnhanced.time_to_seconds t.
Proof. apply normalize_time_seconds. Qed.

Lemma enhanced_normalize_time_canonical (h m s : Z) :
  0 <= m < 60 -> 0 <= s < 60 ->
  FixEnhanced.normalize_time (FixEnhanced.fmt_clock h m s)
  = Ok (FixEnhanced.fmt_clock h m s).
Proof.
  intros Hm Hs. rewrite normalize_time_fmt_clock.
  rewrite (Z.div_small s 60), (Z.mod_small s 60), Z.add_0_r by lia.
  rewrite (Z.div_small m 60), (Z.mod_small m 60), Z.add_0_r by lia.
  reflexivity.
Qed.

(** ** Claim C6: entries that are too close *)

Section DenseFacts.

Lemma append_nil_r (s : string) : s +:+ "" = s.
Proof.
  induction s as [|c s IH]; [reflexivity|].
  change (String c (s +:+ "") = String c s). rewrite IH. reflexivity.
Qed.

Lemma append_assoc (a b c : string) : (a +:+ b) +:+ c = a +:+ (b +:+ c).
Proof.
  induction a as [|x a IH]; [reflexivity|].
  change (String x ((a +:+ b) +:+ c) = String x (a +:+ (b +:+ c))).
  rewrite IH. reflexivity.
Qed.

(** What [merge_from] puts first is [current] with text added at the end of
    its description. *)
Lemma merge_from_head (rest : list Timestamp) :
  forall current s out cs,
    FixEnhanced.merge_from current s rest = Ok (out, cs) ->
    exists out' tail,
      out = {| time := time current; label := label current;
               description := description current +:+ tail |} :: out'.
Proof.
  induction rest as [|next r IH]; intros current s out cs H; cbn in H.
  - inv_ret H. injection H as <- <-. exists [], ""%string.
    rewrite append_nil_r. destruct current; reflexivity.
  - inv_bind H. destruct (a - s <? FixEnhanced.MIN_SEPARATION_S).
    + inv_bind H. destruct a0 as [out0 cs0]. inv_ret H. injection H as <- <-.
      destruct (IH _ _ _ _ Ha0) as (out' & tail & ->).
      exists out', ("; " +:+ description next +:+ tail)%string.
      cbn [time label description FixEnhanced.set_description].
      rewrite !append_assoc. reflexivity.
    + inv_bind H. destruct a0 as [out0 cs0]. inv_ret H. injection H as <- <-.
      exists out0, ""%string. rewrite append_nil_r. destruct current; reflexivity.
Qed.

Lemma drop_indices_sublist (to_remove : gset nat) (l : list Timestamp) :
  forall i, Fix.drop_indices i to_remove l `sublist_of` l.
Proof.
  induction l as [|t l IH]; intros i; cbn; [constructor|].
  destruct (bool_decide (i ∈ to_remove)); [apply sublist_cons | apply sublist_skip];
    apply IH.
Qed.

Lemma de_densify_sublist (dry_run : bool) (l : list Timestamp) :
  fst (Fix.de_densify dry_run l) `sublist_of` l.
Proof.
  unfold Fix.de_densify. destruct (Nat.ltb 1 (length l)); [|reflexivity].
  destruct (Fix.dense_pairs _ _) as [to_remove log]. cbn [fst].
  destruct (bool_decide (to_remove ≠ ∅) && negb dry_run);
    [apply drop_indices_sublist | reflexivity].
Qed.

Lemma singleton_union_nonempty (i : nat) (R : gset nat) : {[i]} ∪ R ≠ ∅.
Proof.
  intros H. apply (not_elem_of_empty (C := gset nat) i).
  rewrite <- H. apply elem_of_union_l, elem_of_singleton. reflexivity.
Qed.

Lemma elem_of_singleton_union_empty (i j : nat) :
  i ∈ ({[j]} ∪ ∅ : gset nat) <-> i = j.
Proof. rewrite elem_of_union, elem_of_singleton, elem_of_empty. tauto. Qed.

Lemma de_densify_pair (a b : Timestamp) (sa sb : Z) :
  Fix.to_seconds (time a) = Some sa -> Fix.to_seconds (time b) = Some sb ->
  sa <= sb -> sb - sa < Fix.MIN_SEP_S ->
  Fix.de_densify false [a; b]
  = (if Nat.ltb (String.length (description a)) (String.length (description b))
     then [b] else [a],
     [(time a, time b)]).
Proof.
  intros Ha Hb Hle Hclose. unfold Fix.de_densify.
  change (Nat.ltb 1 (length [a; b])) with true. cbv iota.
  cbn [Fix.times_with_index]. rewrite Ha, Hb.
  cbn [stable_sort fold_right insert_by_key fst].
  replace (sa <=? sb) with true by (symmetry; apply Z.leb_le; assumption).
  cbn [Fix.dense_pairs].
  replace (sb - sa <? Fix.MIN_SEP_S) with true by (symmetry; apply Z.ltb_lt; assumption).
  rewrite bool_decide_eq_false_2 by apply not_elem_of_empty. cbn [negb andb].
  rewrite (bool_decide_eq_true_2 (_ ≠ ∅)) by apply singleton_union_nonempty.
  cbn [negb andb Fix.drop_indices].
  destruct (Nat.ltb (String.length (description a)) (String.length (description b))).
  - rewrite (bool_decide_eq_true_2 (0%nat ∈ _))
      by (apply elem_of_singleton_union_empty; reflexivity).
    rewrite (bool_decide_eq_false_2 (1%nat ∈ _))
      by (rewrite elem_of_singleton_union_empty; discriminate).
    reflexivity.
  - rewrite (bool_decide_eq_false_2 (0%nat ∈ _))
      by (rewrite elem_of_singleton_union_empty; discriminate).
    rewrite (bool_decide_eq_true_2 (1%nat ∈ _))
      by (apply elem_of_singleton_union_empty; reflexivity).
    reflexivity.
Qed.

(** *** The close pairs of the basic fixer, whatever the list *)

Let idx (x : Z * (nat * Timestamp)) : nat := fst (snd x).

Lemma dense_pairs_step (prev_s curr_s : Z) (prev_idx curr_idx : nat)
    (prev_ts curr_ts : Timestamp) (r : list (Z * (nat * Timestamp)))
    (to_remove : gset nat) :
  Fix.dense_pairs ((prev_s, (prev_idx, prev_ts)) :: (curr_s, (curr_idx, curr_ts)) :: r)
              to_remove
  = if negb (bool_decide (prev_idx ∈ to_remove)) && (curr_s - prev_s <? Fix.MIN_SEP_S)
    then
      let removed :=
        if Nat.ltb (String.length (description prev_ts))
                   (String.length (description curr_ts))
        then prev_idx else curr_idx in
      let '(rm, log) :=
        Fix.dense_pairs ((curr_s, (curr_idx, curr_ts)) :: r) ({[removed]} ∪ to_remove) in
      (rm, (time prev_ts, time curr_ts) :: log)
    else Fix.dense_pairs ((curr_s, (curr_idx, curr_ts)) :: r) to_remove.
Proof. reflexivity. Qed.

Lemma resolve_dense_step (b : bool) (prev_s curr_s : Z) (prev_idx curr_idx : nat)
    (prev_ts curr_ts : Timestamp) (r : list (Z * (nat * Timestamp))) :
  Fix.resolve_dense b ((prev_s, (prev_idx, prev_ts)) :: (curr_s, (curr_idx, curr_ts)) :: r)
  = if negb b && (curr_s - prev_s <? Fix.MIN_SEP_S)
    then
      let curr_longer :=
        Nat.ltb (String.length (description prev_ts))
                (String.length (description curr_ts)) in
      let '(rm, log) :=
        Fix.resolve_dense (negb curr_longer) ((curr_s, (curr_idx, curr_ts)) :: r) in
      ((if curr_longer then prev_idx else curr_idx) :: rm,
       (time prev_ts, time curr_ts) :: log)
    else Fix.resolve_dense false ((curr_s, (curr_idx, curr_ts)) :: r).
Proof. reflexivity. Qed.

Lemma dense_pairs_resolve (l : list (Z * (nat * Timestamp))) :
  forall acc : gset nat,
    NoDup (map idx l) ->
    (forall i, i ∈ acc -> ~ In i (map idx (tl l))) ->
    Fix.dense_pairs l acc
    = (list_to_set
         (fst (Fix.resolve_dense
                 (match l with [] => false | p :: _ => bool_decide (idx p ∈ acc) end) l))
       ∪ acc,
       snd (Fix.resolve_dense
              (match l with [] => false | p :: _ => bool_decide (idx p ∈ acc) end) l)).
Proof.
  induction l as [|[prev_s [prev_idx prev_ts]] r IH]; intros acc Hnd Hacc.
  - cbn. rewrite (left_id_L ∅ (∪)). reflexivity.
  - destruct r as [|[curr_s [curr_idx curr_ts]] r'].
    + cbn. rewrite (left_id_L ∅ (∪)). reflexivity.
    + rewrite dense_pairs_step, resolve_dense_step.
      change (idx (prev_s, (prev_idx, prev_ts))) with prev_idx.
      cbn [map tl] in Hnd, Hacc.
      change (idx (prev_s, (prev_idx, prev_ts))) with prev_idx in Hnd.
      change (idx (curr_s, (curr_idx, curr_ts))) with curr_idx in Hnd, Hacc.
      apply NoDup_cons in Hnd as [Hp Hnd].
      pose proof Hnd as Hnd'. apply NoDup_cons in Hnd' as [Hc _].
      assert (Hpc : prev_idx <> curr_idx) by (intros ->; apply Hp; left; reflexivity).
      assert (Hcacc : curr_idx ∉ acc) by (intros Hi; apply (Hacc _ Hi); left; reflexivity).
      destruct (negb (bool_decide (prev_idx ∈ acc)) && (curr_s - prev_s <? Fix.MIN_SEP_S)).
      * cbv zeta.
        set (longer := Nat.ltb (String.length (description prev_ts))
                               (String.length (description curr_ts))).
        set (removed := if longer then prev_idx else curr_idx).
        assert (Hflag : bool_decide (curr_idx ∈ ({[removed]} ∪ acc : gset nat)) = negb longer).
        { subst removed. destruct longer; cbn [negb].
          - apply bool_decide_eq_false_2. rewrite elem_of_union, elem_of_singleton.
            intros [He | He]; [apply Hpc; symmetry; exact He | apply Hcacc; exact He].
          - apply bool_decide_eq_true_2, elem_of_union_l, elem_of_singleton. reflexivity. }
        rewrite (IH ({[removed]} ∪ acc) Hnd).
        -- change (idx (curr_s, (curr_idx, curr_ts))) with curr_idx. rewrite Hflag.
           destruct (Fix.resolve_dense (negb longer) ((curr_s, (curr_idx, curr_ts)) :: r'))
             as [rm log].
           cbn [fst snd list_to_set]. f_equal.
           rewrite (assoc_L (∪)), (comm_L (∪) (list_to_set rm)). reflexivity.
        -- intros i Hi Hin. cbn [tl map] in Hin.
           apply elem_of_union in Hi as [Hi | Hi].
           ++ apply elem_of_singleton in Hi. subst i removed.
              destruct longer;
                [apply Hp; right; apply list_elem_of_In; exact Hin
                | apply Hc, list_elem_of_In; exact Hin].
           ++ apply (Hacc _ Hi). right. exact Hin.
      * rewrite (IH acc Hnd).
        -- change (idx (curr_s, (curr_idx, curr_ts))) with curr_idx.
           rewrite (bool_decide_eq_false_2 _ Hcacc). reflexivity.
        -- intros i Hi Hin. apply (Hacc _ Hi). right. exact Hin.
Qed.

Lemma times_with_index_bound (l : list Timestamp) :
  forall i0 x, In x (Fix.times_with_index i0 l) -> (i0 <= idx x)%nat.
Proof.
  induction l as [|t l IH]; intros i0 x Hin; [destruct Hin|].
  cbn [Fix.times_with_index] in Hin.
  destruct (Fix.to_seconds (time t)).
  - destruct Hin as [<- | Hin]; [cbn; lia|]. apply IH in Hin. lia.
  - apply IH in Hin. lia.
Qed.

Lemma times_with_index_NoDup (l : list Timestamp) :
  forall i0, NoDup (map idx (Fix.times_with_index i0 l)).
Proof.
  induction l as [|t l IH]; intros i0; cbn [Fix.times_with_index]; [constructor|].
  destruct (Fix.to_seconds (time t)); [|apply IH].
  cbn [map]. apply NoDup_cons. split; [|apply IH].
  change (idx (z, (i0, t))) with i0. intros Hin.
  apply list_elem_of_In, in_map_iff in Hin as (x & Hx & Hin).
  apply times_with_index_bound in Hin. lia.
Qed.

Lemma sorted_index_NoDup (l : list Timestamp) :
  NoDup (map idx (stable_sort (Fix.times_with_index 0 l))).
Proof.
  apply NoDup_ListNoDup.
  eapply Permutation_NoDup; [|apply NoDup_ListNoDup, (times_with_index_NoDup l 0%nat)].
  apply Permutation_map. symmetry. apply stable_sort_perm.
Qed.

Lemma drop_indices_none (l : list Timestamp) :
  forall i0, Fix.drop_indices i0 ∅ l = l.
Proof.
  induction l as [|t l IH]; intros i0; cbn [Fix.drop_indices]; [reflexivity|].
  rewrite bool_decide_eq_false_2 by apply not_elem_of_empty. rewrite IH. reflexivity.
Qed.

Lemma times_with_index_length (l : list Timestamp) :
  forall i0, (length (Fix.times_with_index i0 l) <= length l)%nat.
Proof.
  induction l as [|t l IH]; intros i0; cbn [Fix.times_with_index length]; [lia|].
  destruct (Fix.to_seconds (time t)); cbn [length]; specialize (IH (S i0)); lia.
Qed.

Lemma stable_sort_length {A : Type} (l : list (Z * A)) : length (stable_sort l) = length l.
Proof. apply Permutation_length, stable_sort_perm. Qed.

Lemma dense_pairs_resolve_empty (l : list (Z * (nat * Timestamp))) :
  NoDup (map idx l) ->
  Fix.dense_pairs l ∅
  = (list_to_set (fst (Fix.resolve_dense false l)), snd (Fix.resolve_dense false l)).
Proof.
  intros Hnd. rewrite (dense_pairs_resolve l ∅ Hnd).
  - rewrite (right_id_L ∅ (∪)).
    destruct l as [|p r]; [reflexivity|].
    rewrite bool_decide_eq_false_2 by apply not_elem_of_empty. reflexivity.
  - intros i Hi. apply not_elem_of_empty in Hi. destruct Hi.
Qed.

(** The whole step: what is removed and logged is what [Fix.resolve_dense]
    tells for the entries in time order. *)
Lemma de_densify_resolve (dry_run : bool) (l : list Timestamp) :
  let '(rm, log) := Fix.resolve_dense false (stable_sort (Fix.times_with_index 0 l)) in
  Fix.de_densify dry_run l
  = (if dry_run then l else Fix.drop_indices 0 (list_to_set rm) l, log).
Proof.
  pose proof (dense_pairs_resolve_empty _ (sorted_index_NoDup l)) as H.
  unfold Fix.de_densify. destruct (Nat.ltb 1 (length l)) eqn:El.
  - rewrite H.
    destruct (Fix.resolve_dense false (stable_sort (Fix.times_with_index 0 l))) as [rm log].
    cbn [fst snd].
    destruct dry_run; cbn [negb]; [rewrite andb_false_r; reflexivity|].
    rewrite andb_true_r. destruct (bool_decide (list_to_set rm ≠ (∅ : gset nat))) eqn:Ee;
      [reflexivity|].
    apply bool_decide_eq_false in Ee.
    assert (Hrm : (list_to_set rm : gset nat) = ∅).
    { destruct (decide ((list_to_set rm : gset nat) = ∅)) as [He | Hne];
        [exact He | contradiction]. }
    rewrite Hrm, drop_indices_none. reflexivity.
  - apply Nat.ltb_ge in El.
    pose proof (times_with_index_length l 0) as Hlen.
    rewrite <- (stable_sort_length (Fix.times_with_index 0 l)) in Hlen.
    destruct (stable_sort (Fix.times_with_index 0 l)) as [|[s [i t]] [|y r]];
      [| |cbn [length] in Hlen; lia];
      cbn [Fix.resolve_dense list_to_set]; rewrite drop_indices_none; destruct dry_run; reflexivity.
Qed.

(** *** The groups of the enhanced fixer *)

Import FixEnhanced.

Lemma set_description_same (ts : Timestamp) : set_description ts (description ts) = ts.
Proof. destruct ts; reflexivity. Qed.

Lemma merge_from_groups (rest : list Timestamp) :
  forall current first s out cs,
    seconds_of first = Ok s ->
    time current = time first -> label current = label first ->
    merge_from current s rest = Ok (out, cs) ->
    exists (fs : list Timestamp) (gs : list group),
      rest = fs ++ flat_map group_entries gs /\
      close_groups ((first, fs) :: gs) /\
      out = set_description current
              (fold_left (fun d f => d +:+ "; " +:+ description f)%string fs
                         (description current))
            :: map merged_entry gs /\
      cs = merge_log (first, fs) ++ flat_map merge_log gs.
Proof.
  induction rest as [|next r IH]; intros current first s out cs Hs Ht Hl H;
    cbn [merge_from] in H.
  - inv_ret H. injection H as <- <-. exists [], []. cbn.
    rewrite set_description_same. repeat split; eauto.
  - inv_bind H. destruct (a - s <? MIN_SEPARATION_S) eqn:Ec.
    + inv_bind H. destruct a0 as [out0 cs0]. inv_ret H. injection H as <- <-.
      apply Z.ltb_lt in Ec.
      destruct (IH (set_description current
                      (description current +:+ "; " +:+ description next)%string)
                   first _ _ _ Hs Ht Hl Ha0) as (fs & gs & -> & Hg & -> & ->).
      exists (next :: fs), gs. split; [reflexivity|].
      cbn [close_groups fst snd] in Hg |- *.
      destruct Hg as (s' & Hs' & Hfs & Hnext & Hgs).
      rewrite Hs in Hs'. injection Hs' as <-.
      split.
      * exists s. split; [exact Hs|]. split; [|split; assumption].
        constructor; [exists a; split; assumption | exact Hfs].
      * cbn [fold_left set_description description time label merge_log map fst snd app].
        rewrite Ht. split; reflexivity.
    + inv_bind H. destruct a0 as [out0 cs0]. inv_ret H. injection H as <- <-.
      apply Z.ltb_ge in Ec.
      destruct (IH next next a _ _ Ha eq_refl eq_refl Ha0) as (fs & gs & -> & Hg & -> & ->).
      exists [], ((next, fs) :: gs). cbn [app flat_map group_entries fst snd].
      split; [reflexivity|]. split.
      * cbn [close_groups fst snd]. exists s. split; [exact Hs|].
        split; [constructor|]. split; [exists a; split; assumption|]. exact Hg.
      * cbn [fold_left map merged_entry merge_log flat_map fst snd app].
        rewrite set_description_same. split; reflexivity.
Qed.

Lemma merge_close_groups (l out : list Timestamp) (cs : list change) :
  merge_close l = Ok (out, cs) ->
  exists gs : list group,
    l = flat_map group_entries gs /\
    close_groups gs /\
    out = map merged_entry gs /\
    cs = flat_map merge_log gs.
Proof.
  destruct l as [|current r]; cbn [merge_close]; intros H.
  - inv_ret H. injection H as <- <-. exists []. cbn. auto.
  - inv_bind H.
    destruct (merge_from_groups r current current a out cs Ha eq_refl eq_refl H)
      as (fs & gs & -> & Hg & -> & ->).
    exists ((current, fs) :: gs). cbn [flat_map group_entries fst snd app map merged_entry].
    repeat split; try reflexivity. exact Hg.
Qed.

End DenseFacts.

(** C6 (as amended).
    - The basic fixer goes through the entries whose time reads, in time
      order (equal times in list order), one pair of neighbours after the
      other.  A pair less than [MIN_SEP_S] apart is resolved unless the pair
      before has just removed its earlier entry: the entry with the shorter
      description is removed, the later one on a tie, and the pair is
      logged.  A close pair whose earlier entry has just been removed is
      passed over, nothing removed and nothing logged.  Descriptions are
      never merged: the entries kept are entries of the input, unchanged.
      In a dry run the log is the same and the list stays as it is.
    - Step 5 of the enhanced fixer cuts its list into groups, an entry and
      the entries following it less than [MIN_SEPARATION_S] after it; the
      next group begins with the first entry that is not.  Of each group it
      keeps the first entry, whichever description is longer, with the
      descriptions of the others appended in order, each after ["; "], and
      logs one merge for each appended entry.
    - So for two entries [a], [b] alone, closer than the minimum separation
      and [a] not the later one, the basic fixer keeps the one with the
      longer description, [a] on a tie, and logs the pair; the enhanced
      fixer keeps [a] with the description of [b] appended. *)
Theorem dense_pair_resolution :
  (forall (a b : Timestamp) (sa sb : Z),
     Fix.to_seconds (time a) = Some sa -> Fix.to_seconds (time b) = Some sb ->
     sa <= sb -> sb - sa < Fix.MIN_SEP_S ->
     Fix.de_densify false [a; b]
     = (if Nat.ltb (String.length (description a)) (String.length (description b))
        then [b] else [a],
        [(time a, time b)])) /\
  (forall (dry_run : bool) (l : list Timestamp),
     fst (Fix.de_densify dry_run l) `sublist_of` l) /\
  (forall (a b : Timestamp) (rest : list Timestamp) (sa sb : Z)
          (out : list Timestamp) (cs : list FixEnhanced.change),
     FixEnhanced.seconds_of a = Ok sa -> FixEnhanced.seconds_of b = Ok sb ->
     sb - sa < FixEnhanced.MIN_SEPARATION_S ->
     FixEnhanced.merge_close (a :: b :: rest) = Ok (out, cs) ->
     exists out' tail cs',
       out = {| time := time a; label := label a;
                description := description a +:+ "; " +:+ description b +:+ tail |}
             :: out' /\
       cs = FixEnhanced.MergedClose (time a) (time b) :: cs') /\
  (forall (dry_run : bool) (l : list Timestamp),
     let '(rm, log) := Fix.resolve_dense false (stable_sort (Fix.times_with_index 0 l)) in
     Fix.de_densify dry_run l
     = (if dry_run then l else Fix.drop_indices 0 (list_to_set rm) l, log)) /\
  (forall (l out : list Timestamp) (cs : list FixEnhanced.change),
     FixEnhanced.merge_close l = Ok (out, cs) ->
     exists gs : list FixEnhanced.group,
       l = flat_map FixEnhanced.group_entries gs /\
       FixEnhanced.close_groups gs /\
       out = map FixEnhanced.merged_entry gs /\
       cs = flat_map FixEnhanced.merge_log gs).
Proof.
  split; [exact de_densify_pair|]. split; [exact de_densify_sublist|].
  split; [|split; [exact de_densify_resolve | exact merge_close_groups]].
  intros a b rest sa sb out cs Ha Hb Hclose H.
  cbn [FixEnhanced.merge_close FixEnhanced.merge_from] in H.
  rewrite Ha, Hb in H. cbn [mbind result_bind] in H.
  replace (sb - sa <? FixEnhanced.MIN_SEPARATION_S) with true in H
    by (symmetry; apply Z.ltb_lt; assumption).
  inv_bind H. destruct a0 as [out0 cs0]. inv_ret H. injection H as <- <-.
  destruct (merge_from_head _ _ _ _ _ Ha0) as (out' & tail & ->).
  exists out', tail, cs0.
  cbn [time label description FixEnhanced.set_description].
  rewrite !append_assoc. split; reflexivity.
Qed.

Lemma dense_pair_resolution_witness :
  Fix.de_densify false [dense_first; dense_second]
  = (if Nat.ltb (String.length (description dense_first))
                (String.length (description dense_second))
     then [dense_second] else [dense_first],
     [(time dense_first, time dense_second)]) /\
  exists out cs,
    FixEnhanced.merge_close [dense_first; dense_second] = Ok (out, cs) /\
    (exists out' tail cs',
       out = {| time := time dense_first; label := label dense_first;
                description :=
                  description dense_first +:+ "; " +:+ description dense_second +:+ tail |}
             :: out' /\
       cs = FixEnhanced.MergedClose (time dense_first) (time dense_second) :: cs') /\
    (exists gs : list FixEnhanced.group,
       [dense_first; dense_second] = flat_map FixEnhanced.group_entries gs /\
       FixEnhanced.close_groups gs /\
       out = map FixEnhanced.merged_entry gs /\
       cs = flat_map FixEnhanced.merge_log gs).
Proof.
  destruct dense_pair_resolution as (Hbasic & _ & Henh & _ & Hgroups).
  split.
  - apply (Hbasic dense_first dense_second 60 65);
      [vm_compute; reflexivity | vm_compute; reflexivity | lia | vm_compute; reflexivity].
  - assert (Hrun : FixEnhanced.merge_close [dense_first; dense_second]
                   = Ok ([entry "0:01:00" "Opening Remarks"
                            "Welcome to the course goals; Walk through every single goal of the whole course"],
                         [FixEnhanced.MergedClose "0:01:00" "0:01:05"]))
      by (vm_compute; reflexivity).
    eexists _, _. split; [exact Hrun|]. split.
    + apply (Henh dense_first dense_second [] 60 65 _ _
               ltac:(vm_compute; reflexivity) ltac:(vm_compute; reflexivity)
               ltac:(vm_compute; reflexivity) Hrun).
    + apply (Hgroups _ _ _ Hrun).
Defined.

(** Of the entries at seconds 0, 5 and 7, descriptions of one length, the
    basic fixer removes the one at 5 and logs that pair alone: the pair of
    the entries at 5 and 7, which it would resolve and log were the two
    alone, is passed over.  The enhanced fixer makes one group of the three
    and keeps the first entry. *)
Example dense_chain_resolution :
  let l := timestamps lesson_dense_chain in
  map time (fst (Fix.de_densify false l)) = ["0:00:00"; "0:00:07"]%string /\
  snd (Fix.de_densify false l) = [("0:00:00", "0:00:05")]%string /\
  map time (fst (Fix.de_densify false (tl l))) = ["0:00:05"]%string /\
  snd (Fix.de_densify false (tl l)) = [("0:00:05", "0:00:07")]%string /\
  match FixEnhanced.merge_close l with
  | Ok (out, cs) =>
      map time out = ["0:00:00"]%string /\
      cs = [FixEnhanced.MergedClose "0:00:00" "0:00:05";
            FixEnhanced.MergedClose "0:00:00" "0:00:07"]
  | Raise _ => False
  end.
Proof. vm_compute. repeat split; reflexivity. Qed.

(** Neither fixer does what the claim says for [lesson_dense_pair]: the
    enhanced fixer keeps the earlier entry although its description is the
    shorter one, and the basic fixer keeps the later entry without taking
    over the description of the one it drops. *)
Lemma dense_pair_not_resolved_as_claimed :
  (match FixEnhanced.fix_lesson_timestamps [] lesson_dense_pair with
   | Ok r =>
       FixEnhanced.updated_timestamps r
       = [entry "0:01:00" "Opening Remarks"
                "Welcome to the course goals; Walk through every single goal of the whole course"]
   | Raise _ => False
   end) /\
  (String.length "Welcome to the course goals"
   < String.length "Walk through every single goal of the whole course")%nat /\
  timestamps (fst (Fix.process_lesson lesson_dense_pair false))
  = [entry "0:01:05" "Course Walkthrough"
           "Walk through every single goal of the whole course"].
Proof.
  split; [vm_compute; reflexivity|]. split; [vm_compute; lia|]. vm_compute. reflexivity.
Qed.

(** ** Claim C7: the quality heuristics of the audits and of the fixer *)

(** C7 (as amended). The description check of the enhanced audit and that
    of the basic fixer are the same classification: the audit accepts a
    description exactly when the fixer does not rewrite it.  Every label the
    enhanced audit rejects is rewritten by the fixer. *)
Theorem enhanced_audit_agrees_with_fixer :
  (forall desc label : string,
     AuditEnhanced.check_description_quality desc label
     = negb (Fix.is_weak_description desc label)) /\
  (forall label : string,
     AuditEnhanced.check_label_quality label = false ->
     Fix.is_weak_label label = true).
Proof.
  split.
  - intros desc label.
    unfold AuditEnhanced.check_description_quality, Fix.is_weak_description, Fix.is_empty.
    change AuditEnhanced.word_count with Fix.word_count.
    change AuditEnhanced.extract_words with Fix.extract_words.
    change Fix.DESC_WORDS_MIN with 5%nat. change Fix.DESC_WORDS_MAX with 15%nat.
    destruct (String.eqb desc ""); [reflexivity|].
    destruct (Nat.ltb (Fix.word_count desc) 5 || Nat.ltb 15 (Fix.word_count desc));
      [reflexivity|].
    destruct (bool_decide _ && bool_decide _); reflexivity.
  - intros label.
    unfold AuditEnhanced.check_label_quality, Fix.is_weak_label, Fix.is_empty.
    change AuditEnhanced.word_count with Fix.word_count.
    change AuditEnhanced.extract_words with Fix.extract_words.
    change AuditEnhanced.GENERIC_LABELS with Fix.GENERIC_LABELS.
    change Fix.LABEL_WORDS_MIN with 2%nat. change Fix.LABEL_WORDS_MAX with 5%nat.
    destruct (String.eqb label ""); [reflexivity|].
    destruct (Nat.ltb (Fix.word_count label) 2 || Nat.ltb 5 (Fix.word_count label));
      [reflexivity|].
    destruct (bool_decide (_ ⊆ Fix.GENERIC_LABELS)); [reflexivity|].
    rewrite andb_false_r. discriminate.
Qed.

Lemma enhanced_audit_agrees_with_fixer_witness :
  AuditEnhanced.check_label_quality "overview" = false /\
  Fix.is_weak_label "overview" = true.
Proof.
  split; [vm_compute; reflexivity|].
  apply (proj2 enhanced_audit_agrees_with_fixer "overview"%string).
  vm_compute. reflexivity.
Defined.

(** The basic audit flags the label ["Course Overview"] (it holds a generic
    word); the fixer, which wants every word generic, rewrites neither the
    label nor the description.  The other way round, the fixer rewrites the
    label ["Overview Recap"], which the enhanced audit accepts. *)
Lemma audit_and_fixer_disagree :
  let t := entry "0:01:00" "Course Overview" "Welcome to the course and goals" in
  (Audit.label_is_vague Audit.default_config t
   || Audit.description_is_weak Audit.default_config t = true) /\
  (Fix.is_weak_label (label t) || Fix.is_weak_description (description t) (label t)
   = false) /\
  AuditEnhanced.check_label_quality "Overview Recap" = true /\
  Fix.is_weak_label "Overview Recap" = true.
Proof. vm_compute. repeat split; reflexivity. Qed.

(** ** Claim C8: times that do not parse *)

Section Unparsable.
Import Py FixEnhanced.

Lemma lstrip_incl (l : chars) (x : ascii) : In x (lstrip l) -> In x l.
Proof.
  induction l as [|c l IH]; cbn [lstrip]; [trivial|].
  destruct (is_space c); [intros H; right; apply IH; assumption | trivial].
Qed.

Lemma strip_incl (l : chars) (x : ascii) : In x (strip l) -> In x l.
Proof.
  unfold strip, rstrip. intros H.
  apply in_rev, lstrip_incl in H. apply in_rev in H.
  apply lstrip_incl. assumption.
Qed.

Lemma sub_paren_notes_go_incl (l : chars) (x : ascii) :
  forall k, In x (sub_paren_notes_go k l) -> In x l.
Proof.
  induction l as [|c l IH]; intros k; cbn [sub_paren_notes_go]; [trivial|].
  destruct k as [|k].
  - destruct (match_paren_note (c :: l)).
    + intros H. right. eapply IH. eassumption.
    + intros [-> | H]; [left; reflexivity | right; eapply IH; eassumption].
  - intros H. right. eapply IH. eassumption.
Qed.

Lemma clean_no_colon (s : string) :
  forallb (fun c => negb (Ascii.eqb c ":")) (chars_of s) = true ->
  forallb (fun c => negb (Ascii.eqb c ":"))
          (sub_paren_notes (strip (chars_of s))) = true.
Proof.
  rewrite !forallb_forall. intros H x Hx. apply H.
  apply strip_incl. eapply sub_paren_notes_go_incl. exact Hx.
Qed.

Lemma normalize_time_no_colon (s : string) :
  forallb (fun c => negb (Ascii.eqb c ":")) (chars_of s) = true ->
  normalize_time s = Ok s.
Proof.
  intros H. unfold normalize_time.
  rewrite (split_on_no_sep ":" _ (clean_no_colon s H)). reflexivity.
Qed.

Lemma time_to_seconds_no_colon (s : string) :
  forallb (fun c => negb (Ascii.eqb c ":")) (chars_of s) = true ->
  time_to_seconds s = Ok 0.
Proof.
  intros H. unfold time_to_seconds. rewrite (normalize_time_no_colon s H).
  cbn [mbind result_bind]. rewrite (split_on_no_sep ":" _ H). reflexivity.
Qed.

(** *** An entry with such a time is handled as an entry at 0:00:00 *)

Let E (ts ts0 : Timestamp) : Prop := zero_time ts0 = zero_time ts.
Let EC (c c0 : change) : Prop := zero_change c0 = zero_change c.

Lemma alike_refl {A : Type} (R : A -> A -> Prop) (m : result A) :
  (forall a, R a a) -> alike R m m.
Proof. intros HR. destruct m; cbn; auto. Qed.

Lemma alike_bind {A B : Type} (RA : A -> A -> Prop) (RB : B -> B -> Prop)
    (m m0 : result A) (f f0 : A -> result B) :
  alike RA m m0 ->
  (forall a a0, RA a a0 -> alike RB (f a) (f0 a0)) ->
  alike RB (m ≫= f) (m0 ≫= f0).
Proof.
  destruct m as [a|e], m0 as [a0|e0]; cbn; intros H Hf; try contradiction; auto.
Qed.

Lemma alike_ret {A : Type} (R : A -> A -> Prop) (a a0 : A) :
  R a a0 -> alike R (mret a) (mret a0).
Proof. trivial. Qed.

Lemma zero_text_seconds (t : string) : time_to_seconds (zero_text t) = time_to_seconds t.
Proof.
  unfold zero_text. destruct (colon_free t) eqn:Ec; [|reflexivity].
  rewrite (time_to_seconds_no_colon t Ec). vm_compute. reflexivity.
Qed.

Lemma zero_text_idem (t : string) : zero_text (zero_text t) = zero_text t.
Proof. unfold zero_text. destruct (colon_free t) eqn:Ec; [reflexivity | rewrite Ec; reflexivity]. Qed.

Lemma zero_time_idem (ts : Timestamp) : zero_time (zero_time ts) = zero_time ts.
Proof. unfold zero_time, set_time. cbn [time label description]. rewrite zero_text_idem. reflexivity. Qed.

Lemma E_seconds (ts ts0 : Timestamp) : E ts ts0 -> seconds_of ts0 = seconds_of ts.
Proof.
  unfold E, seconds_of. intros H.
  rewrite <- (zero_text_seconds (time ts0)), <- (zero_text_seconds (time ts)).
  change (zero_text (time ts0)) with (time (zero_time ts0)). rewrite H. reflexivity.
Qed.

Lemma E_fields (ts ts0 : Timestamp) :
  E ts ts0 -> label ts0 = label ts /\ description ts0 = description ts /\
              zero_text (time ts0) = zero_text (time ts).
Proof.
  unfold E, zero_time, set_time. intros [= Ht Hl Hd]. auto.
Qed.

Lemma E_intro (ts ts0 : Timestamp) :
  label ts0 = label ts -> description ts0 = description ts ->
  zero_text (time ts0) = zero_text (time ts) -> E ts ts0.
Proof. unfold E, zero_time, set_time. intros -> -> ->. reflexivity. Qed.

Lemma E_refl (ts : Timestamp) : E ts ts.
Proof. reflexivity. Qed.

Lemma alike_seconds (ts ts0 : Timestamp) :
  E ts ts0 -> alike eq (seconds_of ts) (seconds_of ts0).
Proof. intros H. rewrite (E_seconds _ _ H). apply alike_refl. reflexivity. Qed.

Lemma set_time_same (ts : Timestamp) : set_time ts (time ts) = ts.
Proof. destruct ts; reflexivity. Qed.

(** Step 2. *)
Lemma normalize_entry_zero (ts : Timestamp) :
  alike (fun r r0 => E (fst r) (fst r0) /\ snd r0 = snd r)
        (normalize_entry ts) (normalize_entry (zero_time ts)).
Proof.
  unfold zero_time, zero_text. destruct (colon_free (time ts)) eqn:Ec.
  - unfold normalize_entry. cbn [time set_time].
    rewrite (normalize_time_no_colon _ Ec).
    change (normalize_time "0:00:00") with (Ok "0:00:00"%string).
    cbn [mbind result_bind alike mret result_ret]. rewrite !String.eqb_refl.
    split; [|reflexivity]. cbn [fst]. apply E_intro; cbn [label description time set_time]; auto.
    unfold zero_text. rewrite Ec. reflexivity.
  - rewrite set_time_same. apply alike_refl. intros [a c]. split; reflexivity.
Qed.

Lemma normalize_entries_zero (l : list Timestamp) :
  alike (fun r r0 => Forall2 E (fst r) (fst r0) /\ snd r0 = snd r)
        (normalize_entries l) (normalize_entries (map zero_time l)).
Proof.
  induction l as [|ts l IH]; cbn [map normalize_entries].
  - cbn. split; [constructor | reflexivity].
  - eapply alike_bind; [apply normalize_entry_zero|].
    intros [ts' c] [ts0' c0] [Hts Hc]. cbn [fst snd] in Hts, Hc. subst c0.
    eapply alike_bind; [apply IH|].
    intros [r' cs] [r0' cs0] [Hr Hcs]. cbn [fst snd] in Hr, Hcs. subst cs0.
    cbn. split; [constructor; assumption | reflexivity].
Qed.

(** Step 3. *)
Lemma in_range_alike (d : Z) (l l0 : list Timestamp) :
  Forall2 E l l0 -> alike (Forall2 E) (in_range d l) (in_range d l0).
Proof.
  induction 1 as [|ts ts0 l l0 Hts Hl IH]; cbn [in_range]; [constructor|].
  eapply alike_bind; [apply alike_seconds; exact Hts|]. intros s s0 <-.
  eapply alike_bind; [apply IH|]. intros r r0 Hr.
  cbn. destruct (s <? d); [constructor; assumption | assumption].
Qed.

(** Step 4. *)
Let EK (x x0 : Z * Timestamp) : Prop := fst x0 = fst x /\ E (snd x) (snd x0).

Lemma insert_by_key_alike (x x0 : Z * Timestamp) (l l0 : list (Z * Timestamp)) :
  EK x x0 -> Forall2 EK l l0 -> Forall2 EK (insert_by_key x l) (insert_by_key x0 l0).
Proof.
  intros Hx. induction 1 as [|y y0 l l0 Hy Hl IH]; cbn [insert_by_key].
  - constructor; [assumption | constructor].
  - destruct Hx as [Hk Hv], Hy as [Hk' Hv']. rewrite Hk, Hk'.
    destruct (fst x <=? fst y).
    + constructor; [split; assumption|]. constructor; [split; assumption | assumption].
    + constructor; [split; assumption|]. apply IH.
Qed.

Lemma stable_sort_alike (l l0 : list (Z * Timestamp)) :
  Forall2 EK l l0 -> Forall2 EK (stable_sort l) (stable_sort l0).
Proof.
  unfold stable_sort. induction 1 as [|x x0 l l0 Hx Hl IH]; cbn [fold_right]; [constructor|].
  apply insert_by_key_alike; assumption.
Qed.

Lemma keyed_alike (l l0 : list Timestamp) :
  Forall2 E l l0 -> alike (Forall2 EK) (keyed l) (keyed l0).
Proof.
  unfold keyed. induction 1 as [|ts ts0 l l0 Hts Hl IH]; cbn [mapM]; [constructor|].
  eapply alike_bind.
  - eapply alike_bind; [apply alike_seconds; exact Hts|]. intros s s0 <-.
    apply (alike_ret EK). split; [reflexivity | exact Hts].
  - intros y y0 Hy. eapply alike_bind; [apply IH|]. intros ys ys0 Hys.
    cbn. constructor; assumption.
Qed.

Lemma sort_by_time_alike (l l0 : list Timestamp) :
  Forall2 E l l0 -> alike (Forall2 E) (sort_by_time l) (sort_by_time l0).
Proof.
  intros H. unfold sort_by_time.
  eapply alike_bind; [apply keyed_alike; exact H|]. intros ks ks0 Hks.
  cbn. apply stable_sort_alike in Hks.
  induction Hks as [|x x0 s s0 [_ Hx] _ IH]; cbn [map]; constructor; assumption.
Qed.

(** Step 5. *)
Lemma merge_from_alike (rest rest0 : list Timestamp) :
  Forall2 E rest rest0 ->
  forall current current0 s, E current current0 ->
    alike (fun r r0 => Forall2 E (fst r) (fst r0) /\ Forall2 EC (snd r) (snd r0))
          (merge_from current s rest) (merge_from current0 s rest0).
Proof.
  induction 1 as [|next next0 r r0 Hn Hr IH]; intros current current0 s Hc; cbn [merge_from].
  - cbn. split; [constructor; [assumption | constructor] | constructor].
  - eapply alike_bind; [apply alike_seconds; exact Hn|]. intros k k0 <-.
    destruct (E_fields _ _ Hc) as (Hcl & Hcd & Hct).
    destruct (E_fields _ _ Hn) as (Hnl & Hnd & Hnt).
    destruct (k - s <? MIN_SEPARATION_S).
    + eapply alike_bind.
      * apply IH. apply E_intro; cbn [label description time set_description]; congruence.
      * intros [out cs] [out0 cs0] [Ho Hcs]. cbn [fst snd] in Ho, Hcs. cbn.
        split; [assumption|]. constructor; [|assumption].
        unfold EC. cbn [zero_change]. congruence.
    + eapply alike_bind; [apply IH; exact Hn|].
      intros [out cs] [out0 cs0] [Ho Hcs]. cbn [fst snd] in Ho, Hcs. cbn.
      split; [constructor; assumption | assumption].
Qed.

Lemma merge_close_alike (l l0 : list Timestamp) :
  Forall2 E l l0 ->
  alike (fun r r0 => Forall2 E (fst r) (fst r0) /\ Forall2 EC (snd r) (snd r0))
        (merge_close l) (merge_close l0).
Proof.
  intros H. destruct H as [|c c0 r r0 Hc Hr]; cbn [merge_close].
  - cbn. split; constructor.
  - eapply alike_bind; [apply alike_seconds; exact Hc|]. intros s s0 <-.
    apply merge_from_alike; assumption.
Qed.

(** Step 6. *)
Lemma gaps_to_fill_alike (g : Z) (l l0 : list Timestamp) :
  Forall2 E l l0 -> gaps_to_fill g l0 = gaps_to_fill g l.
Proof.
  induction 1 as [|prev prev0 r r0 Hp Hr IH]; [reflexivity|].
  destruct Hr as [|curr curr0 r' r0' Hc Hr']; [reflexivity|].
  rewrite !gaps_to_fill_step. rewrite (E_seconds _ _ Hp), (E_seconds _ _ Hc), IH. reflexivity.
Qed.

Lemma fill_coverage_alike (d : Z) (l l0 : list Timestamp) :
  Forall2 E l l0 ->
  alike (fun r r0 => Forall2 E (fst r) (fst r0) /\ snd r0 = snd r)
        (fill_coverage d l) (fill_coverage d l0).
Proof.
  intros H. unfold fill_coverage. rewrite <- (Forall2_length _ _ _ H).
  destruct (Nat.ltb 1 (length l)); [|cbn; split; [assumption | reflexivity]].
  eapply alike_bind; [apply (alike_refl eq); reflexivity|]. intros g g0 <-.
  rewrite (gaps_to_fill_alike g l l0 H).
  eapply alike_bind; [apply (alike_refl eq); reflexivity|]. intros [fill cs] ? <-.
  eapply alike_bind.
  - apply sort_by_time_alike. apply Forall2_app; [exact H|].
    clear. induction fill; constructor; [apply E_refl | assumption].
  - intros sorted sorted0 Hs. cbn. split; [assumption | reflexivity].
Qed.

(** Step 8. *)
Lemma rewrite_entry_alike (i : nat) (title : string) (kw ex : list string)
    (ts ts0 : Timestamp) :
  E ts ts0 ->
  E (fst (rewrite_entry i title kw ex ts)) (fst (rewrite_entry i title kw ex ts0)) /\
  Forall2 EC (snd (rewrite_entry i title kw ex ts)) (snd (rewrite_entry i title kw ex ts0)).
Proof.
  intros H. destruct (E_fields _ _ H) as (Hl & Hd & Ht).
  unfold rewrite_entry. rewrite Hl, Hd.
  destruct (needs_label_rewrite (label ts) ex && negb (String.eqb (label ts) "TO_REVIEW"));
    destruct (needs_desc_rewrite (description ts) (label ts));
    unfold set_label, set_description;
    cbn [fst snd app time label description];
    (split; [apply E_intro; cbn [label description time]; congruence|]);
    repeat constructor; unfold EC; cbn [zero_change]; congruence.
Qed.

Lemma rewrite_weak_alike (title : string) (kw : list string) (l l0 : list Timestamp) :
  Forall2 E l l0 ->
  forall i ex,
    Forall2 E (fst (rewrite_weak i title kw ex l)) (fst (rewrite_weak i title kw ex l0)) /\
    Forall2 EC (snd (rewrite_weak i title kw ex l)) (snd (rewrite_weak i title kw ex l0)).
Proof.
  induction 1 as [|ts ts0 l l0 Hts Hl IH]; intros i ex; cbn [rewrite_weak].
  - split; constructor.
  - destruct (rewrite_entry_alike i title kw ex ts ts0 Hts) as [He Hc].
    destruct (rewrite_entry i title kw ex ts) as [ts' c].
    destruct (rewrite_entry i title kw ex ts0) as [ts0' c0].
    cbn [fst snd] in He, Hc.
    destruct (E_fields _ _ He) as (Hl' & _ & _). rewrite Hl'.
    specialize (IH (S i) (ex ++ [label ts'])).
    destruct (rewrite_weak (S i) title kw (ex ++ [label ts']) l) as [r' cs].
    destruct (rewrite_weak (S i) title kw (ex ++ [label ts']) l0) as [r0' cs0].
    cbn [fst snd] in *. destruct IH as [IH1 IH2].
    split; [constructor; assumption | apply Forall2_app; assumption].
Qed.

Lemma Forall2_E_map (l l0 : list Timestamp) :
  Forall2 E l l0 -> map zero_time l0 = map zero_time l.
Proof. induction 1 as [|? ? ? ? H _ IH]; cbn [map]; [reflexivity|]. rewrite H, IH. reflexivity. Qed.

Lemma Forall2_EC_map (l l0 : list change) :
  Forall2 EC l l0 -> map zero_change l0 = map zero_change l.
Proof. induction 1 as [|? ? ? ? H _ IH]; cbn [map]; [reflexivity|]. rewrite H, IH. reflexivity. Qed.

Lemma Forall2_E_review (l l0 : list Timestamp) :
  Forall2 E l l0 ->
  existsb (fun ts => String.eqb (label ts) "TO_REVIEW") l0
  = existsb (fun ts => String.eqb (label ts) "TO_REVIEW") l.
Proof.
  induction 1 as [|ts ts0 ? ? H _ IH]; cbn [existsb]; [reflexivity|].
  destruct (E_fields _ _ H) as (-> & _ & _). rewrite IH. reflexivity.
Qed.

(** The whole call. *)
Lemma fix_lesson_timestamps_zero (kw : list string) (lesson : Lesson) :
  alike (fun r r0 =>
           map zero_time (updated_timestamps r0) = map zero_time (updated_timestamps r) /\
           map zero_change (changes_summary r0) = map zero_change (changes_summary r))
        (fix_lesson_timestamps kw lesson) (fix_lesson_timestamps kw (zero_times lesson)).
Proof.
  unfold fix_lesson_timestamps. cbn [duration timestamps title id zero_times].
  eapply alike_bind; [apply (alike_refl eq); reflexivity|]. intros D ? <-.
  eapply alike_bind; [apply (alike_refl eq); reflexivity|]. intros d ? <-.
  eapply alike_bind; [apply normalize_entries_zero|].
  intros [normalized c2] [normalized0 c20] [Hn Hc2]. cbn [fst snd] in Hn, Hc2. subst c20.
  eapply alike_bind; [apply in_range_alike; exact Hn|]. intros kept kept0 Hk.
  eapply alike_bind; [apply sort_by_time_alike; exact Hk|]. intros sorted sorted0 Hs.
  eapply alike_bind; [apply merge_close_alike; exact Hs|].
  intros [merged c5] [merged0 c50] [Hm Hc5]. cbn [fst snd] in Hm, Hc5.
  eapply alike_bind; [apply fill_coverage_alike; exact Hm|].
  intros [covered c6] [covered0 c60] [Hc Hc6]. cbn [fst snd] in Hc, Hc6. subst c60.
  destruct (rewrite_weak_alike (title lesson) kw covered covered0 Hc 0%nat []) as [Hr Hc8].
  destruct (rewrite_weak 0 (title lesson) kw [] covered) as [rewritten c8].
  destruct (rewrite_weak 0 (title lesson) kw [] covered0) as [rewritten0 c80].
  cbn [fst snd] in Hr, Hc8. cbn [alike mret result_ret updated_timestamps changes_summary].
  split; [apply Forall2_E_map; exact Hr|].
  rewrite (Forall2_E_review _ _ Hr). rewrite !map_app.
  rewrite (Forall2_EC_map _ _ Hc5), (Forall2_EC_map _ _ Hc8). reflexivity.
Qed.

End Unparsable.

(** C8 (as amended). For a time text without a colon, [normalize_time] of
    the enhanced fixer returns the text as it is and [time_to_seconds]
    returns 0, not a failure.  The normalisation step of the repair engine
    leaves such an entry unchanged and logs nothing for it, and the range
    step keeps it exactly when the duration is positive.  In every step the
    engine handles the entry as it handles an entry with the same label and
    description at ["0:00:00"]: [fix_lesson_timestamps] on a lesson and on
    the lesson with every such time written ["0:00:00"] raise the same
    exception, or return the same entries and the same change log once the
    times without a colon are written ["0:00:00"] in both.  So the entry is
    sorted, merged, named in the log and counted for coverage as an entry at
    second 0, and nothing flags it. *)
Theorem colon_free_time_reads_as_zero :
  (forall s : string,
     FixEnhanced.colon_free s = true ->
     FixEnhanced.normalize_time s = Ok s /\
     FixEnhanced.time_to_seconds s = Ok 0 /\
     forall ts : Timestamp,
       time ts = s ->
       FixEnhanced.normalize_entry ts = Ok (ts, []) /\
       forall d : Z, FixEnhanced.in_range d [ts] = Ok (if 0 <? d then [ts] else [])) /\
  (forall (kw : list string) (lesson : Lesson),
     alike (fun r r0 =>
              map FixEnhanced.zero_time (FixEnhanced.updated_timestamps r0)
              = map FixEnhanced.zero_time (FixEnhanced.updated_timestamps r) /\
              map FixEnhanced.zero_change (FixEnhanced.changes_summary r0)
              = map FixEnhanced.zero_change (FixEnhanced.changes_summary r))
           (FixEnhanced.fix_lesson_timestamps kw lesson)
           (FixEnhanced.fix_lesson_timestamps kw (FixEnhanced.zero_times lesson))).
Proof.
  split; [|apply fix_lesson_timestamps_zero].
  intros s H. split; [apply normalize_time_no_colon; assumption|].
  split; [apply time_to_seconds_no_colon; assumption|].
  intros ts <-. split.
  - unfold FixEnhanced.normalize_entry.
    rewrite (normalize_time_no_colon _ H). cbn [mbind result_bind].
    rewrite String.eqb_refl. destruct ts; reflexivity.
  - intros d. cbn [FixEnhanced.in_range]. unfold FixEnhanced.seconds_of.
    rewrite (time_to_seconds_no_colon _ H). reflexivity.
Qed.

Lemma colon_free_time_reads_as_zero_witness :
  FixEnhanced.colon_free "abc" = true /\
  FixEnhanced.normalize_time "abc" = Ok "abc"%string /\
  FixEnhanced.time_to_seconds "abc" = Ok 0.
Proof.
  destruct (proj1 colon_free_time_reads_as_zero "abc"%string) as (Hn & Hs & _);
    [vm_compute; reflexivity|].
  split; [vm_compute; reflexivity | split; assumption].
Defined.

(** The time ["abc"] parses to the value 0 instead of a failure, and the
    repair engine uses that value: the entry is sorted in front of the entry
    at two minutes, and nothing in the change log mentions it. *)
Lemma unparsable_time_sorted_as_zero :
  FixEnhanced.time_to_seconds "abc" = Ok 0 /\
  match FixEnhanced.fix_lesson_timestamps [] lesson_unparsable_time with
  | Ok r =>
      map time (FixEnhanced.updated_timestamps r) = ["abc"; "0:02:00"]%string /\
      FixEnhanced.changes_summary r = []
  | Raise _ => False
  end.
Proof. vm_compute. repeat split; reflexivity. Qed.

(** Next to an entry at 0:00:00 the entry with the time ["abc"] is merged
    into that entry, and the change log names it. *)
Example unparsable_time_merged_and_logged :
  match FixEnhanced.fix_lesson_timestamps [] lesson_unparsable_at_start with
  | Ok r =>
      map time (FixEnhanced.updated_timestamps r) = ["0:00:00"]%string /\
      In (FixEnhanced.MergedClose "0:00:00" "abc") (FixEnhanced.changes_summary r)
  | Raise _ => False
  end.
Proof. vm_compute. split; [reflexivity | left; reflexivity]. Qed.

(** ** Claim C9: running the fixer again *)

Section FixedPoint.
Import Fix.

Lemma flat_map_log_unchanged {A C : Type} (f : A -> A * list C) (p : C -> bool)
    (l : list A) :
  (forall x, In x l -> forallb p (snd (f x)) = true -> fst (f x) = x) ->
  forallb p (snd (flat_map_log f l)) = true ->
  fst (flat_map_log f l) = l.
Proof.
  unfold flat_map_log. cbn [fst snd].
  induction l as [|x l IH]; intros Hf Hall; cbn; [reflexivity|].
  cbn in Hall. rewrite forallb_app in Hall. apply andb_true_iff in Hall as [Hx Hl].
  rewrite (Hf x (or_introl eq_refl) Hx), IH; [reflexivity | | assumption].
  intros y Hy. apply Hf. right. assumption.
Qed.

Lemma flat_map_log_silent {A C : Type} (f : A -> A * list C) (l : list A) :
  (forall x, snd (f x) = [] -> fst (f x) = x) ->
  snd (flat_map_log f l) = [] ->
  fst (flat_map_log f l) = l.
Proof.
  intros Hf Hnil.
  apply (flat_map_log_unchanged f (fun _ => false)).
  - intros x _ Hx. apply Hf. destruct (snd (f x)); [reflexivity | discriminate].
  - rewrite Hnil. reflexivity.
Qed.

Lemma normalize_entry_silent (ts : Timestamp) :
  snd (normalize_entry false ts) = [] -> fst (normalize_entry false ts) = ts.
Proof.
  unfold normalize_entry. destruct (normalize_time (time ts)) as [t [|]]; cbn;
    [discriminate | reflexivity].
Qed.

Lemma dense_pairs_silent (l : list (Z * (nat * Timestamp))) :
  forall to_remove, snd (dense_pairs l to_remove) = [] ->
  fst (dense_pairs l to_remove) = to_remove.
Proof.
  induction l as [|[prev_s [prev_idx prev_ts]] r IH]; intros to_remove; [reflexivity|].
  destruct r as [|[curr_s [curr_idx curr_ts]] r']; [reflexivity|].
  rewrite dense_pairs_step.
  destruct (negb (bool_decide (prev_idx ∈ to_remove)) && (curr_s - prev_s <? MIN_SEP_S)).
  - cbv zeta.
    match goal with
    | |- context [dense_pairs ?a ?b] => destruct (dense_pairs a b) as [rm log]
    end.
    cbn [snd]. discriminate.
  - apply IH.
Qed.

Lemma de_densify_silent (l : list Timestamp) :
  snd (de_densify false l) = [] -> fst (de_densify false l) = l.
Proof.
  unfold de_densify. destruct (Nat.ltb 1 (length l)); [|reflexivity].
  pose proof (dense_pairs_silent (stable_sort (times_with_index 0 l)) ∅) as H.
  destruct (dense_pairs _ _) as [to_remove log]. cbn [fst snd] in *.
  intros Hlog. rewrite (H Hlog).
  rewrite bool_decide_eq_false_2 by (intros Hne; apply Hne; reflexivity).
  reflexivity.
Qed.

Lemma rewrite_entry_silent (context : string) (ts : Timestamp) :
  snd (rewrite_entry false context ts) = [] ->
  fst (rewrite_entry false context ts) = ts.
Proof.
  unfold rewrite_entry.
  destruct (is_weak_label (label ts)); [cbn; discriminate|].
  destruct (is_weak_description (description ts) (label ts)); [cbn; discriminate|].
  intros _. destruct ts; reflexivity.
Qed.

(** A call that logs nothing leaves the lesson as it was. *)
Lemma process_lesson_silent (lesson : Lesson) :
  no_changes (snd (process_lesson lesson false)) = true ->
  fst (process_lesson lesson false) = lesson.
Proof.
  unfold process_lesson, no_changes.
  set (d := if is_empty (duration lesson) then _ else _).
  pose proof (flat_map_log_silent (normalize_entry false) (timestamps lesson)
                normalize_entry_silent) as Hn.
  destruct (flat_map_log (normalize_entry false) (timestamps lesson)) as [ts1 tlog].
  pose proof (de_densify_silent ts1) as Hd.
  destruct (de_densify false ts1) as [ts2 removed].
  pose proof (flat_map_log_silent
                (rewrite_entry false (Str.prefix 500 (content lesson))) ts2
                (rewrite_entry_silent _)) as Hr.
  destruct (flat_map_log (rewrite_entry false _) ts2) as [ts3 rewrites].
  cbn [fst snd] in *.
  assert (Hdur : forall dur ch dlog, d = (dur, ch, dlog) ->
                 ch = false -> dur = duration lesson /\ dlog = []).
  { subst d. intros dur ch dlog.
    destruct (is_empty (duration lesson)); [intros [= <- <- <-]; auto|].
    destruct (normalize_time (duration lesson)) as [nd [|]];
      intros [= <- <- <-]; [discriminate | auto]. }
  destruct d as [[dur ch] dlog].
  cbn [duration_changed normalized_times removed_dense_pairs rewritten fst].
  rewrite !andb_true_iff, negb_true_iff, !is_nil_true.
  intros [[[Hch Hlog] Hrem] Hrw].
  destruct (Hdur _ _ _ eq_refl Hch) as [-> ->]. cbn in Hlog.
  rewrite (Hr Hrw), (Hd Hrem), (Hn Hlog). destruct lesson; reflexivity.
Qed.

Lemma process_week_silent (sel : option (list string)) (week : Week) :
  forallb no_changes (snd (process_week sel false week)) = true ->
  fst (process_week sel false week) = week.
Proof.
  unfold process_week.
  match goal with
  | |- context [flat_map_log ?f (lessons week)] =>
      pose proof (flat_map_log_unchanged f no_changes (lessons week)) as H;
      destruct (flat_map_log f (lessons week)) as [ls rs]
  end.
  cbn [fst snd] in *. intros Hall. rewrite H; [destruct week; reflexivity | | assumption].
  intros lesson _. destruct (selected sel lesson); [|reflexivity].
  pose proof (process_lesson_silent lesson) as Hl.
  destruct (process_lesson lesson false) as [lesson' r]. cbn in *.
  rewrite andb_true_r. assumption.
Qed.

End FixedPoint.

(** C9 (as amended). When a pass of the basic fixer, dry-run off, logs
    nothing for any lesson (no normalization, no removal, no rewrite), the
    course document it leaves is the one it was given: a document the fixer
    reports as clean is a fixed point.  A second pass over the output of a
    pass that did log changes may change the document again. *)
Theorem process_course_unchanged_when_nothing_logged
    (sel : option (list string)) (course : Course) :
  forallb Fix.no_changes (snd (Fix.process_course sel false course)) = true ->
  fst (Fix.process_course sel false course) = course.
Proof.
  unfold Fix.process_course.
  apply flat_map_log_unchanged. intros week _. apply process_week_silent.
Qed.

Lemma process_course_unchanged_when_nothing_logged_witness :
  fst (Fix.process_course None false sample_course) = sample_course.
Proof.
  apply (process_course_unchanged_when_nothing_logged None sample_course).
  vm_compute. reflexivity.
Defined.

(** The basic fixer is not idempotent: of the entries at seconds 0, 5 and 7
    the first pass removes the one at 5, which leaves 0 and 7 closer than
    eight seconds; the second pass removes the one at 7. *)
Lemma process_course_not_idempotent :
  let once := Fix.process_course None false chain_course in
  let twice := Fix.process_course None false (fst once) in
  map (fun w => map (fun l => map time (timestamps l)) (lessons w)) (fst once)
  = [[["0:00:00"; "0:00:07"]]]%string /\
  map (fun w => map (fun l => map time (timestamps l)) (lessons w)) (fst twice)
  = [[["0:00:00"]]]%string /\
  fst twice <> fst once /\
  map Fix.removed_dense_pairs (snd twice) = [[("0:00:00", "0:00:07")]]%string.
Proof.
  split; [vm_compute; reflexivity|]. split; [vm_compute; reflexivity|].
  split; [|vm_compute; reflexivity].
  vm_compute. discriminate.
Qed.

(** Nor is the enhanced fixer: the first pass fills the gap of 800 seconds
    with a placeholder in the middle; the second pass finds two gaps of 400
    seconds, still above a quarter of the duration, and fills both. *)
Example fix_course_not_idempotent :
  match FixEnhanced.fix_course no_keywords false gap_course with
  | Ok (once, _) =>
      map (fun w => map (fun l => map time (timestamps l)) (lessons w)) once
      = [[["0:00:00"; "0:06:40"; "0:13:20"]]]%string /\
      match FixEnhanced.fix_course no_keywords false once with
      | Ok (twice, rs) =>
          map (fun w => map (fun l => map time (timestamps l)) (lessons w)) twice
          = [[["0:00:00"; "0:03:20"; "0:06:40"; "0:10:00"; "0:13:20"]]]%string /\
          map FixEnhanced.changes_summary rs
          = [[FixEnhanced.AddedCoverage "0:03:20"; FixEnhanced.AddedCoverage "0:10:00";
              FixEnhanced.ManualReview]]%string
      | Raise _ => False
      end
  | Raise _ => False
  end.
Proof. vm_compute. repeat split; reflexivity. Qed.

(** The enhanced [main] replaces a lesson's list only when a change was
    logged, and neither the range step nor the sort logs one: a lesson whose
    only defect is the order of its entries is written back as it came. *)
Example fix_course_keeps_unlogged_order :
  FixEnhanced.fix_course no_keywords false sample_course
  = Ok (sample_course,
        [{| FixEnhanced.lesson_id := "w1-l1";
            FixEnhanced.updated_timestamps := rev (timestamps lesson_out_of_order);
            FixEnhanced.changes_summary := [] |}]).
Proof. vm_compute. reflexivity. Qed.


(** * Further properties *)

(** ** Reading clocks: the four parsers *)

Section ParserFacts.
Import Py.

#[local] Arguments digit_char : simpl never.
#[local] Arguments digit_val : simpl never.
#[local] Arguments is_digit : simpl never.
#[local] Arguments is_space : simpl never.
#[local] Arguments Ascii.eqb : simpl never.

Ltac by_char c := destruct c as [[] [] [] [] [] [] [] []]; try reflexivity; try discriminate.

Lemma split_on_nonempty (sep : ascii) (l : chars) : split_on sep l <> [].
Proof.
  destruct l as [|c r]; cbn [split_on]; [discriminate|].
  destruct (Ascii.eqb c sep); [discriminate|].
  destruct (split_on sep r); discriminate.
Qed.

(** What [split_on] cuts off first: a part without the separator, followed
    by the separator when more parts come. *)
Lemma split_on_cons (sep : ascii) (l : chars) :
  forall p ps, split_on sep l = p :: ps ->
  forallb (fun c => negb (Ascii.eqb c sep)) p = true /\
  match ps with
  | [] => l = p
  | _ :: _ => exists l', l = p ++ sep :: l' /\ split_on sep l' = ps
  end.
Proof.
  induction l as [|c r IH]; intros p ps H; cbn [split_on] in H.
  - injection H as <- <-. split; reflexivity.
  - destruct (Ascii.eqb c sep) eqn:E.
    + injection H as <- <-. split; [reflexivity|].
      apply Ascii.eqb_eq in E. subst c.
      destruct (split_on sep r) as [|q qs] eqn:Er; [destruct (split_on_nonempty _ _ Er)|].
      exists r. split; [reflexivity | assumption].
    + destruct (split_on sep r) as [|q qs] eqn:Er; [destruct (split_on_nonempty _ _ Er)|].
      injection H as <- <-. destruct (IH q qs eq_refl) as [Hq Hrest].
      split; [cbn [forallb]; rewrite E, Hq; reflexivity|].
      destruct qs as [|q' qs'].
      * subst r. reflexivity.
      * destruct Hrest as (l' & -> & Hl'). exists l'. split; [reflexivity | assumption].
Qed.

Lemma minutes_field_digits (l : chars) :
  minutes_field l = true -> forallb is_digit l = true /\ l <> [].
Proof.
  destruct l as [|a [|d [|x l]]]; cbn [minutes_field]; try discriminate.
  - intros H. cbn [forallb]. rewrite H. split; [reflexivity | discriminate].
  - intros H. apply andb_true_iff in H as [Ha Hd].
    cbn [forallb]. rewrite Hd. unfold is_0_to_5 in Ha. unfold is_digit.
    apply andb_true_iff in Ha as [H1 H2]. apply Nat.leb_le in H1, H2.
    split; [|discriminate]. rewrite andb_true_r. apply andb_true_iff.
    split; apply Nat.leb_le; lia.
Qed.

Lemma seconds_field_minutes (l : chars) : seconds_field l = true -> minutes_field l = true.
Proof. destruct l as [|a [|d [|x l]]]; cbn [seconds_field minutes_field]; trivial; discriminate. Qed.

Lemma all_digits_spec (l : chars) :
  all_digits l = true -> forallb is_digit l = true /\ l <> [].
Proof. destruct l; cbn [all_digits]; [discriminate | intros H; split; [assumption | discriminate]]. Qed.

Lemma digits_value_nonneg_from (l : chars) : forall a, 0 <= a -> 0 <= fold_left digit_step l a.
Proof.
  induction l as [|c l IH]; intros a Ha; cbn [fold_left]; [assumption|].
  apply IH. unfold digit_step. destruct (is_digit c) eqn:E; [|assumption].
  unfold is_digit in E. apply andb_true_iff in E as [H1 H2]. apply Nat.leb_le in H1, H2.
  unfold digit_val. lia.
Qed.

Lemma digits_value_nonneg (l : chars) : 0 <= digits_value l.
Proof. apply digits_value_nonneg_from. lia. Qed.

Lemma clock_text_no_space (c : ascii) :
  is_digit c || Ascii.eqb c ":" = true -> negb (is_space c) = true.
Proof. by_char c. Qed.

Lemma clock_text_no_open (c : ascii) :
  is_digit c || Ascii.eqb c ":" = true -> negb (Ascii.eqb c "(") = true.
Proof. by_char c. Qed.

Lemma digit_is_clock_text (l : chars) :
  forallb is_digit l = true -> forallb (fun c => is_digit c || Ascii.eqb c ":") l = true.
Proof. apply forallb_weaken. intros c ->. reflexivity. Qed.

Lemma span_not_space_all (l : chars) :
  forallb (fun c => negb (is_space c)) l = true -> span_not_space l = (l, []).
Proof.
  induction l as [|c l IH]; cbn [span_not_space forallb]; [reflexivity|].
  intros H. apply andb_true_iff in H as [Hc Hl].
  destruct (is_space c); [discriminate|]. rewrite (IH Hl). reflexivity.
Qed.

(** A text accepted by the strict clock expression: its fields, what they
    read as, and what the text is made of. *)
Lemma match_clock_fields (l : chars) (g : option Z) (m s : Z) :
  match_clock l = Some (g, m, s) ->
  exists mf sf,
    minutes_field mf = true /\ seconds_field sf = true /\
    m = digits_value mf /\ s = digits_value sf /\
    ((g = None /\ split_on ":" l = [mf; sf] /\ l = mf ++ ":"%char :: sf) \/
     (exists hf, g = Some (digits_value hf) /\ all_digits hf = true /\
                 split_on ":" l = [hf; mf; sf] /\
                 l = hf ++ ":"%char :: mf ++ ":"%char :: sf)).
Proof.
  unfold match_clock.
  destruct (split_on ":" l) as [|p0 [|p1 [|p2 [|p3 ps]]]] eqn:E; try discriminate.
  - destruct (minutes_field p0 && seconds_field p1) eqn:F; [|discriminate].
    intros [= <- <- <-]. apply andb_true_iff in F as [F0 F1].
    exists p0, p1. repeat (split; [assumption || reflexivity|]).
    left. split; [reflexivity|]. split; [reflexivity|].
    destruct (split_on_cons _ _ _ _ E) as [_ (l' & -> & E')].
    destruct (split_on_cons _ _ _ _ E') as [_ ->]. reflexivity.
  - destruct (all_digits p0 && minutes_field p1 && seconds_field p2) eqn:F; [|discriminate].
    intros [= <- <- <-]. apply andb_true_iff in F as [F F2].
    apply andb_true_iff in F as [F0 F1].
    exists p1, p2. repeat (split; [assumption || reflexivity|]).
    right. exists p0. split; [reflexivity|]. split; [assumption|]. split; [reflexivity|].
    destruct (split_on_cons _ _ _ _ E) as [_ (l' & -> & E')].
    destruct (split_on_cons _ _ _ _ E') as [_ (l'' & -> & E'')].
    destruct (split_on_cons _ _ _ _ E'') as [_ ->]. reflexivity.
Qed.

Lemma match_clock_text (l : chars) (x : option Z * Z * Z) :
  match_clock l = Some x -> forallb (fun c => is_digit c || Ascii.eqb c ":") l = true.
Proof.
  destruct x as [[g m] s]. intros H.
  destruct (match_clock_fields _ _ _ _ H) as (mf & sf & Hm & Hs & _ & _ & Hl).
  destruct (minutes_field_digits _ Hm) as [Dm _].
  destruct (minutes_field_digits _ (seconds_field_minutes _ Hs)) as [Ds _].
  destruct Hl as [(_ & _ & ->) | (hf & _ & Hh & _ & ->)].
  - rewrite forallb_app. cbn [forallb].
    rewrite !digit_is_clock_text by assumption. reflexivity.
  - destruct (all_digits_spec _ Hh) as [Dh _].
    rewrite forallb_app. cbn [forallb]. rewrite forallb_app. cbn [forallb].
    rewrite !digit_is_clock_text by assumption. reflexivity.
Qed.

Lemma seconds_field_range (l : chars) : seconds_field l = true -> 0 <= digits_value l < 60.
Proof. intros H. apply minutes_field_range, seconds_field_minutes, H. Qed.

Lemma int_of_field (l : chars) : minutes_field l = true -> int_of l = Ok (digits_value l).
Proof. intros H. destruct (minutes_field_digits l H). apply int_of_digits; assumption. Qed.


(** What every parser makes of a text whose stripped form [l] the strict
    clock expression accepts. *)
Lemma clock_text_clean (l : chars) (x : option Z * Z * Z) :
  match_clock l = Some x ->
  strip l = l /\ sub_paren_notes l = l /\ split_on "(" l = [l] /\
  span_not_space l = (l, []).
Proof.
  intros H. pose proof (match_clock_text _ _ H) as Ht.
  assert (Hsp : forallb (fun c => negb (is_space c)) l = true)
    by (revert Ht; apply forallb_weaken, clock_text_no_space).
  assert (Hop : forallb (fun c => negb (Ascii.eqb c "(")) l = true)
    by (revert Ht; apply forallb_weaken, clock_text_no_open).
  split; [apply strip_no_space; assumption|].
  split; [apply sub_paren_notes_no_open; assumption|].
  split; [apply split_on_no_sep; assumption|].
  apply span_not_space_all; assumption.
Qed.

Lemma enhanced_audit_reads_clock (t : string) (x : option Z * Z * Z) :
  match_clock (strip (chars_of t)) = Some x ->
  match_clock_note (strip (chars_of t)) = Some x.
Proof.
  intros H. destruct (clock_text_clean _ _ H) as (_ & _ & _ & Hspan).
  unfold match_clock_note. rewrite Hspan. cbn [note_tail]. exact H.
Qed.

Lemma basic_fixer_reads_clock (t : string) (g : option Z) (m s : Z) :
  match_clock (strip (chars_of t)) = Some (g, m, s) ->
  Fix.normalize_time t
  = (Fix.fmt_clock (match g with Some h => h | None => 0 end) m s,
     negb (String.eqb (Fix.fmt_clock (match g with Some h => h | None => 0 end) m s)
                      (text_of (strip (chars_of t))))).
Proof.
  intros H. destruct (clock_text_clean _ _ H) as (Hstrip & _ & Hsplit & _).
  unfold Fix.normalize_time. rewrite Hsplit. cbn [hd]. rewrite Hstrip, H.
  pose proof (match_clock_minutes _ _ _ _ H) as Hm.
  replace (60 <=? m) with false by (symmetry; apply Z.leb_gt; lia).
  reflexivity.
Qed.

Lemma basic_parse_fmt_clock (h m s : Z) :
  (match split_on ":" (chars_of (Fix.fmt_clock h m s)) with
   | [p0; p1; p2] =>
       match int_of p0, int_of p1, int_of p2 with
       | Ok h, Ok m, Ok s => Some (h * 3600 + m * 60 + s)
       | _, _, _ => None
       end
   | _ => None
   end) = Some (h * 3600 + m * 60 + s).
Proof.
  change (Fix.fmt_clock h m s) with (FixEnhanced.fmt_clock h m s).
  rewrite split_fmt_clock, int_of_str_of_int, !int_of_fmt_02d. reflexivity.
Qed.

Lemma enhanced_fixer_reads_clock (t : string) (g : option Z) (m s : Z) :
  match_clock (strip (chars_of t)) = Some (g, m, s) ->
  FixEnhanced.normalize_time t
  = Ok (FixEnhanced.fmt_clock (match g with Some h => h | None => 0 end) m s).
Proof.
  intros H. destruct (clock_text_clean _ _ H) as (_ & Hsub & _ & _).
  destruct (match_clock_fields _ _ _ _ H) as (mf & sf & Hmf & Hsf & -> & -> & Hl).
  pose proof (minutes_field_range _ Hmf) as Rm.
  pose proof (seconds_field_range _ Hsf) as Rs.
  unfold FixEnhanced.normalize_time. rewrite Hsub.
  destruct Hl as [(-> & -> & _) | (hf & -> & Hh & -> & _)].
  - rewrite (int_of_field _ Hmf), (int_of_field _ (seconds_field_minutes _ Hsf)).
    cbn [mbind result_bind mret result_ret].
    rewrite Z.div_small, Z.mod_small by lia. reflexivity.
  - destruct (all_digits_spec _ Hh) as [Dh Nh].
    rewrite (int_of_digits _ Dh Nh), (int_of_field _ Hmf),
      (int_of_field _ (seconds_field_minutes _ Hsf)).
    cbn [mbind result_bind mret result_ret].
    rewrite (Z.div_small (digits_value sf)), (Z.mod_small (digits_value sf)), Z.add_0_r by lia.
    rewrite Z.div_small, Z.mod_small, Z.add_0_r by lia. reflexivity.
Qed.

End ParserFacts.

(** X1. The four scripts read a strict clock alike: a text that
    audit_timestamps.py reads as [n] seconds is read as [n] by
    audit_timestamps_enhanced.py and by both fixers, and [n] is not negative. *)
Theorem parsers_agree_on_clocks (t : string) (n : Z) :
  Audit.to_seconds t = Some n ->
  0 <= n /\
  Audit.is_h_mm_ss t = true /\
  AuditEnhanced.to_seconds t = Some n /\
  AuditEnhanced.is_clean_duration t = true /\
  Fix.to_seconds t = Some n /\
  FixEnhanced.time_to_seconds t = Ok n.
Proof.
  unfold Audit.to_seconds, Audit.is_h_mm_ss, AuditEnhanced.is_clean_duration.
  destruct (Py.match_clock (Py.strip (chars_of t))) as [[[g m] s]|] eqn:H; [|discriminate].
  intros [= <-].
  pose proof (match_clock_minutes _ _ _ _ H) as Rm.
  destruct (match_clock_fields _ _ _ _ H) as (mf & sf & _ & Hsf & _ & Es & Hl).
  pose proof (seconds_field_range _ Hsf) as Rs. rewrite <- Es in Rs.
  assert (Hh : 0 <= match g with Some h => h | None => 0 end).
  { destruct Hl as [(-> & _) | (hf & -> & _)]; [lia | apply digits_value_nonneg]. }
  split; [lia|]. split; [reflexivity|].
  split; [unfold AuditEnhanced.to_seconds;
          rewrite (enhanced_audit_reads_clock _ _ H); reflexivity|].
  split; [reflexivity|].
  split.
  - unfold Fix.to_seconds. rewrite (basic_fixer_reads_clock _ _ _ _ H).
    apply basic_parse_fmt_clock.
  - unfold FixEnhanced.time_to_seconds.
    rewrite (enhanced_fixer_reads_clock _ _ _ _ H).
    cbn [mbind result_bind]. apply parse_fmt_clock.
Qed.

Lemma parsers_agree_on_clocks_witness :
  Audit.to_seconds "1:02:05" = Some 3725 /\
  Fix.to_seconds "1:02:05" = Some 3725 /\
  FixEnhanced.time_to_seconds "1:02:05" = Ok 3725.
Proof.
  assert (H : Audit.to_seconds "1:02:05" = Some 3725) by (vm_compute; reflexivity).
  destruct (parsers_agree_on_clocks "1:02:05"%string 3725 H) as (_ & _ & _ & _ & Hf & He).
  split; [exact H|]. split; assumption.
Defined.

Section CanonicalFacts.
Import Py.

Lemma below_sixty (m : Z) : 0 <= m < 60 -> In m (map Z.of_nat (seq 0 60)).
Proof.
  intros H. apply in_map_iff. exists (Z.to_nat m).
  split; [lia | apply in_seq; lia].
Qed.

Lemma seconds_field_below_sixty (m : Z) : 0 <= m < 60 -> seconds_field (fmt_02d m) = true.
Proof.
  intros H.
  assert (Hall : forallb (fun m => seconds_field (fmt_02d m)) (map Z.of_nat (seq 0 60)) = true)
    by (vm_compute; reflexivity).
  rewrite forallb_forall in Hall. apply Hall, below_sixty, H.
Qed.

Lemma all_digits_str_of_nonneg (h : Z) : 0 <= h -> all_digits (str_of_int h) = true.
Proof.
  intros H. unfold str_of_int.
  replace (h <? 0) with false by (symmetry; apply Z.ltb_ge; assumption).
  unfold all_digits. pose proof (digits_nonempty h).
  destruct (digits h) eqn:E; [contradiction|]. rewrite <- E. apply digits_all_digits, H.
Qed.

(** The strict clock expression accepts a formatted clock whose hours are
    not negative and whose minutes and seconds are below sixty, and reads
    the three numbers back. *)
Lemma match_clock_fmt_clock (h m s : Z) :
  0 <= h -> 0 <= m < 60 -> 0 <= s < 60 ->
  match_clock (chars_of (FixEnhanced.fmt_clock h m s)) = Some (Some h, m, s).
Proof.
  intros Hh Hm Hs. unfold match_clock. rewrite split_fmt_clock.
  rewrite (all_digits_str_of_nonneg h Hh).
  rewrite (seconds_field_minutes _ (seconds_field_below_sixty m Hm)).
  rewrite (seconds_field_below_sixty s Hs). cbn [andb].
  rewrite (all_digits_str_of_int h (all_digits_str_of_nonneg h Hh)).
  rewrite !digits_value_fmt_02d by lia. reflexivity.
Qed.

Lemma strip_fmt_clock (h m s : Z) :
  strip (chars_of (FixEnhanced.fmt_clock h m s)) = chars_of (FixEnhanced.fmt_clock h m s).
Proof.
  rewrite chars_of_fmt_clock. apply strip_no_space. apply clock_char_ok; [|reflexivity].
  intros c Hc. rewrite (plain_not_space c Hc). reflexivity.
Qed.

End CanonicalFacts.

(** X2. A clock text [h:mm:ss] with hours not negative and minutes and seconds
    below sixty, as the fixers format it, is clean for both audits, which
    read it as [3600 h + 60 m + s] seconds, and both normalizers return it
    unchanged. *)
Theorem canonical_clock_is_clean (h m s : Z) :
  0 <= h -> 0 <= m < 60 -> 0 <= s < 60 ->
  let t := FixEnhanced.fmt_clock h m s in
  Audit.is_h_mm_ss t = true /\
  Audit.to_seconds t = Some (h * 3600 + m * 60 + s) /\
  AuditEnhanced.is_clean_duration t = true /\
  AuditEnhanced.to_seconds t = Some (h * 3600 + m * 60 + s) /\
  Fix.normalize_time t = (t, false) /\
  FixEnhanced.normalize_time t = Ok t.
Proof.
  intros Hh Hm Hs t.
  assert (H : Py.match_clock (Py.strip (chars_of t)) = Some (Some h, m, s)).
  { unfold t. rewrite strip_fmt_clock. apply match_clock_fmt_clock; assumption. }
  unfold Audit.is_h_mm_ss, Audit.to_seconds, AuditEnhanced.is_clean_duration,
    AuditEnhanced.to_seconds.
  rewrite (enhanced_audit_reads_clock _ _ H), H.
  repeat (split; [reflexivity|]).
  split.
  - apply (basic_normalize_time_fmt_clock h m s). assumption.
  - apply enhanced_normalize_time_canonical; assumption.
Qed.

Lemma canonical_clock_is_clean_witness :
  Audit.to_seconds "1:02:05" = Some 3725 /\
  Fix.normalize_time "1:02:05" = ("1:02:05"%string, false).
Proof.
  destruct (canonical_clock_is_clean 1 2 5) as (_ & Ha & _ & _ & Hf & _); [lia | lia | lia |].
  split; [exact Ha | exact Hf].
Defined.

(** ** The audits *)

Section BasicAuditFacts.
Import Audit.

Lemma mapM_returns {A B : Type} (f : A -> result B) (l : list A) :
  Forall (fun x => exists y, f x = Ok y) l -> exists ys, mapM f l = Ok ys.
Proof.
  induction 1 as [|x l (y & Hy) _ (ys & IH)]; [exists []; reflexivity|].
  exists (y :: ys). cbn [mapM]. rewrite Hy. cbn. rewrite IH. reflexivity.
Qed.

(** The first loop keeps the seconds of the texts it accepts: no [None]
    enters [times_s]. *)
Lemma scan_times_some (l : list Timestamp) :
  Forall (fun x => exists v, x = Some v) (fst (scan_times l)).
Proof.
  induction l as [|t l IH]; cbn [scan_times]; [constructor|].
  destruct (scan_times l) as [times_s bad_format]. cbn [fst] in IH.
  destruct (is_h_mm_ss (Str.strip (time t))) eqn:E; cbn [negb fst]; [|assumption].
  constructor; [|assumption].
  unfold is_h_mm_ss in E. unfold to_seconds.
  destruct (Py.match_clock _) as [[[g m] s]|]; [eauto | discriminate].
Qed.

Lemma pairs_in {A : Type} (l : list A) (a b : A) : In (a, b) (pairs l) -> In a l /\ In b l.
Proof.
  unfold pairs. intros H. split; [eapply in_combine_l; eassumption|].
  apply in_combine_r in H. destruct l; [contradiction | right; assumption].
Qed.

End BasicAuditFacts.

(** X3. audit_timestamps.py never raises on a lesson whose fields are texts:
    the coverage loop subtracts entries of [times_s] without looking for
    [None], and no [None] ever enters that list. *)
Theorem basic_audit_returns (cfg : Audit.Config) (lesson : Lesson) :
  exists r, Audit.audit_lesson cfg lesson = Ok r.
Proof.
  unfold Audit.audit_lesson.
  pose proof (scan_times_some (timestamps lesson)) as Hsome.
  destruct (Audit.scan_times (timestamps lesson)) as [times_s bad_format].
  cbn [fst] in Hsome.
  match goal with
  | |- exists r, (?m ≫= _) = Ok r => assert (Hm : exists gaps, m = Ok gaps)
  end.
  { destruct (if _ : bool then _ else None) as [d|]; [|eexists; reflexivity].
    destruct (Nat.leb 2 (length times_s)); [|eexists; reflexivity].
    match goal with
    | |- exists gaps, (mapM ?f ?l ≫= _) = Ok gaps =>
        destruct (mapM_returns f l) as (gs & ->); [|eexists; reflexivity]
    end.
    apply List.Forall_forall. intros [[a t0] [b t1]] Hin.
    apply pairs_in in Hin as [Ha Hb].
    apply in_combine_l in Ha, Hb.
    rewrite List.Forall_forall in Hsome.
    destruct (Hsome _ Ha) as (va & ->). destruct (Hsome _ Hb) as (vb & ->).
    eexists. reflexivity. }
  destruct Hm as (gaps & ->). eexists. reflexivity.
Qed.

(** X4. The verdict, the suggested actions and the severity of a report agree.
    In audit_timestamps.py a lesson passes exactly when no action is
    suggested, and exactly when its duration is clean and its severity is
    [Low].  In audit_timestamps_enhanced.py a lesson passes exactly when no
    action is suggested and no time is malformed (a malformed time has no
    action of its own). *)
Theorem verdict_matches_actions :
  (forall (cfg : Audit.Config) (lesson : Lesson) (r : Report),
     Audit.audit_lesson cfg lesson = Ok r ->
     (overall r = Pass <-> actions r = []) /\
     (overall r = Pass <-> duration_ok r = true /\ Audit.row_severity r = Low)) /\
  (forall lesson : Lesson,
     let r := AuditEnhanced.audit_lesson lesson in
     overall r = Pass <-> actions r = [] /\ format r = []).
Proof.
  split.
  - intros cfg lesson r. unfold Audit.audit_lesson.
    destruct (Audit.scan_times (timestamps lesson)) as [times_s bad_format].
    intros H. inv_bind H. inv_ret H. subst r.
    unfold Audit.row_severity, Audit.severity_from_flags.
    cbn [overall actions duration_ok out_of_range non_monotonic coverage_gaps density
         vague_labels weak_descriptions].
    destruct (negb (String.eqb (duration lesson) "") && _);
      destruct (is_nil (concat _)) eqn:E1 at 1.
    all: repeat match goal with
         | |- context [is_nil ?l] => destruct (is_nil l)
         end; cbn; split; split; intros; try discriminate; try reflexivity;
         try tauto; try (split; [reflexivity || discriminate | reflexivity || discriminate]).
    all: try match goal with H : _ /\ _ |- _ => destruct H; discriminate end.
  - intros lesson r. subst r. unfold AuditEnhanced.audit_lesson.
    cbn [overall actions format].
    destruct (AuditEnhanced.is_clean_duration (duration lesson)).
    all: repeat match goal with
         | |- context [is_nil ?l] => destruct (is_nil l) eqn:?
         end; cbn; split; intros; try discriminate; try reflexivity; try tauto.
    all: try match goal with H : _ /\ _ |- _ => destruct H; try discriminate end.
    all: try (split; [reflexivity|]).
    all: try match goal with H : is_nil ?l = _ |- _ => apply is_nil_true in H; assumption end.
    all: try match goal with H : ?l = [], E : is_nil ?l = false |- _ => rewrite H in E; discriminate end.
Qed.

Lemma verdict_matches_actions_witness :
  exists r,
    Audit.audit_lesson Audit.default_config lesson_out_of_order = Ok r /\
    (overall r = Pass <-> actions r = []) /\
    (overall r = Pass <-> duration_ok r = true /\ Audit.row_severity r = Low).
Proof.
  assert (H : exists r, Audit.audit_lesson Audit.default_config lesson_out_of_order = Ok r)
    by (eexists; vm_compute; reflexivity).
  destruct H as [r H]. exists r. split; [exact H|].
  exact (proj1 verdict_matches_actions Audit.default_config lesson_out_of_order r H).
Defined.

Section EnhancedAuditFacts.
Import AuditEnhanced.

Lemma filter_nil_iff {A : Type} (f : A -> bool) (l : list A) :
  List.filter f l = [] <-> List.Forall (fun x => f x = false) l.
Proof.
  induction l as [|x l IH]; cbn [List.filter]; [split; [constructor | reflexivity]|].
  rewrite List.Forall_cons_iff, <- IH. destruct (f x); split.
  - discriminate.
  - intros [? _]. discriminate.
  - intros H. split; [reflexivity | assumption].
  - intros [_ H]. assumption.
Qed.

Lemma map_nil_iff {A B : Type} (f : A -> B) (l : list A) : map f l = [] <-> l = [].
Proof. destruct l; cbn; split; congruence. Qed.

(** A property of all consecutive pairs is the list being [Sorted] by it. *)
Lemma pairs_sorted {A : Type} (R : A -> A -> Prop) (l : list A) :
  List.Forall (fun p => R (fst p) (snd p)) (pairs l) <-> Sorted R l.
Proof.
  induction l as [|a l IH]; [split; constructor|].
  destruct l as [|b l].
  - split; [repeat constructor | constructor].
  - change (pairs (a :: b :: l)) with ((a, b) :: pairs (b :: l)).
    rewrite List.Forall_cons_iff, IH. cbn [fst snd]. split.
    + intros [Hab Hs]. constructor; [assumption | constructor; assumption].
    + intros H. inversion H as [|? ? Hs Hhd]; subst. inversion Hhd; subst. auto.
Qed.

Lemma sorted_map {A B : Type} (R : B -> B -> Prop) (f : A -> B) (l : list A) :
  Sorted (fun x y => R (f x) (f y)) l <-> Sorted R (map f l).
Proof.
  induction l as [|a l IH]; cbn [map]; [split; constructor|].
  split; intros H; inversion H as [|? ? Hs Hhd]; subst;
    (constructor; [apply IH; assumption|]);
    destruct l; cbn [map] in *; constructor; inversion Hhd; assumption.
Qed.

Lemma to_seconds_nonneg (t : string) (k : Z) : to_seconds t = Some k -> 0 <= k.
Proof.
  unfold to_seconds, Py.match_clock_note.
  destruct (Py.span_not_space _) as [clock tail].
  destruct (Py.note_tail tail); [|discriminate].
  destruct (Py.match_clock clock) as [[[g m] s]|] eqn:H; [|discriminate].
  intros [= <-].
  pose proof (match_clock_minutes _ _ _ _ H) as Rm.
  destruct (match_clock_fields _ _ _ _ H) as (mf & sf & _ & Hsf & _ & Es & Hl).
  pose proof (seconds_field_range _ Hsf) as Rs. rewrite <- Es in Rs.
  destruct Hl as [(-> & _) | (hf & -> & _)]; [lia|].
  pose proof (digits_value_nonneg hf). lia.
Qed.

(** The first loop on a lesson all of whose times parse. *)
Lemma scan_parsed (d : option Z) (l : list Timestamp) (keys : list Z) :
  Forall2 (fun ts k => to_seconds (time ts) = Some k) l keys ->
  sc_format (scan d l) = [] /\
  map fst (sc_times (scan d l)) = keys /\
  (sc_out_of_range (scan d l) = [] <->
   List.Forall (fun k => match d with
                         | Some d => d = 0 \/ 0 <= k <= d
                         | None => True
                         end) keys).
Proof.
  induction 1 as [|ts k l keys Hk _ (IH1 & IH2 & IH3)]; cbn [scan].
  - repeat split; constructor.
  - rewrite Hk. cbn [sc_format sc_times sc_out_of_range map fst].
    split; [assumption|]. split; [congruence|].
    rewrite List.Forall_cons_iff, <- IH3.
    destruct d as [d|]; [|cbn; tauto].
    destruct (Z.eqb_spec d 0) as [-> | Hd]; cbn [negb andb when app]; [tauto|].
    destruct (Z.ltb_spec k 0), (Z.ltb_spec d k); cbn [orb when app];
      split; try discriminate; try tauto; intros [[? | ?] ?]; try lia; assumption.
Qed.

Lemma scan_format_nil (d : option Z) (l : list Timestamp) :
  sc_format (scan d l) = [] <->
  exists keys, Forall2 (fun ts k => to_seconds (time ts) = Some k) l keys.
Proof.
  split.
  - induction l as [|ts l IH]; cbn [scan]; [exists []; constructor|].
    destruct (to_seconds (time ts)) as [k|] eqn:Hk; cbn [sc_format]; [|discriminate].
    intros H. destruct (IH H) as (keys & Hkeys). exists (k :: keys). constructor; assumption.
  - intros (keys & H). apply (scan_parsed d l keys H).
Qed.

End EnhancedAuditFacts.

(** X5. What the verdict of audit_timestamps_enhanced.py means for the lesson.
    A lesson passes exactly when its duration is a strict clock, every time
    parses, every entry passes both quality checks, each time is at least
    [MIN_SEP_S] and at most [MAX_GAP_S] seconds after the one before, and,
    unless the duration is zero, no time lies beyond it. *)
Theorem enhanced_audit_pass_iff (lesson : Lesson) :
  overall (AuditEnhanced.audit_lesson lesson) = Pass <->
  exists (d : Z) (keys : list Z),
    AuditEnhanced.is_clean_duration (duration lesson) = true /\
    AuditEnhanced.to_seconds (duration lesson) = Some d /\
    Forall2 (fun ts k => AuditEnhanced.to_seconds (time ts) = Some k)
            (timestamps lesson) keys /\
    List.Forall (fun k => d = 0 \/ k <= d) keys /\
    Sorted (fun a b => a + AuditEnhanced.MIN_SEP_S <= b <= a + AuditEnhanced.MAX_GAP_S) keys /\
    List.Forall (fun ts =>
              AuditEnhanced.check_label_quality (label ts) = true /\
              AuditEnhanced.check_description_quality (description ts) (label ts) = true)
           (timestamps lesson).
Proof.
  rewrite enhanced_audit_verdict.
  unfold AuditEnhanced.audit_lesson.
  cbn [duration_ok format out_of_range non_monotonic density coverage_gaps
       vague_labels weak_descriptions].
  set (l := timestamps lesson).
  set (ds := if AuditEnhanced.is_clean_duration (duration lesson)
             then AuditEnhanced.to_seconds (duration lesson) else None).
  set (sc := AuditEnhanced.scan ds l).
  (* the three lists over consecutive pairs, as one property of the pairs *)
  assert (Hpairs :
    map (fun '(_, c) => snd c)
        (List.filter (fun '(p, c) => fst c <? fst p) (pairs (AuditEnhanced.sc_times sc))) = [] /\
    map (fun '(p, c) => (snd p, snd c))
        (List.filter (fun '(p, c) => fst c - fst p <? AuditEnhanced.MIN_SEP_S)
                     (pairs (AuditEnhanced.sc_times sc))) = [] /\
    (if Nat.ltb 1 (length (AuditEnhanced.sc_times sc)) then
       map (fun '(p, c) =>
              {| gap_start := snd p; gap_end := snd c; length_s := fst c - fst p |})
           (List.filter (fun '(p, c) => AuditEnhanced.MAX_GAP_S <? fst c - fst p)
                        (pairs (AuditEnhanced.sc_times sc)))
     else []) = [] <->
    Sorted (fun a b => a + AuditEnhanced.MIN_SEP_S <= b <= a + AuditEnhanced.MAX_GAP_S)
           (map fst (AuditEnhanced.sc_times sc))).
  { generalize (AuditEnhanced.sc_times sc). intros ts.
    rewrite <- sorted_map, <- pairs_sorted.
    assert (Hcov :
      (if Nat.ltb 1 (length ts) then
         map (fun '(p, c) =>
                {| gap_start := snd p; gap_end := snd c; length_s := fst c - fst p |})
             (List.filter (fun '(p, c) => AuditEnhanced.MAX_GAP_S <? fst c - fst p) (pairs ts))
       else []) = [] <->
      List.filter (fun '(p, c) => AuditEnhanced.MAX_GAP_S <? fst c - fst p) (pairs ts) = []).
    { destruct ts as [|a [|b ts]]; cbn [length Nat.ltb Nat.leb];
        [split; reflexivity | split; reflexivity | apply map_nil_iff]. }
    rewrite Hcov, !map_nil_iff, !filter_nil_iff.
    unfold AuditEnhanced.MIN_SEP_S, AuditEnhanced.MAX_GAP_S.
    rewrite !List.Forall_forall. split.
    - intros (H1 & H2 & H3) [p c] Hin.
      specialize (H1 _ Hin). specialize (H2 _ Hin). specialize (H3 _ Hin).
      cbn beta iota in H1, H2, H3. cbn [fst snd]. lia.
    - intros H. repeat split; intros [p c] Hin; specialize (H _ Hin);
        cbn [fst snd] in H; cbn beta iota; lia. }
  split.
  - intros (Hd & Hf & Ho & Hn & Hde & Hc & Hv & Hw).
    assert (Hds : exists d, ds = Some d /\ AuditEnhanced.to_seconds (duration lesson) = Some d).
    { subst ds. rewrite Hd. unfold AuditEnhanced.is_clean_duration in Hd.
      unfold AuditEnhanced.to_seconds.
      destruct (Py.match_clock _) as [[[g m] s]|] eqn:E; [|discriminate].
      rewrite (enhanced_audit_reads_clock _ _ E). eauto. }
    destruct Hds as (d & Eds & Hdur).
    apply scan_format_nil in Hf as (keys & Hkeys).
    destruct (scan_parsed ds l keys Hkeys) as (_ & Htimes & Hrange).
    exists d, keys. split; [assumption|]. split; [assumption|]. split; [assumption|].
    split.
    + apply Hrange in Ho. rewrite Eds in Ho.
      revert Ho. apply List.Forall_impl. intros k [? | ?]; [left; assumption | right; lia].
    + split.
      * rewrite <- Htimes. apply Hpairs. auto.
      * apply (scan_quality ds l); [apply scan_format_nil; eauto | auto].
  - intros (d & keys & Hd & Hdur & Hkeys & Hrange & Hsorted & Hq).
    assert (Eds : ds = Some d) by (subst ds; rewrite Hd; assumption).
    destruct (scan_parsed ds l keys Hkeys) as (Hf & Htimes & Ho).
    split; [assumption|]. split; [assumption|].
    split.
    { apply Ho. rewrite Eds.
      assert (Hpos : List.Forall (fun k => 0 <= k) keys).
      { clear - Hkeys. induction Hkeys as [|ts k l keys Hk _ IH]; constructor;
          [eapply to_seconds_nonneg; eassumption | assumption]. }
      rewrite List.Forall_forall in *. intros k Hk.
      destruct (Hrange k Hk); [left; assumption | right; split; [auto | assumption]]. }
    rewrite <- Htimes in Hsorted. apply Hpairs in Hsorted as (Hn & Hde & Hc).
    split; [assumption|]. split; [assumption|]. split; [assumption|].
    apply (scan_quality ds l Hf). assumption.
Qed.

Section TokenizerFacts.
Import Py.

#[local] Arguments is_alnum : simpl never.
#[local] Arguments Ascii.eqb : simpl never.

Ltac by_char c := destruct c as [[] [] [] [] [] [] [] []]; try reflexivity; try discriminate.

(** Every word character is an ASCII letter or digit. *)
Lemma lower_char_plain (c : ascii) :
  is_alnum (lower_char c) || negb (is_uword (lower_char c))
  = is_alnum c || negb (is_uword c).
Proof. by_char c. Qed.

Lemma lower_plain (l : chars) :
  forallb (fun c => is_alnum c || negb (is_uword c)) (lower_chars l)
  = forallb (fun c => is_alnum c || negb (is_uword c)) l.
Proof.
  unfold lower_chars. induction l as [|c l IH]; cbn [map forallb]; [reflexivity|].
  rewrite lower_char_plain, IH. reflexivity.
Qed.

Lemma plain_word (c : ascii) :
  is_alnum c || negb (is_uword c) = true -> is_word c = is_alnum c /\ is_uword c = is_alnum c.
Proof. by_char c; intros _; split; reflexivity. Qed.

(** Where the only word characters are ASCII letters and digits, the two
    word expressions find the same runs. *)
Lemma find_words_agree (l : chars) :
  forallb (fun c => is_alnum c || negb (is_uword c)) l = true ->
  find_alnum_words None false l = find_word_runs None l /\
  forall w, find_alnum_words (Some w) true l = find_word_runs (Some w) l.
Proof.
  induction l as [|c l IH]; cbn [forallb find_alnum_words find_word_runs].
  - intros _. split; reflexivity.
  - intros H. apply andb_true_iff in H as [Hc Hl]. destruct (IH Hl) as [IH0 IH1].
    destruct (plain_word c Hc) as [-> ->].
    destruct (is_alnum c); split; intros; rewrite ?IH0, ?IH1; reflexivity.
Qed.

End TokenizerFacts.

(** X6. On a text whose word characters are all ASCII letters or digits (no
    underscore, no accented letter or other word character outside ASCII)
    the tokenizer of audit_timestamps.py ([[A-Za-z0-9_]+]) and the one
    shared by the other three scripts ([\b[a-zA-Z0-9]+\b]) return the same
    words. *)
Theorem tokenizers_agree_on_plain_words (s : string) :
  forallb (fun c => Py.is_alnum c || negb (Py.is_uword c)) (chars_of s) = true ->
  Audit.words s = Fix.extract_words s /\
  Audit.words s = AuditEnhanced.extract_words s /\
  Audit.word_count s = Z.of_nat (Fix.word_count s).
Proof.
  intros H.
  assert (E : Audit.words s = Fix.extract_words s).
  { unfold Audit.words, Fix.extract_words, Str.find_word_runs, Str.find_alnum_words, Str.lower.
    rewrite list_ascii_of_string_of_list_ascii.
    rewrite (proj1 (find_words_agree _ ltac:(rewrite lower_plain; exact H))).
    reflexivity. }
  split; [exact E|]. split; [exact E|].
  unfold Audit.word_count, Fix.word_count. rewrite E. reflexivity.
Qed.

Lemma tokenizers_agree_on_plain_words_witness :
  Audit.words "Vector Store Setup" = Fix.extract_words "Vector Store Setup".
Proof.
  apply (tokenizers_agree_on_plain_words "Vector Store Setup"%string).
  vm_compute. reflexivity.
Defined.

(** With an underscore or an accented letter (here code point 233) next to
    an ASCII run, the two tokenizers part. *)
Example tokenizers_differ_on_other_word_chars :
  Audit.words "Env_Setup" = ["env_setup"]%string /\
  Fix.extract_words "Env_Setup" = [] /\
  Audit.words (text_of (chars_of "Caf" ++ [ascii_of_nat 233] ++ chars_of " Setup"))
  = ["caf"; "setup"]%string /\
  Fix.extract_words (text_of (chars_of "Caf" ++ [ascii_of_nat 233] ++ chars_of " Setup"))
  = ["setup"]%string.
Proof. vm_compute. repeat split; reflexivity. Qed.

Section JgetFacts.
Import Audit.

Lemma jget_none (path : list string) : jget JNull path = JNull.
Proof. destruct path; reflexivity. Qed.

End JgetFacts.

(** X7. [jget] follows a path piece by piece: looking up [p ++ q] is looking up
    [q] in what [p] leads to, a [None] met on the way staying [None]; and
    what was stored under a key is what the key leads to. *)
Theorem jget_follows_paths :
  (forall (obj : json) (p q : list string),
     Audit.jget obj (p ++ q) = Audit.jget (Audit.jget obj p) q) /\
  (forall (m : gmap string json) (k : string) (v : json) (q : list string),
     Audit.jget (JDict (<[k := v]> m)) (k :: q) = Audit.jget v q) /\
  (forall (m : gmap string json) (k k' : string) (v : json) (q : list string),
     k <> k' ->
     Audit.jget (JDict (<[k := v]> m)) (k' :: q) = Audit.jget (JDict m) (k' :: q)).
Proof.
  split; [|split].
  - intros obj p. revert obj. induction p as [|k p IH]; intros obj q; [reflexivity|].
    cbn [app Audit.jget].
    destruct obj as [| | | | |m]; try (symmetry; apply jget_none).
    destruct (m !! k); [apply IH | symmetry; apply jget_none].
  - intros m k v q. cbn [Audit.jget]. rewrite lookup_insert_eq. reflexivity.
  - intros m k k' v q Hne. cbn [Audit.jget]. rewrite lookup_insert_ne by exact Hne.
    reflexivity.
Qed.

Lemma jget_follows_paths_witness :
  "week"%string <> "lesson"%string /\
  Audit.jget (JDict (<["week" := JNum 1]> {["lesson" := JStr "w1-l1"]})) ["lesson"]
  = Audit.jget (JDict {["lesson" := JStr "w1-l1"]}) ["lesson"].
Proof.
  split; [discriminate|].
  apply (proj2 (proj2 jget_follows_paths)). discriminate.
Defined.

(** ** The enhanced fixer *)

Section RaiseFacts.
Import Py FixEnhanced.

Lemma raises_only_ret {A : Type} (e0 : exn) (a : A) : raises_only e0 (mret a).
Proof. intros e H. discriminate. Qed.

Lemma raises_only_bind {A B : Type} (e0 : exn) (m : result A) (f : A -> result B) :
  raises_only e0 m -> (forall a, m = Ok a -> raises_only e0 (f a)) ->
  raises_only e0 (m ≫= f).
Proof.
  intros Hm Hf e. destruct m as [a|e']; cbn.
  - apply (Hf a eq_refl).
  - intros [= <-]. apply Hm. reflexivity.
Qed.

Lemma raises_only_mapM {A B : Type} (e0 : exn) (f : A -> result B) (l : list A) :
  (forall x, raises_only e0 (f x)) -> raises_only e0 (mapM f l).
Proof.
  intros Hf. induction l as [|x l IH]; cbn [mapM]; [apply raises_only_ret|].
  apply raises_only_bind; [apply Hf | intros y _].
  apply raises_only_bind; [apply IH | intros ys _; apply raises_only_ret].
Qed.

Ltac raises :=
  repeat first
    [ apply raises_only_ret
    | assumption
    | apply raises_only_bind; [| intros ? _]
    | match goal with
      | |- raises_only _ (let '(_, _) := ?p in _) => destruct p
      | |- raises_only _ (if ?b then _ else _) => destruct b
      end ].

Lemma int_of_raises (l : chars) : raises_only ValueError (int_of l).
Proof.
  unfold int_of. cbv zeta.
  match goal with
  | |- raises_only _ (let '(_, _) := ?p in _) => destruct p as [neg body]
  end.
  destruct (digits_ok false body); intros e H; [discriminate | congruence].
Qed.

Lemma normalize_time_raises (t : string) : raises_only ValueError (normalize_time t).
Proof.
  unfold normalize_time.
  destruct (split_on ":" _) as [|p0 [|p1 [|p2 [|p3 ps]]]];
    pose proof int_of_raises; raises; auto.
Qed.

Lemma time_to_seconds_raises (t : string) : raises_only ValueError (time_to_seconds t).
Proof.
  unfold time_to_seconds.
  apply raises_only_bind; [apply normalize_time_raises | intros n _].
  destruct (split_on ":" _) as [|p0 [|p1 [|p2 [|p3 ps]]]];
    pose proof int_of_raises; raises; auto.
Qed.

Lemma normalize_entries_raises (l : list Timestamp) :
  raises_only ValueError (normalize_entries l).
Proof.
  induction l as [|ts l IH]; cbn [normalize_entries]; [apply raises_only_ret|].
  unfold normalize_entry. pose proof (normalize_time_raises (time ts)). raises.
Qed.

Lemma in_range_raises (d : Z) (l : list Timestamp) : raises_only ValueError (in_range d l).
Proof.
  induction l as [|ts l IH]; cbn [in_range]; [apply raises_only_ret|].
  pose proof (time_to_seconds_raises (time ts)). unfold seconds_of. raises.
Qed.

Lemma sort_by_time_raises (l : list Timestamp) : raises_only ValueError (sort_by_time l).
Proof.
  unfold sort_by_time, keyed.
  apply raises_only_bind; [|intros; apply raises_only_ret].
  apply raises_only_mapM. intros ts. unfold seconds_of.
  pose proof (time_to_seconds_raises (time ts)). raises.
Qed.

Lemma merge_from_raises (rest : list Timestamp) :
  forall current s, raises_only ValueError (merge_from current s rest).
Proof.
  induction rest as [|next r IH]; intros current s; cbn [merge_from];
    [apply raises_only_ret|].
  apply raises_only_bind; [apply time_to_seconds_raises | intros k _].
  destruct (k - s <? MIN_SEPARATION_S);
    (apply raises_only_bind; [apply IH | intros [out cs] _; apply raises_only_ret]).
Qed.

Lemma merge_close_raises (l : list Timestamp) : raises_only ValueError (merge_close l).
Proof.
  destruct l as [|current r]; cbn [merge_close]; [apply raises_only_ret|].
  apply raises_only_bind; [apply time_to_seconds_raises | intros; apply merge_from_raises].
Qed.

Lemma gaps_to_fill_raises (d : Z) (l : list Timestamp) :
  raises_only ValueError (gaps_to_fill d l).
Proof.
  induction l as [|prev r IH]; [apply raises_only_ret|].
  destruct r as [|curr r']; [apply raises_only_ret|].
  rewrite gaps_to_fill_step.
  apply raises_only_bind; [apply time_to_seconds_raises | intros kp _].
  apply raises_only_bind; [apply time_to_seconds_raises | intros kc _].
  cbv zeta. apply raises_only_bind; [apply IH | intros [fill cs] _].
  destruct (d <? 4 * (kc - kp)); apply raises_only_ret.
Qed.

(** The coverage step raises the [ValueError] of a step before it or the
    [OverflowError] of the float product. *)
Lemma fill_coverage_raises (d : Z) (l : list Timestamp) (e : exn) :
  fill_coverage d l = Raise e ->
  e = ValueError \/ (e = OverflowError /\ Py.FLOAT_INT_LIMIT <= Z.abs d).
Proof.
  unfold fill_coverage. destruct (Nat.ltb 1 (length l)); [|discriminate].
  destruct (float_of_int d) as [g|e'] eqn:Eg; cbn [mbind result_bind].
  - intros H. left. revert e H.
    change (raises_only ValueError
              ('(fill, cs) ← gaps_to_fill g l; sorted ← sort_by_time (l ++ fill);
               mret (sorted, cs))).
    apply raises_only_bind; [apply gaps_to_fill_raises | intros [fill cs] _].
    apply raises_only_bind; [apply sort_by_time_raises | intros; apply raises_only_ret].
  - intros [= <-]. right. apply float_of_int_raises. exact Eg.
Qed.

Lemma in_range_readable (d : Z) (l kept : list Timestamp) :
  in_range d l = Ok kept -> List.Forall readable l.
Proof.
  revert kept. induction l as [|ts l IH]; intros kept H; [constructor|].
  cbn [in_range] in H. inv_bind H. inv_bind H.
  constructor; [exists a; auto | eapply IH; eassumption].
Qed.

(** The duration and the time of every entry read as seconds. *)
Lemma steps_read (lesson : Lesson) (D : string) (d : Z)
    (normalized kept : list Timestamp) (c2 : list change) :
  normalize_time (duration lesson) = Ok D ->
  time_to_seconds D = Ok d ->
  normalize_entries (timestamps lesson) = Ok (normalized, c2) ->
  in_range d normalized = Ok kept ->
  time_to_seconds (duration lesson) = Ok d /\
  List.Forall (fun ts => exists k, time_to_seconds (time ts) = Ok k) (timestamps lesson).
Proof.
  intros HD Hd Hn Hk.
  split; [rewrite <- (normalize_time_seconds _ _ HD); assumption|].
  apply in_range_readable in Hk. apply normalize_entries_spec in Hn.
  clear - Hn Hk. induction Hn as [|t t' l l' (Ht & _ & _) _ IH]; [constructor|].
  inversion Hk as [|? ? (k & Hk' & _) Hl]; subst.
  constructor; [|apply IH; assumption].
  exists k. rewrite <- (normalize_time_seconds _ _ Ht). exact Hk'.
Qed.

(** How a call can fail: with the [ValueError] of [int()], or, once the
    duration and every time have been read, with the [OverflowError] of the
    float product. *)
Lemma fix_lesson_timestamps_raises (kw : list string) (lesson : Lesson) (e : exn) :
  fix_lesson_timestamps kw lesson = Raise e ->
  e = ValueError \/
  (e = OverflowError /\
   exists d, time_to_seconds (duration lesson) = Ok d /\ Py.FLOAT_INT_LIMIT <= Z.abs d /\
             List.Forall (fun ts => exists k, time_to_seconds (time ts) = Ok k)
                         (timestamps lesson)).
Proof.
  unfold fix_lesson_timestamps.
  destruct (normalize_time (duration lesson)) as [D|e1] eqn:HD; cbn [mbind result_bind].
  2:{ intros [= <-]. left. exact (normalize_time_raises _ _ HD). }
  destruct (time_to_seconds D) as [d|e1] eqn:Hd; cbn [mbind result_bind].
  2:{ intros [= <-]. left. exact (time_to_seconds_raises _ _ Hd). }
  destruct (normalize_entries (timestamps lesson)) as [[normalized c2]|e1] eqn:Hn;
    cbn [mbind result_bind].
  2:{ intros [= <-]. left. exact (normalize_entries_raises _ _ Hn). }
  destruct (in_range d normalized) as [kept|e1] eqn:Hk; cbn [mbind result_bind].
  2:{ intros [= <-]. left. exact (in_range_raises _ _ _ Hk). }
  destruct (sort_by_time kept) as [sorted|e1] eqn:Hs; cbn [mbind result_bind].
  2:{ intros [= <-]. left. exact (sort_by_time_raises _ _ Hs). }
  destruct (merge_close sorted) as [[merged c5]|e1] eqn:Hm; cbn [mbind result_bind].
  2:{ intros [= <-]. left. exact (merge_close_raises _ _ Hm). }
  destruct (fill_coverage d merged) as [[covered c6]|e1] eqn:Hc; cbn [mbind result_bind].
  2:{ intros [= <-]. destruct (fill_coverage_raises _ _ _ Hc) as [-> | [-> Hlim]];
        [left; reflexivity | right].
      split; [reflexivity|]. exists d.
      destruct (steps_read lesson D d normalized kept c2 HD Hd Hn Hk) as [Hd' Hl].
      auto. }
  destruct (rewrite_weak _ _ _ _ _). discriminate.
Qed.

End RaiseFacts.

(** X8. The outcomes of [fix_lesson_timestamps].  The call returns only if
    the duration and the time of every entry read as seconds, and it does
    return then when the duration is below [FLOAT_INT_LIMIT] in absolute
    value.  It raises [ValueError] (that of [int()] on a field that is not
    a number) exactly when some text does not read as seconds; the only
    other exception is the [OverflowError] of [duration_seconds * 0.25],
    for a duration without a double. *)
Theorem fix_lesson_timestamps_outcomes (kw : list string) (lesson : Lesson) :
  let reads :=
    (exists d, FixEnhanced.time_to_seconds (duration lesson) = Ok d) /\
    List.Forall (fun ts => exists k, FixEnhanced.time_to_seconds (time ts) = Ok k)
                (timestamps lesson) in
  ((exists r, FixEnhanced.fix_lesson_timestamps kw lesson = Ok r) -> reads) /\
  (forall d, FixEnhanced.time_to_seconds (duration lesson) = Ok d ->
             Z.abs d < Py.FLOAT_INT_LIMIT ->
             reads -> exists r, FixEnhanced.fix_lesson_timestamps kw lesson = Ok r) /\
  (FixEnhanced.fix_lesson_timestamps kw lesson = Raise ValueError <-> ~ reads) /\
  (forall e, FixEnhanced.fix_lesson_timestamps kw lesson = Raise e ->
             e = ValueError \/
             (e = OverflowError /\
              exists d, FixEnhanced.time_to_seconds (duration lesson) = Ok d /\
                        Py.FLOAT_INT_LIMIT <= Z.abs d)).
Proof.
  intros reads.
  assert (Hok : (exists r, FixEnhanced.fix_lesson_timestamps kw lesson = Ok r) -> reads).
  { intros (r & H).
    destruct (fix_lesson_timestamps_steps _ _ _ H)
      as (D & d & normalized & c2 & kept & sorted & merged & c5 & covered & c6
          & HD & Hd & Hn & Hk & _).
    destruct (steps_read lesson D d normalized kept c2 HD Hd Hn Hk) as [Hd' Hl].
    split; [exists d; exact Hd' | exact Hl]. }
  assert (Hret : forall d, FixEnhanced.time_to_seconds (duration lesson) = Ok d ->
                           Z.abs d < Py.FLOAT_INT_LIMIT ->
                           reads -> exists r, FixEnhanced.fix_lesson_timestamps kw lesson = Ok r).
  { intros d Hd Hlim [_ Hl]. apply fix_lesson_timestamps_returns; [exists d; auto|].
    revert Hl. apply List.Forall_impl. intros ts (k & Hk). exists k. auto. }
  split; [exact Hok|]. split; [exact Hret|]. split.
  - split.
    + intros H [(d & Hd) Hl].
      destruct (Z.lt_ge_cases (Z.abs d) Py.FLOAT_INT_LIMIT) as [Hlt | Hge].
      * destruct (Hret d Hd Hlt (conj (ex_intro _ d Hd) Hl)) as (r & Hr).
        rewrite Hr in H. discriminate.
      * destruct (fix_lesson_timestamps_outcome kw lesson d Hd) as [(r & Hr) | [Hr _]];
          [|rewrite Hr in H; discriminate..].
        revert Hl. apply List.Forall_impl. intros ts (k & Hk). exists k. auto.
    + intros Hnot.
      destruct (FixEnhanced.fix_lesson_timestamps kw lesson) as [r|e] eqn:E.
      * exfalso. apply Hnot, Hok. exists r. reflexivity.
      * destruct (fix_lesson_timestamps_raises _ _ _ E) as [-> | (-> & d & Hd & _ & Hl)];
          [reflexivity|].
        exfalso. apply Hnot. split; [exists d; exact Hd | exact Hl].
  - intros e H. destruct (fix_lesson_timestamps_raises _ _ _ H) as [-> | (-> & d & Hd & Hlim & _)];
      [left; reflexivity | right]. split; [reflexivity|]. exists d. auto.
Qed.

Section SeparationFacts.
Import FixEnhanced.

(** Two values at least [MIN_SEPARATION_S] apart, whichever comes first. *)
Let apart (a b : Z) : Prop := a + MIN_SEPARATION_S <= b \/ b + MIN_SEPARATION_S <= a.
Let after (a b : Z) : Prop := a + MIN_SEPARATION_S <= b.

Lemma seconds_list_cons (ts : Timestamp) (l : list Timestamp) (k : Z) (keys : list Z) :
  seconds_of ts = Ok k -> seconds_list l = Ok keys ->
  seconds_list (ts :: l) = Ok (k :: keys).
Proof. unfold seconds_list. cbn [mapM]. intros -> ->. reflexivity. Qed.

Lemma seconds_list_cons_inv (ts : Timestamp) (l : list Timestamp) (keys : list Z) :
  seconds_list (ts :: l) = Ok keys ->
  exists k keys', keys = k :: keys' /\ seconds_of ts = Ok k /\ seconds_list l = Ok keys'.
Proof.
  unfold seconds_list. cbn [mapM]. intros H. inv_bind H. inv_bind H. inv_ret H.
  subst keys. eauto.
Qed.

Lemma seconds_list_app (l1 l2 : list Timestamp) (k1 k2 : list Z) :
  seconds_list l1 = Ok k1 -> seconds_list l2 = Ok k2 ->
  seconds_list (l1 ++ l2) = Ok (k1 ++ k2).
Proof.
  unfold seconds_list. rewrite !mapM_Ok_Forall2. apply Forall2_app.
Qed.

(** The inner loop leaves each entry it keeps at least [MIN_SEPARATION_S]
    after the one kept before it. *)
Lemma merge_from_separated (rest : list Timestamp) :
  forall current s out cs,
    seconds_of current = Ok s ->
    merge_from current s rest = Ok (out, cs) ->
    exists keys, seconds_list out = Ok (s :: keys) /\ separated (s :: keys).
Proof.
  induction rest as [|next r IH]; intros current s out cs Hs H; cbn [merge_from] in H.
  - inv_ret H. injection H as <- <-. exists [].
    split; [apply seconds_list_cons; [assumption | reflexivity] | repeat constructor].
  - inv_bind H. destruct (Z.ltb_spec (a - s) MIN_SEPARATION_S) as [Hlt | Hge].
    + inv_bind H. destruct a0 as [out' cs']. inv_ret H. injection H as <- <-.
      eapply IH; [|eassumption]. exact Hs.
    + inv_bind H. destruct a0 as [out' cs']. inv_ret H. injection H as <- <-.
      destruct (IH _ _ _ _ Ha Ha0) as (keys & Hkeys & Hsep).
      exists (a :: keys). split; [apply seconds_list_cons; assumption|].
      constructor; [assumption | constructor; lia].
Qed.

Lemma merge_close_separated (l out : list Timestamp) (cs : list change) :
  merge_close l = Ok (out, cs) ->
  exists keys, seconds_list out = Ok keys /\ separated keys.
Proof.
  destruct l as [|current r]; cbn [merge_close]; intros H.
  - inv_ret H. injection H as <- <-. exists []. split; [reflexivity | constructor].
  - inv_bind H. destruct (merge_from_separated _ _ _ _ _ Ha H) as (keys & ? & ?). eauto.
Qed.

Lemma separated_strongly (keys : list Z) : separated keys -> StronglySorted after keys.
Proof.
  apply Sorted_StronglySorted. intros a b c. unfold after, MIN_SEPARATION_S. lia.
Qed.

(** Inserting a key that is apart from all keys of a separated list keeps
    the list separated. *)
Lemma insert_by_key_separated {A : Type} (x : Z * A) (l : list (Z * A)) :
  separated (map fst l) -> List.Forall (fun y => apart (fst x) (fst y)) l ->
  separated (map fst (insert_by_key x l)).
Proof.
  unfold separated. induction l as [|y l IH]; cbn [insert_by_key map]; intros Hs Hx.
  - repeat constructor.
  - inversion Hx as [|? ? Hxy Hxl]; subst. inversion Hs as [|? ? Hs' Hhd]; subst.
    destruct (Z.leb_spec (fst x) (fst y)) as [Hle | Hgt]; cbn [map].
    + constructor; [assumption|]. constructor.
      destruct Hxy as [? | ?]; [assumption | unfold MIN_SEPARATION_S in *; lia].
    + constructor; [apply IH; assumption|].
      destruct l as [|z l]; cbn [insert_by_key map].
      * constructor. destruct Hxy as [? | ?]; [unfold MIN_SEPARATION_S in *; lia | assumption].
      * destruct (fst x <=? fst z); cbn [map]; constructor.
        -- destruct Hxy as [? | ?]; [unfold MIN_SEPARATION_S in *; lia | assumption].
        -- inversion Hhd; assumption.
Qed.

Lemma stable_sort_separated {A : Type} (l : list (Z * A)) :
  ForallOrdPairs apart (map fst l) -> separated (map fst (stable_sort l)).
Proof.
  induction l as [|x l IH]; cbn [map]; intros H; [constructor|].
  inversion H as [|? ? Hx Hl]; subst.
  change (stable_sort (x :: l)) with (insert_by_key x (stable_sort l)).
  apply insert_by_key_separated; [apply IH; assumption|].
  eapply Permutation_Forall; [symmetry; apply stable_sort_perm|].
  rewrite List.Forall_map in Hx. exact Hx.
Qed.

Lemma sort_by_time_separated (l l' : list Timestamp) (keys : list Z) :
  sort_by_time l = Ok l' -> seconds_list l = Ok keys -> ForallOrdPairs apart keys ->
  exists keys', seconds_list l' = Ok keys' /\ separated keys'.
Proof.
  unfold sort_by_time. intros H Hkeys Hap. inv_bind H. inv_ret H. subst l'.
  destruct (keyed_spec _ _ Ha) as [Hl Hk].
  assert (Hfst : map fst a = keys).
  { rewrite <- Hl in Hkeys. unfold seconds_list in Hkeys.
    rewrite (mapM_pairs _ _ Hk) in Hkeys. congruence. }
  exists (map fst (stable_sort a)). split.
  - apply mapM_pairs.
    eapply Permutation_Forall; [symmetry; apply stable_sort_perm | assumption].
  - apply stable_sort_separated. rewrite Hfst. assumption.
Qed.

Lemma strongly_apart (keys : list Z) : StronglySorted after keys -> ForallOrdPairs apart keys.
Proof.
  induction 1 as [|a l _ IH Ha]; constructor; [|assumption].
  revert Ha. apply List.Forall_impl. intros b Hb. left. exact Hb.
Qed.

Lemma apart_app (l1 l2 : list Z) :
  ForallOrdPairs apart l1 -> ForallOrdPairs apart l2 ->
  List.Forall (fun a => List.Forall (apart a) l2) l1 ->
  ForallOrdPairs apart (l1 ++ l2).
Proof.
  induction 1 as [|a l1 Ha _ IH]; intros H2 Hc; cbn [app]; [assumption|].
  inversion Hc as [|? ? Hca Hcl]; subst.
  constructor; [apply List.Forall_app; split; assumption | apply IH; assumption].
Qed.

(** In a lesson of at least [8 * MIN_SEPARATION_S] seconds a gap that is
    filled is wide enough for the placeholder in its middle to lie
    [MIN_SEPARATION_S] from both ends, so the placeholders are apart from
    the entries and from each other. *)
Lemma gaps_to_fill_apart (d : Z) (l : list Timestamp) :
  8 * MIN_SEPARATION_S <= d ->
  forall keys fill cs,
    seconds_list l = Ok keys -> StronglySorted after keys ->
    gaps_to_fill d l = Ok (fill, cs) ->
    exists fkeys,
      seconds_list fill = Ok fkeys /\ StronglySorted after fkeys /\
      List.Forall (fun k => List.Forall (apart k) fkeys) keys /\
      List.Forall (fun m => match keys with k0 :: _ => after k0 m | [] => True end) fkeys.
Proof.
  intros Hd. induction l as [|prev r IH]; intros keys fill cs Hkeys Hss H.
  - cbn in H. inv_ret H. injection H as <- <-. injection Hkeys as <-.
    exists []. repeat split; constructor.
  - destruct r as [|curr r'].
    + cbn in H. inv_ret H. injection H as <- <-.
      exists []. split; [reflexivity|]. split; [constructor|].
      split; [|constructor].
      apply List.Forall_forall. intros; constructor.
    + rewrite gaps_to_fill_step in H.
      apply seconds_list_cons_inv in Hkeys as (kp & keys1 & -> & Hp & Hkeys1).
      pose proof Hkeys1 as Hkeys1'.
      apply seconds_list_cons_inv in Hkeys1' as (kc & keys2 & -> & Hc & Hkeys2).
      rewrite Hp, Hc in H. cbn [mbind result_bind] in H. cbv zeta in H.
      inv_bind H. destruct a as [fill' cs'].
      inversion Hss as [|? ? Hss1 Hall]; subst.
      destruct (IH _ _ _ Hkeys1 Hss1 Ha) as (fkeys' & Hf' & Sf' & Ap' & Af').
      assert (Hpc : after kp kc) by (inversion Hall; assumption).
      assert (Akp : List.Forall (after kp) fkeys').
      { revert Af'. apply List.Forall_impl. unfold after, MIN_SEPARATION_S in *. intros m Hm. lia. }
      destruct (Z.ltb_spec d (4 * (kc - kp))) as [Hfill | Hno].
      * inv_ret H. injection H as <- <-.
        set (mid := kp + (kc - kp) / 2).
        assert (Hmid : kp + MIN_SEPARATION_S <= mid /\ mid + MIN_SEPARATION_S <= kc).
        { unfold mid, MIN_SEPARATION_S in *.
          pose proof (Z.div_mod (kc - kp) 2). pose proof (Z.mod_pos_bound (kc - kp) 2). lia. }
        exists (mid :: fkeys'). split.
        { apply seconds_list_cons; [|assumption].
          apply time_to_seconds_seconds_to_time. }
        split.
        { constructor; [assumption|]. revert Af'. apply List.Forall_impl.
          unfold after, MIN_SEPARATION_S in *. intros m Hm. lia. }
        split.
        { constructor.
          - constructor; [left; apply Hmid|].
            revert Akp. apply List.Forall_impl. intros m Hm. left. exact Hm.
          - inversion Ap' as [|? ? Apc Aprest]; subst. constructor.
            + constructor; [right; apply Hmid | assumption].
            + inversion Hss1 as [|? ? _ Hcrest]; subst.
              clear - Aprest Hcrest Hmid. induction Aprest as [|k ks Hk _ IHk]; constructor.
              * constructor; [|assumption]. inversion Hcrest; subst.
                right. unfold after, MIN_SEPARATION_S in *. lia.
              * apply IHk. inversion Hcrest; assumption. }
        { constructor; [apply Hmid | assumption]. }
      * inv_ret H. injection H as <- <-.
        exists fkeys'. split; [assumption|]. split; [assumption|].
        split; [|assumption].
        constructor; [|assumption].
        revert Akp. apply List.Forall_impl. intros m Hm. left. exact Hm.
Qed.

Lemma fill_coverage_separated (d : Z) (l out : list Timestamp) (cs : list change)
    (keys : list Z) :
  8 * MIN_SEPARATION_S <= d ->
  seconds_list l = Ok keys -> separated keys ->
  fill_coverage d l = Ok (out, cs) ->
  exists keys', seconds_list out = Ok keys' /\ separated keys'.
Proof.
  intros Hd Hkeys Hsep. unfold fill_coverage.
  destruct (Nat.ltb 1 (length l)); intros H.
  - inv_first H g Hg.
    assert (Hd' : 8 * MIN_SEPARATION_S <= g)
      by (apply (float_of_int_low d g); [vm_compute; split; [discriminate | reflexivity]
                                        | exact Hd | exact Hg]).
    inv_bind H. destruct a as [fill cs']. inv_bind H. inv_ret H. injection H as <- <-.
    pose proof (separated_strongly _ Hsep) as Hss.
    destruct (gaps_to_fill_apart g l Hd' _ _ _ Hkeys Hss Ha) as (fkeys & Hf & Sf & Ap & _).
    eapply sort_by_time_separated; [eassumption | apply seconds_list_app; eassumption|].
    apply apart_app; [apply strongly_apart; assumption | apply strongly_apart; assumption|].
    exact Ap.
  - inv_ret H. injection H as <- <-. eauto.
Qed.

End SeparationFacts.

(** X9. The merge step keeps entries at least [MIN_SEPARATION_S] apart, and in
    a lesson of two minutes or more the whole repair does: when
    [fix_lesson_timestamps] returns for a lesson whose duration reads as at
    least [8 * MIN_SEPARATION_S] seconds, each entry of the updated list
    lies at least [MIN_SEPARATION_S] seconds after the one before it. *)
Theorem fix_lesson_timestamps_separated (kw : list string) (lesson : Lesson)
    (r : FixEnhanced.FixResult) (d : Z) :
  FixEnhanced.fix_lesson_timestamps kw lesson = Ok r ->
  FixEnhanced.time_to_seconds (duration lesson) = Ok d ->
  8 * FixEnhanced.MIN_SEPARATION_S <= d ->
  exists keys,
    FixEnhanced.seconds_list (FixEnhanced.updated_timestamps r) = Ok keys /\
    FixEnhanced.separated keys.
Proof.
  intros H Hdur Hd.
  destruct (fix_lesson_timestamps_steps _ _ _ H)
    as (D & d' & normalized & c2 & kept & sorted & merged & c5 & covered & c6
        & HD & Hd' & Hn & Hk & Hs & Hm & Hc & Hu).
  rewrite (normalize_time_seconds _ _ HD), Hdur in Hd'. injection Hd' as <-.
  rewrite Hu, seconds_list_times, rewrite_weak_times, <- seconds_list_times.
  destruct (merge_close_separated _ _ _ Hm) as (keys & Hkeys & Hsep).
  eapply fill_coverage_separated; eassumption.
Qed.

Lemma fix_lesson_timestamps_separated_witness :
  exists r,
    FixEnhanced.fix_lesson_timestamps [] lesson_wide_gap = Ok r /\
    exists keys,
      FixEnhanced.seconds_list (FixEnhanced.updated_timestamps r) = Ok keys /\
      FixEnhanced.separated keys.
Proof.
  eexists. split; [vm_compute; reflexivity|].
  apply (fix_lesson_timestamps_separated [] lesson_wide_gap _ 1000).
  - vm_compute. reflexivity.
  - vm_compute. reflexivity.
  - vm_compute. discriminate.
Defined.

Section ChangeLogFacts.
Import FixEnhanced.

(** A successful call, with the parts of its change log. *)
Lemma fix_lesson_timestamps_log (kw : list string) (lesson : Lesson) (r : FixResult) :
  fix_lesson_timestamps kw lesson = Ok r ->
  exists duration_str duration_seconds normalized c2 kept sorted merged c5 covered c6,
    normalize_time (duration lesson) = Ok duration_str /\
    time_to_seconds duration_str = Ok duration_seconds /\
    normalize_entries (timestamps lesson) = Ok (normalized, c2) /\
    in_range duration_seconds normalized = Ok kept /\
    sort_by_time kept = Ok sorted /\
    merge_close sorted = Ok (merged, c5) /\
    fill_coverage duration_seconds merged = Ok (covered, c6) /\
    updated_timestamps r = fst (rewrite_weak 0 (title lesson) kw [] covered) /\
    changes_summary r
    = (if String.eqb (duration lesson) duration_str then []
       else [FixedDuration (duration lesson) duration_str])
      ++ c2 ++ c5 ++ c6 ++ snd (rewrite_weak 0 (title lesson) kw [] covered)
      ++ (if existsb (fun ts => String.eqb (label ts) "TO_REVIEW") (updated_timestamps r)
          then [ManualReview] else []).
Proof.
  unfold fix_lesson_timestamps. intros H.
  inv_bind H. inv_bind H. inv_bind H. destruct a1 as [normalized c2].
  inv_bind H. inv_bind H. inv_bind H. destruct a3 as [merged c5].
  inv_bind H. destruct a3 as [covered c6].
  destruct (rewrite_weak 0 (title lesson) kw [] covered) as [rewritten c8] eqn:Erw.
  inv_ret H. subst r. cbn [updated_timestamps changes_summary].
  exists a, a0, normalized, c2, a1, a2, merged, c5, covered, c6.
  rewrite Erw. cbn [fst snd]. repeat split; first [assumption | reflexivity].
Qed.

Lemma normalize_entries_log (l l' : list Timestamp) (cs : list change) :
  normalize_entries l = Ok (l', cs) ->
  forall c, In c cs -> exists o n, c = NormalizedTime o n.
Proof.
  revert l' cs. induction l as [|t l IH]; intros l' cs H c Hc; cbn in H.
  - inv_ret H. injection H as <- <-. destruct Hc.
  - inv_bind H. destruct a as [t1 c1]. inv_bind H. destruct a as [l1 cs1].
    inv_ret H. injection H as <- <-.
    unfold normalize_entry in Ha. inv_bind Ha. inv_ret Ha. injection Ha as <- <-.
    apply in_app_or in Hc as [Hc | Hc]; [|eapply IH; eassumption].
    destruct (String.eqb (time t) a); [destruct Hc|].
    destruct Hc as [<- | []]. eauto.
Qed.

Lemma merge_from_log (rest : list Timestamp) :
  forall current s out cs,
    merge_from current s rest = Ok (out, cs) ->
    forall c, In c cs -> exists a b, c = MergedClose a b.
Proof.
  induction rest as [|next r IH]; intros current s out cs H c Hc; cbn in H.
  - inv_ret H. injection H as <- <-. destruct Hc.
  - inv_bind H. destruct (a - s <? MIN_SEPARATION_S).
    + inv_bind H. destruct a0 as [out' cs']. inv_ret H. injection H as <- <-.
      destruct Hc as [<- | Hc]; [eauto | eapply IH; eassumption].
    + inv_bind H. destruct a0 as [out' cs']. inv_ret H. injection H as <- <-.
      eapply IH; eassumption.
Qed.

Lemma merge_close_log (l out : list Timestamp) (cs : list change) :
  merge_close l = Ok (out, cs) ->
  forall c, In c cs -> exists a b, c = MergedClose a b.
Proof.
  destruct l as [|current r]; cbn; intros H.
  - inv_ret H. injection H as <- <-. intros c [].
  - inv_bind H. eapply merge_from_log; eassumption.
Qed.

Lemma rewrite_entry_log (i : nat) (title : string) (kw ex : list string) (ts : Timestamp) :
  forall c, In c (snd (rewrite_entry i title kw ex ts)) ->
  (exists t o n, c = RewroteLabel t o n) \/ (exists t o n, c = RewroteDescription t o n).
Proof.
  unfold rewrite_entry.
  destruct (needs_label_rewrite _ _ && _); destruct (needs_desc_rewrite _ _);
    cbn [snd app]; intros c Hc;
    repeat destruct Hc as [<- | Hc]; try destruct Hc; eauto 6.
Qed.

Lemma rewrite_weak_log (title : string) (kw : list string) (l : list Timestamp) :
  forall i ex c, In c (snd (rewrite_weak i title kw ex l)) ->
  (exists t o n, c = RewroteLabel t o n) \/ (exists t o n, c = RewroteDescription t o n).
Proof.
  induction l as [|t l IH]; intros i ex c; cbn [rewrite_weak]; [intros []|].
  pose proof (rewrite_entry_log i title kw ex t) as Ht.
  destruct (rewrite_entry i title kw ex t) as [t' c1].
  specialize (IH (S i) (ex ++ [label t'])).
  destruct (rewrite_weak (S i) title kw (ex ++ [label t']) l) as [r' cs].
  cbn [snd] in *. intros Hc. apply in_app_or in Hc as [Hc | Hc]; auto.
Qed.

(** The coverage loop logs one change per placeholder, with its time. *)
Lemma gaps_to_fill_log (d : Z) (l : list Timestamp) :
  forall fill cs,
    gaps_to_fill d l = Ok (fill, cs) ->
    exists mids, fill = map placeholder mids /\
                 cs = map (fun m => AddedCoverage (seconds_to_time m)) mids.
Proof.
  induction l as [|prev r IH]; intros fill cs H.
  - cbn in H. inv_ret H. injection H as <- <-. exists []. split; reflexivity.
  - destruct r as [|curr r'].
    + cbn in H. inv_ret H. injection H as <- <-. exists []. split; reflexivity.
    + rewrite gaps_to_fill_step in H. inv_bind H. inv_bind H. cbv zeta in H.
      inv_bind H. destruct a1 as [fill' cs'].
      destruct (IH _ _ Ha1) as (mids & -> & ->).
      destruct (d <? 4 * (a0 - a)); inv_ret H; injection H as <- <-.
      * exists (a + (a0 - a) / 2 :: mids). split; reflexivity.
      * exists mids. split; reflexivity.
Qed.

Lemma sort_by_time_in (l l' : list Timestamp) (x : Timestamp) :
  sort_by_time l = Ok l' -> (In x l' <-> In x l).
Proof.
  intros H. destruct (sort_by_time_spec _ _ H) as [Hperm _].
  split; apply Permutation_in; [assumption | symmetry; assumption].
Qed.

Lemma fill_coverage_in (d : Z) (l out : list Timestamp) (cs : list change) :
  fill_coverage d l = Ok (out, cs) ->
  exists mids,
    cs = map (fun m => AddedCoverage (seconds_to_time m)) mids /\
    forall x, In x out <-> In x l \/ In x (map placeholder mids).
Proof.
  unfold fill_coverage. destruct (Nat.ltb 1 (length l)); intros H.
  - inv_first H g Hg.
    inv_bind H. destruct a as [fill cs']. inv_bind H. inv_ret H. injection H as <- <-.
    destruct (gaps_to_fill_log _ _ _ _ Ha) as (mids & -> & ->).
    exists mids. split; [reflexivity|]. intros x.
    rewrite (sort_by_time_in _ _ x Ha0). apply in_app_iff.
  - inv_ret H. injection H as <- <-. exists []. split; [reflexivity|].
    intros x. cbn. tauto.
Qed.

(** The rewrite loop passes over a placeholder: its label is the review
    mark, which is never replaced, and its description is long enough. *)
Lemma rewrite_entry_placeholder (i : nat) (title : string) (kw ex : list string) (m : Z) :
  rewrite_entry i title kw ex (placeholder m) = (placeholder m, []).
Proof.
  unfold rewrite_entry, placeholder. cbn [label description time].
  rewrite String.eqb_refl. cbn [negb]. rewrite andb_false_r.
  replace (needs_desc_rewrite "Section needs manual review for content" "TO_REVIEW")
    with false by (vm_compute; reflexivity).
  reflexivity.
Qed.

Lemma rewrite_weak_in (title : string) (kw : list string) (l : list Timestamp) :
  forall i ex x, In x (fst (rewrite_weak i title kw ex l)) ->
  exists y j ex', In y l /\ x = fst (rewrite_entry j title kw ex' y).
Proof.
  induction l as [|t l IH]; intros i ex x; cbn [rewrite_weak]; [intros []|].
  destruct (rewrite_entry i title kw ex t) as [t' c1] eqn:Et.
  specialize (IH (S i) (ex ++ [label t'])).
  destruct (rewrite_weak (S i) title kw (ex ++ [label t']) l) as [r' cs].
  cbn [fst] in *. intros [<- | Hx].
  - exists t, i, ex. rewrite Et. split; [left; reflexivity | reflexivity].
  - destruct (IH _ Hx) as (y & j & ex' & Hy & ->). exists y, j, ex'.
    split; [right; assumption | reflexivity].
Qed.

Lemma rewrite_weak_keeps (title : string) (kw : list string) (l : list Timestamp)
    (p : Timestamp) :
  (forall i ex, rewrite_entry i title kw ex p = (p, [])) ->
  forall i ex, In p l -> In p (fst (rewrite_weak i title kw ex l)).
Proof.
  intros Hp. induction l as [|t l IH]; intros i ex; cbn [rewrite_weak]; [intros []|].
  destruct (rewrite_entry i title kw ex t) as [t' c1] eqn:Et.
  specialize (IH (S i) (ex ++ [label t'])).
  destruct (rewrite_weak (S i) title kw (ex ++ [label t']) l) as [r' cs].
  cbn [fst] in *. intros [-> | Hin].
  - rewrite Hp in Et. injection Et as <- _. left. reflexivity.
  - right. apply IH. assumption.
Qed.

End ChangeLogFacts.

(** X10. A coverage placeholder is never presented as finished content: for
    every "Added coverage timestamp at t" in the change log of a call that
    returns, the updated list holds the entry at [t] with the label
    [TO_REVIEW] and the fixed review description, untouched by the rewrite
    step, and the log carries the manual-review notice. *)
Theorem coverage_placeholders_are_flagged (kw : list string) (lesson : Lesson)
    (r : FixEnhanced.FixResult) (t : string) :
  FixEnhanced.fix_lesson_timestamps kw lesson = Ok r ->
  In (FixEnhanced.AddedCoverage t) (FixEnhanced.changes_summary r) ->
  In {| time := t; label := "TO_REVIEW";
        description := "Section needs manual review for content" |}
     (FixEnhanced.updated_timestamps r) /\
  In FixEnhanced.ManualReview (FixEnhanced.changes_summary r).
Proof.
  intros H Hin.
  destruct (fix_lesson_timestamps_log _ _ _ H)
    as (D & d & normalized & c2 & kept & sorted & merged & c5 & covered & c6
        & _ & _ & Hn & _ & _ & Hm & Hc & Hu & Hlog).
  destruct (fill_coverage_in _ _ _ _ Hc) as (mids & Hc6 & Hcov).
  assert (Hin6 : In (FixEnhanced.AddedCoverage t) c6).
  { rewrite Hlog in Hin.
    repeat (apply in_app_or in Hin as [Hin | Hin]); try assumption.
    - destruct (String.eqb _ _); [destruct Hin|]. destruct Hin as [[=] | []].
    - destruct (normalize_entries_log _ _ _ Hn _ Hin) as (o & n & [=]).
    - destruct (merge_close_log _ _ _ Hm _ Hin) as (a & b & [=]).
    - destruct (rewrite_weak_log _ _ _ _ _ _ Hin) as [(? & ? & ? & [=]) | (? & ? & ? & [=])].
    - destruct (existsb _ _); [destruct Hin as [[=] | []] | destruct Hin]. }
  rewrite Hc6 in Hin6. apply in_map_iff in Hin6 as (m & [= <-] & Hmid).
  assert (Hp : In (FixEnhanced.placeholder m) (FixEnhanced.updated_timestamps r)).
  { rewrite Hu. apply rewrite_weak_keeps; [intros; apply rewrite_entry_placeholder|].
    apply Hcov. right. apply in_map. assumption. }
  split; [exact Hp|].
  rewrite Hlog. repeat (apply in_or_app; right).
  replace (existsb _ _) with true; [left; reflexivity|].
  symmetry. apply existsb_exists. exists (FixEnhanced.placeholder m).
  split; [assumption | reflexivity].
Qed.

Lemma coverage_placeholders_are_flagged_witness :
  exists r,
    FixEnhanced.fix_lesson_timestamps [] lesson_wide_gap = Ok r /\
    In {| time := "0:06:40"; label := "TO_REVIEW";
          description := "Section needs manual review for content" |}
       (FixEnhanced.updated_timestamps r) /\
    In FixEnhanced.ManualReview (FixEnhanced.changes_summary r).
Proof.
  eexists. split; [vm_compute; reflexivity|].
  apply (coverage_placeholders_are_flagged [] lesson_wide_gap).
  - vm_compute. reflexivity.
  - vm_compute. left. reflexivity.
Defined.

Section ConservationFacts.
Import FixEnhanced.

Lemma normalize_entries_in (l l' : list Timestamp) (cs : list change) :
  normalize_entries l = Ok (l', cs) ->
  (forall x, In x l -> exists x', In x' l' /\ normalize_time (time x) = Ok (time x')) /\
  (forall x', In x' l' -> exists x, In x l /\ normalize_time (time x) = Ok (time x')).
Proof.
  intros H. apply normalize_entries_spec in H.
  induction H as [|t t' l l' (Ht & _ & _) _ [IH1 IH2]]; [split; intros ? []|].
  split.
  - intros x [<- | Hx]; [exists t'; split; [left; reflexivity | assumption]|].
    destruct (IH1 x Hx) as (x' & ? & ?). exists x'. split; [right|]; assumption.
  - intros x' [<- | Hx]; [exists t; split; [left; reflexivity | assumption]|].
    destruct (IH2 x' Hx) as (x & ? & ?). exists x. split; [right|]; assumption.
Qed.

(** The range step keeps an entry exactly when its seconds lie before the
    end, and reads the seconds of every entry. *)
Lemma in_range_in (d : Z) (l kept : list Timestamp) :
  in_range d l = Ok kept ->
  (forall x, In x l -> exists k, seconds_of x = Ok k /\ (k < d -> In x kept)) /\
  (forall x, In x kept -> In x l).
Proof.
  revert kept. induction l as [|t l IH]; intros kept H; cbn [in_range] in H.
  - inv_ret H. subst kept. split; intros ? [].
  - inv_bind H. inv_bind H. inv_ret H. destruct (IH _ Ha0) as [IH1 IH2].
    destruct (Z.ltb_spec a d) as [Hlt | Hge]; subst kept; split.
    + intros x [<- | Hx]; [exists a; split; [assumption | intros _; left; reflexivity]|].
      destruct (IH1 x Hx) as (k & Hk & Hin). exists k. split; [assumption|].
      intros Hkd. right. auto.
    + intros x [<- | Hx]; [left; reflexivity | right; auto].
    + intros x [<- | Hx]; [exists a; split; [assumption | lia]|].
      apply IH1. assumption.
    + intros x Hx. right. auto.
Qed.

(** The merge step accounts for every entry: it is kept, up to its
    description, or a change names it as merged. *)
Lemma merge_from_accounts (rest : list Timestamp) :
  forall current s out cs,
    merge_from current s rest = Ok (out, cs) ->
    (forall x, x = current \/ In x rest ->
       (exists y, In y out /\ time y = time x) \/
       (exists a, In (MergedClose a (time x)) cs)) /\
    (forall y, In y out -> exists x, (x = current \/ In x rest) /\ time x = time y).
Proof.
  induction rest as [|next r IH]; intros current s out cs H; cbn [merge_from] in H.
  - inv_ret H. injection H as <- <-. split.
    + intros x [-> | []]. left. exists current. split; [left|]; reflexivity.
    + intros y [<- | []]. exists current. split; [left|]; reflexivity.
  - inv_bind H. destruct (a - s <? MIN_SEPARATION_S).
    + inv_bind H. destruct a0 as [out' cs']. inv_ret H. injection H as <- <-.
      destruct (IH _ _ _ _ Ha0) as [IH1 IH2]. split.
      * intros x [-> | [<- | Hx]].
        -- destruct (IH1 _ (or_introl eq_refl)) as [(y & Hy & Ht) | (b & Hb)].
           ++ left. exists y. split; [assumption | exact Ht].
           ++ right. exists b. right. exact Hb.
        -- right. exists (time current). left. reflexivity.
        -- destruct (IH1 x (or_intror Hx)) as [? | (b & Hb)]; [left; assumption|].
           right. exists b. right. assumption.
      * intros y Hy. destruct (IH2 y Hy) as (x & [-> | Hx] & Ht).
        -- exists current. split; [left; reflexivity | exact Ht].
        -- exists x. split; [right; right; assumption | assumption].
    + inv_bind H. destruct a0 as [out' cs']. inv_ret H. injection H as <- <-.
      destruct (IH _ _ _ _ Ha0) as [IH1 IH2]. split.
      * intros x [-> | Hx].
        -- left. exists current. split; [left|]; reflexivity.
        -- destruct (IH1 x) as [(y & Hy & Ht) | ?]; [destruct Hx; auto | | right; assumption].
           left. exists y. split; [right; assumption | assumption].
      * intros y [<- | Hy]; [exists current; split; [left|]; reflexivity|].
        destruct (IH2 y Hy) as (x & Hx & Ht). exists x.
        split; [right; destruct Hx; [left; congruence | right; assumption] | assumption].
Qed.

Lemma merge_close_accounts (l out : list Timestamp) (cs : list change) :
  merge_close l = Ok (out, cs) ->
  (forall x, In x l ->
     (exists y, In y out /\ time y = time x) \/
     (exists a, In (MergedClose a (time x)) cs)) /\
  (forall y, In y out -> exists x, In x l /\ time x = time y).
Proof.
  destruct l as [|current r]; cbn [merge_close]; intros H.
  - inv_ret H. injection H as <- <-. split; intros ? [].
  - inv_bind H. destruct (merge_from_accounts _ _ _ _ _ H) as [H1 H2]. split.
    + intros x [<- | Hx]; apply H1; auto.
    + intros y Hy. destruct (H2 y Hy) as (x & [-> | Hx] & Ht).
      * exists current. split; [left; reflexivity | assumption].
      * exists x. split; [right; assumption | assumption].
Qed.

Lemma rewrite_weak_time_in (title : string) (kw : list string) (l : list Timestamp)
    (t : string) :
  In t (map time (fst (rewrite_weak 0 title kw [] l))) <-> In t (map time l).
Proof. rewrite rewrite_weak_times. reflexivity. Qed.

End ConservationFacts.

(** X11. The repair invents no time: when [fix_lesson_timestamps] returns, the
    time of each entry of the updated list is the normalized time of an
    entry of the lesson, or the time of a coverage placeholder that the
    change log records. *)
Theorem updated_times_come_from_the_lesson (kw : list string) (lesson : Lesson)
    (r : FixEnhanced.FixResult) (ts' : Timestamp) :
  FixEnhanced.fix_lesson_timestamps kw lesson = Ok r ->
  In ts' (FixEnhanced.updated_timestamps r) ->
  (exists ts, In ts (timestamps lesson) /\
              FixEnhanced.normalize_time (time ts) = Ok (time ts')) \/
  In (FixEnhanced.AddedCoverage (time ts')) (FixEnhanced.changes_summary r).
Proof.
  intros H Hin.
  destruct (fix_lesson_timestamps_log _ _ _ H)
    as (D & d & normalized & c2 & kept & sorted & merged & c5 & covered & c6
        & _ & _ & Hn & Hk & Hs & Hm & Hc & Hu & Hlog).
  assert (Ht : In (time ts') (map time covered)).
  { apply rewrite_weak_time_in with (title := title lesson) (kw := kw).
    rewrite <- Hu. apply in_map. assumption. }
  apply in_map_iff in Ht as (y & Hty & Hy).
  destruct (fill_coverage_in _ _ _ _ Hc) as (mids & Hc6 & Hcov).
  destruct (proj1 (Hcov y) Hy) as [Hy' | Hy'].
  - left. destruct (proj2 (merge_close_accounts _ _ _ Hm) y Hy') as (x & Hx & Htx).
    apply (sort_by_time_in _ _ x Hs) in Hx. apply (proj2 (in_range_in _ _ _ Hk)) in Hx.
    destruct (proj2 (normalize_entries_in _ _ _ Hn) x Hx) as (ts & Hts & Hnt).
    exists ts. split; [assumption|]. congruence.
  - right. apply in_map_iff in Hy' as (m & <- & Hmid).
    rewrite Hlog, <- Hty. cbn [FixEnhanced.placeholder time].
    do 3 (apply in_or_app; right). apply in_or_app; left.
    rewrite Hc6. apply in_map_iff. exists m. split; [reflexivity | assumption].
Qed.

Lemma updated_times_come_from_the_lesson_witness :
  exists r,
    FixEnhanced.fix_lesson_timestamps [] lesson_wide_gap = Ok r /\
    ((exists ts, In ts (timestamps lesson_wide_gap) /\
                 FixEnhanced.normalize_time (time ts)
                 = Ok (time (FixEnhanced.placeholder 400))) \/
     In (FixEnhanced.AddedCoverage (time (FixEnhanced.placeholder 400)))
        (FixEnhanced.changes_summary r)).
Proof.
  eexists. split; [vm_compute; reflexivity|].
  apply (updated_times_come_from_the_lesson [] lesson_wide_gap _ (FixEnhanced.placeholder 400)).
  - vm_compute. reflexivity.
  - vm_compute. right. left. reflexivity.
Defined.

(** X12. No entry before the end of the lesson is lost without a trace: when
    [fix_lesson_timestamps] returns, the time of every entry of the lesson
    normalizes and reads as seconds, and if these lie before the duration
    the normalized time is the time of an entry of the updated list or a
    "Merged close timestamps" change names it as the merged one. *)
Theorem entries_before_the_end_are_kept_or_merged (kw : list string) (lesson : Lesson)
    (r : FixEnhanced.FixResult) (ts : Timestamp) :
  FixEnhanced.fix_lesson_timestamps kw lesson = Ok r ->
  In ts (timestamps lesson) ->
  exists (t' : string) (k d : Z),
    FixEnhanced.normalize_time (time ts) = Ok t' /\
    FixEnhanced.time_to_seconds t' = Ok k /\
    FixEnhanced.time_to_seconds (duration lesson) = Ok d /\
    (k < d ->
     In t' (map time (FixEnhanced.updated_timestamps r)) \/
     exists kept_time,
       In (FixEnhanced.MergedClose kept_time t') (FixEnhanced.changes_summary r)).
Proof.
  intros H Hin.
  destruct (fix_lesson_timestamps_log _ _ _ H)
    as (D & d & normalized & c2 & kept & sorted & merged & c5 & covered & c6
        & HD & Hd & Hn & Hk & Hs & Hm & Hc & Hu & Hlog).
  destruct (proj1 (normalize_entries_in _ _ _ Hn) ts Hin) as (x & Hx & Hnt).
  destruct (proj1 (in_range_in _ _ _ Hk) x Hx) as (k & Hkx & Hkept).
  exists (time x), k, d. split; [assumption|]. split; [exact Hkx|].
  split; [rewrite <- (normalize_time_seconds _ _ HD); assumption|].
  intros Hlt. specialize (Hkept Hlt).
  apply (sort_by_time_in _ _ x Hs) in Hkept.
  destruct (proj1 (merge_close_accounts _ _ _ Hm) x Hkept) as [(y & Hy & Hty) | (a & Ha)].
  - left. rewrite Hu. apply rewrite_weak_time_in. rewrite <- Hty. apply in_map.
    destruct (fill_coverage_in _ _ _ _ Hc) as (mids & _ & Hcov). apply Hcov. left. assumption.
  - right. exists a. rewrite Hlog.
    do 2 (apply in_or_app; right). apply in_or_app; left. assumption.
Qed.

Lemma entries_before_the_end_are_kept_or_merged_witness :
  exists r,
    FixEnhanced.fix_lesson_timestamps [] lesson_dense_pair = Ok r /\
    exists (t' : string) (k d : Z),
      FixEnhanced.normalize_time (time dense_second) = Ok t' /\
      FixEnhanced.time_to_seconds t' = Ok k /\
      FixEnhanced.time_to_seconds (duration lesson_dense_pair) = Ok d /\
      (k < d ->
       In t' (map time (FixEnhanced.updated_timestamps r)) \/
       exists kept_time,
         In (FixEnhanced.MergedClose kept_time t') (FixEnhanced.changes_summary r)).
Proof.
  eexists. split; [vm_compute; reflexivity|].
  apply (entries_before_the_end_are_kept_or_merged [] lesson_dense_pair).
  - vm_compute. reflexivity.
  - right. left. reflexivity.
Defined.

(** X13. Normalizing twice settles a time: whatever [normalize_time] of
    fix_timestamps_enhanced.py returns can be normalized again, and the
    result of that is a fixed point of [normalize_time] that reads as the
    same number of seconds as the first text. *)
Theorem normalize_time_settles (t t1 : string) :
  FixEnhanced.normalize_time t = Ok t1 ->
  exists t2,
    FixEnhanced.normalize_time t1 = Ok t2 /\
    FixEnhanced.normalize_time t2 = Ok t2 /\
    FixEnhanced.time_to_seconds t2 = FixEnhanced.time_to_seconds t.
Proof.
  intros H. destruct (normalize_time_cases t t1 H) as [-> | (h & m & s & ->)].
  - exists t. repeat split; assumption || reflexivity.
  - pose proof (normalize_time_fmt_clock h m s) as H1.
    eexists. split; [exact H1|]. split.
    + apply enhanced_normalize_time_canonical; apply Z.mod_pos_bound; lia.
    + rewrite (normalize_time_seconds _ _ H1). apply normalize_time_seconds. exact H.
Qed.

Lemma normalize_time_settles_witness :
  exists t2,
    FixEnhanced.normalize_time "0:00:75" = Ok t2 /\
    FixEnhanced.normalize_time t2 = Ok t2 /\
    FixEnhanced.time_to_seconds t2 = FixEnhanced.time_to_seconds "0:75".
Proof.
  apply (normalize_time_settles "0:75" "0:00:75"). vm_compute. reflexivity.
Defined.

Section LabelFacts.
Import FixEnhanced.

Lemma mem_In (x : string) (l : list string) : Str.mem x l = true <-> In x l.
Proof.
  unfold Str.mem. rewrite existsb_exists. split.
  - intros (y & Hy & E). apply String.eqb_eq in E. subst. assumption.
  - intros H. exists x. split; [assumption | apply String.eqb_refl].
Qed.

Lemma mem_same (x : string) (l l' : list string) :
  (forall k, In k l <-> In k l') -> Str.mem x l = Str.mem x l'.
Proof.
  intros H. apply eq_true_iff_eq. rewrite !mem_In. apply H.
Qed.

Lemma filter_same {A : Type} (f : A -> bool) (l l' : list A) :
  (forall k, In k l <-> In k l') ->
  forall k, In k (List.filter f l) <-> In k (List.filter f l').
Proof. intros H k. rewrite !filter_In, H. reflexivity. Qed.

Lemma generate_smart_label_same (i : nat) (title : string) (kw kw' ex : list string) :
  (forall k, In k kw <-> In k kw') ->
  generate_smart_label i title kw ex = generate_smart_label i title kw' ex.
Proof.
  intros H. unfold generate_smart_label. cbv zeta.
  pose proof (fun x => mem_same x _ _
                (filter_same (fun k => negb (Str.mem k GENERIC_TERMS)) kw kw' H)) as E.
  cbn [existsb]. rewrite !E. reflexivity.
Qed.

Lemma rewrite_entry_label_same (i : nat) (title : string) (kw kw' ex : list string)
    (ts : Timestamp) :
  (forall k, In k kw <-> In k kw') ->
  label (fst (rewrite_entry i title kw ex ts)) = label (fst (rewrite_entry i title kw' ex ts)).
Proof.
  intros H. unfold rewrite_entry.
  rewrite (generate_smart_label_same i title kw kw' ex H).
  destruct (needs_label_rewrite _ _ && _); destruct (needs_desc_rewrite _ _); reflexivity.
Qed.

Lemma rewrite_weak_labels_same (title : string) (kw kw' : list string) (l : list Timestamp) :
  (forall k, In k kw <-> In k kw') ->
  forall i ex,
    map label (fst (rewrite_weak i title kw ex l))
    = map label (fst (rewrite_weak i title kw' ex l)).
Proof.
  intros H. induction l as [|t l IH]; intros i ex; cbn [rewrite_weak]; [reflexivity|].
  pose proof (rewrite_entry_label_same i title kw kw' ex t H) as Ht.
  destruct (rewrite_entry i title kw ex t) as [t1 c1].
  destruct (rewrite_entry i title kw' ex t) as [t2 c2]. cbn [fst] in Ht.
  specialize (IH (S i) (ex ++ [label t1])). rewrite <- Ht.
  destruct (rewrite_weak (S i) title kw (ex ++ [label t1]) l) as [r1 cs1].
  destruct (rewrite_weak (S i) title kw' (ex ++ [label t1]) l) as [r2 cs2].
  cbn [fst map] in *. rewrite IH, Ht. reflexivity.
Qed.

End LabelFacts.

(** X14. The keyword list comes out of [list(set(...))], whose order changes
    from run to run.  The times and the labels of the repaired list do not
    depend on it: with two keyword lists that hold the same words,
    [fix_lesson_timestamps] returns for both or for neither, with the same
    times and the same labels (only descriptions may differ). *)
Theorem repaired_labels_ignore_keyword_order (kw kw' : list string) (lesson : Lesson)
    (r : FixEnhanced.FixResult) :
  (forall k, In k kw <-> In k kw') ->
  FixEnhanced.fix_lesson_timestamps kw lesson = Ok r ->
  exists r',
    FixEnhanced.fix_lesson_timestamps kw' lesson = Ok r' /\
    map time (FixEnhanced.updated_timestamps r')
    = map time (FixEnhanced.updated_timestamps r) /\
    map label (FixEnhanced.updated_timestamps r')
    = map label (FixEnhanced.updated_timestamps r).
Proof.
  intros Hkw H. unfold FixEnhanced.fix_lesson_timestamps in *.
  inv_bind H. inv_bind H. inv_bind H. destruct a1 as [normalized c2].
  inv_bind H. inv_bind H. inv_bind H. destruct a3 as [merged c5].
  inv_bind H. destruct a3 as [covered c6].
  rewrite Ha. cbn [mbind result_bind]. rewrite Ha0. cbn [mbind result_bind].
  rewrite Ha1. cbn [mbind result_bind]. rewrite Ha2. cbn [mbind result_bind].
  rewrite Ha3. cbn [mbind result_bind]. rewrite Ha4. cbn [mbind result_bind].
  rewrite Ha5. cbn [mbind result_bind].
  pose proof (rewrite_weak_labels_same (title lesson) kw kw' covered Hkw 0%nat []) as Hl.
  pose proof (rewrite_weak_times (title lesson) kw covered 0%nat []) as Ht.
  pose proof (rewrite_weak_times (title lesson) kw' covered 0%nat []) as Ht'.
  destruct (FixEnhanced.rewrite_weak 0 (title lesson) kw [] covered) as [rw c8].
  destruct (FixEnhanced.rewrite_weak 0 (title lesson) kw' [] covered) as [rw' c8'].
  inv_ret H. subst r. eexists. split; [reflexivity|].
  cbn [FixEnhanced.updated_timestamps fst] in *. split; congruence.
Qed.

Lemma repaired_labels_ignore_keyword_order_witness :
  exists r r',
    FixEnhanced.fix_lesson_timestamps ["test"; "api"] lesson_wide_gap = Ok r /\
    FixEnhanced.fix_lesson_timestamps ["api"; "test"; "api"] lesson_wide_gap = Ok r' /\
    map label (FixEnhanced.updated_timestamps r')
    = map label (FixEnhanced.updated_timestamps r).
Proof.
  assert (Hr : exists r, FixEnhanced.fix_lesson_timestamps ["test"; "api"] lesson_wide_gap
                         = Ok r) by (eexists; vm_compute; reflexivity).
  destruct Hr as (r & Hr).
  destruct (repaired_labels_ignore_keyword_order
              ["test"; "api"]%string ["api"; "test"; "api"]%string lesson_wide_gap r
              ltac:(intros k; cbn [In]; tauto) Hr)
    as (r' & Hr' & _ & Hl).
  exists r, r'. split; [assumption|]. split; assumption.
Defined.

Section WriteBackFacts.
Import Py FixEnhanced.

#[local] Arguments Ascii.eqb : simpl never.

Lemma chars_of_app (a b : string) : chars_of (a +:+ b) = chars_of a ++ chars_of b.
Proof.
  induction a as [|c a IH]; [reflexivity|].
  change (c :: chars_of (a +:+ b) = c :: (chars_of a ++ chars_of b)). rewrite IH. reflexivity.
Qed.

Lemma is_prefix_app (p x : chars) : is_prefix p (p ++ x) = true.
Proof.
  induction p as [|c p IH]; [reflexivity|]. cbn [is_prefix app].
  rewrite Ascii.eqb_refl, IH. reflexivity.
Qed.

Lemma contains_prefix (p x : chars) : contains p (p ++ x) = true.
Proof.
  pose proof (is_prefix_app p x) as H.
  destruct (p ++ x); cbn [contains]; rewrite H; reflexivity.
Qed.

(** The separator [" -> "] matches only where a [>] stands two characters
    further on. *)
Lemma arrow_prefix (l : chars) :
  is_prefix (chars_of " -> ") l = true ->
  exists c0 c1 y, l = c0 :: c1 :: ">"%char :: y.
Proof.
  destruct l as [|c0 [|c1 [|c2 y]]]; cbn [is_prefix chars_of list_ascii_of_string].
  - discriminate.
  - rewrite andb_false_r. discriminate.
  - rewrite !andb_false_r. discriminate.
  - intros H. apply andb_true_iff in H as [_ H]. apply andb_true_iff in H as [_ H].
    apply andb_true_iff in H as [H _]. apply Ascii.eqb_eq in H. subst c2. eauto.
Qed.

Lemma no_arrow_inside (a x : chars) :
  a <> [] -> forallb (fun c => negb (Ascii.eqb c ">")) a = true ->
  is_prefix (chars_of " -> ") (a ++ " "%char :: "-"%char :: x) = false.
Proof.
  intros Hne Ha. destruct (is_prefix _ _) eqn:E; [|reflexivity].
  apply arrow_prefix in E as (c0 & c1 & y & E).
  destruct a as [|a0 [|a1 [|a2 a]]]; [contradiction | | |]; cbn [app] in E.
  - discriminate.
  - discriminate.
  - injection E as _ _ -> _. cbn [forallb] in Ha.
    rewrite Ascii.eqb_refl, !andb_false_r in Ha. discriminate.
Qed.

Lemma no_arrow_at_all (b : chars) :
  forallb (fun c => negb (Ascii.eqb c ">")) b = true ->
  is_prefix (chars_of " -> ") b = false.
Proof.
  intros Hb. destruct (is_prefix _ _) eqn:E; [|reflexivity].
  apply arrow_prefix in E as (c0 & c1 & y & ->). cbn [forallb] in Hb.
  rewrite Ascii.eqb_refl, !andb_false_r in Hb. discriminate.
Qed.

Lemma split_arrow_last (b : chars) :
  forallb (fun c => negb (Ascii.eqb c ">")) b = true ->
  forall cur, split_str_go (chars_of " -> ") 0 cur b = [rev cur ++ b].
Proof.
  induction b as [|c b IH]; intros Hb cur; cbn [split_str_go].
  - rewrite app_nil_r. reflexivity.
  - rewrite (no_arrow_at_all _ Hb). cbn [forallb] in Hb.
    apply andb_true_iff in Hb as [_ Hb]. rewrite (IH Hb). cbn [rev].
    rewrite <- app_assoc. reflexivity.
Qed.

Lemma split_arrow_first (a b : chars) :
  forallb (fun c => negb (Ascii.eqb c ">")) a = true ->
  forall cur,
    split_str_go (chars_of " -> ") 0 cur (a ++ chars_of " -> " ++ b)
    = (rev cur ++ a) :: split_str_go (chars_of " -> ") 0 [] b.
Proof.
  induction a as [|c a IH]; intros Ha cur.
  - rewrite app_nil_r. reflexivity.
  - cbn [app split_str_go].
    change (c :: a ++ chars_of " -> " ++ b)
      with ((c :: a) ++ " "%char :: "-"%char :: (">"%char :: " "%char :: b)).
    rewrite (no_arrow_inside (c :: a) _ ltac:(discriminate) Ha).
    cbn [forallb] in Ha. apply andb_true_iff in Ha as [_ Ha].
    change (a ++ " "%char :: "-"%char :: ">"%char :: " "%char :: b)
      with (a ++ chars_of " -> " ++ b).
    rewrite (IH Ha). cbn [rev]. rewrite <- app_assoc. reflexivity.
Qed.

Lemma fmt_clock_no_arrow (h m s : Z) :
  forallb (fun c => negb (Ascii.eqb c ">")) (chars_of (fmt_clock h m s)) = true.
Proof.
  rewrite chars_of_fmt_clock. apply clock_char_ok; [|reflexivity].
  intros c. destruct c as [[] [] [] [] [] [] [] []]; try reflexivity; discriminate.
Qed.

(** Parsing the sentence of a duration change gives back the new duration
    when the old one holds no [>]. *)
Lemma new_duration_of_sentence (o : string) (h m s : Z) (rest : list change) :
  forallb (fun c => negb (Ascii.eqb c ">")) (chars_of o) = true ->
  new_duration (FixedDuration o (fmt_clock h m s) :: rest) = Ok (Some (fmt_clock h m s)).
Proof.
  intros Ho. cbn [new_duration render].
  replace (Str.contains "Fixed duration format:" _) with true.
  2:{ symmetry. unfold Str.contains.
      change "Fixed duration format: "%string with ("Fixed duration format:" +:+ " ")%string.
      rewrite !append_assoc, chars_of_app. apply contains_prefix. }
  unfold Str.split_str, split_str.
  rewrite !chars_of_app, app_assoc.
  rewrite split_arrow_first.
  2:{ rewrite forallb_app, Ho. reflexivity. }
  rewrite split_arrow_last by apply fmt_clock_no_arrow.
  cbn [rev app map]. rewrite string_of_list_ascii_of_string. reflexivity.
Qed.

End WriteBackFacts.

(** X15. [main] reads the new duration back out of the change sentence
    "Fixed duration format: old -> new".  When [fix_lesson_timestamps]
    returns with a duration that normalization changed and the old text
    holds no [>], the lesson that [main] stores has the normalized duration
    and the updated list of the result. *)
Theorem changed_duration_is_written_back (kw : list string) (lesson : Lesson)
    (r : FixEnhanced.FixResult) (D : string) :
  FixEnhanced.fix_lesson_timestamps kw lesson = Ok r ->
  FixEnhanced.normalize_time (duration lesson) = Ok D ->
  D <> duration lesson ->
  forallb (fun c => negb (Ascii.eqb c ">")) (chars_of (duration lesson)) = true ->
  FixEnhanced.apply_result lesson r
  = Ok {| id := id lesson; title := title lesson; duration := D;
          content := content lesson;
          timestamps := FixEnhanced.updated_timestamps r |}.
Proof.
  intros H HD Hne Ho.
  destruct (fix_lesson_timestamps_log _ _ _ H)
    as (D' & d & normalized & c2 & kept & sorted & merged & c5 & covered & c6
        & HD' & _ & _ & _ & _ & _ & _ & _ & Hlog).
  rewrite HD in HD'. injection HD' as <-.
  destruct (String.eqb_spec (duration lesson) D) as [E | _]; [congruence|].
  destruct (normalize_time_cases _ _ HD) as [-> | (h & m & s & ->)]; [contradiction|].
  unfold FixEnhanced.apply_result. rewrite Hlog. cbn [app].
  rewrite (new_duration_of_sentence _ h m s _ Ho). reflexivity.
Qed.

Lemma changed_duration_is_written_back_witness :
  exists r,
    FixEnhanced.fix_lesson_timestamps [] (lesson_of "10:00" []) = Ok r /\
    FixEnhanced.apply_result (lesson_of "10:00" []) r
    = Ok {| id := id (lesson_of "10:00" []); title := title (lesson_of "10:00" []);
            duration := "0:10:00";
            content := content (lesson_of "10:00" []);
            timestamps := FixEnhanced.updated_timestamps r |}.
Proof.
  eexists. split; [vm_compute; reflexivity|].
  apply (changed_duration_is_written_back [] (lesson_of "10:00" [])).
  - vm_compute. reflexivity.
  - vm_compute. reflexivity.
  - vm_compute. discriminate.
  - vm_compute. reflexivity.
Defined.

Section EnhancedAuditPairs.
Import AuditEnhanced.

Lemma sorted_weaken {A : Type} (R S : A -> A -> Prop) (l : list A) :
  (forall a b, R a b -> S a b) -> Sorted R l -> Sorted S l.
Proof.
  intros HRS. rewrite <- !pairs_sorted. apply List.Forall_impl. intros [a b]. apply HRS.
Qed.

(** The order and density lists of the enhanced audit are empty exactly
    when each time is at least [MIN_SEP_S] after the one before. *)
Lemma order_and_density_lists (ts : list (Z * string)) :
  map (fun '(_, c) => snd c) (List.filter (fun '(p, c) => fst c <? fst p) (pairs ts)) = [] /\
  map (fun '(p, c) => (snd p, snd c))
      (List.filter (fun '(p, c) => fst c - fst p <? MIN_SEP_S) (pairs ts)) = [] <->
  Sorted (fun a b => a + MIN_SEP_S <= b) (map fst ts).
Proof.
  rewrite <- sorted_map, <- pairs_sorted, !map_nil_iff, !filter_nil_iff.
  unfold MIN_SEP_S. rewrite !List.Forall_forall. split.
  - intros (H1 & H2) [p c] Hin. specialize (H1 _ Hin). specialize (H2 _ Hin).
    cbn beta iota in H1, H2. cbn [fst snd]. lia.
  - intros H. split; intros [p c] Hin; specialize (H _ Hin);
      cbn [fst snd] in H; cbn beta iota; lia.
Qed.

End EnhancedAuditPairs.

Section RepairedFacts.

Lemma audit_clock_seconds (t : string) (k : Z) :
  Audit.is_h_mm_ss t = true -> FixEnhanced.time_to_seconds t = Ok k ->
  AuditEnhanced.to_seconds t = Some k.
Proof.
  unfold Audit.is_h_mm_ss. intros H Hk.
  destruct (Py.match_clock (Py.strip (chars_of t))) as [[[g m] s]|] eqn:E; [|discriminate].
  unfold AuditEnhanced.to_seconds. rewrite (enhanced_audit_reads_clock _ _ E).
  unfold FixEnhanced.time_to_seconds in Hk.
  rewrite (enhanced_fixer_reads_clock _ _ _ _ E) in Hk. cbn [mbind result_bind] in Hk.
  rewrite parse_fmt_clock in Hk. injection Hk as <-. reflexivity.
Qed.

End RepairedFacts.

(** X16. What the enhanced fixer leaves passes the order and density checks of
    the enhanced audit.  When [fix_lesson_timestamps] returns for a lesson
    of two minutes or more and every time of the updated list is a strict
    clock, the audit of a lesson holding that list reports no malformed
    time, no entry out of order and no pair of entries too close. *)
Theorem repaired_list_passes_order_and_density (kw : list string) (lesson lesson' : Lesson)
    (r : FixEnhanced.FixResult) (d : Z) :
  FixEnhanced.fix_lesson_timestamps kw lesson = Ok r ->
  FixEnhanced.time_to_seconds (duration lesson) = Ok d ->
  8 * FixEnhanced.MIN_SEPARATION_S <= d ->
  List.Forall (fun ts => Audit.is_h_mm_ss (time ts) = true) (FixEnhanced.updated_timestamps r) ->
  timestamps lesson' = FixEnhanced.updated_timestamps r ->
  format (AuditEnhanced.audit_lesson lesson') = [] /\
  non_monotonic (AuditEnhanced.audit_lesson lesson') = [] /\
  density (AuditEnhanced.audit_lesson lesson') = [].
Proof.
  intros H Hdur Hd Hclean Hl'.
  destruct (fix_lesson_timestamps_steps _ _ _ H)
    as (D & d' & normalized & c2 & kept & sorted & merged & c5 & covered & c6
        & HD & Hd' & Hn & Hk & Hs & Hm & Hc & Hu).
  rewrite (normalize_time_seconds _ _ HD), Hdur in Hd'. injection Hd' as <-.
  destruct (merge_close_separated _ _ _ Hm) as (keys0 & Hkeys0 & Hsep0).
  destruct (fill_coverage_separated _ _ _ _ _ Hd Hkeys0 Hsep0 Hc) as (keys & Hkeys & Hsep).
  assert (Hup : FixEnhanced.seconds_list (FixEnhanced.updated_timestamps r) = Ok keys).
  { rewrite Hu, seconds_list_times, rewrite_weak_times, <- seconds_list_times. exact Hkeys. }
  assert (Hparsed : Forall2 (fun ts k => AuditEnhanced.to_seconds (time ts) = Some k)
                            (timestamps lesson') keys).
  { rewrite Hl'. unfold FixEnhanced.seconds_list in Hup. apply mapM_Ok_Forall2 in Hup.
    clear - Hup Hclean. induction Hup as [|ts k l ks Hk _ IH]; [constructor|].
    inversion Hclean; subst. constructor; [|apply IH; assumption].
    apply audit_clock_seconds; assumption. }
  unfold AuditEnhanced.audit_lesson. cbn [format non_monotonic density].
  match goal with
  | |- AuditEnhanced.sc_format (AuditEnhanced.scan ?ds _) = [] /\ _ =>
      destruct (scan_parsed ds _ _ Hparsed) as (Hf & Htimes & _)
  end.
  split; [exact Hf|]. apply order_and_density_lists. rewrite Htimes.
  revert Hsep. apply sorted_weaken. unfold FixEnhanced.MIN_SEPARATION_S, AuditEnhanced.MIN_SEP_S.
  intros a b. lia.
Qed.

Lemma repaired_list_passes_order_and_density_witness :
  exists r,
    FixEnhanced.fix_lesson_timestamps [] lesson_out_of_order = Ok r /\
    forall lesson',
      timestamps lesson' = FixEnhanced.updated_timestamps r ->
      format (AuditEnhanced.audit_lesson lesson') = [] /\
      non_monotonic (AuditEnhanced.audit_lesson lesson') = [] /\
      density (AuditEnhanced.audit_lesson lesson') = [].
Proof.
  eexists. split; [vm_compute; reflexivity|].
  intros lesson'.
  apply (repaired_list_passes_order_and_density [] lesson_out_of_order lesson' _ 600).
  - vm_compute. reflexivity.
  - vm_compute. reflexivity.
  - vm_compute. discriminate.
  - repeat constructor.
Defined.

(** ** The basic fixer *)

Section BasicNormalizerFacts.

(** A text the basic normalizer turns into a clock reads as seconds. *)
Lemma basic_to_seconds_of_clock (t : string) (h m s : Z) :
  fst (Fix.normalize_time t) = Fix.fmt_clock h m s ->
  Fix.to_seconds t = Some (h * 3600 + m * 60 + s).
Proof.
  intros H. unfold Fix.to_seconds.
  destruct (Fix.normalize_time t) as [n c]. cbn [fst] in H. subst n.
  apply basic_parse_fmt_clock.
Qed.

End BasicNormalizerFacts.

(** X17. The normalizer of fix_timestamps.py settles in one step and keeps the
    seconds: normalizing a normalized text returns it with the change
    flag off, and the text reads as the same seconds before and after.  A
    text that does not read as seconds is returned as it is, with the flag
    off. *)
Theorem basic_normalize_time_settles (t : string) :
  Fix.normalize_time (fst (Fix.normalize_time t)) = (fst (Fix.normalize_time t), false) /\
  Fix.to_seconds (fst (Fix.normalize_time t)) = Fix.to_seconds t /\
  (Fix.to_seconds t = None -> Fix.normalize_time t = (t, false)).
Proof.
  split; [apply basic_normalize_time_idempotent|].
  split; [apply basic_to_seconds_normalize_time|].
  intros Hnone.
  destruct (basic_normalize_time_cases t) as [E | (h & m & s & _ & E)]; [exact E|].
  rewrite (basic_to_seconds_of_clock _ _ _ _ E) in Hnone. discriminate.
Qed.

Section DryRunFacts.
Import Fix.

Lemma flat_map_log_fst_id {A C : Type} (f : A -> A * list C) (l : list A) :
  (forall x, fst (f x) = x) -> fst (flat_map_log f l) = l.
Proof.
  intros Hf. unfold flat_map_log. cbn [fst].
  induction l as [|x l IH]; cbn [map]; [reflexivity|]. rewrite Hf, IH. reflexivity.
Qed.

Lemma normalize_entry_dry (ts : Timestamp) : fst (normalize_entry true ts) = ts.
Proof.
  unfold normalize_entry. destruct (normalize_time (time ts)) as [n [|]]; reflexivity.
Qed.

Lemma de_densify_dry (l : list Timestamp) : fst (de_densify true l) = l.
Proof.
  unfold de_densify. destruct (Nat.ltb 1 (length l)); [|reflexivity].
  destruct (dense_pairs _ _) as [to_remove log]. cbn [negb fst].
  rewrite andb_false_r. reflexivity.
Qed.

Lemma rewrite_entry_dry (context : string) (ts : Timestamp) :
  fst (rewrite_entry true context ts) = ts.
Proof. reflexivity. Qed.

Lemma process_lesson_dry (lesson : Lesson) : fst (process_lesson lesson true) = lesson.
Proof.
  unfold process_lesson.
  assert (Hd : forall X : string * bool * list (string * string),
             X = (if is_empty (duration lesson) then (duration lesson, false, [])
                  else let '(normalized_duration, changed) := normalize_time (duration lesson) in
                       if changed
                       then (duration lesson, true, [(duration lesson, normalized_duration)])
                       else (duration lesson, false, [])) ->
             fst (fst X) = duration lesson).
  { intros X ->. destruct (is_empty (duration lesson)); [reflexivity|].
    destruct (normalize_time (duration lesson)) as [n [|]]; reflexivity. }
  specialize (Hd _ eq_refl).
  match type of Hd with fst (fst ?X) = _ => destruct X as [[d1 dc] dl] end.
  cbn [fst] in Hd. subst d1.
  pose proof (flat_map_log_fst_id (normalize_entry true) (timestamps lesson)
                normalize_entry_dry) as H1.
  destruct (flat_map_log (normalize_entry true) (timestamps lesson)) as [ts1 tlog].
  cbn [fst] in H1. subst ts1.
  pose proof (de_densify_dry (timestamps lesson)) as H2.
  destruct (de_densify true (timestamps lesson)) as [ts2 removed].
  cbn [fst] in H2. subst ts2.
  pose proof (flat_map_log_fst_id
                (rewrite_entry true (Str.prefix 500 (content lesson))) (timestamps lesson)
                (rewrite_entry_dry _)) as H3.
  destruct (flat_map_log (rewrite_entry true _) (timestamps lesson)) as [ts3 rewrites].
  cbn [fst] in *. subst ts3. destruct lesson; reflexivity.
Qed.

Lemma process_week_dry (sel : option (list string)) (week : Week) :
  fst (process_week sel true week) = week.
Proof.
  unfold process_week.
  match goal with
  | |- context [flat_map_log ?f (lessons week)] =>
      pose proof (flat_map_log_fst_id f (lessons week)) as H;
      destruct (flat_map_log f (lessons week)) as [ls rs]
  end.
  cbn [fst] in *. rewrite H; [destruct week; reflexivity|].
  intros lesson. destruct (selected sel lesson); [|reflexivity].
  pose proof (process_lesson_dry lesson) as Hl.
  destruct (process_lesson lesson true) as [lesson' r]. exact Hl.
Qed.

End DryRunFacts.

(** X18. [process_lesson] of fix_timestamps.py changes its argument only under
    [if not dry_run]: with [dry_run] on, the course document after the loop
    of [main] is the document that was loaded, whatever is reported. *)
Theorem process_course_dry_run_is_identity (sel : option (list string)) (course : Course) :
  fst (Fix.process_course sel true course) = course.
Proof.
  unfold Fix.process_course. apply flat_map_log_fst_id. intros week.
  apply process_week_dry.
Qed.

Section DescriptionFacts.
Import Fix.

Ltac count_words :=
  first [left; vm_compute; reflexivity | right; vm_compute; reflexivity].

(** The texts [rewrite_description] can return have six or seven words. *)
Lemma rewrite_description_words (old_desc label context : string) :
  word_count (rewrite_description old_desc label context) = 6%nat \/
  word_count (rewrite_description old_desc label context) = 7%nat.
Proof.
  unfold rewrite_description.
  destruct (Str.contains "setup" _ || Str.contains "configure" _);
    [count_words|].
  destruct (Str.contains "implement" _ || Str.contains "build" _);
    [count_words|].
  destruct (Str.contains "test" _); [count_words|].
  destruct (Str.contains "deploy" _); [count_words|].
  cbv zeta. generalize (extract_words (Str.lower context)). intros words.
  cbn [List.filter].
  destruct (Str.mem "create" words); [count_words|].
  destruct (Str.mem "build" words); [count_words|].
  destruct (Str.mem "implement" words); [count_words|].
  destruct (Str.mem "configure" words); [count_words|].
  destruct (Str.mem "set" words); [count_words|].
  destruct (Str.mem "deploy" words); [count_words|].
  destruct (Str.mem "test" words); [count_words|].
  destruct (Str.mem "validate" words); [count_words|].
  count_words.
Qed.

End DescriptionFacts.

(** X19. A rewritten description always meets the word bounds: the text
    [rewrite_description] returns has six or seven words, between
    [DESC_WORDS_MIN] and [DESC_WORDS_MAX], so the cut to [DESC_WORDS_MAX]
    words in [process_lesson] never applies and the text is logged and
    stored whole. *)
Theorem rewritten_description_meets_word_bounds (dry_run : bool) (context : string)
    (ts : Timestamp) :
  let d := Fix.rewrite_description (description ts) (label ts) context in
  (Fix.DESC_WORDS_MIN <= Fix.word_count d <= Fix.DESC_WORDS_MAX)%nat /\
  (Fix.is_weak_description (description ts) (label ts) = true ->
   exists rw, snd (Fix.rewrite_entry dry_run context ts) = [rw] /\
              Fix.rw_desc rw = Some (description ts, d) /\
              (dry_run = false ->
               description (fst (Fix.rewrite_entry dry_run context ts)) = d)).
Proof.
  intros d.
  assert (Hw : (Fix.DESC_WORDS_MIN <= Fix.word_count d <= Fix.DESC_WORDS_MAX)%nat).
  { unfold Fix.DESC_WORDS_MIN, Fix.DESC_WORDS_MAX.
    destruct (rewrite_description_words (description ts) (label ts) context) as [E | E];
      fold d in E; rewrite E; lia. }
  split; [exact Hw|]. intros Hweak.
  unfold Fix.rewrite_entry. rewrite Hweak. fold d.
  replace (Nat.ltb Fix.DESC_WORDS_MAX (Fix.word_count d)) with false
    by (symmetry; apply Nat.ltb_ge; lia).
  destruct (Fix.is_weak_label (label ts)); cbn [snd option_map];
    (eexists; split; [reflexivity|]; split; [reflexivity|]);
    intros ->; reflexivity.
Qed.

Lemma rewritten_description_meets_word_bounds_witness :
  exists rw,
    snd (Fix.rewrite_entry false "" (entry "0:01:00" "Vector Store Setup" "Short")) = [rw] /\
    Fix.rw_desc rw
    = Some ("Short"%string, "Set up required components and configuration parameters"%string).
Proof.
  destruct (proj2 (rewritten_description_meets_word_bounds false ""
                     (entry "0:01:00" "Vector Store Setup" "Short")))
    as (rw & Hrw & Hd & _); [vm_compute; reflexivity|].
  exists rw. split; [exact Hrw|]. exact Hd.
Defined.

Section WordFacts.
Import Py.

#[local] Arguments is_alnum : simpl never.
#[local] Arguments is_upper : simpl never.
#[local] Arguments is_alpha : simpl never.
#[local] Arguments lower_char : simpl never.
#[local] Arguments upper_char : simpl never.
#[local] Arguments Ascii.eqb : simpl never.

Ltac by_char c := destruct c as [[] [] [] [] [] [] [] []]; try reflexivity; try discriminate.

Lemma lower_char_not_upper (c : ascii) : is_upper (lower_char c) = false.
Proof. by_char c. Qed.

Lemma lower_char_alnum (c : ascii) : is_alnum (lower_char c) = is_alnum c.
Proof. by_char c. Qed.

Lemma lower_char_fixed (c : ascii) :
  is_small c || Ascii.eqb c " " = true -> lower_char c = c.
Proof. by_char c. Qed.

Lemma lower_title_char (b : bool) (c : ascii) :
  lower_char (if is_alpha c then (if b then lower_char c else upper_char c) else c)
  = lower_char c.
Proof. destruct b; by_char c. Qed.

Lemma lower_title (l : chars) : forall b, lower_chars (title_go b l) = lower_chars l.
Proof.
  unfold lower_chars. induction l as [|c l IH]; intros b; cbn [title_go map]; [reflexivity|].
  rewrite lower_title_char, IH. reflexivity.
Qed.

Lemma lower_chars_fixed (l : chars) :
  forallb (fun c => is_small c || Ascii.eqb c " ") l = true -> lower_chars l = l.
Proof.
  unfold lower_chars. induction l as [|c l IH]; cbn [forallb map]; [reflexivity|].
  intros H. apply andb_true_iff in H as [Hc Hl].
  rewrite (lower_char_fixed c Hc), (IH Hl). reflexivity.
Qed.

Lemma lower_chars_not_upper (l : chars) :
  forallb (fun c => negb (is_upper c)) (lower_chars l) = true.
Proof.
  unfold lower_chars. induction l as [|c l IH]; cbn [forallb map]; [reflexivity|].
  rewrite lower_char_not_upper, IH. reflexivity.
Qed.

(** The words found in a text without capitals are not empty and made of
    digits and lower-case letters. *)
Lemma find_alnum_words_small (l : chars) :
  forallb (fun c => negb (is_upper c)) l = true ->
  forall run prev_w,
    match run with Some w => w <> [] /\ forallb is_small w = true | None => True end ->
    List.Forall (fun w => w <> [] /\ forallb is_small w = true) (find_alnum_words run prev_w l).
Proof.
  induction l as [|c l IH]; intros Hl run prev_w Hrun; cbn [find_alnum_words].
  - destruct run as [w|]; [|constructor]. constructor; [|constructor].
    destruct Hrun as [Hne Hw]. split.
    + intros E. apply Hne. apply (f_equal (@rev ascii)) in E.
      rewrite rev_involutive in E. exact E.
    + rewrite forallb_forall in *. intros x Hx. apply Hw. apply in_rev. exact Hx.
  - cbn [forallb] in Hl. apply andb_true_iff in Hl as [Hc Hl].
    destruct (is_alnum c) eqn:Ea.
    + assert (Hs : is_small c = true) by (unfold is_small; rewrite Ea, Hc; reflexivity).
      destruct run as [w|].
      * apply IH; [assumption|]. destruct Hrun as [_ Hw].
        split; [discriminate|]. cbn [forallb]. rewrite Hs, Hw. reflexivity.
      * destruct prev_w; apply IH; try assumption; try exact I.
        split; [discriminate|]. cbn [forallb]. rewrite Hs. reflexivity.
    + destruct (is_uword c); [apply IH; [assumption | exact I]|].
      destruct run as [w|]; [|apply IH; [assumption | exact I]].
      constructor; [|apply IH; [assumption | exact I]].
      destruct Hrun as [Hne Hw]. split.
      * intros E. apply Hne. apply (f_equal (@rev ascii)) in E.
        rewrite rev_involutive in E. exact E.
      * rewrite forallb_forall in *. intros x Hx. apply Hw. apply in_rev. exact Hx.
Qed.

Lemma small_alnum (c : ascii) : is_small c = true -> is_alnum c = true.
Proof. unfold is_small. intros H. apply andb_true_iff in H as [H _]. exact H. Qed.

Lemma small_not_upper (c : ascii) : is_small c = true -> negb (is_upper c) = true.
Proof. unfold is_small. intros H. apply andb_true_iff in H as [_ H]. exact H. Qed.

(** Reading on through the rest of a word. *)
Lemma find_alnum_words_run (w : chars) :
  forallb is_small w = true ->
  forall acc rest,
    find_alnum_words (Some acc) true (w ++ rest)
    = find_alnum_words (Some (rev w ++ acc)) true rest.
Proof.
  induction w as [|c w IH]; intros Hw acc rest; [reflexivity|].
  cbn [forallb] in Hw. apply andb_true_iff in Hw as [Hc Hw].
  cbn [app find_alnum_words]. rewrite (small_alnum c Hc), (IH Hw). cbn [rev].
  rewrite <- app_assoc. reflexivity.
Qed.

Lemma find_alnum_words_spaced (ws : list chars) :
  List.Forall (fun w => w <> [] /\ forallb is_small w = true) ws ->
  find_alnum_words None false (join_blank ws) = ws.
Proof.
  induction 1 as [|w ws [Hne Hw] Hws IH]; [reflexivity|].
  destruct w as [|c w]; [contradiction|].
  cbn [forallb] in Hw. apply andb_true_iff in Hw as [Hc Hw].
  destruct ws as [|w' ws'].
  - cbn [join_blank find_alnum_words]. rewrite (small_alnum c Hc).
    rewrite <- (app_nil_r w), (find_alnum_words_run w Hw). cbn [find_alnum_words].
    rewrite rev_app_distr, rev_involutive, app_nil_r. reflexivity.
  - change (join_blank ((c :: w) :: w' :: ws')) with (c :: w ++ " "%char :: join_blank (w' :: ws')).
    cbn [find_alnum_words]. rewrite (small_alnum c Hc).
    rewrite (find_alnum_words_run w Hw). cbn [find_alnum_words].
    change (is_alnum " ") with false. change (is_uword " ") with false. cbv iota.
    rewrite IH, rev_app_distr, rev_involutive. reflexivity.
Qed.

Lemma spaced_not_upper (ws : list chars) :
  List.Forall (fun w => w <> [] /\ forallb is_small w = true) ws ->
  forallb (fun c => is_small c || Ascii.eqb c " ") (join_blank ws) = true.
Proof.
  induction 1 as [|w ws [_ Hw] Hws IH]; [reflexivity|].
  assert (Hw' : forallb (fun c => is_small c || Ascii.eqb c " ") w = true)
    by (revert Hw; apply forallb_weaken; intros c ->; reflexivity).
  destruct ws as [|w' ws']; [exact Hw'|].
  change (join_blank (w :: w' :: ws')) with (w ++ " "%char :: join_blank (w' :: ws')).
  rewrite forallb_app. cbn [forallb]. rewrite Hw', IH. reflexivity.
Qed.

Lemma chars_of_join (ws : list chars) :
  chars_of (Str.join " " (map text_of ws)) = join_blank ws.
Proof.
  induction ws as [|w ws IH]; [reflexivity|].
  destruct ws as [|w' ws'].
  - apply list_ascii_of_string_of_list_ascii.
  - change (Str.join " " (map text_of (w :: w' :: ws')))
      with (text_of w +:+ " " +:+ Str.join " " (map text_of (w' :: ws')))%string.
    rewrite !chars_of_app, IH, list_ascii_of_string_of_list_ascii. reflexivity.
Qed.

(** Splitting the title-cased join of lower-case words gives the words back. *)
Lemma extract_words_title_join (ws : list chars) :
  List.Forall (fun w => w <> [] /\ forallb is_small w = true) ws ->
  Fix.extract_words (Str.title_case (Str.join " " (map text_of ws))) = map text_of ws.
Proof.
  intros H. unfold Fix.extract_words, Str.find_alnum_words, Str.lower, Str.title_case.
  rewrite !list_ascii_of_string_of_list_ascii, chars_of_join.
  unfold title_chars. rewrite lower_title.
  rewrite (lower_chars_fixed _ (spaced_not_upper ws H)).
  rewrite (find_alnum_words_spaced ws H). reflexivity.
Qed.

Lemma extract_words_small (text : string) :
  exists ws, Fix.extract_words text = map text_of ws /\
             List.Forall (fun w => w <> [] /\ forallb is_small w = true) ws.
Proof.
  unfold Fix.extract_words, Str.find_alnum_words, Str.lower.
  rewrite list_ascii_of_string_of_list_ascii.
  eexists. split; [reflexivity|].
  apply find_alnum_words_small; [apply lower_chars_not_upper | exact I].
Qed.

End WordFacts.

Section LabelRewriteFacts.
Import Fix.

Lemma firstn_Forall {A : Type} (P : A -> Prop) (n : nat) (l : list A) :
  List.Forall P l -> List.Forall P (firstn n l).
Proof.
  intros H. revert n. induction H as [|x l Hx _ IH]; intros [|n]; cbn [firstn];
    constructor; [assumption | apply IH].
Qed.

Lemma filter_Forall {A : Type} (P : A -> Prop) (f : A -> bool) (l : list A) :
  List.Forall P l -> List.Forall P (List.filter f l).
Proof. apply incl_Forall, incl_filter. Qed.

(** A label made of two to five words, one of them not generic, is not
    weak. *)
Lemma is_weak_label_words (label : string) (ws : list string) (w : string) :
  extract_words label = ws -> (2 <= length ws <= 5)%nat ->
  In w ws -> w ∉ GENERIC_LABELS ->
  is_weak_label label = false.
Proof.
  intros Hws Hlen Hin Hgen. unfold is_weak_label, word_count, is_empty.
  destruct (String.eqb_spec label "") as [-> | _].
  { subst ws. destruct Hin. }
  rewrite Hws.
  replace (Nat.ltb (length ws) LABEL_WORDS_MIN) with false
    by (symmetry; apply Nat.ltb_ge; unfold LABEL_WORDS_MIN; lia).
  replace (Nat.ltb LABEL_WORDS_MAX (length ws)) with false
    by (symmetry; apply Nat.ltb_ge; unfold LABEL_WORDS_MAX; lia).
  cbn [orb]. rewrite bool_decide_eq_false_2; [reflexivity|].
  intros Hsub. apply Hgen, Hsub. apply elem_of_list_to_set, list_elem_of_In. exact Hin.
Qed.

(** The fallback of [rewrite_label]: the first two or three technical
    terms, title-cased. *)
Lemma tech_terms_label (words : list string) :
  (exists ws, words = map text_of ws /\
              List.Forall (fun w => w <> [] /\ forallb Py.is_small w = true) ws) ->
  let tech_terms :=
    List.filter (fun w => Nat.ltb 4 (String.length w)
                          && negb (bool_decide (w ∈ GENERIC_LABELS))) words in
  (2 <= length tech_terms)%nat ->
  is_weak_label (Str.title_case (Str.join " " (firstn 3 tech_terms))) = false.
Proof.
  intros (ws & -> & Hws) tech_terms Hlen. subst tech_terms.
  rewrite filter_map_swap in *. rewrite firstn_map.
  set (f := fun a => Nat.ltb 4 (String.length (text_of a))
                     && negb (bool_decide (text_of a ∈ GENERIC_LABELS))) in *.
  rewrite length_map in Hlen.
  assert (Hsmall : List.Forall (fun w => w <> [] /\ forallb Py.is_small w = true)
                          (firstn 3 (List.filter f ws)))
    by (apply firstn_Forall, filter_Forall, Hws).
  destruct (List.filter f ws) as [|w0 rest] eqn:Ef; [cbn in Hlen; lia|].
  assert (Hw0 : f w0 = true).
  { assert (Hin : In w0 (List.filter f ws)) by (rewrite Ef; left; reflexivity).
    apply filter_In in Hin as [_ H]. exact H. }
  apply (is_weak_label_words _ (map text_of (firstn 3 (w0 :: rest))) (text_of w0)).
  - apply extract_words_title_join. exact Hsmall.
  - rewrite length_map, length_firstn. cbn [length] in *. lia.
  - apply in_map. left. reflexivity.
  - unfold f in Hw0. apply andb_true_iff in Hw0 as [_ Hg].
    apply negb_true_iff, bool_decide_eq_false in Hg. exact Hg.
Qed.

(** The label [rewrite_label] returns is not weak. *)
Lemma rewrite_label_not_weak (old_label context : string) :
  is_weak_label (rewrite_label old_label context) = false.
Proof.
  unfold rewrite_label. cbv zeta.
  pose proof (tech_terms_label (extract_words (Str.lower context))
                (extract_words_small _)) as Htech.
  cbv zeta in Htech.
  generalize dependent (extract_words (Str.lower context)). intros words Htech.
  assert (Hafter_build :
    is_weak_label
      (if Str.mem "test" words || Str.mem "testing" words then "Testing Process"
       else if Str.mem "deploy" words || Str.mem "deployment" words then "Deployment Steps"
       else if Nat.leb 2 (length (List.filter
                 (fun w => Nat.ltb 4 (String.length w)
                           && negb (bool_decide (w ∈ GENERIC_LABELS))) words))
            then Str.title_case (Str.join " " (firstn 3 (List.filter
                 (fun w => Nat.ltb 4 (String.length w)
                           && negb (bool_decide (w ∈ GENERIC_LABELS))) words)))
            else "Key Concepts")%string = false).
  { destruct (Str.mem "test" words || Str.mem "testing" words); [vm_compute; reflexivity|].
    destruct (Str.mem "deploy" words || Str.mem "deployment" words);
      [vm_compute; reflexivity|].
    destruct (Nat.leb 2 _) eqn:E; [|vm_compute; reflexivity].
    apply Htech. apply Nat.leb_le. exact E. }
  assert (Hafter_setup :
    is_weak_label
      (if existsb (fun w => Str.mem w words) ["implement"; "build"; "create"]%string then
         (if Str.mem "function" words then "Implement Function"
          else if Str.mem "class" words then "Build Class"
          else if Str.mem "pipeline" words then "Create Pipeline"
          else
            if Str.mem "test" words || Str.mem "testing" words then "Testing Process"
            else if Str.mem "deploy" words || Str.mem "deployment" words
            then "Deployment Steps"
            else if Nat.leb 2 (length (List.filter
                      (fun w => Nat.ltb 4 (String.length w)
                                && negb (bool_decide (w ∈ GENERIC_LABELS))) words))
                 then Str.title_case (Str.join " " (firstn 3 (List.filter
                      (fun w => Nat.ltb 4 (String.length w)
                                && negb (bool_decide (w ∈ GENERIC_LABELS))) words)))
                 else "Key Concepts")
       else
         if Str.mem "test" words || Str.mem "testing" words then "Testing Process"
         else if Str.mem "deploy" words || Str.mem "deployment" words
         then "Deployment Steps"
         else if Nat.leb 2 (length (List.filter
                   (fun w => Nat.ltb 4 (String.length w)
                             && negb (bool_decide (w ∈ GENERIC_LABELS))) words))
              then Str.title_case (Str.join " " (firstn 3 (List.filter
                   (fun w => Nat.ltb 4 (String.length w)
                             && negb (bool_decide (w ∈ GENERIC_LABELS))) words)))
              else "Key Concepts")%string = false).
  { destruct (existsb _ _); [|exact Hafter_build].
    destruct (Str.mem "function" words); [vm_compute; reflexivity|].
    destruct (Str.mem "class" words); [vm_compute; reflexivity|].
    destruct (Str.mem "pipeline" words); [vm_compute; reflexivity|].
    exact Hafter_build. }
  destruct (existsb _ ["configure"; "config"; "setup"; "setting"]%string);
    [|exact Hafter_setup].
  destruct (Str.mem "database" words || Str.mem "pinecone" words);
    [vm_compute; reflexivity|].
  destruct (Str.mem "api" words); [vm_compute; reflexivity|].
  destruct (Str.mem "environment" words || Str.mem "env" words);
    [vm_compute; reflexivity|].
  exact Hafter_setup.
Qed.

(** A label the fixer does not find weak passes the label check of the
    enhanced audit. *)
Lemma not_weak_passes_check (label : string) :
  is_weak_label label = false -> AuditEnhanced.check_label_quality label = true.
Proof.
  unfold AuditEnhanced.check_label_quality, is_weak_label, is_empty.
  change AuditEnhanced.word_count with word_count.
  change AuditEnhanced.extract_words with extract_words.
  change AuditEnhanced.GENERIC_LABELS with GENERIC_LABELS.
  change LABEL_WORDS_MIN with 2%nat. change LABEL_WORDS_MAX with 5%nat.
  destruct (String.eqb label ""); [discriminate|].
  destruct (Nat.ltb (word_count label) 2 || Nat.ltb 5 (word_count label));
    [discriminate|].
  destruct (bool_decide (_ ⊆ GENERIC_LABELS)); [discriminate|].
  rewrite andb_false_r. reflexivity.
Qed.

End LabelRewriteFacts.

(** X20. The label [rewrite_label] returns is never weak by the fixer's own test
    ([is_weak_label]), nor rejected by the label check of
    audit_timestamps_enhanced.py, whatever the old label and the context. *)
Theorem rewritten_label_is_not_weak (old_label context : string) :
  Fix.is_weak_label (Fix.rewrite_label old_label context) = false /\
  AuditEnhanced.check_label_quality (Fix.rewrite_label old_label context) = true.
Proof.
  split; [|apply not_weak_passes_check]; apply rewrite_label_not_weak.
Qed.

Section SecondPassFacts.
Import Fix.

(** The time needs no normalization and the label is not weak. *)
Let settled (ts : Timestamp) : Prop :=
  snd (normalize_time (time ts)) = false /\ is_weak_label (label ts) = false.

Lemma flat_map_log_fst {A B C : Type} (f : A -> B * list C) (l : list A) :
  fst (flat_map_log f l) = map (fun x => fst (f x)) l.
Proof. reflexivity. Qed.

Lemma flat_map_log_quiet {A B C : Type} (f : A -> B * list C) (l : list A) :
  List.Forall (fun x => snd (f x) = []) l -> snd (flat_map_log f l) = [].
Proof.
  unfold flat_map_log. cbn [snd]. induction 1 as [|x l Hx _ IH]; cbn [map concat];
    [reflexivity|]. rewrite Hx, IH. reflexivity.
Qed.

Lemma flat_map_log_logs {A B C : Type} (P : C -> Prop) (f : A -> B * list C) (l : list A) :
  List.Forall (fun x => List.Forall P (snd (f x))) l -> List.Forall P (snd (flat_map_log f l)).
Proof.
  unfold flat_map_log. cbn [snd]. induction 1 as [|x l Hx _ IH]; cbn [map concat];
    [constructor|]. apply List.Forall_app. split; assumption.
Qed.

Lemma normalize_entry_flag (ts : Timestamp) :
  snd (normalize_time (time (fst (normalize_entry false ts)))) = false.
Proof.
  unfold normalize_entry.
  destruct (normalize_time (time ts)) as [n [|]] eqn:E; cbn [fst time set_time].
  - replace n with (fst (normalize_time (time ts))) by (rewrite E; reflexivity).
    rewrite basic_normalize_time_idempotent. reflexivity.
  - rewrite E. reflexivity.
Qed.

Lemma normalize_entry_quiet (ts : Timestamp) :
  snd (normalize_time (time ts)) = false -> normalize_entry false ts = (ts, []).
Proof.
  unfold normalize_entry. destruct (normalize_time (time ts)) as [n c]. cbn [snd].
  intros ->. reflexivity.
Qed.

Lemma de_densify_Forall (P : Timestamp -> Prop) (dry_run : bool) (l : list Timestamp) :
  List.Forall P l -> List.Forall P (fst (de_densify dry_run l)).
Proof.
  intros H. pose proof (de_densify_sublist dry_run l) as Hsub.
  apply List.Forall_forall. intros x Hx. rewrite List.Forall_forall in H. apply H.
  apply list_elem_of_In. eapply elem_of_sublist; [|exact Hsub].
  apply list_elem_of_In. exact Hx.
Qed.

Lemma rewrite_entry_settled (context : string) (ts : Timestamp) :
  snd (normalize_time (time ts)) = false ->
  settled (fst (rewrite_entry false context ts)).
Proof.
  intros Ht. unfold rewrite_entry, settled. cbn [fst time label]. split; [exact Ht|].
  destruct (is_weak_label (label ts)) eqn:E; [|exact E].
  apply rewrite_label_not_weak.
Qed.

Lemma rewrite_entry_no_label (dry_run : bool) (context : string) (ts : Timestamp) :
  is_weak_label (label ts) = false ->
  List.Forall (fun rw => rw_label rw = None) (snd (rewrite_entry dry_run context ts)).
Proof.
  intros Hl. unfold rewrite_entry. rewrite Hl. cbn [snd].
  destruct (is_weak_description _ _); repeat constructor.
Qed.

(** After a pass with [dry_run] off, every entry is settled. *)
Lemma process_lesson_settled (lesson : Lesson) :
  List.Forall settled (timestamps (fst (process_lesson lesson false))).
Proof.
  unfold process_lesson.
  destruct (if is_empty (duration lesson) then _ else _) as [[d1 dc] dl].
  rewrite (surjective_pairing (flat_map_log (normalize_entry false) (timestamps lesson))).
  rewrite flat_map_log_fst.
  assert (H1 : List.Forall (fun ts => snd (normalize_time (time ts)) = false)
                      (map (fun x => fst (normalize_entry false x)) (timestamps lesson))).
  { apply List.Forall_map, List.Forall_forall. intros ts _. apply normalize_entry_flag. }
  apply (de_densify_Forall _ false) in H1.
  destruct (de_densify false _) as [ts2 removed]. cbn [fst] in H1.
  rewrite (surjective_pairing (flat_map_log (rewrite_entry false _) ts2)).
  cbn [fst timestamps]. rewrite flat_map_log_fst.
  apply List.Forall_map. revert H1. apply List.Forall_impl.
  intros ts. apply rewrite_entry_settled.
Qed.

Lemma process_lesson_duration_flag (lesson : Lesson) :
  is_empty (duration (fst (process_lesson lesson false))) = true \/
  snd (normalize_time (duration (fst (process_lesson lesson false)))) = false.
Proof.
  unfold process_lesson.
  destruct (is_empty (duration lesson)) eqn:Ee.
  - rewrite (surjective_pairing (flat_map_log (normalize_entry false) (timestamps lesson))).
    destruct (de_densify false _) as [ts2 removed].
    rewrite (surjective_pairing (flat_map_log (rewrite_entry false _) ts2)).
    cbn [fst duration]. left. exact Ee.
  - destruct (normalize_time (duration lesson)) as [n [|]] eqn:E;
      rewrite (surjective_pairing (flat_map_log (normalize_entry false) (timestamps lesson)));
      destruct (de_densify false _) as [ts2 removed];
      rewrite (surjective_pairing (flat_map_log (rewrite_entry false _) ts2));
      cbn [fst duration]; right.
    + replace n with (fst (normalize_time (duration lesson))) by (rewrite E; reflexivity).
      rewrite basic_normalize_time_idempotent. reflexivity.
    + rewrite E. reflexivity.
Qed.

(** A pass over a lesson whose entries are settled and whose duration needs
    no normalization logs no normalization and no new label. *)
Lemma process_lesson_of_settled (lesson : Lesson) :
  (is_empty (duration lesson) = true \/ snd (normalize_time (duration lesson)) = false) ->
  List.Forall settled (timestamps lesson) ->
  let r := snd (process_lesson lesson false) in
  duration_changed r = false /\ normalized_times r = [] /\
  List.Forall (fun rw => rw_label rw = None) (rewritten r).
Proof.
  intros Hd Hl. unfold process_lesson.
  assert (Hdur : (if is_empty (duration lesson) then (duration lesson, false, [])
                  else let '(normalized_duration, changed) := normalize_time (duration lesson) in
                       if changed
                       then (normalized_duration, true, [(duration lesson, normalized_duration)])
                       else (duration lesson, false, []))
                 = (duration lesson, false, [])).
  { destruct (is_empty (duration lesson)); [reflexivity|].
    destruct Hd as [Hd | Hd]; [discriminate|].
    destruct (normalize_time (duration lesson)) as [n c]. cbn [snd] in Hd. subst c.
    reflexivity. }
  rewrite Hdur.
  assert (Hn : flat_map_log (normalize_entry false) (timestamps lesson)
               = (timestamps lesson, [])).
  { rewrite (surjective_pairing (flat_map_log _ _)). f_equal.
    - rewrite flat_map_log_fst. rewrite <- (map_id (timestamps lesson)) at 2.
      apply map_ext_Forall. revert Hl. apply List.Forall_impl. intros ts [Ht _].
      rewrite (normalize_entry_quiet ts Ht). reflexivity.
    - apply flat_map_log_quiet. revert Hl. apply List.Forall_impl. intros ts [Ht _].
      rewrite (normalize_entry_quiet ts Ht). reflexivity. }
  rewrite Hn.
  pose proof (de_densify_Forall _ false _ Hl) as H2.
  destruct (de_densify false (timestamps lesson)) as [ts2 removed]. cbn [fst] in H2.
  rewrite (surjective_pairing (flat_map_log (rewrite_entry false _) ts2)).
  cbn [snd duration_changed normalized_times rewritten app].
  split; [reflexivity|]. split; [reflexivity|].
  apply flat_map_log_logs. revert H2. apply List.Forall_impl. intros ts [_ Hw].
  apply rewrite_entry_no_label. exact Hw.
Qed.

(** The first loop of the enhanced audit lists no label that passes its
    check. *)
Lemma scan_vague_nil (d : option Z) (l : list Timestamp) :
  List.Forall (fun ts => AuditEnhanced.check_label_quality (label ts) = true) l ->
  AuditEnhanced.sc_vague (AuditEnhanced.scan d l) = [].
Proof.
  induction 1 as [|ts l Hts _ IH]; [reflexivity|].
  cbn [AuditEnhanced.scan]. destruct (AuditEnhanced.to_seconds (time ts));
    cbn [AuditEnhanced.sc_vague]; [|exact IH].
  rewrite Hts, IH. reflexivity.
Qed.

End SecondPassFacts.

(** X21. Times and labels settle in one pass of fix_timestamps.py.  After
    [process_lesson] with [dry_run] off no entry has a weak label, and a
    second call on the lesson it left logs no normalization (of the
    duration or of a time) and proposes no new label. *)
Theorem second_pass_leaves_times_and_labels (lesson : Lesson) :
  let once := fst (Fix.process_lesson lesson false) in
  let again := snd (Fix.process_lesson once false) in
  List.Forall (fun ts => Fix.is_weak_label (label ts) = false) (timestamps once) /\
  Fix.duration_changed again = false /\
  Fix.normalized_times again = [] /\
  List.Forall (fun rw => Fix.rw_label rw = None) (Fix.rewritten again).
Proof.
  intros once again.
  pose proof (process_lesson_settled lesson) as Hs. fold once in Hs.
  split.
  - revert Hs. apply List.Forall_impl. intros ts [_ Hw]. exact Hw.
  - apply process_lesson_of_settled; [apply process_lesson_duration_flag | exact Hs].
Qed.

(** X22. The basic fixer and the enhanced audit agree on labels after a repair:
    on the lesson that [process_lesson] of fix_timestamps.py leaves, with
    [dry_run] off, audit_timestamps_enhanced.py reports no vague label. *)
Theorem basic_fixer_clears_vague_labels (lesson : Lesson) :
  vague_labels (AuditEnhanced.audit_lesson (fst (Fix.process_lesson lesson false))) = [].
Proof.
  unfold AuditEnhanced.audit_lesson. cbn [vague_labels].
  apply scan_vague_nil.
  pose proof (process_lesson_settled lesson) as Hs.
  revert Hs. apply List.Forall_impl. intros ts [_ Hw].
  apply not_weak_passes_check. exact Hw.
Qed.

Section RemovalFacts.
Import Fix.

(** [time t] stands in a logged pair. *)
Let logged (log : list (string * string)) (t : string) : Prop :=
  exists other, In (t, other) log \/ In (other, t) log.

Lemma logged_cons (p : string * string) (log : list (string * string)) (t : string) :
  logged log t -> logged (p :: log) t.
Proof. intros (o & [H | H]); exists o; [left | right]; right; exact H. Qed.

Lemma drop_indices_in (to_remove : gset nat) (l : list Timestamp) (x : Timestamp) :
  forall i0, In x l ->
  In x (drop_indices i0 to_remove l) \/
  exists j, l !! j = Some x /\ (i0 + j)%nat ∈ to_remove.
Proof.
  induction l as [|t l IH]; intros i0 Hin; [destruct Hin|].
  cbn [drop_indices]. destruct (bool_decide (i0 ∈ to_remove)) eqn:E.
  - destruct Hin as [-> | Hin].
    + right. exists 0%nat. split; [reflexivity|].
      rewrite Nat.add_0_r. apply bool_decide_eq_true in E. exact E.
    + destruct (IH (S i0) Hin) as [H | (j & Hj & Hr)]; [left; exact H|].
      right. exists (S j). split; [exact Hj|].
      replace (i0 + S j)%nat with (S i0 + j)%nat by lia. exact Hr.
  - destruct Hin as [-> | Hin]; [left; left; reflexivity|].
    destruct (IH (S i0) Hin) as [H | (j & Hj & Hr)]; [left; right; exact H|].
    right. exists (S j). split; [exact Hj|].
    replace (i0 + S j)%nat with (S i0 + j)%nat by lia. exact Hr.
Qed.

Lemma times_with_index_in (l : list Timestamp) :
  forall i0 s i ts, In (s, (i, ts)) (times_with_index i0 l) ->
  exists j, i = (i0 + j)%nat /\ l !! j = Some ts.
Proof.
  induction l as [|t l IH]; intros i0 s i ts Hin; [destruct Hin|].
  cbn [times_with_index] in Hin.
  assert (Hrest : In (s, (i, ts)) (times_with_index (S i0) l) ->
                  exists j, i = (i0 + j)%nat /\ (t :: l) !! j = Some ts).
  { intros H. destruct (IH _ _ _ _ H) as (j & -> & Hj).
    exists (S j). split; [lia | exact Hj]. }
  destruct (to_seconds (time t)); [|auto].
  destruct Hin as [[= <- <- <-] | Hin]; [|auto].
  exists 0%nat. split; [lia | reflexivity].
Qed.

(** Every index the loop marks for removal belongs to an entry of a logged
    pair. *)
Lemma dense_pairs_in (l : list (Z * (nat * Timestamp))) :
  forall to_remove i,
    i ∈ fst (dense_pairs l to_remove) ->
    i ∈ to_remove \/
    exists s ts, In (s, (i, ts)) l /\ logged (snd (dense_pairs l to_remove)) (time ts).
Proof.
  induction l as [|[prev_s [prev_idx prev_ts]] r IH]; intros to_remove i Hi;
    [left; exact Hi|].
  destruct r as [|[curr_s [curr_idx curr_ts]] r']; [left; exact Hi|].
  rewrite dense_pairs_step in *.
  destruct (negb (bool_decide (prev_idx ∈ to_remove)) && (curr_s - prev_s <? MIN_SEP_S)).
  - cbv zeta in *.
    set (removed := if Nat.ltb (String.length (description prev_ts))
                               (String.length (description curr_ts))
                    then prev_idx else curr_idx) in *.
    specialize (IH ({[removed]} ∪ to_remove) i).
    destruct (dense_pairs ((curr_s, (curr_idx, curr_ts)) :: r') ({[removed]} ∪ to_remove))
      as [rm log].
    cbn [fst snd] in *. destruct (IH Hi) as [Hin | (s & ts & Hin & Hlog)].
    + apply elem_of_union in Hin as [Hin | Hin]; [|left; exact Hin].
      apply elem_of_singleton in Hin. right. subst removed.
      destruct (Nat.ltb _ _); subst i.
      * exists prev_s, prev_ts. split; [left; reflexivity|].
        exists (time curr_ts). left. left. reflexivity.
      * exists curr_s, curr_ts. split; [right; left; reflexivity|].
        exists (time prev_ts). right. left. reflexivity.
    + right. exists s, ts. split; [right; exact Hin | apply logged_cons; exact Hlog].
  - destruct (IH to_remove i Hi) as [Hin | (s & ts & Hin & Hlog)]; [left; exact Hin|].
    right. exists s, ts. split; [right; exact Hin | exact Hlog].
Qed.

Lemma de_densify_in (l : list Timestamp) (x : Timestamp) :
  In x l ->
  In x (fst (de_densify false l)) \/ logged (snd (de_densify false l)) (time x).
Proof.
  intros Hin. unfold de_densify. destruct (Nat.ltb 1 (length l)); [|left; exact Hin].
  pose proof (dense_pairs_in (stable_sort (times_with_index 0 l)) ∅) as Hd.
  destruct (dense_pairs _ _) as [to_remove log]. cbn [fst snd negb] in *.
  rewrite andb_true_r. destruct (bool_decide (to_remove ≠ ∅)); [|left; exact Hin].
  destruct (drop_indices_in to_remove l x 0 Hin) as [H | (j & Hj & Hr)]; [left; exact H|].
  right. cbn [Nat.add] in Hr.
  destruct (Hd j Hr) as [Hempty | (s & ts & Hs & Hlog)].
  - apply not_elem_of_empty in Hempty. destruct Hempty.
  - apply (Permutation_in _ (stable_sort_perm _)) in Hs.
    apply times_with_index_in in Hs as (j' & -> & Hj').
    cbn [Nat.add] in Hj. rewrite Hj in Hj'. injection Hj' as <-. exact Hlog.
Qed.

End RemovalFacts.

(** X23. fix_timestamps.py drops no entry without a log line: for every entry of
    the lesson, after [process_lesson] with [dry_run] off either the lesson
    still has an entry at its time (normalized when the normalizer changed
    it), or that time stands in a pair of [removed_dense_pairs]. *)
Theorem removed_entries_are_logged (lesson : Lesson) (ts : Timestamp) :
  In ts (timestamps lesson) ->
  let kept := timestamps (fst (Fix.process_lesson lesson false)) in
  let log := Fix.removed_dense_pairs (snd (Fix.process_lesson lesson false)) in
  let t := time (fst (Fix.normalize_entry false ts)) in
  In t (map time kept) \/
  exists other, In (t, other) log \/ In (other, t) log.
Proof.
  intros Hin kept log t. subst kept log. unfold Fix.process_lesson.
  destruct (if Fix.is_empty (duration lesson) then _ else _) as [[d1 dc] dl].
  rewrite (surjective_pairing (Fix.flat_map_log (Fix.normalize_entry false) (timestamps lesson))).
  assert (H1 : In (fst (Fix.normalize_entry false ts))
                  (fst (Fix.flat_map_log (Fix.normalize_entry false) (timestamps lesson)))).
  { unfold Fix.flat_map_log. cbn [fst].
    apply (in_map (fun x => fst (Fix.normalize_entry false x))). exact Hin. }
  apply de_densify_in in H1.
  destruct (Fix.de_densify false _) as [ts2 removed]. cbn [fst snd] in H1.
  rewrite (surjective_pairing (Fix.flat_map_log (Fix.rewrite_entry false _) ts2)).
  cbn [fst snd timestamps Fix.removed_dense_pairs].
  destruct H1 as [H1 | H1]; [left | right; exact H1].
  unfold Fix.flat_map_log. cbn [fst]. rewrite map_map. fold t.
  change t with (time (fst (Fix.rewrite_entry false (Str.prefix 500 (content lesson))
                              (fst (Fix.normalize_entry false ts))))).
  apply (in_map (fun x => time (fst (Fix.rewrite_entry false _ x)))). exact H1.
Qed.

Lemma removed_entries_are_logged_witness :
  let kept := timestamps (fst (Fix.process_lesson lesson_dense_pair false)) in
  let log := Fix.removed_dense_pairs (snd (Fix.process_lesson lesson_dense_pair false)) in
  In "0:01:00"%string (map time kept) \/
  exists other, In ("0:01:00"%string, other) log \/ In (other, "0:01:00"%string) log.
Proof.
  apply (removed_entries_are_logged lesson_dense_pair dense_first).
  left. reflexivity.
Defined.

(** ** Runs of the two main functions *)

(** X24. A dry run of fix_timestamps.py writes nothing but its logs, and makes
    no backup copy: [main] with [dry_run] on leaves every path other than
    the two log paths holding what it held, the course file among them
    unless a log path names it. *)
Theorem dry_run_writes_only_logs (course backups : string) (sel : option (list string))
    (log nd : option string) (w : IO.World) :
  let w' := snd (Fix.main course backups sel true log nd w) in
  (forall p, log <> Some p -> nd <> Some p -> IO.fs w' !! p = IO.fs w !! p) /\
  (forall src dst, In (IO.EvCopy src dst) (IO.trace w') -> In (IO.EvCopy src dst) (IO.trace w)).
Proof.
  intros w'. subst w'.
  destruct (Fix.main course backups sel true log nd w) as [res w'] eqn:E. cbn [snd].
  unfold Fix.main, Fix.write_logs, IO.bind in E.
  destruct (load_course_cases course w) as [(c & _ & H) | [(e & H) | H]];
    rewrite H in E; clear H.
  2:{ injection E as <- <-. auto. }
  2:{ injection E as <- <-. split; [reflexivity|]. intros src dst Hin.
      cbn [IO.trace IO.emit] in Hin. apply in_app_iff in Hin as [Hin | [Hin | []]];
        [exact Hin | discriminate]. }
  cbn [IO.ret] in E. destruct (Fix.process_course sel true c) as [c' results].
  set (w1 := IO.emit (IO.EvRead course) w) in E.
  assert (Hnocopy : forall evs src dst,
            Forall (fun e => (exists d, e = IO.EvMkdir d) \/
                             exists p f, e = IO.EvWrite p f) evs ->
            In (IO.EvCopy src dst) (IO.trace w ++ IO.EvRead course :: evs) ->
            In (IO.EvCopy src dst) (IO.trace w)).
  { intros evs src dst Hevs Hin. apply in_app_iff in Hin as [Hin | [Hin | Hin]];
      [exact Hin | discriminate|].
    rewrite List.Forall_forall in Hevs.
    destruct (Hevs _ Hin) as [(d & Hd) | (p & f & Hp)]; discriminate. }
  assert (Hweak : forall path evs,
            Forall (fun e => (exists d, e = IO.EvMkdir d) \/
                             exists p f, path = Some p /\ e = IO.EvWrite p f) evs ->
            Forall (fun e => (exists d, e = IO.EvMkdir d) \/
                             exists p f, e = IO.EvWrite p f) evs).
  { intros path evs. apply List.Forall_impl. intros e [Hd | (p & f & _ & Hp)]; eauto. }
  destruct (write_log_cases log w1) as (ev1 & Ht1 & Hev1 & Hfs1 & _).
  destruct (Fix.write_log log w1) as [r1 w2]. cbn [snd] in Ht1, Hfs1.
  apply Hweak in Hev1.
  destruct r1 as [[]|e1].
  2:{ injection E as <- <-. split.
      - intros p Hl _. rewrite Hfs1 by exact Hl. reflexivity.
      - intros src dst Hin. rewrite Ht1 in Hin. subst w1. cbn [IO.trace IO.emit] in Hin.
        rewrite <- app_assoc in Hin. exact (Hnocopy _ _ _ Hev1 Hin). }
  destruct (write_log_cases nd w2) as (ev2 & Ht2 & Hev2 & Hfs2 & _).
  destruct (Fix.write_log nd w2) as [r2 w3]. cbn [snd] in Ht2, Hfs2.
  apply Hweak in Hev2.
  assert (Hall : (forall p, log <> Some p -> nd <> Some p -> IO.fs w3 !! p = IO.fs w !! p) /\
                 (forall src dst, In (IO.EvCopy src dst) (IO.trace w3) ->
                                  In (IO.EvCopy src dst) (IO.trace w))).
  { split.
    - intros p Hl Hn. rewrite Hfs2 by exact Hn. rewrite Hfs1 by exact Hl. reflexivity.
    - intros src dst Hin. rewrite Ht2, Ht1 in Hin. subst w1. cbn [IO.trace IO.emit] in Hin.
      rewrite <- !app_assoc in Hin. cbn [app] in Hin.
      apply (Hnocopy (ev1 ++ ev2)); [apply Forall_app; split; assumption | exact Hin]. }
  destruct r2 as [[]|e2]; injection E as <- <-; exact Hall.
Qed.

Lemma dry_run_writes_only_logs_witness :
  Some "logs/fix_pass.md"%string <> Some FixEnhanced.COURSE_JSON /\
  IO.fs (snd (Fix.main FixEnhanced.COURSE_JSON FixEnhanced.BACKUP_DIR None true
                (Some "logs/fix_pass.md"%string) None sample_world))
    !! FixEnhanced.COURSE_JSON
  = IO.fs sample_world !! FixEnhanced.COURSE_JSON.
Proof.
  assert (H : Some "logs/fix_pass.md"%string <> Some FixEnhanced.COURSE_JSON)
    by discriminate.
  split; [exact H|].
  apply (proj1 (dry_run_writes_only_logs FixEnhanced.COURSE_JSON FixEnhanced.BACKUP_DIR None
                  (Some "logs/fix_pass.md"%string) None sample_world));
    [exact H | discriminate].
Defined.

(** X25. A run with dry-run off never loses the document, whether it
    completes or fails at any step, a refused or broken copy or write
    included: the document that the course file held before the run is
    afterwards still in the course file or in the backup file.  For
    fix_timestamps_enhanced.py no path but the course file, the backup and
    the report has changed; for fix_timestamps.py, whose log paths are
    arguments, this holds when no log path is the backup path. *)
Theorem run_keeps_the_old_document :
  (forall (kw : Lesson -> list string) (w : IO.World),
     let w' := snd (FixEnhanced.main kw false w) in
     let bp := FixEnhanced.backup_path (IO.now w) in
     (IO.fs w' !! FixEnhanced.COURSE_JSON = IO.fs w !! FixEnhanced.COURSE_JSON \/
      IO.fs w' !! bp = IO.fs w !! FixEnhanced.COURSE_JSON) /\
     (forall p, p <> bp -> p <> FixEnhanced.COURSE_JSON ->
                p <> FixEnhanced.output_path false (IO.now w) ->
                IO.fs w' !! p = IO.fs w !! p)) /\
  (forall (course backups : string) (sel : option (list string))
          (log nd : option string) (w : IO.World),
     let w' := snd (Fix.main course backups sel false log nd w) in
     let bp := IO.path_join backups ("course_backup_" +:+ IO.now w +:+ ".json") in
     log <> Some bp -> nd <> Some bp ->
     IO.fs w' !! course = IO.fs w !! course \/ IO.fs w' !! bp = IO.fs w !! course).
Proof.
  split.
  - intros kw w w' bp.
    destruct (enhanced_main_run kw w) as (evs & _ & _ & _ & Hkeep & Hframe).
    split; assumption.
  - intros course backups sel log nd w w' bp Hl Hn.
    destruct (basic_main_run course backups sel log nd w) as (evs & _ & _ & _ & Hkeep).
    apply Hkeep; assumption.
Qed.

(** In [refused_report_world] the run fails after the course file was
    overwritten, and the backup holds the old document. *)
Lemma run_keeps_the_old_document_witness :
  fst (FixEnhanced.main no_keywords false refused_report_world) = Raise OSError /\
  IO.fs (snd (FixEnhanced.main no_keywords false refused_report_world))
    !! FixEnhanced.COURSE_JSON
  <> IO.fs refused_report_world !! FixEnhanced.COURSE_JSON /\
  (IO.fs (snd (FixEnhanced.main no_keywords false refused_report_world))
     !! FixEnhanced.COURSE_JSON
   = IO.fs refused_report_world !! FixEnhanced.COURSE_JSON \/
   IO.fs (snd (FixEnhanced.main no_keywords false refused_report_world))
     !! FixEnhanced.backup_path (IO.now refused_report_world)
   = IO.fs refused_report_world !! FixEnhanced.COURSE_JSON) /\
  (let w' := snd (Fix.main FixEnhanced.COURSE_JSON FixEnhanced.BACKUP_DIR None false
                    None None refused_report_world) in
   let bp := IO.path_join FixEnhanced.BACKUP_DIR
               ("course_backup_" +:+ IO.now refused_report_world +:+ ".json") in
   IO.fs w' !! FixEnhanced.COURSE_JSON
   = IO.fs refused_report_world !! FixEnhanced.COURSE_JSON \/
   IO.fs w' !! bp = IO.fs refused_report_world !! FixEnhanced.COURSE_JSON).
Proof.
  split; [vm_compute; reflexivity|].
  split; [vm_compute; discriminate|].
  split; [exact (proj1 (proj1 run_keeps_the_old_document no_keywords refused_report_world))|].
  apply (proj2 run_keeps_the_old_document FixEnhanced.COURSE_JSON FixEnhanced.BACKUP_DIR
           None None None refused_report_world); discriminate.
Defined.
